(* ===== verification/_CoqProject ===== *)
-Q . S2P
Prelude.v
GoBase.v
Domain.v
Rules.v
Provider.v
Decision.v
Retry.v
Store.v
Documents.v
Driver.v
Mongo.v
Indexes.v
Contract.v
MongoRefinement.v
Outbox.v
Sha256.v
Signing.v
Json.v
GoTime.v
GoFloat.v
GoDuration.v
GoNet.v
JsonParse.v
JsonCompact.v
JsonDecode.v
Redactor.v
Fingerprint.v
Notifier.v
Dispatcher.v
DispatcherRun.v
Webhook.v
HttpClient.v
Schema.v
Clients.v
Jev.v
Structured.v
Kube.v
Normalizer.v
Manager.v
Reconciler.v
System.v
Notices.v
Receiver.v
Registry.v
Providers.v
Config.v
Health.v
Lifecycle.v
Telemetry.v
Reports.v
ReportsDispatcher.v
ReportsReconciler.v
ReportsSystem.v
Wiring.v
Production.v
Main.v
Commands.v
