(* ===== verification/Prelude.v ===== *)
(** * RuleRaven: a verification development

    RuleRaven watches the resources of a Kubernetes cluster, decides with fixed
    rules and, where the rules leave it open, with the help of a language-model
    provider whether something is wrong, keeps one incident per resource in
    MongoDB, and notifies destinations by signed webhooks.  This library models
    the Go program and proves what makes it correct.

    ** How the program works, and where each part is modelled

    Informers report changed objects; [event_handler.go] turns them into keys
    and [manager.go] queues the keys for its workers.  A worker reconciles a
    key: the resolver fetches the object, the normalizer makes a snapshot
    without confidential text, the rule engine evaluates it, a provider answers
    the questions of the rubric when the rules call for it, the composer joins
    both into a decision, and one transaction stores incident, snapshot,
    evaluation and the notifications to be sent (the outbox).  Dispatcher
    workers lease notifications from the outbox and deliver them.  A sweeper
    queues open incidents of Events again, so that they can be resolved.

    - The language: [Prelude] (results, effects, integers, sorting), [GoBase]
      (strings, times), [GoTime] ([time.Parse]), [GoFloat] (exact [float64]
      arithmetic), [GoDuration] ([time.ParseDuration], [Duration.String]),
      [GoNet] ([net], [net/http], [strconv]), [Sha256], [Json], [JsonParse],
      [JsonCompact], [JsonDecode] ([encoding/json]).
    - [internal/domain]: [Domain].  [internal/rules]: [Rules].
    - [internal/provider]: [Provider] (questions, answers, validation), [Retry],
      [HttpClient], [Schema], [Registry]; the clients and adapters: [Clients],
      [Jev], [Structured], [Providers].  [internal/decision]: [Decision].
    - [internal/store]: [Store]; [internal/store/mongo]: [Documents], [Mongo],
      [Indexes].  The driver is the class [Driver] of [Driver]; what the store
      promises is stated in [Contract] as the classes [IncidentStore] and
      [OutboxStore], which [MongoRefinement] discharges and the clients use.
    - [internal/kube]: [Kube] (handler, resolver), [Fingerprint], [Redactor],
      [Normalizer], [Manager].  [internal/controller]: [Reconciler].
    - [internal/notify]: [Notifier], [Signing], [Dispatcher], [DispatcherRun],
      [Webhook]; the life of a notification as a transition system: [Outbox].
    - [internal/config]: [Config].  [internal/health]: [Health].
      [internal/telemetry]: [Telemetry].  [internal/app]: [Lifecycle], [Wiring],
      [Production].  [cmd/ruleraven]: [Main].  [cmd/smoke-webhook]: [Receiver].
      [main] of both commands: [Commands].
    - What the programs tell the metrics and the logger: [Reports] (programs that
      report), [ReportsDispatcher], [ReportsReconciler], [ReportsSystem] (the work
      queue, and all components together).  [Dispatcher], [Reconciler] and
      [Manager] leave these calls out; the versions with them are proved to do
      the same.
    - Components together: [System] (reconcilers and dispatchers over one
      database), [Notices] (reconciler to webhook), [Receiver] (to the other
      end), [Main] (the whole process).

    ** How it is modelled

    A Go struct is a record, with the prefix of its fields naming the struct; a
    string enumeration is its strings; an [int32] or [int64] is a [Z] with its
    wrap-around written out ([wrap32], [wrap64]) where it can matter; a
    [float64] is a binary64 datum of [SpecFloat]; a time is its instant in
    nanoseconds since year 1, a duration nanoseconds; a map is a [gmap], and
    where Go's iteration order can show, the order is a parameter
    ([MapRange]).  A pair of value and error is a [result]; code that calls
    out is a function on a world [W] ([eff]); a panic is [None].  Goroutines are
    step relations or interleavings of atomic steps.  Definitions have the names
    of the Go functions they translate and are executable: the witnesses
    evaluate them.

    ** What is proved

    - Never losing an alert: [system_never_loses] for every interleaving of
      reconcilers and workers; [queue_drops_nothing] for the work queue;
      [outbox_invariant], [lease_exclusive], [finished_is_final] for leases;
      [dispatch_outcome], [worker_drains] and [run_drains] for the dispatcher;
      [mongo_refines_incident_store] and [mongo_refines_outbox_store] for the
      store, under the indexes that [ready_establishes_indexes] establishes and
      [unique_indexes_match] identifies with the driver's constraints.
    - Deciding rightly: [evaluate_disposition], [evaluate_decision],
      [compose_never_downgrades], [compose_fails_closed], [compose_thresholds],
      [validateAnswers_sound], [reconcile_opens], [reconcile_outcome],
      [deletion_resolves], [canonical_exact], [observed_identity].
    - Talking to the outside: [providers_trusted], [exchange_bounded],
      [retry_total], [retry_trace], [dial_is_safe], [unsafeIP_exact],
      [deliver_delivers], [deliver_failures], [verify_exact],
      [notices_deliverable], [notification_received] (from the decision to the
      receiver's 204), [receiver_exactly_once].
    - Keeping secrets: [normalize_confidential], [normalize_sound],
      [assignment_redacted], [redactFields_hides], [log_hides_errors].
    - Starting and stopping: [production_consistent], [production_fails_outside],
      [run_releases], [app_stops_in_order], [app_shutdown_bounded],
      [readiness_exact], [marking_completes], [watches_exact],
      [duration_roundtrip] (the durations of the configuration),
      [smoke_main_serves].
    - Reporting truthfully: [metrics_exact] for the collector; [run_accounts] for
      the counters of deliveries against the outbox; [reconcile_reports] and
      [transition_labels_exact] for the reconciler; [manager_reports].
    - Where the code does not do what it means to: [recurring_outage_is_lost],
      [unsuppressed_healthy_resource_alerts], [credentials_that_leak],
      [future_timestamp_accepted], [sensitive_selector_ineffective],
      [store_metrics_dead].

    ** Bounds and fuel

    Recursion that is not structural has fuel that is proved sufficient or is a
    bound of the code itself: [Retry] takes the configured number of attempts
    and [retry_total] shows that it returns within it; a dispatcher worker takes
    a round per delivery and one more, and [worker_drains] and [run_drains] show
    that this is enough; the JSON parser takes twice the length of its text and two, of which
    it spends at most two per byte it reads, and the round trip shows that this
    is enough for everything that is printed; writing a duration takes the twenty
    digits of a [uint64] and reading it the length of its text; trimming and replacing take the
    length of their text, and every step of them consumes some of it.

    ** What is a parameter, and what is not modelled

    The MongoDB driver, client-go, the HTTP transport, name resolution, URL and
    HTTP-date parsing, MIME types, YAML, the label checks of the Kubernetes
    library, contexts, clocks and the host are parameters, with the documented
    behaviour the program relies on as laws of a class ([Driver], [IndexDriver],
    [WorkQueue], [Resources]) that an in-memory instance meets.  The chain of
    causes of an error, in which the logger looks for the end of a context, is a
    parameter of the programs that report.  Not modelled are the listening of
    the two servers, the handling of signals, and the texts of error messages,
    which nothing but a reader of the log looks at. *)
From stdpp Require Export base gmap sets list strings sorting.
From Stdlib Require Export ZArith Lia.

#[global] Open Scope string_scope.
#[global] Open Scope list_scope.
#[global] Open Scope Z_scope.

(** ** Results: Go's [(value, error)] pairs *)

(** A fallible Go call returns either a value or a non-nil error. *)
Inductive result (E A : Type) : Type :=
  | Ok (a : A)
  | Err (e : E).
Arguments Ok {E A} a.
Arguments Err {E A} e.

Definition rbind {E A B} (m : result E A) (k : A → result E B) : result E B :=
  match m with Ok a => k a | Err e => Err e end.

Declare Scope go_scope.
Delimit Scope go_scope with go.
#[global] Open Scope go_scope.

(** [x ←! m; k] is Go's [x, err := m; if err != nil { return err }; k];
    [fail_if! b with e; k] is [if b { return e }; k]. *)
Notation "x '←!' m ; k" := (rbind m (λ x, k))
  (at level 20, m at level 100, k at level 200, only parsing) : go_scope.
Notation "'fail_if!' b 'with' e ; k" := (if b then Err e else k)
  (at level 20, b at level 100, e at level 100, k at level 200, only parsing) : go_scope.

Definition is_ok {E A} (r : result E A) : bool :=
  match r with Ok _ => true | Err _ => false end.

Lemma rbind_ok {E A B} (m : result E A) (k : A → result E B) b :
  rbind m k = Ok b ↔ ∃ a, m = Ok a ∧ k a = Ok b.
Proof. destruct m; simpl; split; [eauto | by intros (? & [= ->] & ?) | done | by intros (? & ? & ?)]. Qed.

Lemma fail_if_ok {E A} (c : bool) (e : E) (m : result E A) a :
  (if c then Err e else m) = Ok a ↔ c = false ∧ m = Ok a.
Proof. destruct c; split; [done | by intros [??] | done | by intros [??]]. Qed.

Lemma fail_if_is_ok {E A} (c : bool) (e : E) (m : result E A) :
  is_ok (if c then Err e else m) = negb c && is_ok m.
Proof. by destruct c. Qed.

(** ** Effectful calls

    A Go call with an effect on the outside world [W]: it transforms the world
    and returns a value or an error. *)
Definition eff (W E A : Type) : Type := W → result E A * W.

Definition eret {W E A} (a : A) : eff W E A := λ w, (Ok a, w).
Definition efail {W E A} (e : E) : eff W E A := λ w, (Err e, w).
Definition ebind {W E A B} (m : eff W E A) (k : A → eff W E B) : eff W E B :=
  λ w, match m w with (Ok a, w') => k a w' | (Err e, w') => (Err e, w') end.
(** Translate the error of a call, Go's [fmt.Errorf("...: %w", err)]. *)
Definition ewrap {W E F A} (f : E → F) (m : eff W E A) : eff W F A :=
  λ w, match m w with (Ok a, w') => (Ok a, w') | (Err e, w') => (Err (f e), w') end.
(** A pure check in the middle of effectful code. *)
Definition elift {W E A} (r : result E A) : eff W E A := λ w, (r, w).

Notation "x '←~' m ; k" := (ebind m (λ x, k))
  (at level 20, m at level 100, k at level 200, only parsing) : go_scope.
Notation "'guard!' b 'with' e ; k" := (if b then efail e else k)
  (at level 20, b at level 100, e at level 100, k at level 200, only parsing) : go_scope.

Lemma ebind_ok {W E A B} (m : eff W E A) (k : A → eff W E B) w b w' :
  ebind m k w = (Ok b, w') ↔ ∃ a w1, m w = (Ok a, w1) ∧ k a w1 = (Ok b, w').
Proof. unfold ebind. destruct (m w) as [[a|e] w1]; naive_solver. Qed.
Lemma ewrap_ok {W E F A} (f : E → F) (m : eff W E A) w a w' :
  ewrap f m w = (Ok a, w') ↔ m w = (Ok a, w').
Proof. unfold ewrap. destruct (m w) as [[b|e] w1]; naive_solver. Qed.
Lemma guard_ok {W E A} (b : bool) (e : E) (k : eff W E A) w a w' :
  (if b then efail e else k) w = (Ok a, w') ↔ b = false ∧ k w = (Ok a, w').
Proof. destruct b; naive_solver. Qed.

(** ** Hint databases and tactics *)

Create HintDb raven discriminated.
Create Rewrite HintDb ravenb.
#[export] Hint Rewrite andb_true_iff orb_true_iff negb_true_iff negb_false_iff
  andb_false_iff orb_false_iff bool_decide_eq_true bool_decide_eq_false
  Z.ltb_lt Z.leb_le Z.ltb_ge Z.leb_gt Z.eqb_eq Z.eqb_neq Z.geb_leb Z.gtb_ltb
  Nat.eqb_eq Nat.eqb_neq String.eqb_eq String.eqb_neq : ravenb.

(** [bool_to_prop] turns the boolean guards of the code into propositions. *)
Ltac bool_to_prop := autorewrite with ravenb in *.

(** [split_match] performs one case analysis on a scrutinee of the goal or of
    a hypothesis, innermost first, and keeps the equation. *)
Ltac split_match :=
  match goal with
  | |- context [ match ?x with _ => _ end ] =>
      lazymatch x with
      | context [ match _ with _ => _ end ] => fail
      | _ => let E := fresh "E" in destruct x eqn:E
      end
  | H : context [ match ?x with _ => _ end ] |- _ =>
      lazymatch x with
      | context [ match _ with _ => _ end ] => fail
      | _ => let E := fresh "E" in destruct x eqn:E
      end
  end.

(** [go_cases] runs through all branches of the code in the context. *)
Ltac go_cases := repeat (split_match; simplify_eq/=; try done).

(** ** Fixed-width integers *)

Definition int32_min : Z := - 2 ^ 31.
Definition int32_max : Z := 2 ^ 31 - 1.
Definition int64_min : Z := - 2 ^ 63.
Definition int64_max : Z := 2 ^ 63 - 1.

Definition is_int32 (z : Z) : Prop := int32_min ≤ z ≤ int32_max.
Definition is_int64 (z : Z) : Prop := int64_min ≤ z ≤ int64_max.

(** Two's-complement wrap-around of the exact result [z]. *)
Definition wrap (w : Z) (z : Z) : Z := (z + 2 ^ (w - 1)) `mod` 2 ^ w - 2 ^ (w - 1).
Definition wrap32 (z : Z) : Z := wrap 32 z.
Definition wrap64 (z : Z) : Z := wrap 64 z.

Lemma wrap32_id z : is_int32 z → wrap32 z = z.
Proof.
  unfold is_int32, int32_min, int32_max, wrap32, wrap. intros.
  change (32 - 1) with 31. rewrite Z.mod_small; lia.
Qed.
Lemma wrap64_id z : is_int64 z → wrap64 z = z.
Proof.
  unfold is_int64, int64_min, int64_max, wrap64, wrap. intros.
  change (64 - 1) with 63. rewrite Z.mod_small; lia.
Qed.
Lemma wrap64_range z : is_int64 (wrap64 z).
Proof.
  unfold is_int64, int64_min, int64_max, wrap64, wrap.
  change (64 - 1) with 63.
  pose proof (Z.mod_pos_bound (z + 2 ^ 63) (2 ^ 64)). lia.
Qed.

(** ** [sort.Slice] and [sort.Strings]

    [sort_slice less l] is the insertion sort that [sort.Slice] runs on slices
    of at most twelve elements: each element moves left past its predecessor
    while it is [less] than it.  The prefix is kept reversed, so its head is
    the predecessor.  On longer slices the library's pdqsort may order elements
    that compare as ties differently; [sort_slice_unique] shows that nothing
    else can differ. *)
Section SortSlice.
Context {A : Type} (less : A → A → bool).

Fixpoint insert_left (x : A) (rprefix : list A) : list A :=
  match rprefix with
  | [] => [x]
  | y :: r => if less x y then y :: insert_left x r else x :: y :: r
  end.

Definition sort_slice (l : list A) : list A :=
  rev (fold_left (λ rprefix x, insert_left x rprefix) l []).

Lemma insert_left_perm x r : insert_left x r ≡ₚ x :: r.
Proof.
  induction r as [|y r IH]; simpl; [done|].
  destruct (less x y); [|done]. rewrite IH. constructor.
Qed.

Lemma fold_insert_perm l r :
  fold_left (λ rprefix x, insert_left x rprefix) l r ≡ₚ l ++ r.
Proof.
  revert r. induction l as [|x l IH]; intros r; simpl; [done|].
  rewrite IH, insert_left_perm. by rewrite Permutation_middle.
Qed.

Lemma sort_slice_perm l : sort_slice l ≡ₚ l.
Proof.
  unfold sort_slice. rewrite <- Permutation_rev, fold_insert_perm.
  by rewrite app_nil_r.
Qed.

Lemma elem_of_sort_slice x l : x ∈ sort_slice l ↔ x ∈ l.
Proof. by rewrite sort_slice_perm. Qed.

Lemma length_sort_slice l : length (sort_slice l) = length l.
Proof. by rewrite sort_slice_perm. Qed.

Lemma NoDup_sort_slice l : NoDup (sort_slice l) ↔ NoDup l.
Proof. by rewrite sort_slice_perm. Qed.

(** What the comparator must satisfy: [x ≤ y] (that is, not [less y x]) is
    transitive and [less] is asymmetric, i.e. a strict weak order. *)
Definition less_le (x y : A) : Prop := less y x = false.

Class StrictWeak : Prop := {
  sw_asym x y : less x y = true → less y x = false;
  sw_trans x y z : less_le x y → less_le y z → less_le x z
}.

#[global] Instance less_le_trans `{!StrictWeak} : Transitive less_le.
Proof. intros x y z. apply sw_trans. Qed.

Context `{!StrictWeak}.

Local Definition rsorted (r : list A) : Prop := StronglySorted (flip less_le) r.

Lemma insert_left_sorted x r : rsorted r → rsorted (insert_left x r).
Proof.
  induction 1 as [|y r Hr IH Hy]; simpl; [by repeat constructor|].
  destruct (less x y) eqn:Hxy.
  - constructor; [done|]. apply Forall_forall. intros z Hz.
    rewrite insert_left_perm in Hz. apply elem_of_cons in Hz as [->|Hz].
    + by apply sw_asym.
    + rewrite Forall_forall in Hy. by apply Hy.
  - constructor; [by constructor|]. constructor; [done|].
    eapply Forall_impl; [exact Hy|]. intros z Hz. unfold flip in *.
    by transitivity y.
Qed.

Lemma fold_insert_sorted l r :
  rsorted r → rsorted (fold_left (λ rprefix x, insert_left x rprefix) l r).
Proof. revert r. induction l; simpl; auto using insert_left_sorted. Qed.

Lemma StronglySorted_rev_flip l :
  StronglySorted (flip less_le) l → StronglySorted less_le (rev l).
Proof.
  induction 1 as [|x l Hl IH Hx]; simpl; [constructor|].
  apply StronglySorted_app_2; [|done|by repeat constructor].
  intros y z Hy Hz. apply list_elem_of_singleton in Hz as ->.
  rewrite list_elem_of_In, <- in_rev, <- list_elem_of_In in Hy.
  rewrite Forall_forall in Hx. by apply Hx.
Qed.

Lemma sort_slice_sorted l : StronglySorted less_le (sort_slice l).
Proof.
  apply StronglySorted_rev_flip, fold_insert_sorted. constructor.
Qed.

(** Any slice that meets [sort.Slice]'s contract on the same elements is the
    one computed here, as soon as ties are equal elements. *)
Lemma sort_slice_unique l l' :
  (∀ x y, x ∈ l → y ∈ l → less_le x y → less_le y x → x = y) →
  StronglySorted less_le l' → l' ≡ₚ l → l' = sort_slice l.
Proof.
  intros Hties Hs Hp.
  apply (StronglySorted_unique_strong less_le);
    [|done|apply sort_slice_sorted|by rewrite sort_slice_perm].
  intros x y Hx Hy. rewrite Hp in Hx. rewrite elem_of_sort_slice in Hy. by apply Hties.
Qed.

Lemma sort_slice_proper l l' :
  (∀ x y, x ∈ l → y ∈ l → less_le x y → less_le y x → x = y) →
  l' ≡ₚ l → sort_slice l' = sort_slice l.
Proof.
  intros Hties Hp. apply sort_slice_unique; [done|apply sort_slice_sorted|].
  by rewrite sort_slice_perm.
Qed.
End SortSlice.
Arguments StrictWeak {A} less.

(** Comparing by a key. *)
Definition less_by {A B} (f : A → B) (less : B → B → bool) (x y : A) : bool :=
  less (f x) (f y).
#[export] Instance less_by_strict_weak {A B} (f : A → B) (less : B → B → bool)
  `{!StrictWeak less} : StrictWeak (less_by f less).
Proof.
  split; unfold less_by, less_le.
  - intros x y. exact (sw_asym less (f x) (f y)).
  - intros x y z. exact (sw_trans less (f x) (f y) (f z)).
Qed.

(** Lexicographic comparison: the code's
    [if a.F != b.F { return a.F < b.F }; return rest]. *)
Definition less_then {A} (f : A → string) (rest : A → A → bool) (x y : A) : bool :=
  if negb (String.eqb (f x) (f y)) then String.ltb (f x) (f y) else rest x y.

(** Go's [==] and [!=] on strings. *)
Infix "=s?" := String.eqb (at level 70) : go_scope.
Notation "a '≠s?' b" := (negb (String.eqb a b)) (at level 70) : go_scope.

(** Go's [<] on strings is the bytewise lexicographic order. *)
Definition str_ltb (a b : string) : bool := String.ltb a b.

Lemma str_ltb_leb a b : str_ltb a b = negb (String.leb b a).
Proof.
  unfold str_ltb, String.ltb, String.leb. rewrite (String.compare_antisym b a).
  by destruct (String.compare a b).
Qed.
Lemma str_less_le a b : less_le str_ltb a b ↔ String.le a b.
Proof.
  unfold less_le, String.le. rewrite str_ltb_leb, negb_false_iff. by rewrite Is_true_true.
Qed.
Lemma str_less_antisym a b : less_le str_ltb a b → less_le str_ltb b a → a = b.
Proof. rewrite !str_less_le. apply (anti_symm String.le). Qed.
#[export] Instance str_ltb_strict_weak : StrictWeak str_ltb.
Proof.
  split.
  - intros a b. rewrite !str_ltb_leb, negb_true_iff, negb_false_iff. intros Hba.
    destruct (String.leb_total a b) as [|]; congruence.
  - intros a b c. rewrite !str_less_le. apply (transitivity (R := String.le)).
Qed.

(** [sort.Strings]. *)
Definition sort_strings (l : list string) : list string := sort_slice str_ltb l.

Lemma sort_strings_sorted l : StronglySorted String.le (sort_strings l).
Proof.
  generalize (sort_slice_sorted str_ltb l). unfold sort_strings.
  induction 1 as [|x l' ? IH Hx]; constructor; [done|].
  eapply Forall_impl; [exact Hx|]. intros y. by rewrite str_less_le.
Qed.
Lemma sort_strings_unique l l' :
  StronglySorted String.le l' → l' ≡ₚ l → l' = sort_strings l.
Proof.
  intros Hs Hp. apply (StronglySorted_unique String.le);
    [done|apply sort_strings_sorted|]. by rewrite Hp, (sort_slice_perm str_ltb).
Qed.
#[export] Instance sort_strings_proper : Proper ((≡ₚ) ==> (=)) sort_strings.
Proof.
  intros l l' Hp. apply sort_strings_unique; [apply sort_strings_sorted|].
  by rewrite (sort_slice_perm str_ltb).
Qed.
Lemma elem_of_sort_strings x l : x ∈ sort_strings l ↔ x ∈ l.
Proof. apply elem_of_sort_slice. Qed.

Lemma sort_slice_map_key {A} (f : A → string) (l : list A) :
  map f (sort_slice (less_by f str_ltb) l) = sort_strings (map f l).
Proof.
  apply sort_strings_unique.
  - generalize (sort_slice_sorted (less_by f str_ltb) l).
    induction 1 as [|x l' ? IH Hx]; simpl; constructor; [done|].
    apply Forall_fmap. eapply Forall_impl; [exact Hx|]. intros y. apply str_less_le.
  - by rewrite (sort_slice_perm (less_by f str_ltb)).
Qed.

#[export] Instance less_then_strict_weak {A} (f : A → string) (rest : A → A → bool)
  `{!StrictWeak rest} : StrictWeak (less_then f rest).
Proof.
  assert (Heq : ∀ x y, String.eqb x y = false → String.ltb x y = false → String.ltb y x = true).
  { intros x y Hne Hlt. change (String.ltb x y) with (str_ltb x y) in Hlt.
    change (String.ltb y x) with (str_ltb y x). apply not_false_is_true. intros Hyx.
    apply String.eqb_neq in Hne. by eapply Hne, str_less_antisym. }
  split; unfold less_then, less_le.
  - intros x y. rewrite (String.eqb_sym (f y)). destruct (String.eqb (f x) (f y)); simpl.
    + exact (sw_asym rest x y).
    + exact (sw_asym str_ltb (f x) (f y)).
  - intros x y z.
    destruct (String.eqb_spec (f y) (f x)) as [Exy|Nxy],
             (String.eqb_spec (f z) (f y)) as [Eyz|Nyz]; simpl.
    + rewrite (proj2 (String.eqb_eq (f z) (f x))) by congruence. simpl.
      exact (sw_trans rest x y z).
    + intros _ Hzy. rewrite <- Exy. by rewrite (proj2 (String.eqb_neq _ _) Nyz).
    + intros Hyx _. rewrite Eyz. by rewrite (proj2 (String.eqb_neq _ _) Nxy).
    + intros Hyx Hzy.
      assert (Hzx : String.ltb (f z) (f x) = false).
      { exact (sw_trans str_ltb (f x) (f y) (f z) Hyx Hzy). }
      destruct (String.eqb_spec (f z) (f x)) as [Ezx|Nzx]; simpl; [|done].
      exfalso. apply Nxy. apply str_less_antisym; [|exact Hyx].
      unfold less_le, str_ltb. rewrite <- Ezx. exact Hzy.
Qed.

(** Ties of [less_then] agree on the first key and tie on the rest. *)
Lemma less_then_ties {A} (f : A → string) (rest : A → A → bool) x y :
  less_le (less_then f rest) x y → less_le (less_then f rest) y x →
  f x = f y ∧ less_le rest x y ∧ less_le rest y x.
Proof.
  unfold less_le, less_then. rewrite (String.eqb_sym (f y)).
  destruct (String.eqb_spec (f x) (f y)) as [E|N]; simpl; [done|].
  intros Hyx Hxy. exfalso. by apply N, str_less_antisym.
Qed.
