(* ===== verification/GoBase.v ===== *)
(** * The Go standard library as the sources use it: strings and time

    Strings are byte sequences ([string] of 8-bit [ascii]).  The functions of
    package [strings] that consult Unicode tables are translated for the uses
    the sources make of them: [TrimSpace] strips every UTF-8 encoded white
    space of [unicode.IsSpace]; [EqualFold] compares with an ASCII literal;
    [ToLower] feeds comparisons with ASCII literals only, so the letters
    outside ASCII that matter are exactly those whose lower case is ASCII
    (U+0130 and U+212A), and every other byte is kept.

    A [time.Time] is the number of nanoseconds since Go's zero time
    (January 1 of year 1, UTC); a [time.Duration] is an int64 of nanoseconds. *)
From S2P Require Import Prelude.
From Stdlib Require Export Ascii.
#[global] Open Scope list_scope.
#[global] Open Scope Z_scope.

(** ** Bytes *)

Definition bytes (l : list N) : string :=
  foldr (λ b s, String (ascii_of_N b) s) "" l.

Definition byte_is (c : ascii) (b : N) : bool := (N_of_ascii c =? b)%N.

(** ** Package [strings] *)

Fixpoint str_drop (n : nat) (s : string) : string :=
  match n, s with
  | S n, String _ r => str_drop n r
  | _, _ => s
  end.

(** The UTF-8 encodings of the runes [unicode.IsSpace] accepts. *)
Definition space_runes : list string :=
  map bytes ([[9]; [10]; [11]; [12]; [13]; [32]; [0xC2; 0x85]; [0xC2; 0xA0];
   [0xE1; 0x9A; 0x80]; [0xE2; 0x80; 0x80]; [0xE2; 0x80; 0x81]; [0xE2; 0x80; 0x82];
   [0xE2; 0x80; 0x83]; [0xE2; 0x80; 0x84]; [0xE2; 0x80; 0x85]; [0xE2; 0x80; 0x86];
   [0xE2; 0x80; 0x87]; [0xE2; 0x80; 0x88]; [0xE2; 0x80; 0x89]; [0xE2; 0x80; 0x8A];
   [0xE2; 0x80; 0xA8]; [0xE2; 0x80; 0xA9]; [0xE2; 0x80; 0xAF]; [0xE2; 0x81; 0x9F];
   [0xE3; 0x80; 0x80]])%N.

Fixpoint strip_one (ps : list string) (s : string) : option string :=
  match ps with
  | [] => None
  | p :: ps => if String.prefix p s then Some (str_drop (String.length p) s) else strip_one ps s
  end.

(** Every stripped rune is non-empty, so [String.length s] steps suffice. *)
Fixpoint strip_all (fuel : nat) (ps : list string) (s : string) : string :=
  match fuel with
  | O => s
  | S fuel => match strip_one ps s with Some r => strip_all fuel ps r | None => s end
  end.

Definition trim_left (s : string) : string := strip_all (String.length s) space_runes s.
Definition trim_right (s : string) : string :=
  String.rev (strip_all (String.length s) (map String.rev space_runes) (String.rev s)).

(** [strings.TrimSpace]. *)
Definition trim_space (s : string) : string := trim_right (trim_left s).

(** The test [strings.TrimSpace(s) == ""]. *)
Definition blank (s : string) : bool := trim_space s =s? "".

Definition lower_byte (c : ascii) : ascii :=
  let n := N_of_ascii c in
  if ((65 <=? n) && (n <=? 90))%N then ascii_of_N (n + 32) else c.

(** [strings.ToLower], for comparison with ASCII text. *)
Fixpoint to_lower (s : string) : string :=
  match s with
  | EmptyString => ""
  | String a r =>
      if byte_is a 0xC4 then
        match r with
        | String b r' => if byte_is b 0xB0 then String "i"%char (to_lower r') else String a (to_lower r)
        | EmptyString => s
        end
      else if byte_is a 0xE2 then
        match r with
        | String b (String c r') =>
            if byte_is b 0x84 && byte_is c 0xAA then String "k"%char (to_lower r')
            else String a (to_lower r)
        | _ => String a (to_lower r)
        end
      else String (lower_byte a) (to_lower r)
  end.

(** [strings.EqualFold(s, t)] for an ASCII [t]: besides ASCII case, U+017F
    folds to [s] and U+212A folds to [k]. *)
Fixpoint equal_fold (s t : string) : bool :=
  match t, s with
  | EmptyString, EmptyString => true
  | EmptyString, _ => false
  | String _ _, EmptyString => false
  | String c t', String a r =>
      if bool_decide (lower_byte a = lower_byte c) then equal_fold r t'
      else match r with
           | String b r' =>
               if bool_decide (lower_byte c = "s"%char) && byte_is a 0xC5 && byte_is b 0xBF
               then equal_fold r' t'
               else match r' with
                    | String d r'' =>
                        if bool_decide (lower_byte c = "k"%char)
                           && byte_is a 0xE2 && byte_is b 0x84 && byte_is d 0xAA
                        then equal_fold r'' t' else false
                    | EmptyString => false
                    end
           | EmptyString => false
           end
  end.

(** [strings.Cut(s, sep)] for a one-byte separator: before, after, found. *)
Fixpoint cut (sep : ascii) (s : string) : string * string * bool :=
  match s with
  | EmptyString => ("", "", false)
  | String c r =>
      if bool_decide (c = sep) then ("", r, true)
      else let '(b, a, f) := cut sep r in (String c b, a, f)
  end.

(** [strings.Contains]. *)
Fixpoint contains (s needle : string) : bool :=
  String.prefix needle s
  || match s with EmptyString => false | String _ r => contains r needle end.

(** [strings.HasPrefix(s, p)]. *)
Definition has_prefix (s p : string) : bool := String.prefix p s.

(** [len(s)]. *)
Definition len (s : string) : Z := Z.of_nat (String.length s).

(** The separator ["\x00"]. *)
Definition nul : string := bytes [0%N].

(** ** Package [time] *)

Abbreviation time := Z (only parsing).
Abbreviation duration := Z (only parsing).

Definition zero_time : time := 0.
Definition is_zero (t : time) : bool := t =? 0.

Definition millisecond : duration := 10 ^ 6.
Definition second : duration := 10 ^ 9.

(** [t.Add(d)], [t.Sub(u)] (which saturates), [t.Before(u)], [t.After(u)]. *)
Definition time_add (t : time) (d : duration) : time := t + d.
Definition time_sub (t u : time) : duration := Z.max int64_min (Z.min int64_max (t - u)).
Definition before (t u : time) : bool := t <? u.
Definition after (t u : time) : bool := u <? t.

(** [t.Unix()]: whole seconds since January 1, 1970. *)
Definition unix_epoch : time := 62135596800 * 10 ^ 9.
Definition unix (t : time) : Z := (t - unix_epoch) `div` 10 ^ 9.

(** Saturation does not disturb a comparison with a duration. *)
Lemma time_sub_lt t u d :
  int64_min < d ≤ int64_max → (time_sub t u <? d) = (t - u <? d).
Proof. unfold time_sub, int64_min, int64_max. intros. apply eq_true_iff_eq. rewrite !Z.ltb_lt. lia. Qed.

(** ** Facts about the string functions *)

Lemma cut_found sep s b a :
  cut sep s = (b, a, true) → s = b +:+ String sep a.
Proof.
  revert b a. induction s as [|c s IH]; intros b a; simpl; [done|].
  case_bool_decide; [naive_solver|].
  destruct (cut sep s) as [[b' a'] f] eqn:E; intros [= <- <- ->]. simpl.
  by rewrite (IH b' a').
Qed.
Lemma cut_not_found sep s b a : cut sep s = (b, a, false) → b = s ∧ a = "".
Proof.
  revert b a. induction s as [|c s IH]; intros b a; simpl; [naive_solver|].
  case_bool_decide; [done|].
  destruct (cut sep s) as [[b' a'] f]; intros [= <- <- ->].
  by destruct (IH b' a' eq_refl) as [-> ->].
Qed.

Lemma equal_fold_refl_lower s : equal_fold s s = true.
Proof. induction s; simpl; [done|]. by rewrite bool_decide_eq_true_2. Qed.

(** *** Concatenation and reversal *)

Lemma str_app_assoc (a b c : string) : (a +:+ b) +:+ c = a +:+ b +:+ c.
Proof.
  induction a as [|x a IH]; [done|].
  change (String x ((a +:+ b) +:+ c) = String x (a +:+ b +:+ c)). by rewrite IH.
Qed.

Lemma str_length_app (s t : string) : String.length (s +:+ t) = (String.length s + String.length t)%nat.
Proof.
  induction s as [|c s IH]; [done|].
  change (S (String.length (s +:+ t)) = S (String.length s) + String.length t)%nat. lia.
Qed.

Lemma str_app_nil (s : string) : s +:+ "" = s.
Proof. induction s as [|c s IH]; [done|]. change (String c (s +:+ "") = String c s). by rewrite IH. Qed.

Lemma rev_app_app s t : String.rev_app s t = String.rev s +:+ t.
Proof.
  unfold String.rev. revert t. induction s as [|c s IH]; intros t; [done|]. cbn [String.rev_app].
  rewrite IH, (IH (String c "")), str_app_assoc. done.
Qed.
Lemma rev_append s t : String.rev (s +:+ t) = String.rev t +:+ String.rev s.
Proof.
  induction s as [|c s IH]; [symmetry; apply str_app_nil|].
  change (String.rev_app (s +:+ t) (String c "") = String.rev t +:+ String.rev_app s (String c "")).
  by rewrite !rev_app_app, IH, str_app_assoc.
Qed.
Lemma rev_involutive s : String.rev (String.rev s) = s.
Proof.
  induction s as [|c s IH]; [done|]. change (String.rev (String c s)) with (String.rev_app s (String c "")).
  by rewrite rev_app_app, rev_append, IH.
Qed.
Lemma length_rev s : String.length (String.rev s) = String.length s.
Proof.
  assert (Hr : ∀ s t, String.length (String.rev_app s t) = (String.length s + String.length t)%nat).
  { intros u. induction u as [|c u IH]; intros t; cbn [String.rev_app]; [done|]. rewrite IH. simpl. lia. }
  unfold String.rev. rewrite Hr. simpl. lia.
Qed.
Lemma prefix_spec p s : String.prefix p s = true ↔ ∃ r, s = p +:+ r.
Proof.
  revert s. induction p as [|c p IH]; intros s.
  - split; [by exists s|by destruct s].
  - destruct s as [|d s]; cbn; [split; [done|by intros [? ?]]|].
    destruct (ascii_dec c d) as [->|Hn].
    + rewrite IH. split; intros [r Hr]; exists r; [by subst|]. by injection Hr.
    + split; [done|]. intros [r [= ? _]]. by subst.
Qed.

(** *** Trimming *)

Lemma strip_one_none ps s : strip_one ps s = None ↔ ∀ p, p ∈ ps → String.prefix p s = false.
Proof.
  induction ps as [|p ps IH]; cbn [strip_one].
  - split; [by intros _ p ?%elem_of_nil|done].
  - destruct (String.prefix p s) eqn:Hp.
    + split; [done|]. intros Hall. specialize (Hall p ltac:(left)). congruence.
    + rewrite IH. split; [intros Hall q [->|Hq]%elem_of_cons; auto|intros Hall q Hq; apply Hall; by right].
Qed.
Lemma strip_one_some ps s r : strip_one ps s = Some r → ∃ p, p ∈ ps ∧ s = p +:+ r.
Proof.
  induction ps as [|p ps IH]; cbn [strip_one]; [done|]. destruct (String.prefix p s) eqn:Hp.
  - apply prefix_spec in Hp as [t ->]. intros [= <-]. exists p. split; [left|]. f_equal.
    clear. induction p as [|c p IH]; [by destruct t|]. exact IH.
  - intros (q & Hq & ->)%IH. exists q. split; [by right|done].
Qed.
Lemma strip_all_done ps fuel s :
  (∀ p, p ∈ ps → p ≠ "") → (String.length s ≤ fuel)%nat →
  strip_one ps (strip_all fuel ps s) = None ∧ ∃ t, s = t +:+ strip_all fuel ps s.
Proof.
  intros Hne. revert s. induction fuel as [|fuel IH]; intros s Hl; cbn [strip_all].
  - destruct s; [|simpl in Hl; lia]. split; [|by exists ""]. apply strip_one_none.
    intros p Hp. specialize (Hne p Hp). by destruct p.
  - destruct (strip_one ps s) as [r|] eqn:Hs; [|split; [done|by exists ""]].
    apply strip_one_some in Hs as (p & Hp & ->). specialize (Hne p Hp). rewrite str_length_app in Hl.
    destruct (IH r) as [H1 [t Ht]]; [destruct p; [done|simpl in Hl; lia]|].
    split; [done|]. exists (p +:+ t). by rewrite str_app_assoc, <- Ht.
Qed.
Lemma space_runes_nonempty p : p ∈ space_runes ++ map String.rev space_runes → p ≠ "".
Proof. intros Hp ->. revert Hp. apply (bool_decide_unpack _). by vm_compute. Qed.

Lemma strip_all_none ps fuel s : strip_one ps s = None → strip_all fuel ps s = s.
Proof. destruct fuel; cbn [strip_all]; [done|]. by intros ->. Qed.

(** Trimmed text has no white space at its ends, so it is blank only if it is
    empty. *)
Lemma trim_space_idemp s : trim_space (trim_space s) = trim_space s.
Proof.
  set (u := trim_left s). set (t := trim_right u). change (trim_space s) with t.
  assert (Hu : strip_one space_runes u = None).
  { apply strip_all_done; [|done]. intros p Hp. apply space_runes_nonempty, elem_of_app. by left. }
  pose proof (strip_all_done (map String.rev space_runes) (String.length u) (String.rev u)) as Hr.
  pose proof (length_rev u) as Hlen.
  ospecialize* Hr; [intros p Hp; apply space_runes_nonempty, elem_of_app; by right|lia|].
  fold (trim_right u) in Hr. destruct Hr as [Hr [v Hv]].
  assert (Ht : String.rev t = strip_all (String.length u) (map String.rev space_runes) (String.rev u))
    by (unfold t, trim_right; by rewrite rev_involutive).
  assert (Htu : u = t +:+ String.rev v).
  { rewrite <- (rev_involutive u), Hv, rev_append, <- Ht, rev_involutive. done. }
  assert (Hl : trim_left t = t).
  { apply strip_all_none, strip_one_none. intros p Hp. apply not_true_iff_false. intros [r Hpr]%prefix_spec.
    rewrite strip_one_none in Hu. specialize (Hu p Hp). apply not_true_iff_false in Hu. apply Hu, prefix_spec.
    exists (r +:+ String.rev v). by rewrite Htu, Hpr, str_app_assoc. }
  unfold trim_space at 1. rewrite Hl. unfold trim_right. rewrite strip_all_none; [apply rev_involutive|].
  by rewrite Ht.
Qed.
Lemma blank_trimmed s : trim_space s ≠ "" → blank (trim_space s) = false.
Proof. intros Hs. unfold blank. rewrite trim_space_idemp. by apply String.eqb_neq. Qed.

(** Text that starts with a visible ASCII byte is not blank. *)
Lemma strip_all_empty ps fuel s : strip_all fuel ps s = "" → s = "" ∨ ∃ p q, p ∈ ps ∧ s = q +:+ p.
Proof.
  revert s. induction fuel as [|fuel IH]; intros s; cbn [strip_all]; [by left|].
  destruct (strip_one ps s) as [r|] eqn:Hs; [|by left].
  apply strip_one_some in Hs as (p & Hp & ->). intros [->|(p' & q & Hp' & ->)]%IH; right.
  - exists p, "". by rewrite str_app_nil.
  - exists p', (p +:+ q). by rewrite str_app_assoc.
Qed.
Lemma visible_not_blank c s : (33 ≤ N_of_ascii c < 127)%N → blank (String c s) = false.
Proof.
  intros Hc. apply String.eqb_neq. unfold trim_space.
  assert (Hrune : ∀ p, p ∈ space_runes → match p with String d _ => d ≠ c | EmptyString => False end).
  { assert (Hall : forallb (λ p, match p with String d _ => negb ((33 <=? N_of_ascii d) && (N_of_ascii d <? 127))%N
      | EmptyString => false end) space_runes = true) by (by vm_compute).
    rewrite forallb_forall in Hall. intros p Hp. specialize (Hall p (proj1 (list_elem_of_In _ _) Hp)).
    destruct p as [|d p]; [done|]. intros ->. apply negb_true_iff, andb_false_iff in Hall.
    rewrite N.leb_gt, N.ltb_ge in Hall. lia. }
  assert (Hl : trim_left (String c s) = String c s).
  { apply strip_all_none, strip_one_none. intros p Hp. specialize (Hrune p Hp). destruct p as [|d p]; [done|].
    cbn. by destruct (ascii_dec d c). }
  rewrite Hl. unfold trim_right. intros Hr.
  assert (He : strip_all (String.length (String c s)) (map String.rev space_runes) (String.rev (String c s)) = "").
  { rewrite <- (rev_involutive (strip_all _ _ _)), Hr. done. }
  apply strip_all_empty in He as [He|(p & q & Hp & He)].
  - apply (f_equal String.length) in He. by rewrite length_rev in He.
  - apply list_elem_of_fmap in Hp as (u & -> & Hu). specialize (Hrune u Hu).
    apply (f_equal String.rev) in He. rewrite rev_involutive, rev_append, rev_involutive in He.
    destruct u as [|d u]; [done|]. by injection He as -> _.
Qed.

(** *** A separator that does not occur in the first part *)

Fixpoint has_char (sep : ascii) (s : string) : bool :=
  match s with
  | EmptyString => false
  | String c r => bool_decide (c = sep) || has_char sep r
  end.

Lemma sep_split sep a b a' b' :
  has_char sep a = false → has_char sep a' = false →
  a +:+ String sep b = a' +:+ String sep b' → a = a' ∧ b = b'.
Proof.
  revert a'. induction a as [|c a IH]; intros [|c' a']; simpl; rewrite ?orb_false_iff.
  - intros _ _ [= Heq]. by split.
  - intros _ [Hc _] [= <- _]. by apply bool_decide_eq_false in Hc.
  - intros [Hc _] _ [= -> _]. by apply bool_decide_eq_false in Hc.
  - intros [_ Ha] [_ Ha'] [= -> Heq]. destruct (IH a' Ha Ha' Heq) as [-> ->]. done.
Qed.

(** *** ASCII case folding *)

Fixpoint map_lower (s : string) : string :=
  match s with EmptyString => "" | String c r => String (lower_byte c) (map_lower r) end.

(** No letter of [t] has a case variant outside ASCII. *)
Fixpoint no_fold (t : string) : bool :=
  match t with
  | EmptyString => true
  | String c r => negb (bool_decide (lower_byte c = "s"%char))
                  && negb (bool_decide (lower_byte c = "k"%char)) && no_fold r
  end.

Fixpoint ascii_only (s : string) : bool :=
  match s with EmptyString => true | String c r => (N_of_ascii c <? 128)%N && ascii_only r end.

Lemma equal_fold_plain s t :
  no_fold t = true → equal_fold s t = (map_lower s =s? map_lower t).
Proof.
  intros Hn. apply eq_true_iff_eq. rewrite String.eqb_eq. revert s Hn.
  induction t as [|c t IH]; intros [|a r]; simpl; try done.
  rewrite !andb_true_iff, !negb_true_iff. intros [[Hs Hk] Hn]. rewrite Hs, Hk. clear Hs Hk.
  simpl. case_bool_decide as Ha.
  - rewrite IH by done. rewrite Ha. split; [by intros -> | by intros [= ->]].
  - split; [by destruct r as [|? []] | by intros [= ? ?]].
Qed.

Lemma lower_byte_ascii c : (N_of_ascii (lower_byte c) <? 128)%N = (N_of_ascii c <? 128)%N.
Proof. by destruct c as [[] [] [] [] [] [] [] []]. Qed.

Lemma to_lower_plain s t :
  map_lower s = t → ascii_only t = true → to_lower s = t.
Proof.
  revert t. induction s as [|c s IH]; intros t <-; cbn; [done|].
  rewrite andb_true_iff, lower_byte_ascii. intros [Hc Hs].
  assert (Hb : ∀ b, (128 <=? b)%N = true → byte_is c b = false).
  { intros b Hb. unfold byte_is. apply N.eqb_neq.
    apply N.leb_le in Hb. apply N.ltb_lt in Hc. intros Heq.
    rewrite Heq in Hc. by apply N.lt_nge in Hc. }
  rewrite !Hb by done. by rewrite (IH (map_lower s)).
Qed.

Example trim_space_ex : trim_space (bytes [32; 0xC2; 0xA0]%N +:+ "a b" +:+ bytes [0xE3; 0x80; 0x80; 9]%N) = "a b".
Proof. reflexivity. Qed.
Example equal_fold_ex :
  equal_fold "pOD" "Pod" = true ∧ equal_fold "Pods" "Pod" = false ∧
  equal_fold (bytes [0xC5; 0xBF]%N +:+ "ecret") "Secret" = true.
Proof. vm_compute. auto. Qed.
