(* ===== verification/Domain.v ===== *)
(** * Package [internal/domain]: the data the components exchange

    Go's string-based enumerations ([Severity], [Action], [IncidentStatus],
    [NotificationStatus]) stay strings, because the code compares them as
    strings and their zero value is the empty string.  Pointers are options,
    slices are lists, [map[string]string] is a [gmap]. *)
From S2P Require Import Prelude GoBase.

(** ** [source.go] *)

Record OwnerReference := {
  owner_APIVersion : string; owner_Kind : string; owner_Name : string; owner_UID : string
}.

Record Source := {
  src_ClusterID : string; src_APIVersion : string; src_Kind : string;
  src_Namespace : string; src_Name : string; src_UID : string;
  src_ResourceVersion : string; src_Generation : Z; src_Owner : option OwnerReference
}.

(** ** [snapshot.go] *)

Record Condition := {
  cond_Type : string; cond_Status : string; cond_Reason : string;
  cond_Message : string; cond_LastTransitionTime : time
}.

Record ContainerState := {
  ct_Name : string; ct_Ready : bool; ct_RestartCount : Z; ct_State : string;
  ct_Reason : string; ct_ExitCode : Z
}.

Record WorkloadState := {
  wl_Desired : Z; wl_Current : Z; wl_Ready : Z; wl_Available : Z;
  wl_Updated : Z; wl_Unavailable : Z
}.

Record JobState := { job_Active : Z; job_Succeeded : Z; job_Failed : Z; job_BackoffLimit : Z }.

Record EventState := {
  ev_Type : string; ev_Reason : string; ev_Message : string; ev_RegardingUID : string;
  ev_Count : Z; ev_LastObserved : time
}.

Record Snapshot := {
  sn_Source : Source; sn_ObservedAt : time; sn_Labels : gmap string string;
  sn_Conditions : list Condition; sn_Containers : list ContainerState;
  sn_Workload : option WorkloadState; sn_Job : option JobState;
  sn_Event : option EventState; sn_ContentHash : string
}.

(** The field updates the callers perform on a snapshot. *)
Definition sn_set_ContentHash (h : string) (s : Snapshot) : Snapshot :=
  {| sn_Source := sn_Source s; sn_ObservedAt := sn_ObservedAt s; sn_Labels := sn_Labels s;
     sn_Conditions := sn_Conditions s; sn_Containers := sn_Containers s;
     sn_Workload := sn_Workload s; sn_Job := sn_Job s; sn_Event := sn_Event s;
     sn_ContentHash := h |}.
Definition sn_set_Conditions (c : list Condition) (s : Snapshot) : Snapshot :=
  {| sn_Source := sn_Source s; sn_ObservedAt := sn_ObservedAt s; sn_Labels := sn_Labels s;
     sn_Conditions := c; sn_Containers := sn_Containers s;
     sn_Workload := sn_Workload s; sn_Job := sn_Job s; sn_Event := sn_Event s;
     sn_ContentHash := sn_ContentHash s |}.

(** ** [decision.go] *)

Abbreviation Severity := string (only parsing).
Abbreviation Action := string (only parsing).

Definition SeverityInfo : Severity := "info".
Definition SeverityWarning : Severity := "warning".
Definition SeverityCritical : Severity := "critical".

Definition ActionRecord : Action := "record".
Definition ActionNotify : Action := "notify".
Definition ActionPage : Action := "page".
Definition ActionSuppress : Action := "suppress".

Record Decision := {
  dec_Severity : Severity; dec_Action : Action; dec_Summary : string;
  dec_ReasonCodes : list string; dec_RuleIDs : list string
}.

(** ** [incident.go] *)

Abbreviation IncidentStatus := string (only parsing).
Definition IncidentOpen : IncidentStatus := "open".
Definition IncidentResolved : IncidentStatus := "resolved".
Definition IncidentSuppressed : IncidentStatus := "suppressed".

Record Incident := {
  inc_ID : string; inc_Key : string; inc_ClusterID : string; inc_Source : Source;
  inc_Status : IncidentStatus; inc_OpenedAt : time; inc_UpdatedAt : time;
  inc_ResolvedAt : option time; inc_ContentHash : string; inc_Version : Z
}.

(** ** [notification.go] *)

Abbreviation NotificationStatus := string (only parsing).
Definition NotificationPending : NotificationStatus := "pending".
Definition NotificationDelivering : NotificationStatus := "delivering".
Definition NotificationDelivered : NotificationStatus := "delivered".
Definition NotificationFailed : NotificationStatus := "failed".

Record Notification := {
  nt_ID : string; nt_EvaluationID : string; nt_DestinationID : string; nt_EventType : string;
  nt_Status : NotificationStatus; nt_Attempts : Z; nt_NextAttemptAt : time;
  nt_Payload : string
}.

(** ** [evaluation.go]

    [Answers] is a [map[string]any]; the value type is a parameter. *)

Record ProviderUsage := { pu_InputTokens : Z; pu_OutputTokens : Z }.

Record ProviderAudit := {
  pa_Provider : string; pa_RequestedModel : string; pa_ResolvedModel : string;
  pa_ResolvedModelHash : string; pa_ProviderRequestIDHash : string;
  pa_Usage : ProviderUsage; pa_Latency : duration; pa_Attempts : Z;
  pa_RawResponseHash : string
}.

Record Evaluation (Any : Type) := {
  evl_ID : string; evl_IncidentID : string; evl_SnapshotHash : string;
  evl_PolicyVersion : string; evl_RubricVersion : string; evl_ProviderConfigHash : string;
  evl_Decision : Decision; evl_Answers : option (gmap string Any);
  evl_ProviderAudit : option ProviderAudit; evl_CreatedAt : time
}.
Arguments evl_ID {Any}. Arguments evl_IncidentID {Any}. Arguments evl_SnapshotHash {Any}.
Arguments evl_PolicyVersion {Any}. Arguments evl_RubricVersion {Any}.
Arguments evl_ProviderConfigHash {Any}. Arguments evl_Decision {Any}.
Arguments evl_Answers {Any}. Arguments evl_ProviderAudit {Any}. Arguments evl_CreatedAt {Any}.

(** ** Decidable equality *)

#[export] Instance OwnerReference_eq_dec : EqDecision OwnerReference.
Proof. solve_decision. Defined.
#[export] Instance Source_eq_dec : EqDecision Source.
Proof. solve_decision. Defined.
#[export] Instance Condition_eq_dec : EqDecision Condition.
Proof. solve_decision. Defined.
#[export] Instance ContainerState_eq_dec : EqDecision ContainerState.
Proof. solve_decision. Defined.
#[export] Instance WorkloadState_eq_dec : EqDecision WorkloadState.
Proof. solve_decision. Defined.
#[export] Instance JobState_eq_dec : EqDecision JobState.
Proof. solve_decision. Defined.
#[export] Instance EventState_eq_dec : EqDecision EventState.
Proof. solve_decision. Defined.
#[export] Instance Snapshot_eq_dec : EqDecision Snapshot.
Proof. solve_decision. Defined.
#[export] Instance Decision_eq_dec : EqDecision Decision.
Proof. solve_decision. Defined.
#[export] Instance Incident_eq_dec : EqDecision Incident.
Proof. solve_decision. Defined.
#[export] Instance Notification_eq_dec : EqDecision Notification.
Proof. solve_decision. Defined.
