(* ===== verification/Rules.v ===== *)
(** * Package [internal/rules]: the deterministic rule engine

    [Engine] is the options record after [NewEngine] has sorted the ignore
    lists.  Each rule reads the clock at most once, at its own call site, so a
    run of [Evaluate] is determined by one reading per site
    ([ClockSite → time]); no assumption relates the readings. *)
From S2P Require Import Prelude GoBase Domain.

Definition PolicyVersion : string := "deterministic-triage-v1".

Abbreviation Disposition := string (only parsing).
Definition DispositionTerminal : Disposition := "terminal".
Definition DispositionSemantic : Disposition := "semantic".
Definition DispositionSuppress : Disposition := "suppress".
Definition DispositionNoMatch : Disposition := "no_match".

Record Match := { m_RuleID : string; m_Reason : string; m_Severity : Severity }.

Record Result := {
  res_Matches : list Match; res_Disposition : Disposition; res_Decision : option Decision;
  res_QuestionSet : string; res_PolicyVersion : string
}.

Record Options := {
  CrashLoopRestartThreshold : Z; CrashLoopCriticalThreshold : Z;
  MinimumAge : duration; EventQuietPeriod : duration;
  IgnoredNamespaces : list string; IgnoredLabels : list string
}.

Definition NewEngine (o : Options) : Options :=
  {| CrashLoopRestartThreshold := CrashLoopRestartThreshold o;
     CrashLoopCriticalThreshold := CrashLoopCriticalThreshold o;
     MinimumAge := MinimumAge o; EventQuietPeriod := EventQuietPeriod o;
     IgnoredNamespaces := sort_strings (IgnoredNamespaces o);
     IgnoredLabels := sort_strings (IgnoredLabels o) |}.

(** The calls of [e.now()] in the package. *)
Inductive ClockSite :=
  | at_podCrashLoop | at_podUnschedulable | at_imagePullFailure
  | at_workloadUnavailable | at_eventIsQuiet.

Definition severityRank (s : Severity) : Z :=
  if s =s? SeverityCritical then 3
  else if s =s? SeverityWarning then 2
  else if s =s? SeverityInfo then 1
  else 0.

(** ** [pod.go] *)

(** The first condition of the given type and status (and reason, unless
    empty) that carries a transition time. *)
Fixpoint conditionTransition (conds : list Condition) (ctype status reason : string)
    : option time :=
  match conds with
  | [] => None
  | c :: cs =>
      if (cond_Type c =s? ctype) && (cond_Status c =s? status)
         && ((reason =s? "") || (cond_Reason c =s? reason))
         && negb (is_zero (cond_LastTransitionTime c))
      then Some (cond_LastTransitionTime c)
      else conditionTransition cs ctype status reason
  end.

Section Engine.
Context (e : Options) (now : ClockSite → time).

(** The loop body of [podCrashLoop] on the running [severity]. *)
Definition crashLoopStep (severity : Severity) (c : ContainerState) : Severity :=
  if (ct_State c ≠s? "waiting") || (ct_Reason c ≠s? "CrashLoopBackOff")
     || (ct_RestartCount c <? CrashLoopRestartThreshold e)
  then severity
  else
    let candidate := if CrashLoopCriticalThreshold e <=? ct_RestartCount c
                     then SeverityCritical else SeverityWarning in
    if severityRank severity <? severityRank candidate then candidate else severity.

Definition podCrashLoop (s : Snapshot) : list Match :=
  if negb (equal_fold (src_Kind (sn_Source s)) "Pod") then [] else
  match conditionTransition (sn_Conditions s) "Ready" "False" "" with
  | None => []
  | Some transition =>
      if time_sub (now at_podCrashLoop) transition <? MinimumAge e then [] else
      let severity := fold_left crashLoopStep (sn_Containers s) "" in
      if severity =s? "" then [] else
      [{| m_RuleID := "pod-crash-loop"; m_Severity := severity;
          m_Reason := "one or more containers are crash looping" |}]
  end.

Definition podUnschedulable (s : Snapshot) : list Match :=
  if negb (equal_fold (src_Kind (sn_Source s)) "Pod") then [] else
  match conditionTransition (sn_Conditions s) "PodScheduled" "False" "Unschedulable" with
  | None => []
  | Some transition =>
      if time_sub (now at_podUnschedulable) transition <? MinimumAge e then [] else
      [{| m_RuleID := "pod-unschedulable"; m_Severity := SeverityWarning;
          m_Reason := "pod has remained unschedulable" |}]
  end.

Definition pullFailing (c : ContainerState) : bool :=
  (ct_State c =s? "waiting")
  && ((ct_Reason c =s? "ErrImagePull") || (ct_Reason c =s? "ImagePullBackOff")).

Definition imagePullFailure (s : Snapshot) : list Match :=
  if negb (equal_fold (src_Kind (sn_Source s)) "Pod") then [] else
  match conditionTransition (sn_Conditions s) "Ready" "False" "" with
  | None => []
  | Some transition =>
      if time_sub (now at_imagePullFailure) transition <? MinimumAge e then [] else
      if existsb pullFailing (sn_Containers s) then
        [{| m_RuleID := "image-pull-failure"; m_Severity := SeverityWarning;
            m_Reason := "one or more containers cannot pull their image" |}]
      else []
  end.

(** ** [job.go] *)

Definition failedJob (s : Snapshot) : list Match :=
  match sn_Job s with
  | None => []
  | Some job =>
      if negb (equal_fold (src_Kind (sn_Source s)) "Job") then [] else
      let failedCondition :=
        existsb (λ c, (cond_Type c =s? "Failed") && (cond_Status c =s? "True"))
          (sn_Conditions s) in
      let threshold := if job_BackoffLimit job <? 1 then 1 else job_BackoffLimit job in
      if negb failedCondition && (job_Failed job <? threshold) then [] else
      [{| m_RuleID := "job-failed"; m_Severity := SeverityCritical;
          m_Reason := "job has failed" |}]
  end.

(** ** [workload.go] *)

Definition isWorkloadKind (kind : string) : bool :=
  let k := to_lower kind in
  (k =s? "deployment") || (k =s? "statefulset") || (k =s? "daemonset").

Fixpoint unavailableTransition (conds : list Condition) : option time :=
  match conds with
  | [] => None
  | c :: cs =>
      if (cond_Status c ≠s? "False") || is_zero (cond_LastTransitionTime c)
      then unavailableTransition cs
      else if (cond_Type c =s? "Available") || (cond_Type c =s? "Ready")
              || (cond_Type c =s? "Progressing")
      then Some (cond_LastTransitionTime c)
      else unavailableTransition cs
  end.

Definition workloadUnavailable (s : Snapshot) : list Match :=
  match sn_Workload s with
  | None => []
  | Some state =>
      if negb (isWorkloadKind (src_Kind (sn_Source s))) then [] else
      if (wl_Desired state <=? 0) || (wl_Desired state <=? wl_Available state)
         || (wl_Unavailable state <=? 0) then [] else
      match unavailableTransition (sn_Conditions s) with
      | None => []
      | Some transition =>
          if time_sub (now at_workloadUnavailable) transition <? MinimumAge e then [] else
          let severity := if wl_Available state =? 0
                          then SeverityCritical else SeverityWarning in
          [{| m_RuleID := "workload-unavailable"; m_Severity := severity;
              m_Reason := "workload has unavailable replicas" |}]
      end
  end.

(** ** [event.go] and [recovery.go] *)

Definition semanticWarningReasons : list string :=
  ["FailedAttachVolume"; "FailedCreate"; "FailedDelete"; "FailedMount";
   "FailedUpdate"; "Unhealthy"].

Definition eventIsQuiet (s : Snapshot) : bool :=
  match sn_Event s with
  | None => false
  | Some ev =>
      if (EventQuietPeriod e <=? 0) || is_zero (ev_LastObserved ev) then false
      else negb (before (now at_eventIsQuiet)
                   (time_add (ev_LastObserved ev) (EventQuietPeriod e)))
  end.

Definition warningEvent (s : Snapshot) : list Match :=
  match sn_Event s with
  | None => []
  | Some ev =>
      if negb (equal_fold (src_Kind (sn_Source s)) "Event")
         || negb (equal_fold (ev_Type ev) "Warning") || eventIsQuiet s then [] else
      if negb (bool_decide (ev_Reason ev ∈ semanticWarningReasons)) then [] else
      [{| m_RuleID := "warning-event"; m_Severity := SeverityWarning;
          m_Reason := "selected Warning Event requires semantic triage" |}]
  end.

Definition recovered (previous : option Incident) : option Result :=
  match previous with
  | None => None
  | Some inc =>
      if inc_Status inc ≠s? IncidentOpen then None else
      let m := {| m_RuleID := "recovered"; m_Severity := SeverityInfo;
                  m_Reason := "previously open incident no longer matches" |} in
      Some {| res_Matches := [m]; res_Disposition := DispositionTerminal;
              res_Decision := Some {| dec_Severity := SeverityInfo;
                dec_Action := ActionRecord; dec_Summary := m_Reason m;
                dec_ReasonCodes := [m_RuleID m]; dec_RuleIDs := [m_RuleID m] |};
              res_QuestionSet := ""; res_PolicyVersion := PolicyVersion |}
  end.

(** ** [engine.go] *)

Fixpoint ignoredNamespaceReason (namespaces : list string) (s : Snapshot) : option string :=
  match namespaces with
  | [] => None
  | n :: ns => if src_Namespace (sn_Source s) =s? n then Some ("ignored namespace " +:+ n)
               else ignoredNamespaceReason ns s
  end.

(** Does the label selector [key] or [key=value] select the snapshot? *)
Definition selects (selector : string) (s : Snapshot) : bool :=
  let '(key, value, hasValue) := cut "="%char selector in
  match sn_Labels s !! key with
  | None => false
  | Some actual => negb hasValue || (actual =s? value)
  end.

Fixpoint ignoredLabelReason (selectors : list string) (s : Snapshot) : option string :=
  match selectors with
  | [] => None
  | sel :: ss => if selects sel s then Some ("ignored label " +:+ sel)
                 else ignoredLabelReason ss s
  end.

Definition ignoredReason (s : Snapshot) : option string :=
  match ignoredNamespaceReason (IgnoredNamespaces e) s with
  | Some reason => Some reason
  | None => ignoredLabelReason (IgnoredLabels e) s
  end.

(** [highestSeverity] indexes [matches[0]]; the caller passes a non-empty
    slice, given here by its head and tail. *)
Definition highestSeverity (first : Match) (rest : list Match) : Match :=
  fold_left (λ winning m, if severityRank (m_Severity winning) <? severityRank (m_Severity m)
                          then m else winning) rest first.

Definition decisionFor (first : Match) (rest : list Match) : Decision :=
  let winning := highestSeverity first rest in
  let ruleIDs := map m_RuleID (first :: rest) in
  {| dec_Severity := m_Severity winning;
     dec_Action := if m_Severity winning =s? SeverityCritical then ActionPage else ActionNotify;
     dec_Summary := m_Reason winning; dec_ReasonCodes := ruleIDs; dec_RuleIDs := ruleIDs |}.

Definition match_ltb : Match → Match → bool := less_by m_RuleID str_ltb.

(** The matches of all rules, in the order the engine appends them. *)
Definition allMatches (s : Snapshot) : list Match :=
  podCrashLoop s ++ podUnschedulable s ++ imagePullFailure s ++ failedJob s
  ++ workloadUnavailable s ++ warningEvent s.

Definition Evaluate (s : Snapshot) (previous : option Incident) : Result :=
  match ignoredReason s with
  | Some reason =>
      {| res_Matches := [{| m_RuleID := "ignored"; m_Reason := reason;
                            m_Severity := SeverityInfo |}];
         res_Disposition := DispositionSuppress;
         res_Decision := Some {| dec_Severity := SeverityInfo; dec_Action := ActionSuppress;
           dec_Summary := reason; dec_ReasonCodes := ["ignored"]; dec_RuleIDs := ["ignored"] |};
         res_QuestionSet := ""; res_PolicyVersion := PolicyVersion |}
  | None =>
      let matches := sort_slice match_ltb (allMatches s) in
      match matches with
      | [] =>
          match recovered previous with
          | Some r => r
          | None => {| res_Matches := []; res_Disposition := DispositionNoMatch;
                       res_Decision := None; res_QuestionSet := "";
                       res_PolicyVersion := PolicyVersion |}
          end
      | first :: rest =>
          if (Nat.eqb (length matches) 1) && (m_RuleID first =s? "warning-event") then
            {| res_Matches := matches; res_Disposition := DispositionSemantic;
               res_Decision := None; res_QuestionSet := "operational-triage-v1";
               res_PolicyVersion := PolicyVersion |}
          else
            {| res_Matches := matches; res_Disposition := DispositionTerminal;
               res_Decision := Some (decisionFor first rest); res_QuestionSet := "";
               res_PolicyVersion := PolicyVersion |}
      end
  end.
End Engine.

(** ** Lemmas *)

(** A rule contributes its own identifier at most once. *)
Definition at_most (id : string) (ms : list Match) : Prop :=
  map m_RuleID ms = [] ∨ map m_RuleID ms = [id].

Ltac rule_shape := unfold at_most; go_cases; auto.

Section RuleShapes.
Context (e : Options) (now : ClockSite → time) (s : Snapshot).

Lemma podCrashLoop_shape : at_most "pod-crash-loop" (podCrashLoop e now s).
Proof. unfold podCrashLoop. rule_shape. Qed.
Lemma podUnschedulable_shape : at_most "pod-unschedulable" (podUnschedulable e now s).
Proof. unfold podUnschedulable. rule_shape. Qed.
Lemma imagePullFailure_shape : at_most "image-pull-failure" (imagePullFailure e now s).
Proof. unfold imagePullFailure. rule_shape. Qed.
Lemma failedJob_shape : at_most "job-failed" (failedJob s).
Proof. unfold failedJob. rule_shape. Qed.
Lemma workloadUnavailable_shape : at_most "workload-unavailable" (workloadUnavailable e now s).
Proof. unfold workloadUnavailable. rule_shape. Qed.
Lemma warningEvent_shape : at_most "warning-event" (warningEvent e now s).
Proof. unfold warningEvent. rule_shape. Qed.

Lemma allMatches_nodup : NoDup (map m_RuleID (allMatches e now s)).
Proof.
  unfold allMatches. rewrite !map_app.
  destruct podCrashLoop_shape as [-> | ->], podUnschedulable_shape as [-> | ->],
    imagePullFailure_shape as [-> | ->], failedJob_shape as [-> | ->],
    workloadUnavailable_shape as [-> | ->], warningEvent_shape as [-> | ->];
    simpl; apply (bool_decide_unpack _); vm_compute; exact I.
Qed.

Lemma sorted_matches_ids :
  map m_RuleID (sort_slice match_ltb (allMatches e now s))
  = sort_strings (map m_RuleID (allMatches e now s)).
Proof. apply sort_slice_map_key. Qed.
End RuleShapes.

Lemma highestSeverity_elem first rest : highestSeverity first rest ∈ first :: rest.
Proof.
  unfold highestSeverity. revert first. induction rest as [|m ms IH]; intros first; simpl; [left|].
  destruct (_ <? _).
  - right. apply IH.
  - specialize (IH first). apply elem_of_cons in IH as [-> | IH]; [left | by right; right].
Qed.

Lemma highestSeverity_max first rest m :
  m ∈ first :: rest →
  severityRank (m_Severity m) ≤ severityRank (m_Severity (highestSeverity first rest)).
Proof.
  unfold highestSeverity. revert first m. induction rest as [|x ms IH]; intros first m; simpl.
  { intros ->%list_elem_of_singleton. done. }
  destruct (_ <? _) eqn:E; bool_to_prop.
  - intros [->|H]%elem_of_cons; [|by apply IH].
    etrans; [|apply (IH x x); left]. lia.
  - intros [->|[->|H]%elem_of_cons]%elem_of_cons; [apply IH; left| |apply IH; by right].
    etrans; [|apply (IH first first); left]. lia.
Qed.

Lemma severityRank_critical s : s = SeverityCritical ↔ 3 ≤ severityRank s.
Proof.
  unfold severityRank. split; [by intros ->|].
  destruct (String.eqb_spec s SeverityCritical); [done|]. intros H. exfalso. go_cases; lia.
Qed.

Lemma severityRank_bound s : 0 ≤ severityRank s ≤ 3.
Proof. unfold severityRank. go_cases; lia. Qed.

(** *** Ignored resources *)

Lemma ignoredNamespaceReason_some ns s :
  is_Some (ignoredNamespaceReason ns s) ↔ src_Namespace (sn_Source s) ∈ ns.
Proof.
  induction ns as [|n ns IH]; simpl.
  - split; [by intros [? ?]|by intros ?%elem_of_nil].
  - destruct (String.eqb_spec (src_Namespace (sn_Source s)) n) as [->|N].
    + split; [left|eauto].
    + rewrite IH, elem_of_cons. naive_solver.
Qed.
Lemma ignoredLabelReason_some sels s :
  is_Some (ignoredLabelReason sels s) ↔ ∃ sel, sel ∈ sels ∧ selects sel s = true.
Proof.
  induction sels as [|x sels IH]; simpl.
  - split; [by intros [? ?]|by intros (? & ?%elem_of_nil & _)].
  - destruct (selects x s) eqn:E.
    + split; [intros _; exists x; by split; [left|]|eauto].
    + rewrite IH. split; [intros (sel & ? & ?); exists sel; split; [by right|done]|].
      intros (sel & [->|?]%elem_of_cons & ?); [congruence|eauto].
Qed.

(** *** Crash loops *)

(** A container that the crash-loop rule counts, and one past the critical
    threshold. *)
Definition crashLooping (e : Options) (c : ContainerState) : bool :=
  (ct_State c =s? "waiting") && (ct_Reason c =s? "CrashLoopBackOff")
  && (CrashLoopRestartThreshold e <=? ct_RestartCount c).
Definition crashCritical (e : Options) (c : ContainerState) : bool :=
  crashLooping e c && (CrashLoopCriticalThreshold e <=? ct_RestartCount c).

Definition crashSeverity (e : Options) (cs : list ContainerState) : Severity :=
  if existsb (crashCritical e) cs then SeverityCritical
  else if existsb (crashLooping e) cs then SeverityWarning else "".

Lemma crashLoopStep_looping e sev c :
  crashLoopStep e sev c =
  if crashLooping e c then
    let cand := if CrashLoopCriticalThreshold e <=? ct_RestartCount c
                then SeverityCritical else SeverityWarning in
    if severityRank sev <? severityRank cand then cand else sev
  else sev.
Proof.
  unfold crashLoopStep, crashLooping.
  destruct (ct_State c =s? _), (ct_Reason c =s? _); simpl; try done.
  destruct (Z.ltb_spec (ct_RestartCount c) (CrashLoopRestartThreshold e)),
    (Z.leb_spec (CrashLoopRestartThreshold e) (ct_RestartCount c)); simpl; try done; lia.
Qed.

Lemma crash_fold e cs sev :
  sev = "" ∨ sev = SeverityWarning ∨ sev = SeverityCritical →
  fold_left (crashLoopStep e) cs sev =
  if (sev =s? SeverityCritical) || existsb (crashCritical e) cs then SeverityCritical
  else if (sev =s? SeverityWarning) || existsb (crashLooping e) cs then SeverityWarning else "".
Proof.
  revert sev. induction cs as [|c cs IH]; intros sev Hsev; simpl.
  { by destruct Hsev as [->|[->| ->]]. }
  rewrite crashLoopStep_looping. unfold crashCritical at 1.
  destruct (crashLooping e c); simpl; [|by apply IH].
  destruct (_ <=? ct_RestartCount c), Hsev as [->|[->| ->]]; simpl; by rewrite IH by auto.
Qed.

(** *** Kinds exclude each other *)

Lemma kinds_exclusive k :
  equal_fold k "Event" = true →
  equal_fold k "Pod" = false ∧ equal_fold k "Job" = false ∧ isWorkloadKind k = false.
Proof.
  rewrite !equal_fold_plain by done. intros H%String.eqb_eq. rewrite H.
  split_and!; [done..|]. unfold isWorkloadKind.
  rewrite (to_lower_plain k "event") by done. done.
Qed.

Lemma event_silences_others e now s :
  equal_fold (src_Kind (sn_Source s)) "Event" = true →
  allMatches e now s = warningEvent e now s.
Proof.
  intros (Hp & Hj & Hw)%kinds_exclusive.
  unfold allMatches, podCrashLoop, podUnschedulable, imagePullFailure, failedJob,
    workloadUnavailable.
  rewrite Hp, Hj, Hw. by destruct (sn_Job s), (sn_Workload s).
Qed.

(** ** Properties *)

Section EngineProperties.
Context (o : Options) (now : ClockSite → time).
Implicit Types (s : Snapshot) (previous : option Incident).

Definition openBefore previous : Prop :=
  ∃ inc, previous = Some inc ∧ inc_Status inc = IncidentOpen.

Lemma recovered_spec previous :
  (openBefore previous ∧ ∃ r, recovered previous = Some r ∧
     res_Disposition r = DispositionTerminal ∧ map m_RuleID (res_Matches r) = ["recovered"]) ∨
  (¬ openBefore previous ∧ recovered previous = None).
Proof.
  unfold recovered, openBefore. destruct previous as [inc|]; [|by right; split; [intros (?&?&?)|]].
  destruct (String.eqb_spec (inc_Status inc) IncidentOpen) as [E|N]; simpl.
  - left. split; [eauto|]. eexists. split_and!; [done..|reflexivity].
  - right. split; [|done]. intros (? & [= <-] & ?). done.
Qed.

(** The sorted matches are those of the rules. *)
Lemma sorted_cons s first rest :
  sort_slice match_ltb (allMatches o now s) = first :: rest →
  allMatches o now s ≠ [] ∧
  (map m_RuleID (allMatches o now s) = ["warning-event"] ↔
   rest = [] ∧ m_RuleID first = "warning-event").
Proof.
  intros Hs. pose proof (sort_slice_perm match_ltb (allMatches o now s)) as Hp.
  rewrite Hs in Hp. split.
  { intros Hn. rewrite Hn in Hp. by apply Permutation_nil_r in Hp. }
  apply (Permutation_map m_RuleID) in Hp. simpl in Hp. split.
  - intros Hw. rewrite Hw in Hp. apply Permutation_singleton_r in Hp.
    by destruct rest; simplify_eq/=.
  - intros [-> Hf]. simpl in Hp. rewrite Hf in Hp. by apply Permutation_singleton_l in Hp.
Qed.

Lemma sorted_nil s :
  sort_slice match_ltb (allMatches o now s) = [] → allMatches o now s = [].
Proof.
  intros Hs. pose proof (sort_slice_perm match_ltb (allMatches o now s)) as Hp.
  rewrite Hs in Hp. by apply Permutation_nil in Hp.
Qed.

(** C5: [Evaluate] classifies every snapshot exactly: it suppresses precisely
    the ignored resources; asks for a semantic evaluation precisely when the
    warning-event rule is the only one to fire; reports no match precisely
    when no rule fires and the incident was not open; and is terminal in the
    remaining cases, a recovery or some other rule. *)
Theorem evaluate_disposition s previous :
  let d := res_Disposition (Evaluate o now s previous) in
  let ids := map m_RuleID (allMatches o now s) in
  (d = DispositionSuppress ↔ is_Some (ignoredReason o s)) ∧
  (d = DispositionSemantic ↔ ignoredReason o s = None ∧ ids = ["warning-event"]) ∧
  (d = DispositionNoMatch ↔ ignoredReason o s = None ∧ ids = [] ∧ ¬ openBefore previous) ∧
  (d = DispositionTerminal ↔ ignoredReason o s = None ∧
     (ids = [] ∧ openBefore previous ∨ ids ≠ [] ∧ ids ≠ ["warning-event"])).
Proof.
  unfold Evaluate. destruct (ignoredReason o s) as [reason|] eqn:Hi; simpl.
  { split_and!; split; try done; naive_solver. }
  destruct (sort_slice match_ltb (allMatches o now s)) as [|first rest] eqn:Hs.
  - apply sorted_nil in Hs. rewrite Hs. simpl.
    destruct (recovered_spec previous) as [(Ho & r & -> & -> & _)|[Ho ->]]; simpl;
      split_and!; split; naive_solver.
  - apply sorted_cons in Hs as [Hne Hw].
    assert (map m_RuleID (allMatches o now s) ≠ []) by (by destruct (allMatches o now s)).
    destruct (Nat.eqb_spec (length (first :: rest)) 1) as [Hl|Hl],
      (String.eqb_spec (m_RuleID first) "warning-event") as [Hf|Hf]; simpl;
      destruct rest; try done;
      split_and!; split; naive_solver.
Qed.

(** Every result lists its rules in increasing order of identifier and
    never twice. *)
Theorem evaluate_rules_sorted s previous :
  let ids := map m_RuleID (res_Matches (Evaluate o now s previous)) in
  StronglySorted String.le ids ∧ NoDup ids.
Proof.
  assert (Hone : ∀ x : string, StronglySorted String.le [x] ∧ NoDup [x])
    by (intros; split; [repeat constructor|apply NoDup_singleton]).
  assert (Hall : StronglySorted String.le
                   (map m_RuleID (sort_slice match_ltb (allMatches o now s))) ∧
                 NoDup (map m_RuleID (sort_slice match_ltb (allMatches o now s)))).
  { rewrite sorted_matches_ids. split; [apply sort_strings_sorted|].
    apply NoDup_sort_slice, allMatches_nodup. }
  unfold Evaluate. destruct (ignoredReason o s); simpl; [apply Hone|].
  destruct (sort_slice match_ltb (allMatches o now s)) as [|first rest] eqn:Hs.
  - destruct (recovered_spec previous) as [(_ & r & -> & _ & ->)|[_ ->]]; simpl;
      [apply Hone|split; constructor].
  - by destruct (_ && _).
Qed.

(** C6: when some rule other than a lone warning event fires, the terminal
    decision carries the highest severity among all the matches together with
    the reason of a match of that severity, lists exactly the rules that
    fired, pages exactly when some match is critical and notifies otherwise. *)
Theorem evaluate_decision s previous :
  ignoredReason o s = None → allMatches o now s ≠ [] →
  map m_RuleID (allMatches o now s) ≠ ["warning-event"] →
  ∃ d, res_Decision (Evaluate o now s previous) = Some d ∧
    (∃ m, m ∈ allMatches o now s ∧ m_Severity m = dec_Severity d ∧ m_Reason m = dec_Summary d) ∧
    (∀ m, m ∈ allMatches o now s → severityRank (m_Severity m) ≤ severityRank (dec_Severity d)) ∧
    dec_RuleIDs d = sort_strings (map m_RuleID (allMatches o now s)) ∧
    dec_ReasonCodes d = dec_RuleIDs d ∧
    dec_Action d = (if existsb (λ m, m_Severity m =s? SeverityCritical) (allMatches o now s)
                    then ActionPage else ActionNotify).
Proof.
  intros Hi Hne Hw. unfold Evaluate. rewrite Hi.
  pose proof (sorted_matches_ids o now s) as Hids.
  pose proof (sort_slice_perm match_ltb (allMatches o now s)) as Hp.
  destruct (sort_slice match_ltb (allMatches o now s)) as [|first rest] eqn:Hs.
  { by apply sorted_nil in Hs. }
  apply sorted_cons in Hs as [_ Hw'].
  assert ((length (first :: rest) =? 1)%nat && (m_RuleID first =s? "warning-event") = false) as ->.
  { apply not_true_is_false. rewrite andb_true_iff, Nat.eqb_eq, String.eqb_eq.
    intros [Hl Hf]. destruct rest; [|done]. tauto. }
  pose proof (highestSeverity_elem first rest) as Hin.
  pose proof (λ m, highestSeverity_max first rest m) as Hmax.
  eexists. split; [done|]. unfold decisionFor. cbn [dec_Severity dec_Summary dec_RuleIDs
    dec_ReasonCodes dec_Action].
  set (w := highestSeverity first rest) in *. rewrite Hp in Hin.
  setoid_rewrite Hp in Hmax.
  split_and!; [by exists w|done|done|done|].
  destruct (String.eqb_spec (m_Severity w) SeverityCritical) as [Hc|Hc];
    destruct (existsb _ _) eqn:He; try done.
  - exfalso. apply not_true_iff_false in He. apply He, existsb_exists.
    exists w. rewrite <- list_elem_of_In. split; [done|]. by apply String.eqb_eq.
  - exfalso. apply existsb_exists in He as (m & Hm & Hc'%String.eqb_eq).
    apply list_elem_of_In, Hmax in Hm. apply Hc, severityRank_critical.
    apply severityRank_critical in Hc'. lia.
Qed.

(** A Kubernetes Event can only ever reach the provider: for a snapshot
    of kind Event (in any case) no deterministic rule fires, so the engine
    never pages or notifies on an Event by itself. *)
Theorem event_never_terminal_alert s previous :
  equal_fold (src_Kind (sn_Source s)) "Event" = true → ignoredReason o s = None →
  let r := Evaluate o now s previous in
  (warningEvent o now s ≠ [] ∧ res_Disposition r = DispositionSemantic ∧ res_Decision r = None) ∨
  (warningEvent o now s = [] ∧ res_Disposition r = DispositionNoMatch ∧ ¬ openBefore previous) ∨
  (warningEvent o now s = [] ∧ openBefore previous ∧
     map m_RuleID (res_Matches r) = ["recovered"]).
Proof.
  intros Hk Hi. pose proof (event_silences_others o now s Hk) as Hall.
  unfold Evaluate. rewrite Hi.
  pose proof (sorted_cons s) as Hcons. rewrite Hall in *. simpl.
  destruct (sort_slice match_ltb (warningEvent o now s)) as [|first rest] eqn:Hs.
  - pose proof (sorted_nil s) as Hnil. rewrite Hall in Hnil. rewrite (Hnil Hs).
    right. destruct (recovered_spec previous) as [(Ho & r & -> & _ & ->)|[Ho ->]]; auto.
  - destruct (Hcons first rest eq_refl) as [Hne Hw].
    destruct (warningEvent_shape o now s) as [E|E].
    { by destruct (warningEvent o now s). }
    apply Hw in E as [-> Hf]. rewrite Hf. by left.
Qed.
End EngineProperties.

(** The engine suppresses exactly the resources the operator listed: those
    in an ignored namespace or carrying an ignored label, whatever the order
    (or repetition) of the configured lists. *)
Theorem ignored_iff o s :
  is_Some (ignoredReason (NewEngine o) s) ↔
  src_Namespace (sn_Source s) ∈ IgnoredNamespaces o ∨
  ∃ sel, sel ∈ IgnoredLabels o ∧ selects sel s = true.
Proof.
  unfold ignoredReason, NewEngine; simpl.
  setoid_rewrite <- (elem_of_sort_strings _ (IgnoredNamespaces o)).
  setoid_rewrite <- (elem_of_sort_strings _ (IgnoredLabels o)).
  rewrite <- ignoredNamespaceReason_some, <- ignoredLabelReason_some.
  destruct (ignoredNamespaceReason _ s); [|destruct (ignoredLabelReason _ s)]; split; eauto.
  by intros [[]|[]].
Qed.

(** The crash-loop rule agrees with its declarative reading: it fires on a
    Pod that has been unready for the minimum age and has some waiting
    container in CrashLoopBackOff past the restart threshold, with critical
    severity exactly when one of these is past the critical threshold. *)
Theorem podCrashLoop_correct o now s :
  podCrashLoop o now s =
  match conditionTransition (sn_Conditions s) "Ready" "False" "" with
  | Some t =>
      if equal_fold (src_Kind (sn_Source s)) "Pod"
         && negb (time_sub (now at_podCrashLoop) t <? MinimumAge o)
         && existsb (crashLooping o) (sn_Containers s)
      then [{| m_RuleID := "pod-crash-loop"; m_Severity := crashSeverity o (sn_Containers s);
               m_Reason := "one or more containers are crash looping" |}]
      else []
  | None => []
  end.
Proof.
  unfold podCrashLoop. destruct (equal_fold _ _); simpl; [|by destruct (conditionTransition _ _ _ _)].
  destruct (conditionTransition _ _ _ _) as [t|]; [|done].
  destruct (_ <? MinimumAge o); simpl; [done|].
  rewrite crash_fold by auto. unfold crashSeverity. simpl.
  assert (Himp : existsb (crashCritical o) (sn_Containers s) = true →
                 existsb (crashLooping o) (sn_Containers s) = true).
  { rewrite !existsb_exists. intros (c & Hc & [Hl _]%andb_true_iff). eauto. }
  destruct (existsb (crashCritical o) _); [by rewrite Himp|].
  by destruct (existsb (crashLooping o) _).
Qed.

(** ** Witnesses *)

Module RulesWitness.
Definition opts : Options :=
  NewEngine {| CrashLoopRestartThreshold := 3; CrashLoopCriticalThreshold := 10;
     MinimumAge := 60 * second; EventQuietPeriod := 600 * second;
     IgnoredNamespaces := ["kube-system"]; IgnoredLabels := ["raven=off"] |}.
Definition noon : time := unix_epoch + 10 ^ 18.
Definition clock (_ : ClockSite) : time := noon.

Definition source (kind : string) : Source :=
  {| src_ClusterID := "c1"; src_APIVersion := "v1"; src_Kind := kind; src_Namespace := "shop";
     src_Name := "api-0"; src_UID := "uid-1"; src_ResourceVersion := "7"; src_Generation := 1;
     src_Owner := None |}.

(** A Pod unready for two minutes with a container in a critical crash loop. *)
Definition pod : Snapshot :=
  {| sn_Source := source "Pod"; sn_ObservedAt := noon; sn_Labels := {["app" := "api"]};
     sn_Conditions := [{| cond_Type := "Ready"; cond_Status := "False"; cond_Reason := "";
       cond_Message := ""; cond_LastTransitionTime := noon - 120 * second |}];
     sn_Containers := [{| ct_Name := "api"; ct_Ready := false; ct_RestartCount := 12;
       ct_State := "waiting"; ct_Reason := "CrashLoopBackOff"; ct_ExitCode := 1 |}];
     sn_Workload := None; sn_Job := None; sn_Event := None; sn_ContentHash := "" |}.

(** A fresh Warning Event about a failing mount. *)
Definition event : Snapshot :=
  {| sn_Source := source "Event"; sn_ObservedAt := noon; sn_Labels := ∅; sn_Conditions := [];
     sn_Containers := []; sn_Workload := None; sn_Job := None;
     sn_Event := Some {| ev_Type := "Warning"; ev_Reason := "FailedMount"; ev_Message := "";
       ev_RegardingUID := "uid-1"; ev_Count := 4; ev_LastObserved := noon - second |};
     sn_ContentHash := "" |}.
End RulesWitness.

Lemma evaluate_decision_witness :
  ∃ d, res_Decision (Evaluate RulesWitness.opts RulesWitness.clock RulesWitness.pod None) = Some d ∧
       dec_Action d = ActionPage.
Proof.
  destruct (evaluate_decision RulesWitness.opts RulesWitness.clock RulesWitness.pod None)
    as (d & Hd & _ & _ & _ & _ & Ha); [by vm_compute..|].
  exists d. split; [exact Hd|]. rewrite Ha. by vm_compute.
Defined.

Lemma event_never_terminal_alert_witness :
  res_Disposition (Evaluate RulesWitness.opts RulesWitness.clock RulesWitness.event None)
    = DispositionSemantic.
Proof.
  destruct (event_never_terminal_alert RulesWitness.opts RulesWitness.clock RulesWitness.event None)
    as [(_ & H & _)|[(H & _)|(H & _)]]; [by vm_compute..|exact H| |];
    by vm_compute in H.
Defined.
