(* ===== verification/Provider.v ===== *)
(** * Package [internal/provider]: questions, answers and their validation

    A [float64] is an IEEE 754 binary64 datum of the Rocq library's executable
    specification ([spec_float] with precision 53 and maximal exponent 1024),
    so every comparison and every rounded sum is the one the program computes.
    Go visits the entries of a map in an unspecified order and the order of a
    floating-point sum matters: the order is supplied by a [MapRange], and the
    theorems hold for each of them. *)
From S2P Require Import Prelude GoBase Domain.
From Stdlib Require Import SpecFloat.
From stdpp Require Import pretty.
#[local] Open Scope Z_scope.

(** ** float64 *)

Abbreviation float64 := spec_float (only parsing).
Definition f64_add : float64 → float64 → float64 := SFadd 53 1024.
Definition f64_sub : float64 → float64 → float64 := SFsub 53 1024.
Definition f64_mul : float64 → float64 → float64 := SFmul 53 1024.
Definition f64_of_Z (z : Z) : float64 := binary_normalize 53 1024 z 0 false.
Definition f64_ltb (x y : float64) : bool := SFltb x y.
Definition f64_leb (x y : float64) : bool := SFleb x y.

Definition f64_0 : float64 := S754_zero false.
Definition f64_1 : float64 := S754_finite false 4503599627370496 (-52).
(** The binary64 roundings of the decimal constants [1e-9] and [1e-6]. *)
Definition probabilityTolerance : float64 := S754_finite false 4835703278458517 (-82).
Definition f64_1em6 : float64 := S754_finite false 4722366482869645 (-72).

Definition isFinite (x : float64) : bool :=
  match x with S754_nan | S754_infinity _ => false | _ => true end.

(** The iteration order of a Go map of probabilities at a [range] statement;
    [site] distinguishes the answers being validated. *)
Class MapRange := {
  map_range (site : string) (m : gmap string float64) : list (string * float64);
  map_range_perm site m : map_range site m ≡ₚ map_to_list m
}.

(** ** [provider.go] *)

Abbreviation QuestionType := string (only parsing).
Definition QuestionTypeNoul : QuestionType := "noul".
Definition QuestionTypeChoice : QuestionType := "choice".
Definition QuestionTypeScore : QuestionType := "score".

Record Question := {
  q_Type : QuestionType; q_Instructions : string;
  q_Criteria : gmap string string; q_Levels : list string
}.

Record Answer := {
  a_Type : QuestionType; a_Noul : option float64; a_Choice : string;
  a_Score : option float64; a_Legend : gmap string string;
  a_Probabilities : gmap string float64; a_Confidence : option float64
}.

Record Usage := { InputTokens : Z; OutputTokens : Z }.

Record EvaluationRequest := {
  req_State : string; req_Questions : gmap string Question; req_RubricVersion : string;
  req_RequestID : string; req_RequestedModel : string
}.

Record EvaluationResponse := {
  resp_Answers : gmap string Answer; resp_Provider : string; resp_RequestedModel : string;
  resp_ResolvedModel : string; resp_RequestID : string; resp_ProviderRequestID : string;
  resp_Usage : Usage; resp_Latency : duration; resp_Attempts : Z; resp_RawResponseHash : string
}.

(** ** [validate.go]: errors *)

Inductive ValidationError :=
  | questions_must_not_be_empty
  | question_ID_must_not_be_empty
  | instructions_must_not_be_empty (id : string)
  | noul_must_not_define_levels (id : string)
  | noul_criteria_must_define_true_and_false (id : string)
  | noul_criteria_missing (id which : string)
  | choice_must_not_define_levels (id : string)
  | choice_must_define_two_criteria (id : string)
  | choice_ID_must_not_be_empty (id : string)
  | score_must_not_define_criteria (id : string)
  | score_must_define_two_levels (id : string)
  | score_level_must_not_be_empty (id : string)
  | duplicate_score_level (id level : string)
  | unknown_question_type (id type : string)
  | invalid_questions (e : ValidationError)
  | unknown_answer (id : string)
  | missing_answer (id : string)
  | answer_type_mismatch (id : string)
  | in_answer (id : string) (e : ValidationError)
  | value_required (name : string)
  | not_allowed (name : string)
  | must_be_finite (name : string)
  | must_be_unit (name : string)
  | fields_for_another_type
  | unknown_choice (choice : string)
  | choice_not_most_probable (choice : string)
  | score_out_of_range
  | legend_wrong_size
  | legend_missing_level (key : string)
  | legend_duplicate_value (value : string)
  | legend_wrong_value (key : string)
  | score_does_not_match
  | probabilities_wrong_size
  | probabilities_unknown_key (key : string)
  | probabilities_bad_sum.

Abbreviation check := (result ValidationError unit) (only parsing).

(** ** [validate.go]: questions *)

(** The keys of a map, sorted ([sortedQuestionIDs], [sortedAnswerIDs] and the
    loops that collect and sort the keys of [Criteria]). *)
Definition sortedKeys {A} (m : gmap string A) : list string :=
  sort_strings (map fst (map_to_list m)).
Definition sortedQuestionIDs (questions : gmap string Question) : list string :=
  sortedKeys questions.
Definition sortedAnswerIDs (answers : gmap string Answer) : list string :=
  sortedKeys answers.

Fixpoint checkLevels (id : string) (seen : gset string) (levels : list string) : check :=
  match levels with
  | [] => Ok ()
  | level :: rest =>
      fail_if! blank level with score_level_must_not_be_empty id;
      fail_if! bool_decide (level ∈ seen) with duplicate_score_level id level;
      checkLevels id ({[level]} ∪ seen) rest
  end.

Definition hasKey {A} (k : string) (m : gmap string A) : bool :=
  match m !! k with Some _ => true | None => false end.

Definition validateQuestion (id : string) (q : Question) : check :=
  fail_if! blank id with question_ID_must_not_be_empty;
  fail_if! blank (q_Instructions q) with instructions_must_not_be_empty id;
  if q_Type q =s? QuestionTypeNoul then
    fail_if! negb (Nat.eqb (length (q_Levels q)) 0) with noul_must_not_define_levels id;
    if Nat.eqb (size (q_Criteria q)) 0 then Ok () else
    fail_if! negb (Nat.eqb (size (q_Criteria q)) 2)
      with noul_criteria_must_define_true_and_false id;
    fail_if! negb (hasKey "true" (q_Criteria q)) with noul_criteria_missing id "true";
    fail_if! negb (hasKey "false" (q_Criteria q)) with noul_criteria_missing id "false";
    Ok ()
  else if q_Type q =s? QuestionTypeChoice then
    fail_if! negb (Nat.eqb (length (q_Levels q)) 0) with choice_must_not_define_levels id;
    fail_if! Nat.ltb (size (q_Criteria q)) 2 with choice_must_define_two_criteria id;
    fail_if! existsb blank (map fst (map_to_list (q_Criteria q)))
      with choice_ID_must_not_be_empty id;
    Ok ()
  else if q_Type q =s? QuestionTypeScore then
    fail_if! negb (Nat.eqb (size (q_Criteria q)) 0) with score_must_not_define_criteria id;
    fail_if! Nat.ltb (length (q_Levels q)) 2 with score_must_define_two_levels id;
    checkLevels id ∅ (q_Levels q)
  else Err (unknown_question_type id (q_Type q)).

(** Run a check over a list, stopping at the first error. *)
Fixpoint forEach {A} (f : A → check) (l : list A) : check :=
  match l with
  | [] => Ok ()
  | x :: l => _ ←! f x; forEach f l
  end.

(** [questions[id]] for an [id] that came from the map. *)
Definition withKey {A} (m : gmap string A) (id : string) (f : A → check) : check :=
  match m !! id with Some v => f v | None => Ok () end.

Definition ValidateQuestions (questions : gmap string Question) : check :=
  fail_if! Nat.eqb (size questions) 0 with questions_must_not_be_empty;
  forEach (λ id, withKey questions id (validateQuestion id)) (sortedQuestionIDs questions).

(** ** [validate.go]: answers *)

Definition validateUnitValue (name : string) (value : float64) : check :=
  fail_if! negb (isFinite value) with must_be_finite name;
  fail_if! f64_ltb value f64_0 || f64_ltb f64_1 value with must_be_unit name;
  Ok ().

Definition validateConfidence (confidence : option float64) : check :=
  match confidence with
  | None => Err (value_required "confidence")
  | Some c => validateUnitValue "confidence" c
  end.

Definition isSome {A} (o : option A) : bool := match o with Some _ => true | None => false end.

Definition validateNoulAnswer (answer : Answer) : check :=
  match a_Noul answer with
  | None => Err (value_required "noul")
  | Some noul =>
      _ ←! validateUnitValue "noul" noul;
      fail_if! a_Choice answer ≠s? "" with not_allowed "choice";
      fail_if! isSome (a_Score answer) with not_allowed "score";
      fail_if! negb (Nat.eqb (size (a_Legend answer)) 0) with not_allowed "legend";
      fail_if! negb (Nat.eqb (size (a_Probabilities answer)) 0) with not_allowed "probabilities";
      fail_if! isSome (a_Confidence answer) with not_allowed "confidence";
      Ok ()
  end.

(** The loop of [validateDistribution] over the entries in iteration order,
    with the running sum. *)
Fixpoint sumProbabilities (expected : list string) (sum : float64)
    (entries : list (string * float64)) : result ValidationError float64 :=
  match entries with
  | [] => Ok sum
  | (key, p) :: rest =>
      fail_if! negb (bool_decide (key ∈ expected)) with probabilities_unknown_key key;
      fail_if! negb (isFinite p) with must_be_finite key;
      fail_if! f64_ltb p f64_0 || f64_ltb f64_1 p with must_be_unit key;
      sumProbabilities expected (f64_add sum p) rest
  end.

Section Validate.
Context `{MapRange}.

Definition validateDistribution (site : string) (expectedKeys : list string)
    (probabilities : gmap string float64) : check :=
  fail_if! negb (Nat.eqb (size probabilities) (length expectedKeys))
    with probabilities_wrong_size;
  sum ←! sumProbabilities expectedKeys f64_0 (map_range site probabilities);
  fail_if! f64_ltb probabilityTolerance (SFabs (f64_sub sum f64_1)) with probabilities_bad_sum;
  Ok ().

Definition validateChoiceAnswer (site : string) (question : Question) (answer : Answer) : check :=
  fail_if! isSome (a_Noul answer) || isSome (a_Score answer)
           || negb (Nat.eqb (size (a_Legend answer)) 0) with fields_for_another_type;
  fail_if! negb (hasKey (a_Choice answer) (q_Criteria question))
    with unknown_choice (a_Choice answer);
  _ ←! validateConfidence (a_Confidence answer);
  _ ←! validateDistribution site (sortedKeys (q_Criteria question)) (a_Probabilities answer);
  (* a missing key reads as the zero value *)
  let selected := default f64_0 (a_Probabilities answer !! a_Choice answer) in
  fail_if! existsb (λ kp, f64_ltb (f64_add selected probabilityTolerance) kp.2)
             (map_range site (a_Probabilities answer))
    with choice_not_most_probable (a_Choice answer);
  Ok ().

(** The legend loop from [index] on; it returns the keys it has built. *)
Fixpoint checkLegend (legend : gmap string string) (seen : gset string) (index : nat)
    (levels : list string) : result ValidationError (list string) :=
  match levels with
  | [] => Ok []
  | expected :: rest =>
      let key := pretty index in
      match legend !! key with
      | None => Err (legend_missing_level key)
      | Some actual =>
          fail_if! bool_decide (actual ∈ seen) with legend_duplicate_value actual;
          fail_if! actual ≠s? expected with legend_wrong_value key;
          keys ←! checkLegend legend ({[actual]} ∪ seen) (S index) rest;
          Ok (key :: keys)
      end
  end.

(** [weighted += float64(index) * probabilities[key]] over [keys]. *)
Fixpoint weightedScore (probabilities : gmap string float64) (weighted : float64)
    (index : nat) (keys : list string) : float64 :=
  match keys with
  | [] => weighted
  | key :: rest =>
      let p := default f64_0 (probabilities !! key) in
      weightedScore probabilities
        (f64_add weighted (f64_mul (f64_of_Z (Z.of_nat index)) p)) (S index) rest
  end.

Definition validateScoreAnswer (site : string) (question : Question) (answer : Answer) : check :=
  fail_if! isSome (a_Noul answer) || (a_Choice answer ≠s? "") with fields_for_another_type;
  match a_Score answer with
  | None => Err (value_required "score")
  | Some score =>
      fail_if! negb (isFinite score) with must_be_finite "score";
      fail_if! f64_ltb score f64_0
               || f64_ltb (f64_of_Z (Z.of_nat (length (q_Levels question)) - 1)) score
        with score_out_of_range;
      _ ←! validateConfidence (a_Confidence answer);
      fail_if! negb (Nat.eqb (size (a_Legend answer)) (length (q_Levels question)))
        with legend_wrong_size;
      keys ←! checkLegend (a_Legend answer) ∅ 0 (q_Levels question);
      _ ←! validateDistribution site keys (a_Probabilities answer);
      let weighted := weightedScore (a_Probabilities answer) f64_0 0 keys in
      fail_if! f64_ltb f64_1em6 (SFabs (f64_sub weighted score)) with score_does_not_match;
      Ok ()
  end.

Definition wrapAnswer (id : string) (c : check) : check :=
  match c with Ok u => Ok u | Err e => Err (in_answer id e) end.

Definition validateAnswer (answers : gmap string Answer) (id : string) (q : Question) : check :=
  match answers !! id with
  | None => Err (missing_answer id)
  | Some answer =>
      fail_if! a_Type answer ≠s? q_Type q with answer_type_mismatch id;
      wrapAnswer id
        (if q_Type q =s? QuestionTypeNoul then validateNoulAnswer answer
         else if q_Type q =s? QuestionTypeChoice then validateChoiceAnswer id q answer
         else if q_Type q =s? QuestionTypeScore then validateScoreAnswer id q answer
         else Ok ())
  end.

Definition ValidateAnswers (questions : gmap string Question) (answers : gmap string Answer)
    : check :=
  match ValidateQuestions questions with
  | Err e => Err (invalid_questions e)
  | Ok _ =>
      _ ←! forEach (λ id, if hasKey id questions then Ok () else Err (unknown_answer id))
             (sortedAnswerIDs answers);
      forEach (λ id, withKey questions id (validateAnswer answers id))
        (sortedQuestionIDs questions)
  end.
End Validate.

(** The iteration in the order of the map's tree, for evaluation. *)
Definition range_in_order : MapRange :=
  {| map_range _ m := map_to_list m; map_range_perm _ _ := Permutation_refl _ |}.

(** ** Lemmas *)

Lemma SFcompare_antisym x y : SFcompare y x = CompOpp <$> SFcompare x y.
Proof.
  destruct x as [| | |sx mx ex], y as [| | |sy my ey]; simpl; try done;
    repeat match goal with b : bool |- _ => destruct b end; simpl; try done;
    rewrite (Z.compare_antisym ex ey); destruct (Z.compare ex ey); simpl; try done;
    f_equal; change (Pos.compare_cont Eq) with Pos.compare;
    by rewrite (Pos.compare_antisym mx my), ?CompOpp_involutive.
Qed.

Lemma f64_leb_ltb x y :
  isFinite x = true → isFinite y = true → f64_leb y x = negb (f64_ltb x y).
Proof.
  intros Hx Hy. unfold f64_leb, f64_ltb, SFleb, SFltb. rewrite (SFcompare_antisym x y).
  destruct (SFcompare x y) as [[]|] eqn:E; simpl; try done.
  destruct x, y; simplify_eq/=; done.
Qed.

(** [x] is a number of the unit interval. *)
Definition unit_value (x : float64) : Prop := f64_leb f64_0 x = true ∧ f64_leb x f64_1 = true.

Lemma in_bounds x lo hi :
  isFinite lo = true → isFinite hi = true → isFinite x = true →
  f64_ltb x lo || f64_ltb hi x = false → f64_leb lo x = true ∧ f64_leb x hi = true.
Proof.
  intros Hlo Hhi Hx [H1 H2]%orb_false_iff.
  rewrite (f64_leb_ltb x lo), (f64_leb_ltb hi x) by done. by rewrite H1, H2.
Qed.

Lemma forEach_ok {A} (f : A → check) l : forEach f l = Ok () ↔ ∀ x, x ∈ l → f x = Ok ().
Proof.
  induction l as [|x l IH]; simpl.
  - split; [by intros _ x ?%elem_of_nil|done].
  - rewrite rbind_ok. split.
    + intros (u & Hx & Hl) y [->|Hy]%elem_of_cons; [by destruct u|]. by apply IH.
    + intros Hall. exists (). split; [apply Hall; left|]. apply IH. intros y Hy. apply Hall. by right.
Qed.

Lemma elem_of_sortedKeys {A} (m : gmap string A) k : k ∈ sortedKeys m ↔ is_Some (m !! k).
Proof.
  unfold sortedKeys. rewrite elem_of_sort_strings, list_elem_of_fmap. split.
  - intros ([k' v] & -> & Hv%elem_of_map_to_list). eauto.
  - intros [v Hv]. exists (k, v). split; [done|]. by apply elem_of_map_to_list.
Qed.

Lemma length_sortedKeys {A} (m : gmap string A) : length (sortedKeys m) = size m.
Proof.
  unfold sortedKeys, sort_strings. rewrite length_sort_slice, length_fmap.
  by rewrite length_map_to_list.
Qed.

Lemma NoDup_sortedKeys {A} (m : gmap string A) : NoDup (sortedKeys m).
Proof. apply NoDup_sort_slice, NoDup_fst_map_to_list. Qed.

Lemma forEach_keys {A} (m : gmap string A) (f : string → A → check) :
  forEach (λ id, withKey m id (f id)) (sortedKeys m) = Ok () ↔
  ∀ id v, m !! id = Some v → f id v = Ok ().
Proof.
  rewrite forEach_ok. setoid_rewrite elem_of_sortedKeys. unfold withKey. split.
  - intros H id v Hv. specialize (H id (mk_is_Some _ _ Hv)). by rewrite Hv in H.
  - intros H id [v Hv]. rewrite Hv. by apply H.
Qed.

Lemma hasKey_true {A} k (m : gmap string A) : hasKey k m = true ↔ is_Some (m !! k).
Proof. unfold hasKey. destruct (m !! k); split; naive_solver. Qed.

Lemma isSome_false {A} (o : option A) : isSome o = false ↔ o = None.
Proof. by destruct o. Qed.

Lemma size_zero {A} (m : gmap string A) : Nat.eqb (size m) 0 = true ↔ m = ∅.
Proof. rewrite Nat.eqb_eq. apply map_size_empty_iff. Qed.

#[export] Hint Rewrite @isSome_false @hasKey_true @size_zero : ravenb.

(** [ok_inv] inverts a successful chain of checks. *)
Ltac ok_inv :=
  repeat match goal with
  | H : rbind _ _ = Ok _ |- _ => apply rbind_ok in H as (? & ? & ?)
  | H : (if _ then Err _ else _) = Ok _ |- _ => apply fail_if_ok in H as [? ?]
  | H : Err _ = Ok _ |- _ => discriminate H
  | u : unit |- _ => destruct u
  end.

Lemma validateUnitValue_ok name x : validateUnitValue name x = Ok () → unit_value x.
Proof.
  unfold validateUnitValue. intros. ok_inv. bool_to_prop.
  apply in_bounds; [done..|]. apply orb_false_iff. tauto.
Qed.

Lemma validateConfidence_ok c : validateConfidence c = Ok () → ∃ x, c = Some x ∧ unit_value x.
Proof. destruct c as [x|]; simpl; [|done]. intros ?%validateUnitValue_ok. eauto. Qed.

Lemma sumProbabilities_ok expected sum entries total :
  sumProbabilities expected sum entries = Ok total →
  (∀ k p, (k, p) ∈ entries → k ∈ expected ∧ unit_value p) ∧
  total = fold_left (λ acc kp, f64_add acc kp.2) entries sum.
Proof.
  revert sum. induction entries as [|[k p] rest IH]; intros sum; simpl.
  { intros [= ->]. split; [by intros ?? ?%elem_of_nil|done]. }
  intros. ok_inv. bool_to_prop.
  match goal with H : sumProbabilities _ _ _ = _ |- _ => apply IH in H as [Hall ->] end.
  split; [|done]. intros k' p' [[= -> ->]|Hin]%elem_of_cons; [|by apply Hall].
  split; [done|]. apply in_bounds; [done..|]. apply orb_false_iff. tauto.
Qed.

Lemma same_keys (keys : list string) (m : gmap string float64) :
  NoDup keys → size m = length keys → (∀ k p, m !! k = Some p → k ∈ keys) →
  ∀ k, is_Some (m !! k) ↔ k ∈ keys.
Proof.
  intros Hnd Hsize Hsub.
  assert (Hdom : dom m ⊆ (list_to_set keys : gset string)).
  { intros k [p Hp]%elem_of_dom. apply elem_of_list_to_set. by eapply Hsub. }
  assert (Heq : dom m = (list_to_set keys : gset string)).
  { apply leibniz_equiv, set_subseteq_size_equiv; [done|].
    rewrite size_list_to_set by done. rewrite size_dom. lia. }
  intros k. rewrite <- elem_of_dom, Heq. apply elem_of_list_to_set.
Qed.

(** What [validateDistribution] guarantees: exactly the expected keys, each
    with a number of the unit interval. *)
Definition distribution (keys : list string) (m : gmap string float64) : Prop :=
  (∀ k, is_Some (m !! k) ↔ k ∈ keys) ∧ (∀ k p, m !! k = Some p → unit_value p).

Section ValidateLemmas.
Context `{MapRange}.

Lemma elem_of_range site m k p : (k, p) ∈ map_range site m ↔ m !! k = Some p.
Proof. rewrite map_range_perm. apply elem_of_map_to_list. Qed.

Lemma validateDistribution_ok site keys m :
  NoDup keys → validateDistribution site keys m = Ok () → distribution keys m.
Proof.
  unfold validateDistribution. intros Hnd ?. ok_inv. bool_to_prop.
  match goal with H : sumProbabilities _ _ _ = _ |- _ =>
    apply sumProbabilities_ok in H as [Hall _] end.
  setoid_rewrite elem_of_range in Hall. split.
  - apply same_keys; [done..|]. intros k p Hp. by apply Hall in Hp as [? _].
  - intros k p Hp. by apply Hall in Hp as [_ ?].
Qed.

Lemma checkLegend_ok legend seen i levels keys :
  checkLegend legend seen i levels = Ok keys →
  keys = map pretty (seq i (length levels)) ∧
  ∀ j level, levels !! j = Some level → legend !! pretty (i + j)%nat = Some level.
Proof.
  revert seen i keys. induction levels as [|x levels IH]; intros seen i keys; simpl.
  { intros [= <-]. split; [done|]. intros j ?. by rewrite lookup_nil. }
  destruct (legend !! pretty i) as [actual|] eqn:Ha; [|done].
  intros. ok_inv. simplify_eq. bool_to_prop. subst.
  match goal with H : checkLegend _ _ _ _ = _ |- _ => apply IH in H as [-> Hl] end.
  split; [done|]. intros [|j] level; simpl; [intros [= <-]; by rewrite Nat.add_0_r|].
  intros Hj%Hl. by rewrite <- Nat.add_succ_comm.
Qed.
End ValidateLemmas.

(** An answer is well formed for its question when it is of the question's
    type, carries exactly the fields of that type and every number is in range. *)
Definition wellFormedNoul (a : Answer) : Prop :=
  (∃ x, a_Noul a = Some x ∧ unit_value x) ∧ a_Choice a = "" ∧ a_Score a = None ∧
  a_Legend a = ∅ ∧ a_Probabilities a = ∅ ∧ a_Confidence a = None.

Definition wellFormedChoice (q : Question) (a : Answer) : Prop :=
  a_Noul a = None ∧ a_Score a = None ∧ a_Legend a = ∅ ∧
  is_Some (q_Criteria q !! a_Choice a) ∧
  (∃ c, a_Confidence a = Some c ∧ unit_value c) ∧
  distribution (sortedKeys (q_Criteria q)) (a_Probabilities a) ∧
  ∃ best, a_Probabilities a !! a_Choice a = Some best ∧
    ∀ k p, a_Probabilities a !! k = Some p → f64_ltb (f64_add best probabilityTolerance) p = false.

Definition wellFormedScore (q : Question) (a : Answer) : Prop :=
  a_Noul a = None ∧ a_Choice a = "" ∧
  (∃ x, a_Score a = Some x ∧ isFinite x = true ∧ f64_ltb x f64_0 = false ∧
     f64_ltb (f64_of_Z (Z.of_nat (length (q_Levels q)) - 1)) x = false) ∧
  (∃ c, a_Confidence a = Some c ∧ unit_value c) ∧
  size (a_Legend a) = length (q_Levels q) ∧
  (∀ i level, q_Levels q !! i = Some level → a_Legend a !! pretty i = Some level) ∧
  distribution (map pretty (seq 0 (length (q_Levels q)))) (a_Probabilities a).

Definition wellFormed (q : Question) (a : Answer) : Prop :=
  a_Type a = q_Type q ∧
  (q_Type q = QuestionTypeNoul ∧ wellFormedNoul a ∨
   q_Type q = QuestionTypeChoice ∧ wellFormedChoice q a ∨
   q_Type q = QuestionTypeScore ∧ wellFormedScore q a).

Section ValidateSound.
Context `{MapRange}.

Lemma validateNoulAnswer_ok a : validateNoulAnswer a = Ok () → wellFormedNoul a.
Proof.
  unfold validateNoulAnswer, wellFormedNoul. destruct (a_Noul a) as [x|]; [|done].
  intros. ok_inv. bool_to_prop. split_and!; eauto using validateUnitValue_ok.
Qed.

Lemma validateChoiceAnswer_ok site q a :
  validateChoiceAnswer site q a = Ok () → wellFormedChoice q a.
Proof.
  unfold validateChoiceAnswer, wellFormedChoice. intros. ok_inv.
  match goal with H : existsb _ _ = false |- _ => rename H into Hbest end. bool_to_prop.
  destruct_and!.
  match goal with H : validateDistribution _ _ _ = _ |- _ =>
    apply validateDistribution_ok in H as Hd; [|apply NoDup_sortedKeys] end.
  split_and!; eauto using validateConfidence_ok.
  destruct (a_Probabilities a !! a_Choice a) as [best|] eqn:Hb; simpl in *.
  - exists best. split; [done|]. intros k p Hp. apply not_true_is_false. intros Hlt.
    apply not_true_iff_false in Hbest. apply Hbest, existsb_exists. exists (k, p).
    by rewrite <- list_elem_of_In, elem_of_range.
  - exfalso. apply (is_Some_None (A := spec_float)). rewrite <- Hb.
    by apply Hd, elem_of_sortedKeys.
Qed.

Lemma validateScoreAnswer_ok site q a :
  validateScoreAnswer site q a = Ok () → wellFormedScore q a.
Proof.
  unfold validateScoreAnswer, wellFormedScore.
  destruct (a_Score a) as [x|]; [|intros; by ok_inv].
  intros. ok_inv. bool_to_prop. destruct_and!.
  match goal with H : checkLegend _ _ _ _ = _ |- _ => apply checkLegend_ok in H as [-> Hl] end.
  match goal with H : validateDistribution _ _ _ = _ |- _ =>
    apply validateDistribution_ok in H; [|apply NoDup_fmap_2, NoDup_seq; apply _] end.
  split_and!; eauto 6 using validateConfidence_ok.
Qed.
End ValidateSound.

Lemma validateQuestion_type id q :
  validateQuestion id q = Ok () →
  q_Type q = QuestionTypeNoul ∨ q_Type q = QuestionTypeChoice ∨ q_Type q = QuestionTypeScore.
Proof.
  unfold validateQuestion. intros. ok_inv.
  destruct (String.eqb_spec (q_Type q) QuestionTypeNoul) as [|]; [auto|].
  destruct (String.eqb_spec (q_Type q) QuestionTypeChoice) as [|]; [auto|].
  destruct (String.eqb_spec (q_Type q) QuestionTypeScore) as [|]; [auto|]. by ok_inv.
Qed.

Lemma validateAnswer_ok `{MapRange} answers id q :
  validateQuestion id q = Ok () → validateAnswer answers id q = Ok () →
  ∃ a, answers !! id = Some a ∧ wellFormed q a.
Proof.
  intros Ht%validateQuestion_type. unfold validateAnswer, wellFormed, wrapAnswer.
  destruct (answers !! id) as [a|]; [|done]. intros. ok_inv. bool_to_prop.
  exists a. split; [done|]. split; [done|].
  destruct Ht as [Ht|[Ht|Ht]]; rewrite Ht in *; simpl in *; go_cases;
    destruct_and?; repeat match goal with u : unit |- _ => destruct u end;
    eauto 6 using validateNoulAnswer_ok, validateChoiceAnswer_ok, validateScoreAnswer_ok.
Qed.

Section ProviderProperties.
Context `{MapRange}.

Lemma answers_sound questions answers :
  ValidateAnswers questions answers = Ok () →
  (∀ id, is_Some (answers !! id) ↔ is_Some (questions !! id)) ∧
  ∀ id q, questions !! id = Some q → ∃ a, answers !! id = Some a ∧ wellFormed q a.
Proof.
  unfold ValidateAnswers. destruct (ValidateQuestions questions) as [[]|] eqn:Hq; [|done].
  intros. ok_inv. unfold ValidateQuestions in Hq. ok_inv.
  match goal with H : forEach _ (sortedAnswerIDs _) = _ |- _ =>
    rewrite forEach_ok in H; rename H into Hknown end.
  setoid_rewrite elem_of_sortedKeys in Hknown.
  unfold sortedQuestionIDs in *.
  repeat match goal with H : forEach (λ id, withKey _ id (?f id)) _ = _ |- _ =>
    rewrite (forEach_keys questions f) in H end.
  assert (Hwf : ∀ id q, questions !! id = Some q → ∃ a, answers !! id = Some a ∧ wellFormed q a)
    by (intros id q Hid; apply (validateAnswer_ok answers id q); eauto).
  split; [|done]. intros id. split.
  - intros Ha%Hknown. destruct (hasKey id questions) eqn:E; [|done]. by apply hasKey_true in E.
  - intros [q (a & Ha & _)%Hwf]. eauto.
Qed.

(** C26: provider output that passes validation is a complete, well-typed set
    of answers: exactly the questions asked are answered, each answer has its
    question's type and only the fields of that type, and every probability,
    confidence, score and choice is in range, whatever order Go visits the
    probability maps in. *)
Theorem validateAnswers_sound questions answers :
  ValidateAnswers questions answers = Ok () →
  (∀ id, is_Some (answers !! id) ↔ is_Some (questions !! id)) ∧
  ∀ id q, questions !! id = Some q → ∃ a, answers !! id = Some a ∧ wellFormed q a.
Proof. apply answers_sound. Qed.
End ProviderProperties.


(** ** Witness *)

Module ProviderWitness.
Definition f64_half : float64 := S754_finite false 4503599627370496 (-53).
Definition questions : gmap string Question := list_to_map [
  ("sure", {| q_Type := QuestionTypeNoul; q_Instructions := "Is it down?";
              q_Criteria := ∅; q_Levels := [] |});
  ("cause", {| q_Type := QuestionTypeChoice; q_Instructions := "Why?";
               q_Criteria := list_to_map [("disk", "storage"); ("net", "network")];
               q_Levels := [] |});
  ("impact", {| q_Type := QuestionTypeScore; q_Instructions := "How bad?"; q_Criteria := ∅;
                q_Levels := ["none"; "some"] |})].
Definition answers : gmap string Answer := list_to_map [
  ("sure", {| a_Type := QuestionTypeNoul; a_Noul := Some f64_1; a_Choice := ""; a_Score := None;
              a_Legend := ∅; a_Probabilities := ∅; a_Confidence := None |});
  ("cause", {| a_Type := QuestionTypeChoice; a_Noul := None; a_Choice := "net"; a_Score := None;
               a_Legend := ∅; a_Confidence := Some f64_half;
               a_Probabilities := list_to_map [("disk", f64_half); ("net", f64_half)] |});
  ("impact", {| a_Type := QuestionTypeScore; a_Noul := None; a_Choice := "";
                a_Score := Some f64_half; a_Legend := list_to_map [("0", "none"); ("1", "some")];
                a_Confidence := Some f64_1;
                a_Probabilities := list_to_map [("0", f64_half); ("1", f64_half)] |})].
End ProviderWitness.

Lemma validateAnswers_sound_witness :
  ∃ a, ProviderWitness.answers !! "cause" = Some a ∧ a_Type a = QuestionTypeChoice.
Proof.
  destruct (validateAnswers_sound (H := range_in_order) ProviderWitness.questions
              ProviderWitness.answers) as [_ Hwf]; [by vm_compute|].
  destruct (ProviderWitness.questions !! "cause") as [q|] eqn:Hq; [|by vm_compute in Hq].
  destruct (Hwf "cause" q Hq) as (a & Ha & Ht & _). exists a. split; [exact Ha|].
  rewrite Ht. vm_compute in Hq. by injection Hq as <-.
Defined.
