(* ===== verification/Decision.v ===== *)
(** * Package [internal/decision]: the rubric and the decision composer

    [Compose] dereferences pointers of the answers map; a nil dereference is a
    panic, written [None].  [compose_total] shows that it cannot happen. *)
From S2P Require Import Prelude GoBase Domain Rules Provider.
From Stdlib Require Import SpecFloat.
#[local] Open Scope Z_scope.

(** ** [questions.go] *)

Definition OperationalTriageV1 : string := "operational-triage-v1".
Definition QuestionIncidentFamily : string := "incident_family".
Definition QuestionOperationalImpact : string := "operational_impact".
Definition QuestionRequiresImmediateAttention : string := "requires_immediate_attention".
Definition QuestionLikelyTransient : string := "likely_transient".

Definition operationalTriageV1 : gmap string Question := list_to_map [
  (QuestionIncidentFamily,
   {| q_Type := QuestionTypeChoice;
      q_Instructions := "Which incident family best explains the observed operational state?";
      q_Criteria := list_to_map [
        ("application", "Application process, runtime, or workload behavior");
        ("configuration", "Invalid or incompatible workload or cluster configuration");
        ("dependency", "A required internal or external dependency is failing");
        ("infrastructure", "Cluster, node, storage, or networking infrastructure");
        ("security", "A suspected security or access-control issue");
        ("unknown", "The bounded evidence does not support another family")];
      q_Levels := [] |});
  (QuestionOperationalImpact,
   {| q_Type := QuestionTypeScore;
      q_Instructions := "Rate the current operational impact from the bounded evidence.";
      q_Criteria := ∅;
      q_Levels := [
        "No current user-visible impact";
        "Limited degradation or a working workaround";
        "Material degradation affecting multiple users or a critical workload";
        "Broad outage, data-loss risk, or security impact"] |});
  (QuestionRequiresImmediateAttention,
   {| q_Type := QuestionTypeNoul;
      q_Instructions := "Does the incident require immediate human attention?";
      q_Criteria := list_to_map [
        ("true", "Delay is likely to materially increase operational harm");
        ("false", "The incident can safely wait for normal triage")];
      q_Levels := [] |});
  (QuestionLikelyTransient,
   {| q_Type := QuestionTypeNoul;
      q_Instructions := "Is the observed condition likely to clear without intervention?";
      q_Criteria := list_to_map [
        ("true", "The evidence indicates a short-lived or self-healing condition");
        ("false", "The condition is likely persistent or requires intervention")];
      q_Levels := [] |})].

(** [cloneStringMap] copies entry by entry into a fresh map. *)
Definition cloneStringMap (source : gmap string string) : gmap string string :=
  foldr (λ kv cloned, <[kv.1 := kv.2]> cloned) ∅ (map_to_list source).

Definition OperationalTriageV1Questions : gmap string Question :=
  (λ q, {| q_Type := q_Type q; q_Instructions := q_Instructions q;
           q_Criteria := cloneStringMap (q_Criteria q); q_Levels := q_Levels q |})
  <$> operationalTriageV1.

(** ** [composer.go] *)

Definition CompositionPolicyVersion : string := "operational-composer-v1".

Record Thresholds := {
  th_PolicyVersion : string; WarningImpact : float64; CriticalImpact : float64;
  WarningImmediateAttention : float64; CriticalImmediateAttention : float64;
  LikelyTransientRecord : float64
}.

Record Composer := { thresholds : Thresholds; fallback : Decision }.

(** The binary64 roundings of 1, 2.5, 0.5, 0.85 and 0.7. *)
Definition NewComposer : Composer :=
  {| thresholds :=
       {| th_PolicyVersion := CompositionPolicyVersion;
          WarningImpact := f64_1;
          CriticalImpact := S754_finite false 5629499534213120 (-51);
          WarningImmediateAttention := S754_finite false 4503599627370496 (-53);
          CriticalImmediateAttention := S754_finite false 7656119366529843 (-53);
          LikelyTransientRecord := S754_finite false 6305039478318694 (-53) |};
     fallback :=
       {| dec_Severity := SeverityWarning; dec_Action := ActionNotify;
          dec_Summary := "Provider evidence unavailable; manual triage required";
          dec_ReasonCodes := ["provider_unavailable"]; dec_RuleIDs := [] |} |}.

Definition composer_PolicyVersion (c : Composer) : string := th_PolicyVersion (thresholds c).

Module Composer.
(** The package's own copy of [severityRank]. *)
Definition severityRank (s : Severity) : Z :=
  if s =s? SeverityCritical then 3
  else if s =s? SeverityWarning then 2
  else if s =s? SeverityInfo then 1
  else 0.
End Composer.

Definition actionRank (a : Action) : Z :=
  if a =s? ActionPage then 4
  else if a =s? ActionNotify then 3
  else if a =s? ActionRecord then 2
  else if a =s? ActionSuppress then 1
  else 0.

Definition ruleIDs (r : Result) : list string := map m_RuleID (res_Matches r).

(** The non-empty strings of both slices, without repetition, sorted. *)
Definition mergeStrings (left right : list string) : list string :=
  let add := λ (seen : gset string) (value : string),
    if value ≠s? "" then {[value]} ∪ seen else seen in
  let seen := fold_left add right (fold_left add left ∅) in
  sort_strings (elements seen).

Definition mergeRuleIDs (left right : list string) : list string := mergeStrings left right.

Definition set_RuleIDs (ids : list string) (d : Decision) : Decision :=
  {| dec_Severity := dec_Severity d; dec_Action := dec_Action d; dec_Summary := dec_Summary d;
     dec_ReasonCodes := dec_ReasonCodes d; dec_RuleIDs := ids |}.

Definition applyDeterministicFloor (decision : Decision) (floor : option Decision) : Decision :=
  match floor with
  | None => decision
  | Some floor =>
      let sevWon := Composer.severityRank (dec_Severity decision)
                    <? Composer.severityRank (dec_Severity floor) in
      let actWon := actionRank (dec_Action decision) <? actionRank (dec_Action floor) in
      let floorWon := sevWon || actWon in
      {| dec_Severity := if sevWon then dec_Severity floor else dec_Severity decision;
         dec_Action := if actWon then dec_Action floor else dec_Action decision;
         dec_Summary := if floorWon && (dec_Summary floor ≠s? "")
                        then dec_Summary floor else dec_Summary decision;
         dec_ReasonCodes := mergeStrings (dec_ReasonCodes decision) (dec_ReasonCodes floor);
         dec_RuleIDs := mergeRuleIDs (dec_RuleIDs decision) (dec_RuleIDs floor) |}
  end.

(** Reading a missing key of a Go map of answers gives the zero answer. *)
Definition zero_answer : Answer :=
  {| a_Type := ""; a_Noul := None; a_Choice := ""; a_Score := None; a_Legend := ∅;
     a_Probabilities := ∅; a_Confidence := None |}.
Definition answer_at (answers : gmap string Answer) (id : string) : Answer :=
  default zero_answer (answers !! id).

(** The switch of [composeOperationalTriage] on the evidence. *)
Definition triage (th : Thresholds) (family : string) (impact immediate transient : float64)
    : Decision :=
  let mk sev act code :=
    {| dec_Severity := sev; dec_Action := act;
       dec_Summary := "Provider evidence classifies the incident as " +:+ family;
       dec_ReasonCodes := ["provider_evidence"; "incident_family_" +:+ family; code];
       dec_RuleIDs := [] |} in
  if f64_leb (CriticalImpact th) impact || f64_leb (CriticalImmediateAttention th) immediate
  then mk SeverityCritical ActionPage "semantic_critical"
  else if f64_leb (WarningImpact th) impact || f64_leb (WarningImmediateAttention th) immediate
          || f64_ltb transient (LikelyTransientRecord th)
  then mk SeverityWarning ActionNotify "semantic_warning"
  else mk SeverityInfo ActionRecord "semantic_low_impact".

Definition composeOperationalTriage (c : Composer) (answers : gmap string Answer)
    : option Decision :=
  let family := a_Choice (answer_at answers QuestionIncidentFamily) in
  impact ← a_Score (answer_at answers QuestionOperationalImpact);
  immediate ← a_Noul (answer_at answers QuestionRequiresImmediateAttention);
  transient ← a_Noul (answer_at answers QuestionLikelyTransient);
  Some (triage (thresholds c) family impact immediate transient).

(** The evidence a composition starts from: the fallback on any provider error,
    unknown rubric or malformed answer ([providerErr] is [err != nil]). *)
Definition composeEvidence `{MapRange} (c : Composer) (r : Result)
    (answers : gmap string Answer) (providerErr : bool) : option Decision :=
  if providerErr || (res_QuestionSet r ≠s? OperationalTriageV1) then Some (fallback c)
  else if negb (is_ok (ValidateAnswers OperationalTriageV1Questions answers))
  then Some (fallback c)
  else composeOperationalTriage c answers.

Definition Compose `{MapRange} (c : Composer) (r : Result) (answers : gmap string Answer)
    (providerErr : bool) : option Decision :=
  if (res_Disposition r ≠s? DispositionSemantic) && isSome (res_Decision r) then res_Decision r
  else
    composed ← composeEvidence c r answers providerErr;
    Some (applyDeterministicFloor
            (set_RuleIDs (mergeRuleIDs (dec_RuleIDs composed) (ruleIDs r)) composed)
            (res_Decision r)).

(** ** Lemmas *)

Lemma cloneStringMap_id m : cloneStringMap m = m.
Proof. apply (list_to_map_to_list (M := gmap string)). Qed.

(** The copy handed out is the rubric itself. *)
Lemma questions_copy : OperationalTriageV1Questions = operationalTriageV1.
Proof.
  unfold OperationalTriageV1Questions. rewrite <- (map_fmap_id operationalTriageV1) at 2.
  apply map_fmap_ext. intros id [] _. simpl. by rewrite cloneStringMap_id.
Qed.

Lemma elem_of_fold_add l (seen : gset string) x :
  x ∈ fold_left (λ s v, if v ≠s? "" then {[v]} ∪ s else s) l seen ↔
  x ∈ seen ∨ (x ∈ l ∧ x ≠ "").
Proof.
  revert seen. induction l as [|v l IH]; intros seen; simpl; [set_solver|].
  rewrite IH. destruct (String.eqb_spec v ""); simpl; set_solver.
Qed.

Lemma elem_of_mergeStrings l r x : x ∈ mergeStrings l r ↔ (x ∈ l ∨ x ∈ r) ∧ x ≠ "".
Proof.
  unfold mergeStrings. rewrite elem_of_sort_strings, elem_of_elements, !elem_of_fold_add. set_solver.
Qed.

Lemma floor_severity d f :
  Composer.severityRank (dec_Severity (applyDeterministicFloor d (Some f))) =
  Z.max (Composer.severityRank (dec_Severity d)) (Composer.severityRank (dec_Severity f)).
Proof. simpl. destruct (Z.ltb_spec (Composer.severityRank (dec_Severity d))
  (Composer.severityRank (dec_Severity f))); lia. Qed.
Lemma floor_action d f :
  actionRank (dec_Action (applyDeterministicFloor d (Some f))) =
  Z.max (actionRank (dec_Action d)) (actionRank (dec_Action f)).
Proof. simpl. destruct (Z.ltb_spec (actionRank (dec_Action d)) (actionRank (dec_Action f))); lia. Qed.

(** *** Validated answers to the rubric carry the values the composer reads *)

Lemma rubric_types :
  (q_Type <$> OperationalTriageV1Questions !! QuestionIncidentFamily) = Some QuestionTypeChoice ∧
  (q_Type <$> OperationalTriageV1Questions !! QuestionOperationalImpact) = Some QuestionTypeScore ∧
  (q_Type <$> OperationalTriageV1Questions !! QuestionRequiresImmediateAttention)
    = Some QuestionTypeNoul ∧
  (q_Type <$> OperationalTriageV1Questions !! QuestionLikelyTransient) = Some QuestionTypeNoul.
Proof. by vm_compute. Qed.

Lemma is_ok_unit {E} (r : result E unit) : is_ok r = true ↔ r = Ok ().
Proof. destruct r as [[]|]; done. Qed.

Section Validated.
Context `{MapRange} (answers : gmap string Answer).
Hypothesis Hvalid : ValidateAnswers OperationalTriageV1Questions answers = Ok ().

Lemma valid_score id :
  (q_Type <$> OperationalTriageV1Questions !! id) = Some QuestionTypeScore →
  is_Some (a_Score (answer_at answers id)).
Proof.
  destruct (answers_sound _ _ Hvalid) as [_ Hwf].
  intros (q & Hq & Ht)%fmap_Some. destruct (Hwf id q Hq) as (a & Ha & _ & Hc).
  unfold answer_at. rewrite Ha. simpl. rewrite <- Ht in Hc.
  destruct Hc as [[? _]|[[? _]|[_ (_ & _ & (x & -> & _) & _)]]]; [done..|eauto].
Qed.

Lemma valid_noul id :
  (q_Type <$> OperationalTriageV1Questions !! id) = Some QuestionTypeNoul →
  is_Some (a_Noul (answer_at answers id)).
Proof.
  destruct (answers_sound _ _ Hvalid) as [_ Hwf].
  intros (q & Hq & Ht)%fmap_Some. destruct (Hwf id q Hq) as (a & Ha & _ & Hc).
  unfold answer_at. rewrite Ha. simpl. rewrite <- Ht in Hc.
  destruct Hc as [[_ ((x & -> & _) & _)]|[[? _]|[? _]]]; [eauto|done..].
Qed.

Lemma triage_defined c : ∃ impact immediate transient,
  a_Score (answer_at answers QuestionOperationalImpact) = Some impact ∧
  a_Noul (answer_at answers QuestionRequiresImmediateAttention) = Some immediate ∧
  a_Noul (answer_at answers QuestionLikelyTransient) = Some transient ∧
  composeOperationalTriage c answers =
    Some (triage (thresholds c) (a_Choice (answer_at answers QuestionIncidentFamily))
            impact immediate transient).
Proof.
  destruct rubric_types as (_ & Hi & Hm & Ht).
  destruct (valid_score _ Hi) as [impact Hi'], (valid_noul _ Hm) as [immediate Hm'],
    (valid_noul _ Ht) as [transient Ht'].
  exists impact, immediate, transient. split_and!; [done..|].
  unfold composeOperationalTriage. by rewrite Hi', Hm', Ht'.
Qed.
End Validated.

Lemma composeEvidence_defined `{MapRange} c r answers providerErr :
  is_Some (composeEvidence c r answers providerErr).
Proof.
  unfold composeEvidence. destruct (_ || _); [eauto|].
  destruct (is_ok _) eqn:Hv; simpl; [|eauto]. apply is_ok_unit in Hv.
  destruct (triage_defined answers Hv c) as (? & ? & ? & _ & _ & _ & ->). eauto.
Qed.

Lemma Compose_defined `{MapRange} c r answers providerErr :
  is_Some (Compose c r answers providerErr).
Proof.
  unfold Compose. destruct (_ && _) eqn:E.
  - destruct (res_Decision r); [eauto|]. by rewrite andb_false_r in E.
  - destruct (composeEvidence_defined c r answers providerErr) as [d ->]. simpl. eauto.
Qed.

(** ** Properties *)

Section ComposerProperties.
Context `{MapRange}.

(** Composing a decision never panics: every pointer the composer
    dereferences was checked by the validation of the answers. *)
Theorem compose_total c r answers providerErr :
  is_Some (Compose c r answers providerErr).
Proof. apply Compose_defined. Qed.

(** C2: provider evidence never weakens the deterministic decision: whatever
    the provider answers, the composed severity and action rank at least as
    high as those of the rule result, the rules it names are kept, and a
    decision that did not ask for semantic evaluation is returned as it is. *)
Theorem compose_never_downgrades c r answers providerErr d floor :
  Compose c r answers providerErr = Some d → res_Decision r = Some floor →
  severityRank (dec_Severity floor) ≤ severityRank (dec_Severity d) ∧
  actionRank (dec_Action floor) ≤ actionRank (dec_Action d) ∧
  (∀ id, id ∈ dec_RuleIDs floor → id ≠ "" → id ∈ dec_RuleIDs d) ∧
  (res_Disposition r ≠ DispositionSemantic → d = floor).
Proof.
  unfold Compose. intros Hd Hf. rewrite Hf in Hd.
  destruct (String.eqb_spec (res_Disposition r) DispositionSemantic) as [Hs|Hs];
    cbn [isSome negb andb] in Hd.
  - apply bind_Some in Hd as (composed & _ & Hd). apply (inj Some) in Hd as <-.
    change severityRank with Composer.severityRank. rewrite floor_severity, floor_action.
    split_and!; [lia..| |done].
    intros id Hid Hne. apply elem_of_mergeStrings. auto.
  - simplify_eq. split_and!; auto; lia.
Qed.

(** Any provider error, unknown rubric or malformed answer fails closed:
    for a result without a decision of its own the outcome is the configured
    fallback, marked with the rules that fired. *)
Theorem compose_fails_closed c r answers providerErr :
  res_Decision r = None →
  providerErr = true ∨ res_QuestionSet r ≠ OperationalTriageV1 ∨
    is_ok (ValidateAnswers OperationalTriageV1Questions answers) = false →
  Compose c r answers providerErr =
    Some (set_RuleIDs (mergeRuleIDs (dec_RuleIDs (fallback c)) (ruleIDs r)) (fallback c)).
Proof.
  intros Hd Hbad. unfold Compose. rewrite Hd. simpl. rewrite andb_false_r.
  assert (composeEvidence c r answers providerErr = Some (fallback c)) as ->; [|done].
  unfold composeEvidence.
  destruct providerErr; [done|]. simpl.
  destruct (String.eqb_spec (res_QuestionSet r) OperationalTriageV1); simpl; [|done].
  destruct Hbad as [?|[?|Hv]]; [done..|]. by rewrite Hv.
Qed.

(** On valid answers to the rubric the composed decision is determined by
    the thresholds alone: critical and paged when the impact or the need for
    immediate attention reaches its critical threshold; otherwise a warning
    that notifies when either reaches its warning threshold or the condition
    is not likely transient; otherwise an informational record. *)
Theorem compose_thresholds c r answers :
  res_Decision r = None → res_QuestionSet r = OperationalTriageV1 →
  ValidateAnswers OperationalTriageV1Questions answers = Ok () →
  ∃ d impact immediate transient,
    Compose c r answers false = Some d ∧
    a_Score (answer_at answers QuestionOperationalImpact) = Some impact ∧
    a_Noul (answer_at answers QuestionRequiresImmediateAttention) = Some immediate ∧
    a_Noul (answer_at answers QuestionLikelyTransient) = Some transient ∧
    let critical := f64_leb (CriticalImpact (thresholds c)) impact
                    || f64_leb (CriticalImmediateAttention (thresholds c)) immediate in
    let warning := f64_leb (WarningImpact (thresholds c)) impact
                   || f64_leb (WarningImmediateAttention (thresholds c)) immediate
                   || f64_ltb transient (LikelyTransientRecord (thresholds c)) in
    (dec_Severity d, dec_Action d) =
      (if critical then (SeverityCritical, ActionPage)
       else if warning then (SeverityWarning, ActionNotify) else (SeverityInfo, ActionRecord)) ∧
    dec_RuleIDs d = mergeStrings [] (ruleIDs r).
Proof.
  intros Hd Hq Hv. destruct (triage_defined answers Hv c) as (i & m & t & Hi & Hm & Ht & Htr).
  unfold Compose, composeEvidence. rewrite Hd, Hq, Hv. simpl. rewrite andb_false_r, Htr.
  eexists _, i, m, t. split; [done|]. split_and!; [done..| |].
  - unfold triage. by destruct (_ || _); [|destruct (_ || _)].
  - unfold triage. by destruct (_ || _); [|destruct (_ || _)].
Qed.

(** Merging rule identifiers or reason codes yields exactly the non-empty
    strings of both lists, once each and in increasing order, so the result
    does not depend on the order of the arguments or of Go's map iteration. *)
Theorem mergeStrings_spec l r :
  StronglySorted String.le (mergeStrings l r) ∧ NoDup (mergeStrings l r) ∧
  (∀ x, x ∈ mergeStrings l r ↔ (x ∈ l ∨ x ∈ r) ∧ x ≠ "") ∧
  mergeStrings l r = mergeStrings r l.
Proof.
  assert (Hnd : ∀ l r, NoDup (mergeStrings l r)).
  { intros. apply NoDup_sort_slice, NoDup_elements. }
  split_and!; [apply sort_strings_sorted|done|intros; apply elem_of_mergeStrings|].
  apply (StronglySorted_unique String.le); [apply sort_strings_sorted..|].
  apply NoDup_Permutation; [done..|]. intros x. rewrite !elem_of_mergeStrings. tauto.
Qed.
End ComposerProperties.

(** The built-in rubric is itself valid, so a rejected evaluation is always
    the provider's fault. *)
Theorem rubric_valid : ValidateQuestions OperationalTriageV1Questions = Ok ().
Proof. by vm_compute. Qed.

(** ** Witnesses *)

Module DecisionWitness.
Definition warning : Match :=
  {| m_RuleID := "warning-event"; m_Reason := "triage"; m_Severity := SeverityWarning |}.
Definition semantic (floor : option Decision) : Result :=
  {| res_Matches := [warning]; res_Disposition := DispositionSemantic; res_Decision := floor;
     res_QuestionSet := OperationalTriageV1; res_PolicyVersion := PolicyVersion |}.
Definition page : Decision :=
  {| dec_Severity := SeverityCritical; dec_Action := ActionPage; dec_Summary := "down";
     dec_ReasonCodes := []; dec_RuleIDs := ["job-failed"] |}.

Definition f64_3 : float64 := S754_finite false 6755399441055744 (-51).
Definition noul (x : float64) : Answer :=
  {| a_Type := QuestionTypeNoul; a_Noul := Some x; a_Choice := ""; a_Score := None;
     a_Legend := ∅; a_Probabilities := ∅; a_Confidence := None |}.
(** Valid answers: broad impact from the network, not urgent, transient. *)
Definition answers : gmap string Answer := list_to_map [
  (QuestionIncidentFamily,
   {| a_Type := QuestionTypeChoice; a_Noul := None; a_Choice := "dependency"; a_Score := None;
      a_Legend := ∅; a_Confidence := Some f64_1;
      a_Probabilities := list_to_map [("application", f64_0); ("configuration", f64_0);
        ("dependency", f64_1); ("infrastructure", f64_0); ("security", f64_0);
        ("unknown", f64_0)] |});
  (QuestionOperationalImpact,
   {| a_Type := QuestionTypeScore; a_Noul := None; a_Choice := ""; a_Score := Some f64_3;
      a_Legend := list_to_map [
        ("0", "No current user-visible impact");
        ("1", "Limited degradation or a working workaround");
        ("2", "Material degradation affecting multiple users or a critical workload");
        ("3", "Broad outage, data-loss risk, or security impact")];
      a_Confidence := Some f64_1;
      a_Probabilities := list_to_map [("0", f64_0); ("1", f64_0); ("2", f64_0); ("3", f64_1)] |});
  (QuestionRequiresImmediateAttention, noul f64_0);
  (QuestionLikelyTransient, noul f64_1)].
End DecisionWitness.

Lemma compose_never_downgrades_witness :
  ∃ d, Compose (H := range_in_order) NewComposer (DecisionWitness.semantic (Some DecisionWitness.page))
         ∅ true = Some d ∧ "job-failed" ∈ dec_RuleIDs d.
Proof.
  destruct (Compose (H := range_in_order) NewComposer
    (DecisionWitness.semantic (Some DecisionWitness.page)) ∅ true) as [d|] eqn:Hd;
    [|by vm_compute in Hd].
  exists d. split; [done|].
  destruct (compose_never_downgrades (H := range_in_order) _ _ _ _ _ DecisionWitness.page Hd eq_refl)
    as (_ & _ & Hids & _). apply Hids; [by left|done].
Defined.

Lemma compose_fails_closed_witness :
  Compose (H := range_in_order) NewComposer (DecisionWitness.semantic None) ∅ false =
  Some (set_RuleIDs ["warning-event"] (fallback NewComposer)).
Proof.
  rewrite (compose_fails_closed (H := range_in_order)); [by vm_compute|done|].
  right. right. by vm_compute.
Defined.

Lemma compose_thresholds_witness :
  ∃ d, Compose (H := range_in_order) NewComposer (DecisionWitness.semantic None)
         DecisionWitness.answers false = Some d ∧ dec_Action d = ActionPage.
Proof.
  destruct (compose_thresholds (H := range_in_order) NewComposer (DecisionWitness.semantic None)
    DecisionWitness.answers) as (d & i & m & t & Hd & Hi & Hm & Ht & Hsev & _);
    [done|done|by vm_compute|].
  exists d. split; [exact Hd|].
  clear Hd. vm_compute in Hi, Hm, Ht. injection Hi as <-. injection Hm as <-. injection Ht as <-.
  vm_compute in Hsev. by injection Hsev.
Defined.

Lemma compose_total_witness :
  is_Some (Compose (H := range_in_order) NewComposer (DecisionWitness.semantic None)
             DecisionWitness.answers false).
Proof. apply (compose_total (H := range_in_order)). Defined.
