(* ===== verification/Retry.v ===== *)
(** * Package [internal/provider]: error classification, back-off and retries

    [Retry] runs an effectful operation: [W] is the state of the outside world,
    a call of the operation or of the sleeper transforms it, and the error of
    the context is a reading of it.  [context.WithTimeout] derives a new
    context.  The loop is bounded by [MaxAttempts]; running past its end is the
    [panic("unreachable")] of the code, written [None]. *)
From S2P Require Import Prelude GoBase.

(** ** Errors *)

Abbreviation ErrorKind := string (only parsing).
Definition ErrorKindTransport : ErrorKind := "transport".
Definition ErrorKindTimeout : ErrorKind := "timeout".
Definition ErrorKindRateLimited : ErrorKind := "rate_limited".
Definition ErrorKindServer : ErrorKind := "server".
Definition ErrorKindMalformedRequest : ErrorKind := "malformed_request".
Definition ErrorKindAuthentication : ErrorKind := "authentication".
Definition ErrorKindAuthorization : ErrorKind := "authorization".
Definition ErrorKindPaymentRequired : ErrorKind := "payment_required".
Definition ErrorKindPayloadTooLarge : ErrorKind := "payload_too_large".
Definition ErrorKindUnsupportedModel : ErrorKind := "unsupported_model".
Definition ErrorKindPermanent : ErrorKind := "permanent".

Record HTTPError := {
  he_Operation : string; he_StatusCode : Z; he_Kind : ErrorKind;
  he_Retryable : bool; he_RetryAfterDelay : duration
}.

(** The errors the package distinguishes. *)
Inductive GoError :=
  | http_error (e : HTTPError)
  | context_canceled
  | context_deadline_exceeded
  | other_error (message : string).

Definition ClassifyHTTPStatus (status : Z) : ErrorKind * bool :=
  if status =? 408 then (ErrorKindTimeout, true)
  else if status =? 429 then (ErrorKindRateLimited, true)
  else if (status =? 500) || (status =? 502) || (status =? 503) || (status =? 524)
          || (status =? 529) then (ErrorKindServer, true)
  else if status =? 400 then (ErrorKindMalformedRequest, false)
  else if status =? 401 then (ErrorKindAuthentication, false)
  else if status =? 403 then (ErrorKindAuthorization, false)
  else if status =? 402 then (ErrorKindPaymentRequired, false)
  else if status =? 413 then (ErrorKindPayloadTooLarge, false)
  else if status =? 422 then (ErrorKindUnsupportedModel, false)
  else (ErrorKindPermanent, false).

Definition NewHTTPError (operation : string) (status : Z) (retryAfter : duration) : HTTPError :=
  let '(kind, retryable) := ClassifyHTTPStatus status in
  {| he_Operation := operation; he_StatusCode := status; he_Kind := kind;
     he_Retryable := retryable;
     he_RetryAfterDelay := if retryAfter <? 0 then 0 else retryAfter |}.

(** Everything but the end of the context is reduced to a retryable transport
    failure without its text. *)
Definition NewTransportError (operation : string) (err : GoError) : GoError :=
  match err with
  | context_canceled => context_canceled
  | context_deadline_exceeded => context_deadline_exceeded
  | _ => http_error {| he_Operation := operation; he_StatusCode := 0;
                       he_Kind := ErrorKindTransport; he_Retryable := true;
                       he_RetryAfterDelay := 0 |}
  end.

Definition IsRetryable (err : GoError) : bool :=
  match err with http_error e => he_Retryable e | _ => false end.

(** [errors.As(err, &retryAfter)]: only [*HTTPError] has the method. *)
Definition requestedDelay (err : GoError) : option duration :=
  match err with http_error e => Some (he_RetryAfterDelay e) | _ => None end.

(** ** Back-off *)

(** The doubling loop both back-offs of the program run: [k] further rounds
    from [delay], saturating at [max] once [delay] has reached half of it. *)
Fixpoint backoffLoop (max : duration) (k : nat) (delay : duration) : duration :=
  match k with
  | O => delay
  | S k => if Z.quot max 2 <=? delay then max else backoffLoop max k (wrap64 (delay * 2))
  end.

Record RetryPolicy := {
  MaxAttempts : Z; InitialBackoff : duration; MaxBackoff : duration;
  MaxRetryAfter : duration; TotalTimeout : duration;
  HasSleep : bool; Jitter : option (duration → duration)
}.

Inductive PolicyError :=
  | attempts_must_be_positive | initial_backoff_must_be_positive
  | max_backoff_too_small | retry_after_negative | total_timeout_negative | sleeper_required.

Definition policy_validate (p : RetryPolicy) : result PolicyError unit :=
  fail_if! MaxAttempts p <=? 0 with attempts_must_be_positive;
  fail_if! InitialBackoff p <=? 0 with initial_backoff_must_be_positive;
  fail_if! MaxBackoff p <? InitialBackoff p with max_backoff_too_small;
  fail_if! MaxRetryAfter p <? 0 with retry_after_negative;
  fail_if! TotalTimeout p <? 0 with total_timeout_negative;
  fail_if! negb (HasSleep p) with sleeper_required;
  Ok ().

Definition policy_backoff (p : RetryPolicy) (failedAttempt : Z) : duration :=
  let delay := backoffLoop (MaxBackoff p) (Z.to_nat (failedAttempt - 1)) (InitialBackoff p) in
  let delay := match Jitter p with Some j => j delay | None => delay end in
  let delay := if delay <? 0 then 0 else delay in
  if MaxBackoff p <? delay then MaxBackoff p else delay.

(** The delay before the next attempt. *)
Definition retryDelay (p : RetryPolicy) (attempt : Z) (err : GoError) : duration :=
  match requestedDelay err with
  | Some requested =>
      if 0 <? requested then
        if (0 <? MaxRetryAfter p) && (MaxRetryAfter p <? requested) then MaxRetryAfter p
        else requested
      else policy_backoff p attempt
  | None => policy_backoff p attempt
  end.

(** ** Retry *)

Section Retry.
Context {W Ctx : Type}
  (ctx_err : Ctx → W → option GoError)
  (with_timeout : Ctx → duration → W → Ctx)
  (sleep : Ctx → duration → W → option GoError * W).

Variant outcome :=
  | invalid_policy (e : PolicyError)
  | finished (attempts : Z) (err : option GoError).

Context (p : RetryPolicy) (operation : Ctx → Z → W → option GoError * W).

Fixpoint retryLoop (ctx : Ctx) (fuel : nat) (attempt : Z) (w : W) : option (outcome * W) :=
  match fuel with
  | O => None
  | S fuel =>
      match ctx_err ctx w with
      | Some e => Some (finished (attempt - 1) (Some e), w)
      | None =>
          let '(err, w) := operation ctx attempt w in
          match err with
          | None => Some (finished attempt None, w)
          | Some err =>
              match ctx_err ctx w with
              | Some e => Some (finished attempt (Some e), w)
              | None =>
                  if negb (IsRetryable err) || (attempt =? MaxAttempts p)
                  then Some (finished attempt (Some err), w)
                  else
                    let '(sleepErr, w) := sleep ctx (retryDelay p attempt err) w in
                    match sleepErr with
                    | Some e => Some (finished attempt (Some e), w)
                    | None => retryLoop ctx fuel (attempt + 1) w
                    end
              end
          end
      end
  end.

Definition Retry (ctx : Ctx) (w : W) : option (outcome * W) :=
  match policy_validate p with
  | Err e => Some (invalid_policy e, w)
  | Ok _ =>
      let ctx := if 0 <? TotalTimeout p then with_timeout ctx (TotalTimeout p) w else ctx in
      retryLoop ctx (Z.to_nat (MaxAttempts p)) 1 w
  end.
End Retry.

(** ** Lemmas *)

Definition backoffClosed (max : duration) (k : nat) (d : duration) : duration :=
  if match k with O => false | S j => Z.quot max 2 <=? d * 2 ^ Z.of_nat j end
  then max else d * 2 ^ Z.of_nat k.

Lemma quot2_le z : 0 ≤ z → 2 * Z.quot z 2 ≤ z.
Proof. intros. rewrite Z.quot_div_nonneg by lia. apply Z.mul_div_le. lia. Qed.

Lemma backoffLoop_closed max k d :
  0 < d ≤ max → is_int64 max → backoffLoop max k d = backoffClosed max k d.
Proof.
  unfold backoffClosed, is_int64, int64_min, int64_max. revert d.
  induction k as [|k IH]; intros d Hd Hm; [simpl; lia|].
  cbn [backoffLoop]. destruct (Z.leb_spec (Z.quot max 2) d) as [Hle|Hlt].
  - rewrite (proj2 (Z.leb_le _ _)); [done|].
    assert (1 ≤ 2 ^ Z.of_nat k) by (pose proof (Z.pow_pos_nonneg 2 (Z.of_nat k)); lia). nia.
  - assert (Hq : 2 * Z.quot max 2 ≤ max) by (apply quot2_le; lia).
    rewrite wrap64_id by (unfold is_int64, int64_min, int64_max; lia).
    rewrite IH by lia. replace (Z.of_nat (S k)) with (1 + Z.of_nat k) by lia.
    rewrite Z.pow_add_r, Z.pow_1_r by lia. destruct k as [|k].
    + simpl. rewrite (proj2 (Z.leb_gt _ _)) by lia. lia.
    + replace (Z.of_nat (S k)) with (1 + Z.of_nat k) by lia.
      rewrite Z.pow_add_r, Z.pow_1_r by lia.
      replace (d * 2 * 2 ^ Z.of_nat k) with (d * (2 * 2 ^ Z.of_nat k)) by lia.
      destruct (_ <=? _); lia.
Qed.

Lemma backoffLoop_bounds max k d :
  0 < d ≤ max → is_int64 max → d ≤ backoffLoop max k d ≤ max.
Proof.
  intros Hd Hm. rewrite backoffLoop_closed by done. unfold backoffClosed.
  destruct k as [|k]; [simpl; lia|].
  destruct (Z.leb_spec (Z.quot max 2) (d * 2 ^ Z.of_nat k)) as [|Hlt]; [lia|].
  replace (Z.of_nat (S k)) with (1 + Z.of_nat k) by lia.
  rewrite Z.pow_add_r, Z.pow_1_r by lia.
  assert (Hq : 2 * Z.quot max 2 ≤ max) by (apply quot2_le; lia).
  assert (1 ≤ 2 ^ Z.of_nat k) by (pose proof (Z.pow_pos_nonneg 2 (Z.of_nat k)); lia). nia.
Qed.

Lemma backoffLoop_step max k d :
  0 < d ≤ max → is_int64 max → backoffLoop max k d ≤ backoffLoop max (S k) d.
Proof.
  intros Hd Hm. revert d Hd. induction k as [|k IH]; intros d Hd.
  - apply backoffLoop_bounds; done.
  - cbn [backoffLoop] in *. destruct (Z.leb_spec (Z.quot max 2) d) as [|Hlt]; [done|].
    assert (Hq : 2 * Z.quot max 2 ≤ max) by (apply quot2_le; lia).
    apply IH. unfold is_int64, int64_min, int64_max in *.
    rewrite wrap64_id by (unfold is_int64, int64_min, int64_max; lia). lia.
Qed.

Lemma policy_validate_ok p :
  policy_validate p = Ok () ↔
  0 < MaxAttempts p ∧ 0 < InitialBackoff p ≤ MaxBackoff p ∧ 0 ≤ MaxRetryAfter p ∧
  0 ≤ TotalTimeout p ∧ HasSleep p = true.
Proof.
  unfold policy_validate. rewrite !fail_if_ok.
  rewrite !Z.leb_gt, !Z.ltb_ge, negb_false_iff. naive_solver lia.
Qed.

Section RetryLemmas.
Context {W Ctx : Type} (ctx_err : Ctx → W → option GoError)
  (with_timeout : Ctx → duration → W → Ctx)
  (sleep : Ctx → duration → W → option GoError * W)
  (p : RetryPolicy) (operation : Ctx → Z → W → option GoError * W).

Lemma retryLoop_total ctx fuel attempt w :
  1 ≤ attempt → Z.of_nat fuel = MaxAttempts p - attempt + 1 → (0 < fuel)%nat →
  ∃ n err w', retryLoop ctx_err sleep p operation ctx fuel attempt w
              = Some (finished n err, w') ∧ attempt - 1 ≤ n ≤ MaxAttempts p.
Proof.
  revert attempt w. induction fuel as [|fuel IH]; intros attempt w Ha Hf Hpos; [lia|].
  cbn [retryLoop]. destruct (ctx_err ctx w); [eexists _, _, _; split; [done|lia]|].
  destruct (operation ctx attempt w) as [[err|] w1]; [|eexists _, _, _; split; [done|lia]].
  destruct (ctx_err ctx w1); [eexists _, _, _; split; [done|lia]|].
  destruct (negb (IsRetryable err) || (attempt =? MaxAttempts p)) eqn:Hstop;
    [eexists _, _, _; split; [done|lia]|].
  apply orb_false_iff in Hstop as [_ Hne%Z.eqb_neq].
  destruct (sleep ctx (retryDelay p attempt err) w1) as [[e|] w2];
    [eexists _, _, _; split; [done|lia]|].
  destruct (IH (attempt + 1) w2) as (n & e & w' & -> & ?); [lia..|].
  eexists _, _, _; split; [done|lia].
Qed.

(** With any policy, [Retry] returns. *)
Lemma Retry_returns ctx w : is_Some (Retry ctx_err with_timeout sleep p operation ctx w).
Proof.
  unfold Retry. destruct (policy_validate p) as [[]|e] eqn:Hp; [|done].
  apply policy_validate_ok in Hp as (? & _).
  destruct (retryLoop_total (if 0 <? TotalTimeout p then with_timeout ctx (TotalTimeout p) w else ctx)
    (Z.to_nat (MaxAttempts p)) 1 w) as (n & e & w' & -> & _); [lia..|done].
Qed.

(** A success is the success of the last operation. *)
Lemma retryLoop_success ctx fuel attempt w n w' :
  1 ≤ attempt → Z.of_nat fuel = MaxAttempts p - attempt + 1 →
  retryLoop ctx_err sleep p operation ctx fuel attempt w = Some (finished n None, w') →
  attempt ≤ n ≤ MaxAttempts p ∧ ∃ w1, operation ctx n w1 = (None, w').
Proof.
  revert attempt w. induction fuel as [|fuel IH]; intros attempt w Ha Hf; cbn [retryLoop]; [done|].
  destruct (ctx_err ctx w); [done|].
  destruct (operation ctx attempt w) as [[err|] w1] eqn:Ho.
  - destruct (ctx_err ctx w1); [done|].
    destruct (negb (IsRetryable err) || (attempt =? MaxAttempts p)); [done|].
    destruct (sleep ctx (retryDelay p attempt err) w1) as [[e|] w2]; [done|].
    intros [Hn Hw]%IH; [|lia..]. split; [lia|done].
  - intros [= <- <-]. split; [lia|by exists w].
Qed.
Lemma Retry_success ctx w n w' :
  Retry ctx_err with_timeout sleep p operation ctx w = Some (finished n None, w') →
  1 ≤ n ≤ MaxAttempts p ∧ ∃ ctx' w1, operation ctx' n w1 = (None, w').
Proof.
  unfold Retry. destruct (policy_validate p) as [[]|e] eqn:Hp; [|done].
  apply policy_validate_ok in Hp as (? & _). intros [Hn [w1 Hw]]%retryLoop_success; [|lia..].
  split; [done|by eexists _, w1].
Qed.

(** The world with a log of the operations begun and their errors. *)
Definition logged := (W * list (Z * option GoError))%type.
Definition operation_log (ctx : Ctx) (attempt : Z) (w : logged) : option GoError * logged :=
  let '(err, w1) := operation ctx attempt w.1 in (err, (w1, w.2 ++ [(attempt, err)])).
Definition sleep_log (ctx : Ctx) (d : duration) (w : logged) : option GoError * logged :=
  let '(err, w1) := sleep ctx d w.1 in (err, (w1, w.2)).
Definition ctx_err_log (ctx : Ctx) (w : logged) : option GoError := ctx_err ctx w.1.
Definition with_timeout_log (ctx : Ctx) (d : duration) (w : logged) : Ctx :=
  with_timeout ctx d w.1.

Definition failedRetryably (entry : Z * option GoError) : Prop :=
  ∃ e, entry.2 = Some e ∧ IsRetryable e = true.

Record retried (from : Z) (log : list (Z * option GoError)) (n : Z) (err : option GoError)
    : Prop := {
  retried_numbers : map fst log = seqZ from (n - from + 1);
  retried_only : Forall failedRetryably (removelast log);
  retried_success : err = None ↔ ∃ a, last log = Some (a, None)
}.

Lemma retried_one a e err : (err = None ↔ e = None) → retried a [(a, e)] a err.
Proof.
  intros He. split; simpl; [by replace (a - a + 1) with 1 by lia|constructor|].
  rewrite He. split; [intros ->; eauto|]. by intros [? [= _ ->]].
Qed.

Lemma retried_none a e : retried a [] (a - 1) (Some e).
Proof.
  split; [by replace (a - 1 - a + 1) with 0 by lia|constructor|].
  split; [done|by intros [? ?]].
Qed.

Lemma retried_cons a e log n err :
  IsRetryable e = true → a ≤ n → err ≠ None ∨ log ≠ [] →
  retried (a + 1) log n err → retried a ((a, Some e) :: log) n err.
Proof.
  intros Hr Hn Hor [H1 H2 H3]. split.
  - simpl. rewrite H1, (seqZ_cons a) by lia. f_equal. f_equal; lia.
  - destruct log as [|x log]; [constructor|]. constructor; [|done]. by exists e.
  - destruct log as [|x log]; simpl.
    + split; [naive_solver|by intros [? ?]].
    + rewrite H3. done.
Qed.

Lemma retryLoop_log ctx fuel attempt w pre n err w' log :
  retryLoop ctx_err_log sleep_log p operation_log ctx fuel attempt (w, pre)
    = Some (finished n err, (w', log)) →
  ∃ suf, log = pre ++ suf ∧ retried attempt suf n err ∧ attempt - 1 ≤ n ∧
         (err = None → suf ≠ []).
Proof.
  revert attempt w pre. induction fuel as [|fuel IH]; intros attempt w pre; [done|].
  cbn [retryLoop]. unfold ctx_err_log at 1. cbn [fst].
  destruct (ctx_err ctx w) as [e|].
  { intros [= <- <- <- <-]. exists []. rewrite app_nil_r.
    split_and!; [done|apply retried_none|lia|done]. }
  unfold operation_log at 1. cbn [fst snd].
  destruct (operation ctx attempt w) as [[err1|] w1].
  2:{ intros [= <- <- <- <-]. eexists. split_and!; [done|by apply retried_one|lia|done]. }
  unfold ctx_err_log at 1. cbn [fst]. destruct (ctx_err ctx w1) as [e|].
  { intros [= <- <- <- <-]. eexists. split_and!; [done|by apply retried_one|lia|done]. }
  destruct (negb (IsRetryable err1) || _) eqn:Hstop.
  { intros [= <- <- <- <-]. eexists. split_and!; [done|by apply retried_one|lia|done]. }
  apply orb_false_iff in Hstop as [Hr%negb_false_iff _].
  unfold sleep_log at 1. cbn [fst snd].
  destruct (sleep ctx _ w1) as [[e|] w2].
  { intros [= <- <- <- <-]. eexists. split_and!; [done|by apply retried_one|lia|done]. }
  intros (suf & -> & Hs & Hn & Hne)%IH.
  exists ((attempt, Some err1) :: suf). rewrite <- app_assoc. split_and!; [done| |lia|done].
  apply retried_cons; [done|lia| |done]. destruct err; [by left|right; auto].
Qed.
End RetryLemmas.

(** ** Properties *)

(** Without jitter, the delay after the [n]-th failure is the initial
    back-off doubled [n-1] times, saturating at the maximum as soon as the
    previous delay has reached half of it; no doubling overflows, the delay
    stays between the initial and the maximal back-off and never decreases. *)
Theorem policy_backoff_exact p n :
  policy_validate p = Ok () → is_int64 (MaxBackoff p) → Jitter p = None → 1 ≤ n →
  policy_backoff p n = backoffClosed (MaxBackoff p) (Z.to_nat (n - 1)) (InitialBackoff p) ∧
  InitialBackoff p ≤ policy_backoff p n ≤ MaxBackoff p ∧
  policy_backoff p n ≤ policy_backoff p (n + 1).
Proof.
  intros (_ & Hb & _)%policy_validate_ok Hm Hj Hn.
  assert (Hid : ∀ k, policy_backoff p k =
    backoffLoop (MaxBackoff p) (Z.to_nat (k - 1)) (InitialBackoff p)).
  { intros k. unfold policy_backoff. rewrite Hj.
    pose proof (backoffLoop_bounds (MaxBackoff p) (Z.to_nat (k - 1)) _ Hb Hm).
    rewrite (proj2 (Z.ltb_ge _ 0)) by lia. by rewrite (proj2 (Z.ltb_ge _ _)) by lia. }
  rewrite !Hid. split_and!.
  - by apply backoffLoop_closed.
  - by apply backoffLoop_bounds.
  - by apply backoffLoop_bounds.
  - replace (Z.to_nat (n + 1 - 1)) with (S (Z.to_nat (n - 1))) by lia. by apply backoffLoop_step.
Qed.

(** Whatever the jitter function and whatever a server asks for, the wait
    before a retry is non-negative and within the configured caps. *)
Theorem retryDelay_bounded p attempt e :
  policy_validate p = Ok () →
  0 ≤ retryDelay p attempt (http_error e) ∧
  (he_RetryAfterDelay e ≤ 0 → retryDelay p attempt (http_error e) ≤ MaxBackoff p) ∧
  (0 < MaxRetryAfter p → retryDelay p attempt (http_error e) ≤ Z.max (MaxRetryAfter p) (MaxBackoff p)).
Proof.
  intros (_ & Hb & _)%policy_validate_ok.
  assert (0 ≤ policy_backoff p attempt ≤ MaxBackoff p).
  { unfold policy_backoff. set (d := match Jitter p with Some j => _ | None => _ end).
    destruct (Z.ltb_spec d 0); [|destruct (Z.ltb_spec (MaxBackoff p) d)]; try lia.
    destruct (Z.ltb_spec (MaxBackoff p) 0); lia. }
  unfold retryDelay. simpl. destruct (Z.ltb_spec 0 (he_RetryAfterDelay e)); [|lia].
  destruct (Z.ltb_spec 0 (MaxRetryAfter p)); simpl; [|lia].
  destruct (Z.ltb_spec (MaxRetryAfter p) (he_RetryAfterDelay e)); lia.
Qed.

Section RetryProperties.
Context {W Ctx : Type} (ctx_err : Ctx → W → option GoError)
  (with_timeout : Ctx → duration → W → Ctx)
  (sleep : Ctx → duration → W → option GoError * W)
  (p : RetryPolicy) (operation : Ctx → Z → W → option GoError * W).

(** C30: [Retry] always returns: under a valid policy it never reaches the
    unreachable panic, and begins at most [MaxAttempts] operations. *)
Theorem retry_total ctx w :
  policy_validate p = Ok () →
  ∃ n err w', Retry ctx_err with_timeout sleep p operation ctx w = Some (finished n err, w') ∧
    0 ≤ n ≤ MaxAttempts p.
Proof.
  intros Hv. unfold Retry. rewrite Hv. apply policy_validate_ok in Hv as [Ha _].
  destruct (retryLoop_total ctx_err sleep p operation
    (if 0 <? TotalTimeout p then with_timeout ctx (TotalTimeout p) w else ctx)
    (Z.to_nat (MaxAttempts p)) 1 w) as (n & err & w' & -> & ?); [lia..|].
  eexists _, _, _. split; [done|lia].
Qed.

(** The number returned is exactly the number of operations begun, which
    are numbered 1, 2, ... in order; an operation is followed by another only
    if it failed with a retryable error (so a success or a permanent failure
    is final), and [Retry] succeeds exactly when its last operation did. *)
Theorem retry_trace ctx w n err w' log :
  Retry (ctx_err_log ctx_err) (with_timeout_log with_timeout) (sleep_log sleep) p
    (operation_log operation) ctx (w, []) = Some (finished n err, (w', log)) →
  retried 1 log n err ∧ Z.of_nat (length log) = n.
Proof.
  unfold Retry. destruct (policy_validate p); [|done].
  intros (suf & -> & Hr & Hn & _)%retryLoop_log. split; [done|].
  pose proof (retried_numbers _ _ _ _ Hr) as Hs. apply (f_equal length) in Hs.
  rewrite length_map, length_seqZ in Hs. simpl. lia.
Qed.
End RetryProperties.

(** ** Witnesses *)

Module RetryWitness.
Definition policy : RetryPolicy :=
  {| MaxAttempts := 3; InitialBackoff := 100 * millisecond; MaxBackoff := second;
     MaxRetryAfter := 30 * second; TotalTimeout := 0; HasSleep := true; Jitter := None |}.
(** A server that is unavailable once; the world counts the calls. *)
Definition unavailable : HTTPError := NewHTTPError "evaluate" 503 (60 * second).
Definition server (_ : unit) (attempt : Z) (w : Z) : option GoError * Z :=
  (if attempt =? 1 then Some (http_error unavailable) else None, w + 1).
Definition ctx_err (_ : unit) (_ : Z) : option GoError := None.
Definition with_timeout (_ : unit) (_ : duration) (_ : Z) : unit := ().
Definition sleep (_ : unit) (_ : duration) (w : Z) : option GoError * Z := (None, w).
End RetryWitness.

Lemma policy_backoff_exact_witness : policy_backoff RetryWitness.policy 3 = 400 * millisecond.
Proof.
  destruct (policy_backoff_exact RetryWitness.policy 3) as [-> _];
    [done|by vm_compute|done|lia|done].
Defined.

Lemma retryDelay_bounded_witness :
  retryDelay RetryWitness.policy 1 (http_error RetryWitness.unavailable) ≤ 30 * second.
Proof.
  destruct (retryDelay_bounded RetryWitness.policy 1 RetryWitness.unavailable) as (_ & _ & H);
    [done|]. apply H. done.
Defined.

Lemma retry_total_witness :
  ∃ n err w', Retry RetryWitness.ctx_err RetryWitness.with_timeout RetryWitness.sleep
    RetryWitness.policy RetryWitness.server () 0 = Some (finished n err, w') ∧ n ≤ 3.
Proof.
  destruct (retry_total RetryWitness.ctx_err RetryWitness.with_timeout RetryWitness.sleep
    RetryWitness.policy RetryWitness.server () 0) as (n & err & w' & Hr & Hn); [done|].
  exists n, err, w'. split; [exact Hr|]. apply Hn.
Defined.

Lemma retry_trace_witness :
  retried 1 [(1, Some (http_error RetryWitness.unavailable)); (2, None)] 2 None.
Proof.
  destruct (retry_trace RetryWitness.ctx_err RetryWitness.with_timeout RetryWitness.sleep
    RetryWitness.policy RetryWitness.server () 0 2 None 2
    [(1, Some (http_error RetryWitness.unavailable)); (2, None)]) as [H _]; [by vm_compute|].
  exact H.
Defined.
