(* ===== verification/Store.v ===== *)
(** * Package [internal/store]: the persistence contract

    The request and result types of the [Store] interface and its errors.
    [errors.Is] looks through the wrappers that [fmt.Errorf("...: %w", err)]
    puts around an error.  The [any] values of stored answers are the
    provider's answers, the only values the program stores there. *)
From S2P Require Import Prelude GoBase Domain Provider.

Inductive StoreError :=
  | ErrConflict
  | ErrNotFound
  | invalid_request (what : string)
  | driver_failure (what : string)
  | wrapped (what : string) (e : StoreError).

Fixpoint is_ErrNotFound (e : StoreError) : bool :=
  match e with ErrNotFound => true | wrapped _ e => is_ErrNotFound e | _ => false end.
Fixpoint is_ErrConflict (e : StoreError) : bool :=
  match e with ErrConflict => true | wrapped _ e => is_ErrConflict e | _ => false end.

Abbreviation StoredEvaluation := (Evaluation Answer) (only parsing).

(** The type [Snapshot] of the package. *)
Record StoredSnapshot := {
  ss_ID : string; ss_IncidentID : string; ss_Snapshot : Snapshot; ss_ExpiresAt : option time
}.

Abbreviation FailureClass := string (only parsing).
Definition FailureRetryable : FailureClass := "retryable".
Definition FailurePermanent : FailureClass := "permanent".

Record Delivery := {
  dl_Notification : Notification; dl_LeaseOwner : string; dl_LeaseUntil : option time;
  dl_LastFailure : FailureClass; dl_DeliveredAt : option time; dl_ExpiresAt : option time
}.

Record CommitRequest := {
  cr_Incident : Incident; cr_ExpectedVersion : Z; cr_Evaluation : StoredEvaluation;
  cr_Deliveries : list Notification; cr_ExpiresAt : option time
}.

Record ClaimRequest := { cl_WorkerID : string; cl_Now : time; cl_LeaseDuration : duration }.

Record CompleteRequest := {
  cp_ID : string; cp_WorkerID : string; cp_CompletedAt : time; cp_ExpiresAt : option time
}.

Record RescheduleRequest := {
  rr_ID : string; rr_WorkerID : string; rr_Now : time; rr_NextAttemptAt : time;
  rr_Failure : FailureClass; rr_ExpiresAt : option time
}.

(** What identifies an evaluation: the fields of the unique index. *)
Record EvaluationIdentity := {
  id_IncidentID : string; id_SnapshotHash : string; id_PolicyVersion : string;
  id_RubricVersion : string; id_ProviderConfigHash : string
}.
#[export] Instance EvaluationIdentity_eq_dec : EqDecision EvaluationIdentity.
Proof. solve_decision. Defined.

Definition identityOf (e : StoredEvaluation) : EvaluationIdentity :=
  {| id_IncidentID := evl_IncidentID e; id_SnapshotHash := evl_SnapshotHash e;
     id_PolicyVersion := evl_PolicyVersion e; id_RubricVersion := evl_RubricVersion e;
     id_ProviderConfigHash := evl_ProviderConfigHash e |}.
