(* ===== verification/Documents.v ===== *)
(** * Package [internal/store/mongo], [mapping.go]: the stored documents

    One record per document struct, and the conversions from and to the
    domain.  The driver's codec is not part of the repository: what it does to
    a time on the way to the database is the parameter [bson_time] of the class
    [Codec], whose laws state that it rounds monotonically and that a stored
    time is not rounded again; everything else of a document is stored as it
    is.  The [encode_*] functions apply it to every time of a document. *)
From S2P Require Import Prelude GoBase Domain Provider Store.

Class Codec := {
  bson_time : time → time;
  bson_time_idem t : bson_time (bson_time t) = bson_time t;
  bson_time_mono t u : t ≤ u → bson_time t ≤ bson_time u
}.

Record ownerReferenceDocument := {
  od_APIVersion : string; od_Kind : string; od_Name : string; od_UID : string
}.

Record sourceDocument := {
  sd_ClusterID : string; sd_APIVersion : string; sd_Kind : string; sd_Namespace : string;
  sd_Name : string; sd_UID : string; sd_ResourceVersion : string; sd_Generation : Z;
  sd_Owner : option ownerReferenceDocument
}.

Record incidentDocument := {
  ind_ID : string; ind_IncidentKey : string; ind_ClusterID : string; ind_Source : sourceDocument;
  ind_Status : IncidentStatus; ind_OpenedAt : time; ind_UpdatedAt : time;
  ind_ResolvedAt : option time; ind_ContentHash : string; ind_Version : Z;
  ind_ExpiresAt : option time
}.

Record conditionDocument := {
  cd_Type : string; cd_Status : string; cd_Reason : string; cd_Message : string;
  cd_LastTransitionTime : time
}.
Record containerDocument := {
  ctd_Name : string; ctd_Ready : bool; ctd_RestartCount : Z; ctd_State : string;
  ctd_Reason : string; ctd_ExitCode : Z
}.
Record workloadDocument := {
  wd_Desired : Z; wd_Current : Z; wd_Ready : Z; wd_Available : Z; wd_Updated : Z;
  wd_Unavailable : Z
}.
Record jobDocument := { jd_Active : Z; jd_Succeeded : Z; jd_Failed : Z; jd_BackoffLimit : Z }.
Record eventDocument := {
  ed_Type : string; ed_Reason : string; ed_Message : string; ed_RegardingUID : string;
  ed_Count : Z; ed_LastObserved : time
}.

Record snapshotPayloadDocument := {
  sp_Source : sourceDocument; sp_ObservedAt : time; sp_Labels : gmap string string;
  sp_Conditions : list conditionDocument; sp_Containers : list containerDocument;
  sp_Workload : option workloadDocument; sp_Job : option jobDocument;
  sp_Event : option eventDocument; sp_ContentHash : string
}.

(** [primitive.ObjectID], by its hexadecimal form. *)
Abbreviation ObjectID := string (only parsing).

Record snapshotDocument := {
  snd_ID : ObjectID; snd_IncidentID : string; snd_ContentHash : string; snd_ObservedAt : time;
  snd_Snapshot : snapshotPayloadDocument; snd_ExpiresAt : option time
}.

Record decisionDocument := {
  dd_Severity : Severity; dd_Action : Action; dd_Summary : string;
  dd_ReasonCodes : list string; dd_RuleIDs : list string
}.
Record providerUsageDocument := { ud_InputTokens : Z; ud_OutputTokens : Z }.
Record providerAuditDocument := {
  pad_Provider : string; pad_RequestedModel : string; pad_ResolvedModel : string;
  pad_ResolvedModelHash : string; pad_ProviderRequestIDHash : string;
  pad_Usage : providerUsageDocument; pad_Latency : duration; pad_Attempts : Z;
  pad_RawResponseHash : string
}.
Record evaluationDocument := {
  evd_ID : string; evd_IncidentID : string; evd_SnapshotHash : string;
  evd_PolicyVersion : string; evd_RubricVersion : string; evd_ProviderConfigHash : string;
  evd_Decision : decisionDocument; evd_Answers : option (gmap string Answer);
  evd_ProviderAudit : option providerAuditDocument; evd_CreatedAt : time;
  evd_ExpiresAt : option time
}.

Record outboxDocument := {
  obd_ID : string; obd_EvaluationID : string; obd_DestinationID : string; obd_EventType : string;
  obd_Status : NotificationStatus; obd_Attempts : Z; obd_NextAttemptAt : time;
  obd_Payload : string; obd_LeaseOwner : string; obd_LeaseUntil : option time;
  obd_LastFailure : string; obd_DeliveredAt : option time; obd_UpdatedAt : time;
  obd_ExpiresAt : option time
}.

(** ** Conversions *)

Definition sourceToDocument (v : Source) : sourceDocument :=
  {| sd_ClusterID := src_ClusterID v; sd_APIVersion := src_APIVersion v; sd_Kind := src_Kind v;
     sd_Namespace := src_Namespace v; sd_Name := src_Name v; sd_UID := src_UID v;
     sd_ResourceVersion := src_ResourceVersion v; sd_Generation := src_Generation v;
     sd_Owner := (λ o, {| od_APIVersion := owner_APIVersion o; od_Kind := owner_Kind o;
                          od_Name := owner_Name o; od_UID := owner_UID o |}) <$> src_Owner v |}.

Definition sourceFromDocument (v : sourceDocument) : Source :=
  {| src_ClusterID := sd_ClusterID v; src_APIVersion := sd_APIVersion v; src_Kind := sd_Kind v;
     src_Namespace := sd_Namespace v; src_Name := sd_Name v; src_UID := sd_UID v;
     src_ResourceVersion := sd_ResourceVersion v; src_Generation := sd_Generation v;
     src_Owner := (λ o, {| owner_APIVersion := od_APIVersion o; owner_Kind := od_Kind o;
                           owner_Name := od_Name o; owner_UID := od_UID o |}) <$> sd_Owner v |}.

Definition incidentToDocument (v : Incident) (expiresAt : option time) : incidentDocument :=
  {| ind_ID := inc_ID v; ind_IncidentKey := inc_Key v; ind_ClusterID := inc_ClusterID v;
     ind_Source := sourceToDocument (inc_Source v); ind_Status := inc_Status v;
     ind_OpenedAt := inc_OpenedAt v; ind_UpdatedAt := inc_UpdatedAt v;
     ind_ResolvedAt := inc_ResolvedAt v; ind_ContentHash := inc_ContentHash v;
     ind_Version := inc_Version v; ind_ExpiresAt := expiresAt |}.

Definition incidentFromDocument (v : incidentDocument) : Incident :=
  {| inc_ID := ind_ID v; inc_Key := ind_IncidentKey v; inc_ClusterID := ind_ClusterID v;
     inc_Source := sourceFromDocument (ind_Source v); inc_Status := ind_Status v;
     inc_OpenedAt := ind_OpenedAt v; inc_UpdatedAt := ind_UpdatedAt v;
     inc_ResolvedAt := ind_ResolvedAt v; inc_ContentHash := ind_ContentHash v;
     inc_Version := ind_Version v |}.

(** The ID is the zero ObjectID until [UpsertSnapshot] sets it. *)
Definition snapshotToDocument (id : ObjectID) (incidentID : string) (v : Snapshot)
    (expiresAt : option time) : snapshotDocument :=
  {| snd_ID := id; snd_IncidentID := incidentID; snd_ContentHash := sn_ContentHash v;
     snd_ObservedAt := sn_ObservedAt v; snd_ExpiresAt := expiresAt;
     snd_Snapshot :=
       {| sp_Source := sourceToDocument (sn_Source v); sp_ObservedAt := sn_ObservedAt v;
          sp_Labels := sn_Labels v; sp_ContentHash := sn_ContentHash v;
          sp_Conditions := map (λ i, {| cd_Type := cond_Type i; cd_Status := cond_Status i;
            cd_Reason := cond_Reason i; cd_Message := cond_Message i;
            cd_LastTransitionTime := cond_LastTransitionTime i |}) (sn_Conditions v);
          sp_Containers := map (λ i, {| ctd_Name := ct_Name i; ctd_Ready := ct_Ready i;
            ctd_RestartCount := ct_RestartCount i; ctd_State := ct_State i;
            ctd_Reason := ct_Reason i; ctd_ExitCode := ct_ExitCode i |}) (sn_Containers v);
          sp_Workload := (λ w, {| wd_Desired := wl_Desired w; wd_Current := wl_Current w;
            wd_Ready := wl_Ready w; wd_Available := wl_Available w; wd_Updated := wl_Updated w;
            wd_Unavailable := wl_Unavailable w |}) <$> sn_Workload v;
          sp_Job := (λ j, {| jd_Active := job_Active j; jd_Succeeded := job_Succeeded j;
            jd_Failed := job_Failed j; jd_BackoffLimit := job_BackoffLimit j |}) <$> sn_Job v;
          sp_Event := (λ e, {| ed_Type := ev_Type e; ed_Reason := ev_Reason e;
            ed_Message := ev_Message e; ed_RegardingUID := ev_RegardingUID e;
            ed_Count := ev_Count e; ed_LastObserved := ev_LastObserved e |}) <$> sn_Event v |} |}.

Definition snapshotFromDocument (v : snapshotDocument) : StoredSnapshot :=
  let p := snd_Snapshot v in
  {| ss_ID := snd_ID v; ss_IncidentID := snd_IncidentID v; ss_ExpiresAt := snd_ExpiresAt v;
     ss_Snapshot :=
       {| sn_Source := sourceFromDocument (sp_Source p); sn_ObservedAt := sp_ObservedAt p;
          sn_Labels := sp_Labels p; sn_ContentHash := sp_ContentHash p;
          sn_Conditions := map (λ i, {| cond_Type := cd_Type i; cond_Status := cd_Status i;
            cond_Reason := cd_Reason i; cond_Message := cd_Message i;
            cond_LastTransitionTime := cd_LastTransitionTime i |}) (sp_Conditions p);
          sn_Containers := map (λ i, {| ct_Name := ctd_Name i; ct_Ready := ctd_Ready i;
            ct_RestartCount := ctd_RestartCount i; ct_State := ctd_State i;
            ct_Reason := ctd_Reason i; ct_ExitCode := ctd_ExitCode i |}) (sp_Containers p);
          sn_Workload := (λ w, {| wl_Desired := wd_Desired w; wl_Current := wd_Current w;
            wl_Ready := wd_Ready w; wl_Available := wd_Available w; wl_Updated := wd_Updated w;
            wl_Unavailable := wd_Unavailable w |}) <$> sp_Workload p;
          sn_Job := (λ j, {| job_Active := jd_Active j; job_Succeeded := jd_Succeeded j;
            job_Failed := jd_Failed j; job_BackoffLimit := jd_BackoffLimit j |}) <$> sp_Job p;
          sn_Event := (λ e, {| ev_Type := ed_Type e; ev_Reason := ed_Reason e;
            ev_Message := ed_Message e; ev_RegardingUID := ed_RegardingUID e;
            ev_Count := ed_Count e; ev_LastObserved := ed_LastObserved e |}) <$> sp_Event p |} |}.

Definition evaluationToDocument (v : StoredEvaluation) (expiresAt : option time)
    : evaluationDocument :=
  {| evd_ID := evl_ID v; evd_IncidentID := evl_IncidentID v;
     evd_SnapshotHash := evl_SnapshotHash v; evd_PolicyVersion := evl_PolicyVersion v;
     evd_RubricVersion := evl_RubricVersion v; evd_ProviderConfigHash := evl_ProviderConfigHash v;
     evd_Decision := {| dd_Severity := dec_Severity (evl_Decision v);
       dd_Action := dec_Action (evl_Decision v); dd_Summary := dec_Summary (evl_Decision v);
       dd_ReasonCodes := dec_ReasonCodes (evl_Decision v);
       dd_RuleIDs := dec_RuleIDs (evl_Decision v) |};
     evd_Answers := evl_Answers v; evd_CreatedAt := evl_CreatedAt v; evd_ExpiresAt := expiresAt;
     evd_ProviderAudit := (λ a,
       {| pad_Provider := pa_Provider a; pad_RequestedModel := pa_RequestedModel a;
          pad_ResolvedModel := pa_ResolvedModel a; pad_ResolvedModelHash := pa_ResolvedModelHash a;
          pad_ProviderRequestIDHash := pa_ProviderRequestIDHash a;
          pad_Usage := {| ud_InputTokens := pu_InputTokens (pa_Usage a);
                          ud_OutputTokens := pu_OutputTokens (pa_Usage a) |};
          pad_Latency := pa_Latency a; pad_Attempts := pa_Attempts a;
          pad_RawResponseHash := pa_RawResponseHash a |}) <$> evl_ProviderAudit v |}.

Definition evaluationFromDocument (v : evaluationDocument) : StoredEvaluation :=
  {| evl_ID := evd_ID v; evl_IncidentID := evd_IncidentID v;
     evl_SnapshotHash := evd_SnapshotHash v; evl_PolicyVersion := evd_PolicyVersion v;
     evl_RubricVersion := evd_RubricVersion v; evl_ProviderConfigHash := evd_ProviderConfigHash v;
     evl_Decision := {| dec_Severity := dd_Severity (evd_Decision v);
       dec_Action := dd_Action (evd_Decision v); dec_Summary := dd_Summary (evd_Decision v);
       dec_ReasonCodes := dd_ReasonCodes (evd_Decision v);
       dec_RuleIDs := dd_RuleIDs (evd_Decision v) |};
     evl_Answers := evd_Answers v; evl_CreatedAt := evd_CreatedAt v;
     evl_ProviderAudit := (λ a,
       {| pa_Provider := pad_Provider a; pa_RequestedModel := pad_RequestedModel a;
          pa_ResolvedModel := pad_ResolvedModel a; pa_ResolvedModelHash := pad_ResolvedModelHash a;
          pa_ProviderRequestIDHash := pad_ProviderRequestIDHash a;
          pa_Usage := {| pu_InputTokens := ud_InputTokens (pad_Usage a);
                         pu_OutputTokens := ud_OutputTokens (pad_Usage a) |};
          pa_Latency := pad_Latency a; pa_Attempts := pad_Attempts a;
          pa_RawResponseHash := pad_RawResponseHash a |}) <$> evd_ProviderAudit v |}.

Definition outboxToDocument (v : Notification) (now : time) (expiresAt : option time)
    : outboxDocument :=
  {| obd_ID := nt_ID v; obd_EvaluationID := nt_EvaluationID v;
     obd_DestinationID := nt_DestinationID v; obd_EventType := nt_EventType v;
     obd_Status := nt_Status v; obd_Attempts := nt_Attempts v;
     obd_NextAttemptAt := nt_NextAttemptAt v; obd_Payload := nt_Payload v;
     obd_LeaseOwner := ""; obd_LeaseUntil := None; obd_LastFailure := "";
     obd_DeliveredAt := None; obd_UpdatedAt := now; obd_ExpiresAt := expiresAt |}.

Definition deliveryFromDocument (v : outboxDocument) : Delivery :=
  {| dl_Notification :=
       {| nt_ID := obd_ID v; nt_EvaluationID := obd_EvaluationID v;
          nt_DestinationID := obd_DestinationID v; nt_EventType := obd_EventType v;
          nt_Status := obd_Status v; nt_Attempts := obd_Attempts v;
          nt_NextAttemptAt := obd_NextAttemptAt v; nt_Payload := obd_Payload v |};
     dl_LeaseOwner := obd_LeaseOwner v; dl_LeaseUntil := obd_LeaseUntil v;
     dl_LastFailure := obd_LastFailure v; dl_DeliveredAt := obd_DeliveredAt v;
     dl_ExpiresAt := obd_ExpiresAt v |}.

(** ** The codec *)

Section Encoding.
Context `{Codec}.

Definition encode_incident (d : incidentDocument) : incidentDocument :=
  {| ind_ID := ind_ID d; ind_IncidentKey := ind_IncidentKey d; ind_ClusterID := ind_ClusterID d;
     ind_Source := ind_Source d; ind_Status := ind_Status d;
     ind_OpenedAt := bson_time (ind_OpenedAt d); ind_UpdatedAt := bson_time (ind_UpdatedAt d);
     ind_ResolvedAt := bson_time <$> ind_ResolvedAt d; ind_ContentHash := ind_ContentHash d;
     ind_Version := ind_Version d; ind_ExpiresAt := bson_time <$> ind_ExpiresAt d |}.

Definition encode_condition (d : conditionDocument) : conditionDocument :=
  {| cd_Type := cd_Type d; cd_Status := cd_Status d; cd_Reason := cd_Reason d;
     cd_Message := cd_Message d; cd_LastTransitionTime := bson_time (cd_LastTransitionTime d) |}.

Definition encode_event (d : eventDocument) : eventDocument :=
  {| ed_Type := ed_Type d; ed_Reason := ed_Reason d; ed_Message := ed_Message d;
     ed_RegardingUID := ed_RegardingUID d; ed_Count := ed_Count d;
     ed_LastObserved := bson_time (ed_LastObserved d) |}.

Definition encode_snapshot (d : snapshotDocument) : snapshotDocument :=
  let p := snd_Snapshot d in
  {| snd_ID := snd_ID d; snd_IncidentID := snd_IncidentID d; snd_ContentHash := snd_ContentHash d;
     snd_ObservedAt := bson_time (snd_ObservedAt d);
     snd_ExpiresAt := bson_time <$> snd_ExpiresAt d;
     snd_Snapshot :=
       {| sp_Source := sp_Source p; sp_ObservedAt := bson_time (sp_ObservedAt p);
          sp_Labels := sp_Labels p; sp_Conditions := map encode_condition (sp_Conditions p);
          sp_Containers := sp_Containers p; sp_Workload := sp_Workload p; sp_Job := sp_Job p;
          sp_Event := encode_event <$> sp_Event p; sp_ContentHash := sp_ContentHash p |} |}.

(** An empty map of answers is omitted. *)
Definition encode_evaluation (d : evaluationDocument) : evaluationDocument :=
  {| evd_ID := evd_ID d; evd_IncidentID := evd_IncidentID d;
     evd_SnapshotHash := evd_SnapshotHash d; evd_PolicyVersion := evd_PolicyVersion d;
     evd_RubricVersion := evd_RubricVersion d; evd_ProviderConfigHash := evd_ProviderConfigHash d;
     evd_Decision := evd_Decision d;
     evd_Answers := match evd_Answers d with
                    | Some m => if Nat.eqb (size m) 0 then None else Some m
                    | None => None
                    end;
     evd_ProviderAudit := evd_ProviderAudit d; evd_CreatedAt := bson_time (evd_CreatedAt d);
     evd_ExpiresAt := bson_time <$> evd_ExpiresAt d |}.

Definition encode_outbox (d : outboxDocument) : outboxDocument :=
  {| obd_ID := obd_ID d; obd_EvaluationID := obd_EvaluationID d;
     obd_DestinationID := obd_DestinationID d; obd_EventType := obd_EventType d;
     obd_Status := obd_Status d; obd_Attempts := obd_Attempts d;
     obd_NextAttemptAt := bson_time (obd_NextAttemptAt d); obd_Payload := obd_Payload d;
     obd_LeaseOwner := obd_LeaseOwner d; obd_LeaseUntil := bson_time <$> obd_LeaseUntil d;
     obd_LastFailure := obd_LastFailure d; obd_DeliveredAt := bson_time <$> obd_DeliveredAt d;
     obd_UpdatedAt := bson_time (obd_UpdatedAt d); obd_ExpiresAt := bson_time <$> obd_ExpiresAt d |}.

(** What is left of a domain value after a round trip: only times change. *)
Definition rounded_incident (i : Incident) : Incident :=
  {| inc_ID := inc_ID i; inc_Key := inc_Key i; inc_ClusterID := inc_ClusterID i;
     inc_Source := inc_Source i; inc_Status := inc_Status i;
     inc_OpenedAt := bson_time (inc_OpenedAt i); inc_UpdatedAt := bson_time (inc_UpdatedAt i);
     inc_ResolvedAt := bson_time <$> inc_ResolvedAt i; inc_ContentHash := inc_ContentHash i;
     inc_Version := inc_Version i |}.

Definition rounded_snapshot (s : Snapshot) : Snapshot :=
  {| sn_Source := sn_Source s; sn_ObservedAt := bson_time (sn_ObservedAt s);
     sn_Labels := sn_Labels s;
     sn_Conditions := map (λ c, {| cond_Type := cond_Type c; cond_Status := cond_Status c;
       cond_Reason := cond_Reason c; cond_Message := cond_Message c;
       cond_LastTransitionTime := bson_time (cond_LastTransitionTime c) |}) (sn_Conditions s);
     sn_Containers := sn_Containers s; sn_Workload := sn_Workload s; sn_Job := sn_Job s;
     sn_Event := (λ e, {| ev_Type := ev_Type e; ev_Reason := ev_Reason e;
       ev_Message := ev_Message e; ev_RegardingUID := ev_RegardingUID e; ev_Count := ev_Count e;
       ev_LastObserved := bson_time (ev_LastObserved e) |}) <$> sn_Event s;
     sn_ContentHash := sn_ContentHash s |}.

Lemma source_roundtrip s : sourceFromDocument (sourceToDocument s) = s.
Proof. by destruct s as [? ? ? ? ? ? ? ? [[]|]]. Qed.

Lemma incident_roundtrip i e :
  incidentFromDocument (encode_incident (incidentToDocument i e)) = rounded_incident i.
Proof.
  unfold incidentFromDocument, encode_incident, incidentToDocument, rounded_incident. simpl.
  by rewrite source_roundtrip.
Qed.

Lemma snapshot_roundtrip id incidentID s e :
  snapshotFromDocument (encode_snapshot (snapshotToDocument id incidentID s e)) =
  {| ss_ID := id; ss_IncidentID := incidentID; ss_Snapshot := rounded_snapshot s;
     ss_ExpiresAt := bson_time <$> e |}.
Proof.
  unfold snapshotFromDocument, encode_snapshot, snapshotToDocument, rounded_snapshot. simpl.
  rewrite source_roundtrip, !map_map. f_equal. f_equal.
  - rewrite <- (map_id (sn_Containers s)) at 2. apply map_ext. by intros [].
  - by destruct (sn_Workload s) as [[]|].
  - by destruct (sn_Job s) as [[]|].
  - by destruct (sn_Event s) as [[]|].
Qed.

Lemma evaluation_roundtrip v e :
  let v' := evaluationFromDocument (encode_evaluation (evaluationToDocument v e)) in
  identityOf v' = identityOf v ∧ evl_ID v' = evl_ID v ∧ evl_Decision v' = evl_Decision v ∧
  evl_ProviderAudit v' = evl_ProviderAudit v ∧ evl_CreatedAt v' = bson_time (evl_CreatedAt v) ∧
  default ∅ (evl_Answers v') = default ∅ (evl_Answers v).
Proof.
  destruct v as [? ? ? ? ? ? [] answers audit ?]. simpl. split_and!; try done.
  - by destruct audit as [[? ? ? ? ? [] ? ? ?]|].
  - destruct answers as [m|]; simpl; [|done].
    destruct (Nat.eqb_spec (size m) 0) as [E|]; [|done].
    by apply map_size_empty_inv in E as ->.
Qed.

Lemma rounded_incident_idem i : rounded_incident (rounded_incident i) = rounded_incident i.
Proof.
  destruct i as [? ? ? ? ? ? ? [t|] ? ?]; unfold rounded_incident; simpl;
    by rewrite !bson_time_idem.
Qed.

End Encoding.

(** ** Witness: times rounded down to the millisecond *)

Lemma ms_floor_idem t : ((t `div` millisecond * millisecond) `div` millisecond) * millisecond
  = t `div` millisecond * millisecond.
Proof. by rewrite Z.div_mul. Qed.
Lemma ms_floor_mono t u : t ≤ u →
  t `div` millisecond * millisecond ≤ u `div` millisecond * millisecond.
Proof. intros. apply Z.mul_le_mono_nonneg_r; [done|]. by apply Z.div_le_mono. Qed.

Definition ms_codec : Codec :=
  {| bson_time t := t `div` millisecond * millisecond;
     bson_time_idem := ms_floor_idem; bson_time_mono := ms_floor_mono |}.

Module DocumentsWitness.
Definition source : Source :=
  {| src_ClusterID := "c1"; src_APIVersion := "v1"; src_Kind := "Pod"; src_Namespace := "shop";
     src_Name := "api-0"; src_UID := "uid-1"; src_ResourceVersion := "7"; src_Generation := 1;
     src_Owner := None |}.
Definition incident : Incident :=
  {| inc_ID := "i1"; inc_Key := "k1"; inc_ClusterID := "c1"; inc_Source := source;
     inc_Status := IncidentOpen; inc_OpenedAt := 1234567; inc_UpdatedAt := 2345678;
     inc_ResolvedAt := None; inc_ContentHash := "h"; inc_Version := 1 |}.
Definition snapshot : Snapshot :=
  {| sn_Source := source; sn_ObservedAt := 7; sn_Labels := ∅; sn_Conditions := [];
     sn_Containers := []; sn_Workload := None; sn_Job := None; sn_Event := None;
     sn_ContentHash := "h" |}.
Definition evaluation : StoredEvaluation :=
  {| evl_ID := "e1"; evl_IncidentID := "i1"; evl_SnapshotHash := "h"; evl_PolicyVersion := "p";
     evl_RubricVersion := ""; evl_ProviderConfigHash := "";
     evl_Decision := {| dec_Severity := SeverityInfo; dec_Action := ActionRecord;
       dec_Summary := "s"; dec_ReasonCodes := []; dec_RuleIDs := [] |};
     evl_Answers := Some ∅; evl_ProviderAudit := None; evl_CreatedAt := 999999 |}.
End DocumentsWitness.

