(* ===== verification/Driver.v ===== *)
(** * The MongoDB driver, as the store relies on it

    The driver and the server are not part of the repository.  They are a
    parameter: a class [Driver] over the state [W] of the outside world, with
    the operations the store calls and the documented behaviour it relies on.
    [db] is the content of the database.  A filter document is given by the
    predicate it denotes and an update document by the function it applies to a
    document; a call that fails may have been applied or not.  A collection
    carries the uniqueness constraints of [_id] and of its unique index.

    [memory_driver] at the end shows that the laws can be met. *)
From S2P Require Import Prelude GoBase Domain Provider Store Documents.

Record Database := {
  db_incidents : list incidentDocument; db_snapshots : list snapshotDocument;
  db_evaluations : list evaluationDocument; db_outbox : list outboxDocument
}.

(** A collection: where its documents are, and when two documents would
    violate a uniqueness constraint. *)
Record Collection (D : Type) := {
  coll_docs : Database → list D;
  coll_put : list D → Database → Database;
  coll_conflict : D → D → bool
}.
Arguments coll_docs {D}. Arguments coll_put {D}. Arguments coll_conflict {D}.

Inductive DriverError := ErrNoDocuments | DuplicateKeyError | OtherDriverError (what : string).

Record UpdateResult := { MatchedCount : Z; UpsertedCount : Z }.

(** [replace_one f u l l' d]: exactly one document [d], which satisfies the
    filter, is replaced by its update. *)
Definition replace_one {D} (f : D → bool) (u : D → D) (l l' : list D) (d : D) : Prop :=
  ∃ l1 l2, l = l1 ++ d :: l2 ∧ l' = l1 ++ u d :: l2 ∧ f d = true.

(** [insert_doc c d l l']: [d] is new, violates no constraint, and is added. *)
Definition insert_doc {D} (c : Collection D) (d : D) (l l' : list D) : Prop :=
  Forall (λ e, coll_conflict c d e = false) l ∧ l' = l ++ [d].

Inductive insert_all {D} (c : Collection D) : list D → list D → list D → Prop :=
  | insert_none l : insert_all c [] l l
  | insert_more d ds l l1 l2 :
      insert_doc c d l l1 → insert_all c ds l1 l2 → insert_all c (d :: ds) l l2.

(** The effect of an update, upserting [d0] if given. *)
Inductive update_effect {D} (c : Collection D) (f : D → bool) (u : D → D) (upsert : option D)
    (l : list D) : UpdateResult → list D → Prop :=
  | effect_matched d l' : replace_one f u l l' d →
      update_effect c f u upsert l {| MatchedCount := 1; UpsertedCount := 0 |} l'
  | effect_none : Forall (λ d, f d = false) l → upsert = None →
      update_effect c f u upsert l {| MatchedCount := 0; UpsertedCount := 0 |} l
  | effect_upserted d0 l' : Forall (λ d, f d = false) l → upsert = Some d0 →
      insert_doc c d0 l l' →
      update_effect c f u upsert l {| MatchedCount := 0; UpsertedCount := 1 |} l'.

Class Driver (W : Type) := {
  driver_codec :: Codec;
  db : W → Database;

  FindOne {D} : Collection D → (D → bool) → W → result DriverError D * W;
  Find {D} : Collection D → (D → bool) → W → result DriverError (list D) * W;
  UpdateOne {D} : Collection D → (D → bool) → (D → D) → option D → W →
    result DriverError UpdateResult * W;
  (** with the sort order and [ReturnDocument: After] *)
  FindOneAndUpdate {D} : Collection D → (D → bool) → (D → D) → option D → (D → D → bool) → W →
    result DriverError D * W;
  InsertOne {D} : Collection D → D → W → result DriverError unit * W;
  InsertMany {D} : Collection D → list D → W → result DriverError unit * W;
  NewObjectID : W → ObjectID * W;
  StartSession : W → result DriverError unit * W;
  WithTransaction : (W → result StoreError unit * W) → W → result StoreError unit * W;

  findOne_spec {D} (c : Collection D) f w r w' : FindOne c f w = (r, w') → db w' = db w ∧
    match r with
    | Ok d => d ∈ coll_docs c (db w) ∧ f d = true
    | Err ErrNoDocuments => Forall (λ d, f d = false) (coll_docs c (db w))
    | Err _ => True
    end;
  find_spec {D} (c : Collection D) f w r w' : Find c f w = (r, w') → db w' = db w ∧
    match r with
    | Ok ds => ds ≡ₚ List.filter f (coll_docs c (db w))
    | Err _ => True
    end;
  updateOne_spec {D} (c : Collection D) f u upsert w r w' :
    UpdateOne c f u upsert w = (r, w') →
    match r with
    | Ok res => ∃ l', update_effect c f u upsert (coll_docs c (db w)) res l' ∧
                      db w' = coll_put c l' (db w)
    | Err DuplicateKeyError => db w' = db w
    | Err _ => db w' = db w ∨
               ∃ res l', update_effect c f u upsert (coll_docs c (db w)) res l' ∧
                         db w' = coll_put c l' (db w)
    end;
  findOneAndUpdate_spec {D} (c : Collection D) f u upsert less w r w' :
    FindOneAndUpdate c f u upsert less w = (r, w') →
    match r with
    | Ok d' =>
        (∃ d l', replace_one f u (coll_docs c (db w)) l' d ∧ d' = u d ∧
           Forall (λ e, f e = true → less e d = false) (coll_docs c (db w)) ∧
           db w' = coll_put c l' (db w)) ∨
        (∃ l', upsert = Some d' ∧ Forall (λ d, f d = false) (coll_docs c (db w)) ∧
           insert_doc c d' (coll_docs c (db w)) l' ∧ db w' = coll_put c l' (db w))
    | Err ErrNoDocuments =>
        upsert = None ∧ Forall (λ d, f d = false) (coll_docs c (db w)) ∧ db w' = db w
    | Err DuplicateKeyError => db w' = db w
    | Err _ => db w' = db w ∨
        (∃ d l', replace_one f u (coll_docs c (db w)) l' d ∧
           Forall (λ e, f e = true → less e d = false) (coll_docs c (db w)) ∧
           db w' = coll_put c l' (db w)) ∨
        (∃ d l', upsert = Some d ∧ Forall (λ d, f d = false) (coll_docs c (db w)) ∧
           insert_doc c d (coll_docs c (db w)) l' ∧ db w' = coll_put c l' (db w))
    end;
  insertOne_spec {D} (c : Collection D) d w r w' : InsertOne c d w = (r, w') →
    match r with
    | Ok _ => ∃ l', insert_doc c d (coll_docs c (db w)) l' ∧ db w' = coll_put c l' (db w)
    | Err _ => True
    end;
  insertMany_spec {D} (c : Collection D) ds w r w' : InsertMany c ds w = (r, w') →
    match r with
    | Ok _ => ∃ l', insert_all c ds (coll_docs c (db w)) l' ∧ db w' = coll_put c l' (db w)
    | Err _ => True
    end;
  newObjectID_spec w id w' : NewObjectID w = (id, w') → db w' = db w ∧
    id ∉ map snd_ID (db_snapshots (db w));
  startSession_spec w r w' : StartSession w = (r, w') → db w' = db w;
  (** A transaction that succeeds has run its body once from the present state
      and kept its writes; one that fails has kept none of them, unless the
      outcome of the commit itself is unknown. *)
  withTransaction_spec body w r w' : WithTransaction body w = (r, w') →
    match r with
    | Ok _ => ∃ w1 w2, db w1 = db w ∧ body w1 = (Ok (), w2) ∧ db w' = db w2
    | Err e => db w' = db w ∧ (∃ w1 w2, db w1 = db w ∧ body w1 = (Err e, w2)) ∨
               ∃ what, e = driver_failure what ∧
                 (db w' = db w ∨ ∃ w1 w2, db w1 = db w ∧ body w1 = (Ok (), w2) ∧ db w' = db w2)
    end
}.

(** ** Lemmas *)

Section ReplaceOne.
Context {D : Type} (f : D → bool) (u : D → D).

Lemma replace_one_elem l l' d : replace_one f u l l' d → d ∈ l ∧ u d ∈ l' ∧ f d = true.
Proof. intros (l1 & l2 & -> & -> & Hf). rewrite !elem_of_app, !elem_of_cons. auto. Qed.

Lemma replace_one_other l l' d e : replace_one f u l l' d → e ∈ l' → e = u d ∨ e ∈ l.
Proof.
  intros (l1 & l2 & -> & -> & _). rewrite !elem_of_app, !elem_of_cons. naive_solver.
Qed.

(** A key that the update keeps stays where it was. *)
Lemma replace_one_key {K} (k : D → K) l l' d :
  (∀ d, k (u d) = k d) → replace_one f u l l' d → map k l' = map k l.
Proof.
  intros Hk (l1 & l2 & -> & -> & _). rewrite !map_app. simpl. by rewrite Hk.
Qed.

Lemma replace_one_exists l : (∃ d, d ∈ l ∧ f d = true) → ∃ l' d, replace_one f u l l' d.
Proof.
  intros (d & (l1 & l2 & ->)%list_elem_of_split & Hf). by exists (l1 ++ u d :: l2), d, l1, l2.
Qed.
End ReplaceOne.

Lemma insert_all_app {D} (c : Collection D) ds l l' : insert_all c ds l l' → l' = l ++ ds.
Proof.
  induction 1 as [l|d ds l l1 l2 [_ ->] _ ->]; [by rewrite app_nil_r|]. by rewrite <- app_assoc.
Qed.

(** ** An in-memory driver

    The world is the database itself, times are rounded down to the
    millisecond, and no call fails for reasons of the infrastructure. *)
Module Memory.
Section Find.
Context {D : Type} (p : D → bool).

Fixpoint split_find (l : list D) : option (list D * D * list D) :=
  match l with
  | [] => None
  | d :: r =>
      if p d then Some ([], d, r)
      else match split_find r with
           | Some (l1, e, l2) => Some (d :: l1, e, l2)
           | None => None
           end
  end.

Lemma split_find_Some l l1 d l2 :
  split_find l = Some (l1, d, l2) → l = l1 ++ d :: l2 ∧ p d = true.
Proof.
  revert l1 d l2. induction l as [|e l IH]; intros l1 d l2; simpl; [done|].
  destruct (p e) eqn:Hp; [by intros [= <- <- <-]|].
  destruct (split_find l) as [[[k1 x] k2]|]; [|done]. intros [= <- <- <-].
  by destruct (IH _ _ _ eq_refl) as [-> ?].
Qed.
Lemma split_find_None l : split_find l = None → Forall (λ d, p d = false) l.
Proof.
  induction l as [|e l IH]; simpl; [constructor|]. destruct (p e) eqn:Hp; [done|].
  destruct (split_find l) as [[[]]|]; [done|]. auto.
Qed.
End Find.

Section Operations.
Context {D : Type} (c : Collection D).

Definition fits (d : D) (l : list D) : bool := forallb (λ e, negb (coll_conflict c d e)) l.

Definition findOne (f : D → bool) (w : Database) : result DriverError D * Database :=
  (match split_find f (coll_docs c w) with
   | Some (_, d, _) => Ok d | None => Err ErrNoDocuments end, w).

Definition upsertOne (upsert : option D) (w : Database) : result DriverError D * Database :=
  match upsert with
  | None => (Err ErrNoDocuments, w)
  | Some d => if fits d (coll_docs c w) then (Ok d, coll_put c (coll_docs c w ++ [d]) w)
              else (Err DuplicateKeyError, w)
  end.

Definition updateOne (f : D → bool) (u : D → D) (upsert : option D) (w : Database)
    : result DriverError UpdateResult * Database :=
  match split_find f (coll_docs c w) with
  | Some (l1, d, l2) =>
      (Ok {| MatchedCount := 1; UpsertedCount := 0 |}, coll_put c (l1 ++ u d :: l2) w)
  | None =>
      match upsertOne upsert w with
      | (Ok _, w') => (Ok {| MatchedCount := 0; UpsertedCount := 1 |}, w')
      | (Err ErrNoDocuments, _) =>
          (Ok {| MatchedCount := 0; UpsertedCount := 0 |}, coll_put c (coll_docs c w) w)
      | (Err e, w') => (Err e, w')
      end
  end.

Definition findOneAndUpdate (f : D → bool) (u : D → D) (upsert : option D) (less : D → D → bool)
    (w : Database) : result DriverError D * Database :=
  let l := coll_docs c w in
  match split_find f l with
  | None => upsertOne upsert w
  | Some _ =>
      match split_find (λ d, f d && forallb (λ e, negb (f e && less e d)) l) l with
      | Some (l1, d, l2) => (Ok (u d), coll_put c (l1 ++ u d :: l2) w)
      | None => (Err (OtherDriverError "no least document"), w)
      end
  end.

Definition insertOne (d : D) (w : Database) : result DriverError unit * Database :=
  if fits d (coll_docs c w) then (Ok (), coll_put c (coll_docs c w ++ [d]) w)
  else (Err DuplicateKeyError, w).

Fixpoint insertAll (ds : list D) (l : list D) : option (list D) :=
  match ds with
  | [] => Some l
  | d :: ds => if fits d l then insertAll ds (l ++ [d]) else None
  end.
Definition insertMany (ds : list D) (w : Database) : result DriverError unit * Database :=
  match insertAll ds (coll_docs c w) with
  | Some l => (Ok (), coll_put c l w)
  | None => (Err DuplicateKeyError, w)
  end.

Lemma fits_insert d l : fits d l = true → insert_doc c d l (l ++ [d]).
Proof.
  unfold fits. intros Hf. split; [|done]. apply Forall_forall. intros e He.
  rewrite forallb_forall in Hf. apply negb_true_iff, Hf. by rewrite <- list_elem_of_In.
Qed.

Lemma updateOne_law f u upsert w r w' :
  updateOne f u upsert w = (r, w') →
  match r with
  | Ok res => ∃ l', update_effect c f u upsert (coll_docs c w) res l' ∧ w' = coll_put c l' w
  | Err DuplicateKeyError => w' = w
  | Err _ => w' = w ∨ ∃ res l', update_effect c f u upsert (coll_docs c w) res l' ∧
                                w' = coll_put c l' w
  end.
Proof.
  unfold updateOne, upsertOne. destruct (split_find f (coll_docs c w)) as [[[l1 d] l2]|] eqn:Hs.
  - apply split_find_Some in Hs as [Hl Hf]. intros [= <- <-]. eexists. split; [|done].
    econstructor. by exists l1, l2.
  - apply split_find_None in Hs. destruct upsert as [d|].
    + destruct (fits d _) eqn:Hfit; intros [= <- <-]; [|done]. eexists. split; [|done].
      econstructor; eauto using fits_insert.
    + intros [= <- <-]. eexists. split; [|done]. by constructor.
Qed.

Lemma findOneAndUpdate_law f u upsert less w r w' :
  findOneAndUpdate f u upsert less w = (r, w') →
  match r with
  | Ok d' =>
      (∃ d l', replace_one f u (coll_docs c w) l' d ∧ d' = u d ∧
         Forall (λ e, f e = true → less e d = false) (coll_docs c w) ∧ w' = coll_put c l' w) ∨
      (∃ l', upsert = Some d' ∧ Forall (λ d, f d = false) (coll_docs c w) ∧
         insert_doc c d' (coll_docs c w) l' ∧ w' = coll_put c l' w)
  | Err ErrNoDocuments => upsert = None ∧ Forall (λ d, f d = false) (coll_docs c w) ∧ w' = w
  | Err _ => w' = w
  end.
Proof.
  unfold findOneAndUpdate, upsertOne. destruct (split_find f (coll_docs c w)) eqn:Hs.
  - destruct (split_find (λ d, f d && _) _) as [[[l1 d] l2]|] eqn:Hm; intros [= <- <-]; [|done].
    apply split_find_Some in Hm as [Hl [Hf Hmin]%andb_true_iff]. left.
    exists d, (l1 ++ u d :: l2). split; [by exists l1, l2|]. split_and!; [done| |done].
    apply Forall_forall. intros e He Hfe. rewrite forallb_forall in Hmin.
    rewrite list_elem_of_In in He. specialize (Hmin e He). rewrite Hfe in Hmin.
    by apply negb_true_iff in Hmin.
  - apply split_find_None in Hs. destruct upsert as [d|]; [|by intros [= <- <-]].
    destruct (fits d _) eqn:Hfit; intros [= <- <-]; [|done]. right.
    eexists. split_and!; [done|done|by apply fits_insert|done].
Qed.

Lemma insertAll_law ds l l' : insertAll ds l = Some l' → insert_all c ds l l'.
Proof.
  revert l. induction ds as [|d ds IH]; intros l; simpl; [intros [= <-]; constructor|].
  destruct (fits d l) eqn:Hf; [|done]. intros Hi. econstructor; eauto using fits_insert.
Qed.
End Operations.

Definition transaction (body : Database → result StoreError unit * Database) (w : Database)
    : result StoreError unit * Database :=
  match body w with (Ok _, w') => (Ok (), w') | (Err e, _) => (Err e, w) end.

Program Definition memory_driver : Driver Database :=
  {| driver_codec := ms_codec; db w := w;
     FindOne _ c f w := findOne c f w;
     Find _ c f w := (Ok (List.filter f (coll_docs c w)), w);
     UpdateOne _ := updateOne; FindOneAndUpdate _ := findOneAndUpdate;
     InsertOne _ := insertOne; InsertMany _ := insertMany;
     NewObjectID w := (fresh (map snd_ID (db_snapshots w)), w);
     StartSession w := (Ok (), w);
     WithTransaction := transaction |}.
Next Obligation.
  intros D c f w r w' [= <- <-]. split; [done|]. destruct (split_find f _) as [[[l1 d] l2]|] eqn:E.
  - apply split_find_Some in E as [-> ?]. rewrite elem_of_app, elem_of_cons. auto.
  - by apply split_find_None.
Qed.
Next Obligation. by intros D c f w r w' [= <- <-]. Qed.
Next Obligation. intros D c f u upsert w r w'. apply updateOne_law. Qed.
Next Obligation.
  intros D c f u upsert less w r w' Hf%findOneAndUpdate_law.
  destruct r as [|[| |]]; auto.
Qed.
Next Obligation.
  intros D c d w r w'. unfold insertOne. destruct (fits c d _) eqn:Hf; intros [= <- <-]; [|done].
  eauto using fits_insert.
Qed.
Next Obligation.
  intros D c ds w r w'. unfold insertMany. destruct (insertAll c ds _) eqn:Hi; intros [= <- <-]; [|done].
  eauto using insertAll_law.
Qed.
Next Obligation. intros w id w' [= <- <-]. split; [done|]. apply infinite_is_fresh. Qed.
Next Obligation. by intros w r w' [= <- <-]. Qed.
Next Obligation.
  intros body w r w'. unfold transaction. destruct (body w) as [[[]|e] w1] eqn:Hb; intros [= <- <-]; eauto 10.
Qed.
End Memory.
