(* ===== verification/Mongo.v ===== *)
(** * Package [internal/store/mongo]: the store's operations

    One definition per operation of [incidents.go], [snapshots.go],
    [evaluations.go] and [outbox.go], over the driver of [Driver].  The filter
    and update documents are the [*_filter] and [*_update] definitions. *)
From S2P Require Import Prelude GoBase Domain Provider Store Documents Driver.

(** ** Collections and their uniqueness constraints ([indexes.go]) *)

Definition incidents : Collection incidentDocument :=
  {| coll_docs := db_incidents;
     coll_put l d := {| db_incidents := l; db_snapshots := db_snapshots d;
                        db_evaluations := db_evaluations d; db_outbox := db_outbox d |};
     coll_conflict a b := (ind_ID a =s? ind_ID b)
       || ((ind_ClusterID a =s? ind_ClusterID b) && (ind_IncidentKey a =s? ind_IncidentKey b)) |}.

Definition snapshots : Collection snapshotDocument :=
  {| coll_docs := db_snapshots;
     coll_put l d := {| db_incidents := db_incidents d; db_snapshots := l;
                        db_evaluations := db_evaluations d; db_outbox := db_outbox d |};
     coll_conflict a b := (snd_ID a =s? snd_ID b)
       || ((snd_IncidentID a =s? snd_IncidentID b)
           && (snd_ContentHash a =s? snd_ContentHash b)) |}.

Definition documentIdentity (d : evaluationDocument) : EvaluationIdentity :=
  {| id_IncidentID := evd_IncidentID d; id_SnapshotHash := evd_SnapshotHash d;
     id_PolicyVersion := evd_PolicyVersion d; id_RubricVersion := evd_RubricVersion d;
     id_ProviderConfigHash := evd_ProviderConfigHash d |}.

Definition evaluations : Collection evaluationDocument :=
  {| coll_docs := db_evaluations;
     coll_put l d := {| db_incidents := db_incidents d; db_snapshots := db_snapshots d;
                        db_evaluations := l; db_outbox := db_outbox d |};
     coll_conflict a b := (evd_ID a =s? evd_ID b)
       || bool_decide (documentIdentity a = documentIdentity b) |}.

Definition outbox : Collection outboxDocument :=
  {| coll_docs := db_outbox;
     coll_put l d := {| db_incidents := db_incidents d; db_snapshots := db_snapshots d;
                        db_evaluations := db_evaluations d; db_outbox := l |};
     coll_conflict a b := (obd_ID a =s? obd_ID b)
       || ((obd_EvaluationID a =s? obd_EvaluationID b)
           && (obd_DestinationID a =s? obd_DestinationID b)
           && (obd_EventType a =s? obd_EventType b)) |}.

(** A driver error under the message of [fmt.Errorf]. *)
Definition driver_error (what : string) (_ : DriverError) : StoreError := driver_failure what.

(** ** [incidents.go] *)

Definition validateIncident (i : Incident) : result StoreError unit :=
  fail_if! blank (inc_ID i) || blank (inc_Key i) || blank (inc_ClusterID i)
    with invalid_request "incident ID, key, and cluster ID are required";
  fail_if! inc_Version i <=? 0 with invalid_request "incident version must be positive";
  Ok ().

Definition incident_filter (clusterID key : string) (d : incidentDocument) : bool :=
  (ind_ClusterID d =s? clusterID) && (ind_IncidentKey d =s? key).
Definition version_filter (id : string) (version : Z) (d : incidentDocument) : bool :=
  (ind_ID d =s? id) && (ind_Version d =? version).

(** ** [outbox.go]: filters and updates *)

Definition claim_filter `{Codec} (now : time) (d : outboxDocument) : bool :=
  ((obd_Status d =s? NotificationPending) && (obd_NextAttemptAt d <=? bson_time now))
  || ((obd_Status d =s? NotificationDelivering)
      && match obd_LeaseUntil d with Some t => t <=? bson_time now | None => false end).

Definition claim_update `{Codec} (r : ClaimRequest) (d : outboxDocument) : outboxDocument :=
  {| obd_ID := obd_ID d; obd_EvaluationID := obd_EvaluationID d;
     obd_DestinationID := obd_DestinationID d; obd_EventType := obd_EventType d;
     obd_Status := NotificationDelivering; obd_Attempts := obd_Attempts d + 1;
     obd_NextAttemptAt := obd_NextAttemptAt d; obd_Payload := obd_Payload d;
     obd_LeaseOwner := cl_WorkerID r;
     obd_LeaseUntil := Some (bson_time (time_add (cl_Now r) (cl_LeaseDuration r)));
     obd_LastFailure := obd_LastFailure d; obd_DeliveredAt := obd_DeliveredAt d;
     obd_UpdatedAt := bson_time (cl_Now r); obd_ExpiresAt := obd_ExpiresAt d |}.

(** Sort by [next_attempt_at], then [_id]. *)
Definition claim_less (a b : outboxDocument) : bool :=
  (obd_NextAttemptAt a <? obd_NextAttemptAt b)
  || ((obd_NextAttemptAt a =? obd_NextAttemptAt b) && str_ltb (obd_ID a) (obd_ID b)).

Definition lease_filter (id workerID : string) (d : outboxDocument) : bool :=
  (obd_ID d =s? id) && (obd_Status d =s? NotificationDelivering) && (obd_LeaseOwner d =s? workerID).

Definition complete_update `{Codec} (r : CompleteRequest) (d : outboxDocument) : outboxDocument :=
  {| obd_ID := obd_ID d; obd_EvaluationID := obd_EvaluationID d;
     obd_DestinationID := obd_DestinationID d; obd_EventType := obd_EventType d;
     obd_Status := NotificationDelivered; obd_Attempts := obd_Attempts d;
     obd_NextAttemptAt := obd_NextAttemptAt d; obd_Payload := obd_Payload d;
     obd_LeaseOwner := ""; obd_LeaseUntil := None; obd_LastFailure := obd_LastFailure d;
     obd_DeliveredAt := Some (bson_time (cp_CompletedAt r));
     obd_UpdatedAt := bson_time (cp_CompletedAt r);
     obd_ExpiresAt := bson_time <$> cp_ExpiresAt r |}.

Definition reschedule_update `{Codec} (status : NotificationStatus) (r : RescheduleRequest)
    (d : outboxDocument) : outboxDocument :=
  {| obd_ID := obd_ID d; obd_EvaluationID := obd_EvaluationID d;
     obd_DestinationID := obd_DestinationID d; obd_EventType := obd_EventType d;
     obd_Status := status; obd_Attempts := obd_Attempts d;
     obd_NextAttemptAt := if status =s? NotificationPending then bson_time (rr_NextAttemptAt r)
                          else obd_NextAttemptAt d;
     obd_Payload := obd_Payload d; obd_LeaseOwner := ""; obd_LeaseUntil := None;
     obd_LastFailure := rr_Failure r; obd_DeliveredAt := obd_DeliveredAt d;
     obd_UpdatedAt := bson_time (rr_Now r); obd_ExpiresAt := bson_time <$> rr_ExpiresAt r |}.

(** [delivery.Status] defaults to pending. *)
Definition default_status (n : Notification) : Notification :=
  {| nt_ID := nt_ID n; nt_EvaluationID := nt_EvaluationID n;
     nt_DestinationID := nt_DestinationID n; nt_EventType := nt_EventType n;
     nt_Status := if nt_Status n =s? "" then NotificationPending else nt_Status n;
     nt_Attempts := nt_Attempts n; nt_NextAttemptAt := nt_NextAttemptAt n;
     nt_Payload := nt_Payload n |}.

Section MongoStore.
Context {W : Type} `{Driver W}.

(** ** Operations on incidents *)

Definition GetIncident (clusterID incidentKey : string) : eff W StoreError Incident :=
  guard! blank clusterID || blank incidentKey
    with invalid_request "cluster ID and incident key are required";
  document ←~ ewrap (λ e, match e with
                          | ErrNoDocuments => ErrNotFound
                          | _ => driver_error "get incident" e
                          end) (FindOne incidents (incident_filter clusterID incidentKey));
  eret (incidentFromDocument document).

Definition ListOpenIncidents : eff W StoreError (list Incident) :=
  documents ←~ ewrap (driver_error "list open incidents")
    (Find incidents (λ d, ind_Status d =s? IncidentOpen));
  eret (map incidentFromDocument documents).

(** [$setOnInsert] leaves an existing document alone. *)
Definition UpsertIncident (incident : Incident) (expiresAt : option time)
    : eff W StoreError (Incident * bool) :=
  _ ←~ elift (validateIncident incident);
  let document := encode_incident (incidentToDocument incident expiresAt) in
  let filter := incident_filter (inc_ClusterID incident) (inc_Key incident) in
  λ w,
    let '(r, w) := UpdateOne incidents filter id (Some document) w in
    let '(r, w) := match r with
                   | Err DuplicateKeyError => UpdateOne incidents filter id None w
                   | _ => (r, w)
                   end in
    match r with
    | Err e => (Err (driver_error "upsert incident" e), w)
    | Ok res =>
        (persisted ←~ ewrap (driver_error "read upserted incident") (FindOne incidents filter);
         eret (incidentFromDocument persisted, UpsertedCount res =? 1)) w
    end.

Definition incident_update (incident : Incident) (expiresAt : option time) (d : incidentDocument)
    : incidentDocument :=
  {| ind_ID := ind_ID d; ind_IncidentKey := ind_IncidentKey d; ind_ClusterID := ind_ClusterID d;
     ind_Source := sourceToDocument (inc_Source incident); ind_Status := inc_Status incident;
     ind_OpenedAt := ind_OpenedAt d; ind_UpdatedAt := bson_time (inc_UpdatedAt incident);
     ind_ResolvedAt := bson_time <$> inc_ResolvedAt incident;
     ind_ContentHash := inc_ContentHash incident; ind_Version := ind_Version d + 1;
     ind_ExpiresAt := bson_time <$> expiresAt |}.

(** The unexported [updateIncident]: a compare-and-set on the version. *)
Definition update_incident (incident : Incident) (expectedVersion : Z) (expiresAt : option time)
    : eff W StoreError unit :=
  result ←~ ewrap (driver_error "update incident")
    (UpdateOne incidents (version_filter (inc_ID incident) expectedVersion)
       (incident_update incident expiresAt) None);
  guard! MatchedCount result =? 0 with ErrConflict;
  eret ().

Definition UpdateIncident (incident : Incident) (expectedVersion : Z) (expiresAt : option time)
    : eff W StoreError unit :=
  _ ←~ elift (validateIncident incident);
  update_incident incident expectedVersion expiresAt.

(** ** [snapshots.go] *)

Definition UpsertSnapshot (incidentID : string) (snapshot : Snapshot) (expiresAt : option time)
    : eff W StoreError (StoredSnapshot * bool) :=
  guard! blank incidentID || blank (sn_ContentHash snapshot)
    with invalid_request "incident ID and snapshot content hash are required";
  λ w,
    let '(candidateID, w) := NewObjectID w in
    let document := encode_snapshot (snapshotToDocument candidateID incidentID snapshot expiresAt) in
    let filter := λ d, (snd_IncidentID d =s? incidentID)
                       && (snd_ContentHash d =s? sn_ContentHash snapshot) in
    let '(r, w) := FindOneAndUpdate snapshots filter id (Some document) (λ _ _, false) w in
    let '(r, w) := match r with
                   | Err DuplicateKeyError => FindOne snapshots filter w
                   | _ => (r, w)
                   end in
    match r with
    | Err e => (Err (driver_error "upsert immutable snapshot" e), w)
    | Ok persisted =>
        (Ok (snapshotFromDocument persisted, snd_ID persisted =s? candidateID), w)
    end.

(** ** [evaluations.go] *)

Definition validateCommit (r : CommitRequest) : result StoreError unit :=
  _ ←! validateIncident (cr_Incident r);
  fail_if! cr_ExpectedVersion r <=? 0
    with invalid_request "expected incident version must be positive";
  fail_if! blank (evl_ID (cr_Evaluation r))
           || (evl_IncidentID (cr_Evaluation r) ≠s? inc_ID (cr_Incident r))
    with invalid_request "evaluation ID and matching incident ID are required";
  fail_if! existsb (λ d, blank (nt_ID d) || (nt_EvaluationID d ≠s? evl_ID (cr_Evaluation r)))
             (cr_Deliveries r)
    with invalid_request "delivery ID and matching evaluation ID are required";
  Ok ().

Definition commitDocuments (r : CommitRequest) : list outboxDocument :=
  map (λ d, encode_outbox (outboxToDocument (default_status d)
              (inc_UpdatedAt (cr_Incident r)) (cr_ExpiresAt r))) (cr_Deliveries r).

(** The function run inside the transaction. *)
Definition commitBody (r : CommitRequest) : eff W StoreError unit := λ w,
  match FindOne evaluations
          (λ d, bool_decide (documentIdentity d = identityOf (cr_Evaluation r))) w with
  | (Ok _, w) => (Ok (), w)
  | (Err ErrNoDocuments, w) =>
      (_ ←~ update_incident (cr_Incident r) (cr_ExpectedVersion r) (cr_ExpiresAt r);
       _ ←~ ewrap (driver_error "insert evaluation")
         (InsertOne evaluations
            (encode_evaluation (evaluationToDocument (cr_Evaluation r) (cr_ExpiresAt r))));
       match cr_Deliveries r with
       | [] => eret ()
       | _ => ewrap (driver_error "insert outbox deliveries")
                (InsertMany outbox (commitDocuments r))
       end) w
  | (Err e, w) => (Err (driver_error "check existing evaluation" e), w)
  end.

Definition Commit (r : CommitRequest) : eff W StoreError unit :=
  _ ←~ elift (validateCommit r);
  _ ←~ ewrap (driver_error "start MongoDB transaction session") StartSession;
  ewrap (wrapped "commit incident evaluation and outbox") (WithTransaction (commitBody r)).

(** ** [outbox.go] *)

Definition ClaimDelivery (r : ClaimRequest) : eff W StoreError Delivery :=
  guard! blank (cl_WorkerID r) || is_zero (cl_Now r) || (cl_LeaseDuration r <=? 0)
    with invalid_request "worker ID, current time, and positive lease duration are required";
  document ←~ ewrap (λ e, match e with
                          | ErrNoDocuments => ErrNotFound
                          | _ => driver_error "claim outbox delivery" e
                          end)
    (FindOneAndUpdate outbox (claim_filter (cl_Now r)) (claim_update r) None claim_less);
  eret (deliveryFromDocument document).

Definition CompleteDelivery (r : CompleteRequest) : eff W StoreError unit :=
  guard! blank (cp_ID r) || blank (cp_WorkerID r) || is_zero (cp_CompletedAt r)
    with invalid_request "delivery ID, worker ID, and completion time are required";
  result ←~ ewrap (driver_error "complete outbox delivery")
    (UpdateOne outbox (lease_filter (cp_ID r) (cp_WorkerID r)) (complete_update r) None);
  guard! MatchedCount result =? 0 with ErrConflict;
  eret ().

Definition rescheduleStatus (r : RescheduleRequest) : result StoreError NotificationStatus :=
  if rr_Failure r =s? FailureRetryable then
    fail_if! before (rr_NextAttemptAt r) (rr_Now r)
      with invalid_request "next attempt time cannot be before current time";
    Ok NotificationPending
  else if rr_Failure r =s? FailurePermanent then Ok NotificationFailed
  else Err (invalid_request "unknown failure class").

Definition RescheduleDelivery (r : RescheduleRequest) : eff W StoreError unit :=
  guard! blank (rr_ID r) || blank (rr_WorkerID r) || is_zero (rr_Now r)
    with invalid_request "delivery ID, worker ID, and current time are required";
  status ←~ elift (rescheduleStatus r);
  result ←~ ewrap (driver_error "reschedule outbox delivery")
    (UpdateOne outbox (lease_filter (rr_ID r) (rr_WorkerID r)) (reschedule_update status r) None);
  guard! MatchedCount result =? 0 with ErrConflict;
  eret ().
End MongoStore.
