(* ===== verification/Indexes.v ===== *)
(** * Package [internal/store/mongo], [indexes.go] and [client.go]: the schema
    of the database

    What the driver offers for collections and indexes is a class over the
    state [W] of the outside world with its documented behaviour; [catalog] is
    what the server has.  A created index is listed with its keys as 32-bit
    integers; names are unique in a collection.  The conversion of a TTL to
    seconds is exact for the one TTL in use, zero. *)
From Stdlib Require Import SpecFloat.
From S2P Require Import Prelude GoBase Provider Documents Driver Mongo.
#[local] Open Scope Z_scope.

Definition incidentsCollection : string := "incidents".
Definition snapshotsCollection : string := "snapshots".
Definition evaluationsCollection : string := "evaluations".
Definition outboxCollection : string := "outbox".

Record indexKey := { ik_Field : string; ik_Direction : Z }.
Record indexSpec := {
  is_Name : string; is_Keys : list indexKey; is_Unique : bool; is_TTL : option duration
}.

Definition keys (l : list (string * Z)) : list indexKey :=
  map (λ kv, {| ik_Field := kv.1; ik_Direction := kv.2 |}) l.
Definition unique_index (name : string) (fields : list (string * Z)) : indexSpec :=
  {| is_Name := name; is_Keys := keys fields; is_Unique := true; is_TTL := None |}.
Definition plain_index (name : string) (fields : list (string * Z)) : indexSpec :=
  {| is_Name := name; is_Keys := keys fields; is_Unique := false; is_TTL := None |}.
Definition ttl_index (name : string) (fields : list (string * Z)) : indexSpec :=
  {| is_Name := name; is_Keys := keys fields; is_Unique := false; is_TTL := Some 0 |}.

Definition requiredIndexes : gmap string (list indexSpec) := {[
  incidentsCollection :=
    [unique_index "ux_incidents_cluster_id_incident_key" [("cluster_id", 1); ("incident_key", 1)];
     plain_index "ix_incidents_status_updated_at" [("status", 1); ("updated_at", -1)];
     ttl_index "ttl_incidents_expires_at" [("expires_at", 1)]];
  snapshotsCollection :=
    [unique_index "ux_snapshots_incident_id_content_hash" [("incident_id", 1); ("content_hash", 1)];
     plain_index "ix_snapshots_incident_id_observed_at" [("incident_id", 1); ("observed_at", -1)];
     ttl_index "ttl_snapshots_expires_at" [("expires_at", 1)]];
  evaluationsCollection :=
    [unique_index "ux_evaluations_identity" [("incident_id", 1); ("snapshot_hash", 1);
       ("policy_version", 1); ("rubric_version", 1); ("provider_config_hash", 1)];
     plain_index "ix_evaluations_incident_id_created_at" [("incident_id", 1); ("created_at", -1)];
     ttl_index "ttl_evaluations_expires_at" [("expires_at", 1)]];
  outboxCollection :=
    [unique_index "ux_outbox_evaluation_destination_event"
       [("evaluation_id", 1); ("destination_id", 1); ("event_type", 1)];
     plain_index "ix_outbox_claim" [("status", 1); ("next_attempt_at", 1); ("lease_until", 1)];
     plain_index "ix_outbox_evaluation_id" [("evaluation_id", 1)];
     ttl_index "ttl_outbox_expires_at" [("expires_at", 1)]]
]}.

(** The values of an index key: the numeric types and the rest. *)
Inductive bson_value :=
  | BInt (z : Z) | BInt32 (z : Z) | BInt64 (z : Z) | BDouble (f : spec_float) | BOther.
Definition bsonKeys (s : indexSpec) : list (string * bson_value) :=
  map (λ k, (ik_Field k, BInt (ik_Direction k))) (is_Keys s).

Record indexModel := {
  im_Keys : list (string * bson_value); im_Name : string; im_Unique : bool;
  im_ExpireAfterSeconds : option Z
}.
Definition ttl_seconds (ttl : duration) : Z := Z.quot ttl second.
Definition model (s : indexSpec) : indexModel :=
  {| im_Keys := bsonKeys s; im_Name := is_Name s; im_Unique := is_Unique s;
     im_ExpireAfterSeconds := (λ ttl, wrap32 (ttl_seconds ttl)) <$> is_TTL s |}.

Record listedIndex := {
  li_Name : string; li_Key : list (string * bson_value); li_Unique : bool;
  li_ExpireAfterSeconds : option Z
}.

(** [int64(f)]: truncation; what does not fit gives the least integer, as the
    conversion does on amd64. *)
Definition trunc64 (f : spec_float) : Z :=
  match f with
  | S754_zero _ => 0
  | S754_finite s m e =>
      let v := if 0 <=? e then Z.pos m * 2 ^ e else Z.pos m / 2 ^ (- e) in
      let v := if s then - v else v in
      if (int64_min <=? v) && (v <=? int64_max) then v else int64_min
  | _ => int64_min
  end.
Definition numericDirection (value : bson_value) : Z :=
  match value with
  | BInt z | BInt32 z | BInt64 z => z
  | BDouble f => trunc64 f
  | BOther => 0
  end.

Fixpoint equalKeys (left_ right_ : list (string * bson_value)) : bool :=
  match left_, right_ with
  | [], [] => true
  | (k, v) :: l, (k', v') :: l' =>
      (k =s? k') && (numericDirection v =? numericDirection v') && equalKeys l l'
  | _, _ => false
  end.

Variant IndexError := index_driver (what : string) | index_incompatible (what : string).

Definition compareIndex (existing : listedIndex) (expected : indexSpec) : result IndexError unit :=
  fail_if! negb (equalKeys (li_Key existing) (bsonKeys expected)) with index_incompatible "keys";
  fail_if! negb (Bool.eqb (li_Unique existing) (is_Unique expected)) with index_incompatible "unique";
  match is_TTL expected with
  | None =>
      fail_if! match li_ExpireAfterSeconds existing with Some _ => true | None => false end
        with index_incompatible "unexpected TTL";
      Ok ()
  | Some ttl =>
      match li_ExpireAfterSeconds existing with
      | None => Err (index_incompatible "TTL")
      | Some seconds =>
          fail_if! negb (seconds =? ttl_seconds ttl) with index_incompatible "TTL"; Ok ()
      end
  end.

(** ** The driver *)

(** What the server lists for a created index. *)
Definition listed (m : indexModel) : listedIndex :=
  {| li_Name := im_Name m; li_Unique := im_Unique m; li_ExpireAfterSeconds := im_ExpireAfterSeconds m;
     li_Key := map (λ kv, (kv.1, BInt32 (numericDirection kv.2))) (im_Keys m) |}.

Abbreviation Catalog := (gmap string (list listedIndex)) (only parsing).
Definition indexes_of (name : string) (c : Catalog) : list listedIndex := default [] (c !! name).

Class IndexDriver (W : Type) := {
  catalog : W → Catalog;
  Ping : W → result string unit * W;
  ListCollectionNames : W → result string (list string) * W;
  CreateCollection : string → W → result string unit * W;
  ListIndexes : string → W → result string (list listedIndex) * W;
  CreateIndex : string → indexModel → W → result string unit * W;

  catalog_names w name : NoDup (map li_Name (indexes_of name (catalog w)));
  ping_spec w r w' : Ping w = (r, w') → catalog w' = catalog w;
  list_collections_spec w r w' : ListCollectionNames w = (r, w') → catalog w' = catalog w ∧
    ∀ names, r = Ok names → ∀ name, name ∈ names ↔ is_Some (catalog w !! name);
  (** A new collection has the index of its identifiers. *)
  create_collection_spec name w r w' : CreateCollection name w = (r, w') →
    (catalog w' = catalog w ∧ r ≠ Ok ()) ∨
    (catalog w !! name = None ∧ ∃ id, li_Name id = "_id_" ∧ catalog w' = <[name := [id]]> (catalog w));
  list_indexes_spec name w r w' : ListIndexes name w = (r, w') → catalog w' = catalog w ∧
    ∀ l, r = Ok l → l = indexes_of name (catalog w);
  create_index_spec name m w r w' : CreateIndex name m w = (r, w') →
    (catalog w' = catalog w ∧ r ≠ Ok ()) ∨
    catalog w' = <[name := indexes_of name (catalog w) ++ [listed m]]> (catalog w)
}.

(** ** Operations *)

Section Indexes.
Context {W : Type} `{IndexDriver W}.

(** The map by name: of two indexes of a name the later one counts. *)
Definition byName (current : list listedIndex) (name : string) : option listedIndex :=
  find (λ i, li_Name i =s? name) (rev current).

Fixpoint ensureEach (collection : string) (current : list listedIndex) (required : list indexSpec)
    : eff W IndexError unit :=
  match required with
  | [] => eret ()
  | expected :: required =>
      match byName current (is_Name expected) with
      | Some existing =>
          _ ←~ elift (compareIndex existing expected); ensureEach collection current required
      | None =>
          guard! existsb (λ existing, (li_Name existing ≠s? "_id_")
                          && equalKeys (li_Key existing) (bsonKeys expected)) current
            with index_incompatible "name";
          _ ←~ ewrap index_driver (CreateIndex collection (model expected));
          ensureEach collection current required
      end
  end.
Definition ensureCollectionIndexes (collection : string) (required : list indexSpec)
    : eff W IndexError unit :=
  current ←~ ewrap index_driver (ListIndexes collection); ensureEach collection current required.

Fixpoint ensureCollections (existing : list string) (names : list string) : eff W IndexError unit :=
  match names with
  | [] => eret ()
  | name :: names =>
      _ ←~ (if bool_decide (name ∈ existing) then eret ()
            else ewrap index_driver (CreateCollection name));
      _ ←~ ensureCollectionIndexes name (default [] (requiredIndexes !! name));
      ensureCollections existing names
  end.
Definition ensureIndexes : eff W IndexError unit :=
  collections ←~ ewrap index_driver ListCollectionNames;
  ensureCollections collections (sortedKeys requiredIndexes).

Definition store_Ready : eff W IndexError unit :=
  _ ←~ ewrap index_driver Ping; ensureIndexes.
End Indexes.

(** ** [client.go] *)

(** [^[A-Za-z0-9_-]+$]. *)
Definition safe_char (c : ascii) : bool :=
  let n := Z.of_N (N_of_ascii c) in
  ((65 <=? n) && (n <=? 90)) || ((97 <=? n) && (n <=? 122)) || ((48 <=? n) && (n <=? 57))
  || (n =? 95) || (n =? 45).
Fixpoint safe_chars (s : string) : bool :=
  match s with EmptyString => true | String c r => safe_char c && safe_chars r end.
Definition safeDatabaseName (s : string) : bool := (s ≠s? "") && safe_chars s.

Variant DatabaseError := database_required | database_administrative | database_unsafe.
Definition validateDatabase (database : string) : result DatabaseError unit :=
  let trimmed := trim_space database in
  fail_if! trimmed =s? "" with database_required;
  fail_if! bool_decide (to_lower trimmed ∈ ["admin"; "local"; "config"]) with database_administrative;
  fail_if! (trimmed ≠s? database) || negb (safeDatabaseName database) with database_unsafe;
  Ok ().

Record MongoConfig := { mc_URI : string; mc_Database : string; mc_ConnectTimeout : duration }.
Variant StoreNewError := new_database (e : DatabaseError) | new_uri_required | new_connect (what : string).
(** [New] with the driver's [Connect], which gets the URI and the time limit. *)
Definition NewStore {W C} (connect : string → duration → eff W string C) (config : MongoConfig)
    : eff W StoreNewError C :=
  _ ←~ elift (match validateDatabase (mc_Database config) with
              | Ok u => Ok u | Err e => Err (new_database e) end);
  guard! blank (mc_URI config) with new_uri_required;
  let timeout := if mc_ConnectTimeout config <=? 0 then 10 * second else mc_ConnectTimeout config in
  ewrap new_connect (connect (mc_URI config) timeout).

(** ** Properties *)

Definition satisfied (l : list listedIndex) (spec : indexSpec) : Prop :=
  ∃ i, i ∈ l ∧ li_Name i = is_Name spec ∧ compareIndex i spec = Ok ().
Definition required_of (name : string) : list indexSpec := default [] (requiredIndexes !! name).
(** Every required index is there. *)
Definition established (c : Catalog) : Prop :=
  ∀ name spec, spec ∈ required_of name → satisfied (indexes_of name c) spec.
(** Nothing is lost. *)
Definition grows (c c' : Catalog) : Prop :=
  ∀ name i, i ∈ indexes_of name c → i ∈ indexes_of name c'.

#[export] Instance grows_preorder : PreOrder grows.
Proof. split; [by intros c name i|]. intros a b c Hab Hbc name i Hi. by apply Hbc, Hab. Qed.

Lemma satisfied_mono l l' spec : (∀ i, i ∈ l → i ∈ l') → satisfied l spec → satisfied l' spec.
Proof. intros Hl (i & Hi & ?). exists i. split; [by apply Hl|done]. Qed.
Lemma indexes_insert name l c : indexes_of name (<[name := l]> c) = l.
Proof. unfold indexes_of. by rewrite lookup_insert_eq. Qed.
Lemma indexes_insert_ne name name' l c : name ≠ name' → indexes_of name' (<[name := l]> c) = indexes_of name' c.
Proof. intros Hne. unfold indexes_of. by rewrite lookup_insert_ne. Qed.
Lemma grows_insert name l c :
  (∀ i, i ∈ indexes_of name c → i ∈ l) → grows c (<[name := l]> c).
Proof.
  intros Hl name' i Hi. destruct (decide (name = name')) as [<-|Hne]; [rewrite indexes_insert; by apply Hl|].
  by rewrite indexes_insert_ne.
Qed.

Definition good_spec (s : indexSpec) : Prop :=
  match is_TTL s with Some ttl => is_int32 (ttl_seconds ttl) | None => True end.

Lemma equalKeys_listed l :
  equalKeys (map (λ kv, (kv.1, BInt32 (numericDirection kv.2))) l) l = true.
Proof. induction l as [|[k v] l IH]; [done|]. cbn. by rewrite String.eqb_refl, Z.eqb_refl, IH. Qed.
Lemma created_satisfies s : good_spec s → compareIndex (listed (model s)) s = Ok ().
Proof.
  unfold good_spec, compareIndex, listed, model. cbn. rewrite equalKeys_listed, eqb_reflx. cbn.
  destruct (is_TTL s) as [ttl|]; cbn; [|done]. intros Ht. by rewrite wrap32_id, Z.eqb_refl.
Qed.

Lemma byName_some l name i : byName l name = Some i → i ∈ l ∧ li_Name i = name.
Proof.
  unfold byName. intros [Hin Hn]%find_some. apply in_rev, list_elem_of_In in Hin.
  by apply String.eqb_eq in Hn.
Qed.
Lemma byName_unique l i : NoDup (map li_Name l) → i ∈ l → byName l (li_Name i) = Some i.
Proof.
  intros Hnd Hi. destruct (byName l (li_Name i)) as [j|] eqn:Hb.
  - apply byName_some in Hb as [Hj Hn]. f_equal. apply list_elem_of_lookup in Hi as [a Ha], Hj as [b Hb].
    assert (a = b).
    { apply (NoDup_lookup (map li_Name l) a b (li_Name i) Hnd); change (map li_Name l) with (li_Name <$> l);
        rewrite list_lookup_fmap; [by rewrite Ha|by rewrite Hb, <- Hn]. }
    subst b. congruence.
  - unfold byName in Hb. apply find_none with (x := i) in Hb.
    + by rewrite String.eqb_refl in Hb.
    + rewrite <- in_rev. by apply list_elem_of_In.
Qed.

Section Established.
Context {W : Type} `{IndexDriver W}.

Lemma create_index_grows name m w r w' :
  CreateIndex name m w = (r, w') →
  grows (catalog w) (catalog w') ∧ (r = Ok () → listed m ∈ indexes_of name (catalog w')).
Proof.
  intros [[-> Hr] | ->]%create_index_spec; [split; [done|by intros ->]|].
  split; [apply grows_insert; intros i Hi; apply elem_of_app; by left|].
  intros _. rewrite indexes_insert. apply elem_of_app. right. by apply list_elem_of_singleton.
Qed.

Lemma ensureEach_ok name current required w w' :
  ensureEach name current required w = (Ok (), w') →
  (∀ i, i ∈ current → i ∈ indexes_of name (catalog w)) → Forall good_spec required →
  grows (catalog w) (catalog w') ∧
  Forall (satisfied (indexes_of name (catalog w'))) required.
Proof.
  revert w. induction required as [|spec required IH]; intros w; cbn [ensureEach].
  { intros [= <-] _ _. split; [done|apply Forall_nil_2]. }
  intros Hw Hcur [Hg Hgs]%Forall_cons. destruct (byName current (is_Name spec)) as [i|] eqn:Hb.
  - apply ebind_ok in Hw as ([] & w1 & [= Hc ->] & Hw). destruct (IH w1 Hw Hcur Hgs) as [Hgr Hall].
    split; [done|]. apply Forall_cons. split; [|done]. apply byName_some in Hb as [Hi Hn].
    exists i. split; [by apply Hgr, Hcur|done].
  - apply guard_ok in Hw as [_ Hw]. apply ebind_ok in Hw as ([] & w1 & Hc & Hw). rewrite ewrap_ok in Hc.
    apply create_index_grows in Hc as [Hg1 Hnew]. destruct (IH w1 Hw) as [Hgr Hall]; [|done|].
    { intros i Hi. by apply Hg1, Hcur. }
    split; [by etrans|]. apply Forall_cons. split; [|done]. exists (listed (model spec)).
    split; [by apply Hgr, Hnew|]. split; [done|by apply created_satisfies].
Qed.

Lemma ensureCollectionIndexes_ok name required w w' :
  ensureCollectionIndexes name required w = (Ok (), w') → Forall good_spec required →
  grows (catalog w) (catalog w') ∧ Forall (satisfied (indexes_of name (catalog w'))) required.
Proof.
  intros (current & w1 & Hl & Hw)%ebind_ok Hg. rewrite ewrap_ok in Hl.
  apply list_indexes_spec in Hl as [Hc Hl]. rewrite <- Hc. eapply ensureEach_ok; [done| |done].
  intros i Hi. rewrite Hc. by rewrite <- (Hl current eq_refl).
Qed.

Lemma required_good name : Forall good_spec (required_of name).
Proof.
  assert (Hall : Forall (λ kv, Forall good_spec kv.2) (map_to_list requiredIndexes)).
  { vm_compute map_to_list. repeat constructor; vm_compute; congruence. }
  unfold required_of. destruct (requiredIndexes !! name) as [l|] eqn:Hl; [|apply Forall_nil_2].
  rewrite Forall_forall in Hall. apply (Hall (name, l)). by apply elem_of_map_to_list.
Qed.

Lemma create_collection_grows name w r w' :
  CreateCollection name w = (r, w') → grows (catalog w) (catalog w').
Proof.
  intros [[-> _]|(Hn & id & _ & ->)]%create_collection_spec; [done|]. apply grows_insert.
  intros i. unfold indexes_of. rewrite Hn. by intros ?%elem_of_nil.
Qed.

Lemma ensureCollections_ok existing names w w' :
  ensureCollections existing names w = (Ok (), w') →
  grows (catalog w) (catalog w') ∧
  ∀ name, name ∈ names → Forall (satisfied (indexes_of name (catalog w'))) (required_of name).
Proof.
  revert w. induction names as [|name names IH]; intros w; cbn [ensureCollections].
  { intros [= <-]. split; [done|]. by intros ? ?%elem_of_nil. }
  intros ([] & w1 & Hc & ([] & w2 & Hi & Hw)%ebind_ok)%ebind_ok.
  assert (H1 : grows (catalog w) (catalog w1)).
  { case_bool_decide; [by injection Hc as <-|]. rewrite ewrap_ok in Hc. by eapply create_collection_grows. }
  apply ensureCollectionIndexes_ok in Hi as [H2 Hall]; [|apply required_good].
  destruct (IH w2 Hw) as [H3 Hrest]. split; [by do 2 (etrans; [done|])|].
  intros name' [->|Hin]%elem_of_cons; [|by apply Hrest]. eapply Forall_impl; [exact Hall|].
  intros spec. apply satisfied_mono. intros i. apply H3.
Qed.

Lemma required_named name spec : spec ∈ required_of name → name ∈ sortedKeys requiredIndexes.
Proof.
  unfold required_of. destruct (requiredIndexes !! name) as [l|] eqn:Hl; [|by intros ?%elem_of_nil].
  intros _. apply elem_of_sortedKeys. by exists l.
Qed.

(** What is established is left alone. *)
Lemma ensureEach_idle name current required w :
  NoDup (map li_Name current) → Forall (satisfied current) required →
  ensureEach name current required w = (Ok (), w).
Proof.
  intros Hnd. induction 1 as [|spec required (i & Hi & Hn & Hc) _ IH]; [done|]. cbn [ensureEach].
  rewrite <- Hn, byName_unique by done. unfold ebind, elift. by rewrite Hc, IH.
Qed.

Definition idle (m : eff W IndexError unit) (w : W) : Prop :=
  ∀ r w', m w = (r, w') → catalog w' = catalog w ∧ (r = Ok () ∨ ∃ what, r = Err (index_driver what)).

Lemma ensureCollectionIndexes_idle name w :
  Forall (satisfied (indexes_of name (catalog w))) (required_of name) →
  idle (ensureCollectionIndexes name (required_of name)) w.
Proof.
  intros Hs r w'. unfold ensureCollectionIndexes, ebind, ewrap.
  destruct (ListIndexes name w) as [[current|e] w1] eqn:Hl; apply list_indexes_spec in Hl as [Hc Hl].
  - rewrite ensureEach_idle; [intros [= <- <-]; split; [done|by left]|..].
    + rewrite (Hl current eq_refl). apply catalog_names.
    + by rewrite (Hl current eq_refl).
  - intros [= <- <-]. split; [done|]. right. by eexists.
Qed.

Lemma ensureCollections_idle existing names w :
  established (catalog w) → (∀ name, name ∈ names → name ∈ existing) →
  idle (ensureCollections existing names) w.
Proof.
  revert w. induction names as [|name names IH]; intros w He Hex r w'; cbn [ensureCollections].
  { intros [= <- <-]. split; [done|by left]. }
  rewrite bool_decide_eq_true_2 by (apply Hex, list_elem_of_here). unfold ebind at 1. cbn [eret].
  unfold ebind. destruct (ensureCollectionIndexes name (default [] (requiredIndexes !! name)) w) as [x w1] eqn:Hi.
  apply ensureCollectionIndexes_idle in Hi as [Hc [->|[what ->]]].
  - intros Hw. apply IH in Hw; [by rewrite Hc in Hw|by rewrite Hc|]. intros n Hn. by apply Hex, list_elem_of_further.
  - intros [= <- <-]. split; [done|]. right. by eexists.
  - apply Forall_forall. intros spec Hspec. by apply He.
Qed.

Lemma established_exists c name : established c → name ∈ sortedKeys requiredIndexes → is_Some (c !! name).
Proof.
  intros He Hn. assert (Hne : ∃ spec, spec ∈ required_of name).
  { assert (Hall : Forall (λ n, ∃ spec, spec ∈ required_of n) (sortedKeys requiredIndexes)).
    { vm_compute sortedKeys. repeat (apply Forall_cons_2; [eexists; apply list_elem_of_here|]). apply Forall_nil_2. }
    rewrite Forall_forall in Hall. by apply Hall. }
  destruct Hne as [spec Hspec]. destruct (He name spec Hspec) as (i & Hi & _). unfold indexes_of in Hi.
  destruct (c !! name); [by eexists|]. by apply elem_of_nil in Hi.
Qed.

End Established.

(** ** The uniqueness the store relies on *)

(** Two documents conflict in a unique index when they agree on its fields. *)
Definition index_conflict {D} (field : D → string → string) (spec : indexSpec) (a b : D) : bool :=
  forallb (λ k, field a (ik_Field k) =s? field b (ik_Field k)) (is_Keys spec).
Definition unique_of (name : string) : list indexSpec := List.filter is_Unique (required_of name).

(** The fields of the documents that are indexed uniquely, by their BSON names. *)
Definition incident_field (d : incidentDocument) (k : string) : string :=
  if k =s? "cluster_id" then ind_ClusterID d else if k =s? "incident_key" then ind_IncidentKey d else "".
Definition snapshot_field (d : snapshotDocument) (k : string) : string :=
  if k =s? "incident_id" then snd_IncidentID d else if k =s? "content_hash" then snd_ContentHash d else "".
Definition evaluation_field (d : evaluationDocument) (k : string) : string :=
  if k =s? "incident_id" then evd_IncidentID d
  else if k =s? "snapshot_hash" then evd_SnapshotHash d
  else if k =s? "policy_version" then evd_PolicyVersion d
  else if k =s? "rubric_version" then evd_RubricVersion d
  else if k =s? "provider_config_hash" then evd_ProviderConfigHash d else "".
Definition outbox_field (d : outboxDocument) (k : string) : string :=
  if k =s? "evaluation_id" then obd_EvaluationID d
  else if k =s? "destination_id" then obd_DestinationID d
  else if k =s? "event_type" then obd_EventType d else "".

(** The constraints under which the store is proved correct are those the
    required indexes impose.  In each of the four collections two documents
    conflict exactly when they have the same identifier or agree on the fields
    of the one unique index. *)
Theorem unique_indexes_match :
  (∀ a b, coll_conflict incidents a b = (ind_ID a =s? ind_ID b)
     || existsb (λ i, index_conflict incident_field i a b) (unique_of incidentsCollection)) ∧
  (∀ a b, coll_conflict snapshots a b = (snd_ID a =s? snd_ID b)
     || existsb (λ i, index_conflict snapshot_field i a b) (unique_of snapshotsCollection)) ∧
  (∀ a b, coll_conflict evaluations a b = (evd_ID a =s? evd_ID b)
     || existsb (λ i, index_conflict evaluation_field i a b) (unique_of evaluationsCollection)) ∧
  (∀ a b, coll_conflict outbox a b = (obd_ID a =s? obd_ID b)
     || existsb (λ i, index_conflict outbox_field i a b) (unique_of outboxCollection)).
Proof.
  split_and!; intros a b.
  - change (unique_of incidentsCollection) with
      [unique_index "ux_incidents_cluster_id_incident_key" [("cluster_id", 1); ("incident_key", 1)]].
    cbn. by rewrite andb_true_r, orb_false_r.
  - change (unique_of snapshotsCollection) with
      [unique_index "ux_snapshots_incident_id_content_hash" [("incident_id", 1); ("content_hash", 1)]].
    cbn. by rewrite andb_true_r, orb_false_r.
  - change (unique_of evaluationsCollection) with
      [unique_index "ux_evaluations_identity" [("incident_id", 1); ("snapshot_hash", 1);
         ("policy_version", 1); ("rubric_version", 1); ("provider_config_hash", 1)]].
    cbn. rewrite andb_true_r, orb_false_r. f_equal. apply eq_true_iff_eq.
    rewrite bool_decide_eq_true, !andb_true_iff, !String.eqb_eq. unfold documentIdentity.
    split; [by intros [= -> -> -> -> ->]|by intros (-> & -> & -> & -> & ->)].
  - change (unique_of outboxCollection) with
      [unique_index "ux_outbox_evaluation_destination_event"
         [("evaluation_id", 1); ("destination_id", 1); ("event_type", 1)]].
    cbn. by rewrite andb_true_r, orb_false_r, andb_assoc.
Qed.

(** ** A driver that meets the laws *)

Module IndexMemory.
Definition named (c : Catalog) : Prop := ∀ name, NoDup (map li_Name (indexes_of name c)).
Definition World : Type := { c : Catalog | named c }.
Definition id_index : listedIndex :=
  {| li_Name := "_id_"; li_Key := [("_id", BInt32 1)]; li_Unique := false; li_ExpireAfterSeconds := None |}.

Lemma named_insert c name l : named c → NoDup (map li_Name l) → named (<[name := l]> c).
Proof.
  intros Hc Hl name'. destruct (decide (name = name')) as [<-|Hne]; [by rewrite indexes_insert|].
  by rewrite indexes_insert_ne.
Qed.
Lemma named_append c name i : named c → li_Name i ∉ map li_Name (indexes_of name c) →
  named (<[name := indexes_of name c ++ [i]]> c).
Proof.
  intros Hc Hi. apply named_insert; [done|]. rewrite map_app. apply NoDup_app. split_and!.
  - apply Hc.
  - intros n Hn. cbn. rewrite list_elem_of_singleton. by intros ->.
  - apply NoDup_singleton.
Qed.

Definition create_collection (name : string) (w : World) : result string unit * World :=
  match `w !! name with
  | Some _ => (Err "exists", w)
  | None => (Ok (), exist named (<[name := [id_index]]> (`w)) (named_insert (`w) name [id_index] (proj2_sig w) (NoDup_singleton _)))
  end.
Definition create_index (name : string) (m : indexModel) (w : World) : result string unit * World :=
  match decide (im_Name m ∈ map li_Name (indexes_of name (`w))) with
  | left _ => (Err "exists", w)
  | right Hn => (Ok (), exist named _ (named_append (`w) name (listed m) (proj2_sig w) Hn))
  end.

#[local] Obligation Tactic := idtac.
#[global, program] Instance driver : IndexDriver World := {
  catalog w := `w;
  Ping w := (Ok (), w);
  ListCollectionNames w := (Ok (map fst (map_to_list (`w))), w);
  CreateCollection := create_collection;
  ListIndexes name w := (Ok (indexes_of name (`w)), w);
  CreateIndex := create_index
}.
Next Obligation. intros [c Hc] name. apply Hc. Qed.
Next Obligation. by intros w r w' [= <- <-]. Qed.
Next Obligation.
  intros w r w' [= <- <-]. split; [done|]. intros names [= <-] name. rewrite list_elem_of_fmap. split.
  - intros ([n l] & -> & Hin). apply elem_of_map_to_list in Hin. by eexists.
  - intros [l Hl]. exists (name, l). split; [done|]. by apply elem_of_map_to_list.
Qed.
Next Obligation.
  intros name w r w'. unfold create_collection. destruct (`w !! name) eqn:Hn; intros [= <- <-]; [by left|right].
  split; [done|]. by exists id_index.
Qed.
Next Obligation. intros name w r w' [= <- <-]. split; [done|]. by intros l [= <-]. Qed.
Next Obligation.
  intros name m w r w'. unfold create_index. destruct (decide _); intros [= <- <-]; [by left|by right].
Qed.

(** An empty database. *)
Lemma named_empty : named ∅.
Proof. intros name. apply NoDup_nil_2. Qed.
Definition empty : World := exist named ∅ named_empty.
Definition ready : World := (store_Ready empty).2.
End IndexMemory.

