(* ===== verification/Contract.v ===== *)
(** * What the store promises to the reconciler and to the dispatcher

    The abstract state of the store is a [StoreView]: incidents by cluster and
    key, the identities already evaluated, and the outbox by delivery ID.  The
    classes [IncidentStore] and [OutboxStore] give the operations of the Go
    interfaces of the same names ([controller/reconciler.go],
    [notify/dispatcher.go]) with their meaning on that state; the clients are
    verified against them, and [MongoRefinement] shows that the MongoDB store
    implements both.  A call that fails for a reason of the infrastructure may
    have taken effect or not. *)
From S2P Require Import Prelude GoBase Domain Provider Store Documents.

#[export] Instance EvaluationIdentity_countable : Countable EvaluationIdentity.
Proof.
  refine (inj_countable'
    (λ i, (id_IncidentID i, id_SnapshotHash i, id_PolicyVersion i, id_RubricVersion i,
           id_ProviderConfigHash i))
    (λ '(a, b, c, d, e), {| id_IncidentID := a; id_SnapshotHash := b; id_PolicyVersion := c;
                            id_RubricVersion := d; id_ProviderConfigHash := e |}) _).
  by intros [].
Defined.

Record StoreView := {
  v_incidents : gmap (string * string) Incident;
  v_evaluated : gset EvaluationIdentity;
  v_outbox : gmap string Delivery
}.

Definition incident_key (i : Incident) : string * string := (inc_ClusterID i, inc_Key i).

Section Views.
Context `{Codec}.

(** ** Incidents and evaluations *)

(** What a commit makes of the stored incident [old]. *)
Definition advanced (new old : Incident) : Incident :=
  {| inc_ID := inc_ID old; inc_Key := inc_Key old; inc_ClusterID := inc_ClusterID old;
     inc_Source := inc_Source new; inc_Status := inc_Status new;
     inc_OpenedAt := inc_OpenedAt old; inc_UpdatedAt := bson_time (inc_UpdatedAt new);
     inc_ResolvedAt := bson_time <$> inc_ResolvedAt new; inc_ContentHash := inc_ContentHash new;
     inc_Version := inc_Version old + 1 |}.

(** The delivery a committed notification becomes. *)
Definition enqueued (expiresAt : option time) (n : Notification) : Delivery :=
  {| dl_Notification :=
       {| nt_ID := nt_ID n; nt_EvaluationID := nt_EvaluationID n;
          nt_DestinationID := nt_DestinationID n; nt_EventType := nt_EventType n;
          nt_Status := if nt_Status n =s? "" then NotificationPending else nt_Status n;
          nt_Attempts := nt_Attempts n; nt_NextAttemptAt := bson_time (nt_NextAttemptAt n);
          nt_Payload := nt_Payload n |};
     dl_LeaseOwner := ""; dl_LeaseUntil := None; dl_LastFailure := ""; dl_DeliveredAt := None;
     dl_ExpiresAt := bson_time <$> expiresAt |}.

Definition enqueue (expiresAt : option time) (ns : list Notification)
    (m : gmap string Delivery) : gmap string Delivery :=
  fold_left (λ m n, <[nt_ID n := enqueued expiresAt n]> m) ns m.

(** A commit: nothing if the evaluation exists, else the incident advances from
    the expected version, and the evaluation and all deliveries are added. *)
Inductive commit_effect (r : CommitRequest) (v : StoreView) : StoreView → Prop :=
  | commit_known :
      identityOf (cr_Evaluation r) ∈ v_evaluated v → commit_effect r v v
  | commit_new k old :
      identityOf (cr_Evaluation r) ∉ v_evaluated v →
      v_incidents v !! k = Some old → inc_ID old = inc_ID (cr_Incident r) →
      inc_Version old = cr_ExpectedVersion r →
      NoDup (map nt_ID (cr_Deliveries r)) →
      Forall (λ n, v_outbox v !! nt_ID n = None) (cr_Deliveries r) →
      commit_effect r v
        {| v_incidents := <[k := advanced (cr_Incident r) old]> (v_incidents v);
           v_evaluated := {[identityOf (cr_Evaluation r)]} ∪ v_evaluated v;
           v_outbox := enqueue (cr_ExpiresAt r) (cr_Deliveries r) (v_outbox v) |}.

(** ** Deliveries *)

Definition d_status (d : Delivery) : NotificationStatus := nt_Status (dl_Notification d).
Definition d_attempts (d : Delivery) : Z := nt_Attempts (dl_Notification d).
Definition d_next (d : Delivery) : time := nt_NextAttemptAt (dl_Notification d).

(** Due, or abandoned by a worker whose lease has run out. *)
Definition eligible (now : time) (d : Delivery) : bool :=
  ((d_status d =s? NotificationPending) && (d_next d <=? bson_time now))
  || ((d_status d =s? NotificationDelivering)
      && match dl_LeaseUntil d with Some t => t <=? bson_time now | None => false end).

Definition with_status (s : NotificationStatus) (attempts : Z) (next : time) (n : Notification)
    : Notification :=
  {| nt_ID := nt_ID n; nt_EvaluationID := nt_EvaluationID n;
     nt_DestinationID := nt_DestinationID n; nt_EventType := nt_EventType n; nt_Status := s;
     nt_Attempts := attempts; nt_NextAttemptAt := next; nt_Payload := nt_Payload n |}.

Definition claimed (r : ClaimRequest) (d : Delivery) : Delivery :=
  {| dl_Notification :=
       with_status NotificationDelivering (d_attempts d + 1) (d_next d) (dl_Notification d);
     dl_LeaseOwner := cl_WorkerID r;
     dl_LeaseUntil := Some (bson_time (time_add (cl_Now r) (cl_LeaseDuration r)));
     dl_LastFailure := dl_LastFailure d; dl_DeliveredAt := dl_DeliveredAt d;
     dl_ExpiresAt := dl_ExpiresAt d |}.

Definition completed (r : CompleteRequest) (d : Delivery) : Delivery :=
  {| dl_Notification :=
       with_status NotificationDelivered (d_attempts d) (d_next d) (dl_Notification d);
     dl_LeaseOwner := ""; dl_LeaseUntil := None; dl_LastFailure := dl_LastFailure d;
     dl_DeliveredAt := Some (bson_time (cp_CompletedAt r));
     dl_ExpiresAt := bson_time <$> cp_ExpiresAt r |}.

Definition rescheduled (r : RescheduleRequest) (d : Delivery) : Delivery :=
  let retry := rr_Failure r =s? FailureRetryable in
  {| dl_Notification :=
       with_status (if retry then NotificationPending else NotificationFailed) (d_attempts d)
         (if retry then bson_time (rr_NextAttemptAt r) else d_next d) (dl_Notification d);
     dl_LeaseOwner := ""; dl_LeaseUntil := None; dl_LastFailure := rr_Failure r;
     dl_DeliveredAt := dl_DeliveredAt d; dl_ExpiresAt := bson_time <$> rr_ExpiresAt r |}.

(** The worker holds the lease of the delivery. *)
Definition held_by (workerID : string) (d : Delivery) : Prop :=
  d_status d = NotificationDelivering ∧ dl_LeaseOwner d = workerID.

(** The earlier delivery in claiming order. *)
Definition due_before (a b : Delivery) : bool :=
  (d_next a <? d_next b)
  || ((d_next a =? d_next b) && str_ltb (nt_ID (dl_Notification a)) (nt_ID (dl_Notification b))).

Definition put_outbox (id : string) (d : Delivery) (v : StoreView) : StoreView :=
  {| v_incidents := v_incidents v; v_evaluated := v_evaluated v;
     v_outbox := <[id := d]> (v_outbox v) |}.

Inductive claim_effect (r : ClaimRequest) (v : StoreView) : Delivery → StoreView → Prop :=
  | claim_one id old :
      blank (cl_WorkerID r) = false → 0 < cl_LeaseDuration r →
      v_outbox v !! id = Some old → eligible (cl_Now r) old = true →
      map_Forall (λ _ other, eligible (cl_Now r) other = true → due_before other old = false)
        (v_outbox v) →
      claim_effect r v (claimed r old) (put_outbox id (claimed r old) v).

Inductive complete_effect (r : CompleteRequest) (v : StoreView) : StoreView → Prop :=
  | complete_one old :
      v_outbox v !! cp_ID r = Some old → held_by (cp_WorkerID r) old →
      complete_effect r v (put_outbox (cp_ID r) (completed r old) v).

Inductive reschedule_effect (r : RescheduleRequest) (v : StoreView) : StoreView → Prop :=
  | reschedule_one old :
      v_outbox v !! rr_ID r = Some old → held_by (rr_WorkerID r) old →
      rr_Failure r = FailureRetryable ∧ rr_Now r ≤ rr_NextAttemptAt r ∨
        rr_Failure r = FailurePermanent →
      reschedule_effect r v (put_outbox (rr_ID r) (rescheduled r old) v).
End Views.

(** ** The interfaces *)

(** What both interfaces share: the abstract state, and the invariant under
    which the operations mean what they promise. *)
Class StoreState (W : Type) := {
  st_codec :: Codec;
  view : W → StoreView;
  store_ok : W → Prop;
  incident_keys w : store_ok w → map_Forall (λ k i, incident_key i = k) (v_incidents (view w));
  incident_ids w k k' i i' : store_ok w → v_incidents (view w) !! k = Some i →
    v_incidents (view w) !! k' = Some i' → inc_ID i = inc_ID i' → k = k';
  outbox_keys w : store_ok w → map_Forall (λ id d, nt_ID (dl_Notification d) = id) (v_outbox (view w))
}.

(** [unchanged w w'] and [maybe P w w']: a failed call. *)
Definition unchanged `{StoreState W} (w w' : W) : Prop := store_ok w' ∧ view w' = view w.
Definition maybe `{StoreState W} (P : StoreView → StoreView → Prop) (w w' : W) : Prop :=
  store_ok w' ∧ (view w' = view w ∨ P (view w) (view w')).

Definition upserted `{Codec} (i : Incident) (v v' : StoreView) : Prop :=
  v_incidents v !! incident_key i = None ∧
  v' = {| v_incidents := <[incident_key i := rounded_incident i]> (v_incidents v);
          v_evaluated := v_evaluated v; v_outbox := v_outbox v |}.

(** The operations of an interface, and a store that keeps its promises when
    nobody else uses it meanwhile. *)
Class IncidentOps (W : Type) := {
  get_incident : string → string → eff W StoreError Incident;
  upsert_incident : Incident → option time → eff W StoreError (Incident * bool);
  upsert_snapshot : string → Snapshot → option time → eff W StoreError (StoredSnapshot * bool);
  commit : CommitRequest → eff W StoreError unit
}.

Class IncidentStore (W : Type) := {
  incident_state :: StoreState W;
  incident_ops :: IncidentOps W;
  get_incident_spec c k w r w' : store_ok w → get_incident c k w = (r, w') → unchanged w w' ∧
    match r with
    | Ok i => v_incidents (view w) !! (c, k) = Some i
    | Err e => is_ErrNotFound e = true → v_incidents (view w) !! (c, k) = None
    end;
  upsert_incident_spec i x w r w' : store_ok w → upsert_incident i x w = (r, w') →
    match r with
    | Ok (i', true) => store_ok w' ∧ i' = rounded_incident i ∧ upserted i (view w) (view w')
    | Ok (i', false) => unchanged w w' ∧ v_incidents (view w) !! incident_key i = Some i'
    | Err _ => maybe (upserted i) w w'
    end;
  upsert_snapshot_spec id s x w r w' : store_ok w → upsert_snapshot id s x w = (r, w') →
    unchanged w w';
  commit_spec q w r w' : store_ok w → commit q w = (r, w') →
    match r with
    | Ok _ => store_ok w' ∧ commit_effect q (view w) (view w')
    | Err e => if is_ErrConflict e then unchanged w w' else maybe (commit_effect q) w w'
    end
}.

Class OutboxOps (W : Type) := {
  claim_delivery : ClaimRequest → eff W StoreError Delivery;
  complete_delivery : CompleteRequest → eff W StoreError unit;
  reschedule_delivery : RescheduleRequest → eff W StoreError unit
}.

Class OutboxStore (W : Type) := {
  outbox_state :: StoreState W;
  outbox_ops :: OutboxOps W;
  claim_delivery_spec q w r w' : store_ok w → claim_delivery q w = (r, w') →
    match r with
    | Ok d => store_ok w' ∧ claim_effect q (view w) d (view w')
    | Err e => if is_ErrNotFound e
               then unchanged w w' ∧
                    map_Forall (λ _ d, eligible (cl_Now q) d = false) (v_outbox (view w))
               else maybe (λ v v', ∃ d, claim_effect q v d v') w w'
    end;
  complete_delivery_spec q w r w' : store_ok w → complete_delivery q w = (r, w') →
    match r with
    | Ok _ => store_ok w' ∧ complete_effect q (view w) (view w')
    | Err e => if is_ErrConflict e
               then unchanged w w' ∧
                    ∀ d, v_outbox (view w) !! cp_ID q = Some d → ¬ held_by (cp_WorkerID q) d
               else maybe (complete_effect q) w w'
    end;
  reschedule_delivery_spec q w r w' : store_ok w → reschedule_delivery q w = (r, w') →
    match r with
    | Ok _ => store_ok w' ∧ reschedule_effect q (view w) (view w')
    | Err e => if is_ErrConflict e
               then unchanged w w' ∧
                    ∀ d, v_outbox (view w) !! rr_ID q = Some d → ¬ held_by (rr_WorkerID q) d
               else maybe (reschedule_effect q) w w'
    end
}.
