(* ===== verification/MongoRefinement.v ===== *)
(** * The MongoDB store implements the contract

    [abstract] reads a [StoreView] off the database.  [database_ok] is the
    invariant the unique indexes enforce.  Each operation of [Mongo] is shown
    to act on the abstract state as [Contract] says, for every driver that
    behaves as [Driver] says, which gives the instances [mongo_incidents] and
    [mongo_outbox]. *)
From S2P Require Import Prelude GoBase Domain Provider Store Documents Driver Mongo Contract.

(** ** Collections as maps *)

Section Index.
Context {D K V : Type} `{Countable K} (key : D → K) (val : D → V).

Definition index (l : list D) : gmap K V := list_to_map ((λ d, (key d, val d)) <$> l).

Lemma index_keys l : ((λ d, (key d, val d)) <$> l).*1 = map key l.
Proof. rewrite <- list_fmap_compose. done. Qed.

Lemma lookup_index l k v :
  NoDup (map key l) → index l !! k = Some v ↔ ∃ d, d ∈ l ∧ key d = k ∧ val d = v.
Proof.
  intros Hnd. unfold index. rewrite <- elem_of_list_to_map by (by rewrite index_keys).
  rewrite list_elem_of_fmap. naive_solver.
Qed.

Lemma lookup_index_None l k : index l !! k = None ↔ ∀ d, d ∈ l → key d ≠ k.
Proof.
  unfold index. rewrite <- not_elem_of_list_to_map, index_keys, list_elem_of_fmap. naive_solver.
Qed.

Lemma index_perm l l' : NoDup (map key l) → l ≡ₚ l' → index l = index l'.
Proof.
  intros Hnd Hp. unfold index. apply list_to_map_proper; [by rewrite index_keys|]. by rewrite Hp.
Qed.

Lemma index_cons d l : index (d :: l) = <[key d := val d]> (index l).
Proof. done. Qed.

Lemma index_snoc d l :
  NoDup (map key (l ++ [d])) → index (l ++ [d]) = <[key d := val d]> (index l).
Proof.
  intros Hnd. rewrite (index_perm _ (d :: l)); [done..|]. by rewrite Permutation_app_comm.
Qed.

Lemma index_replace f (u : D → D) l l' d :
  (∀ d, key (u d) = key d) → NoDup (map key l) → replace_one f u l l' d →
  index l' = <[key d := val (u d)]> (index l).
Proof.
  intros Hk Hnd Hr. pose proof (replace_one_key f u key _ _ _ Hk Hr) as Hkeys.
  destruct Hr as (l1 & l2 & -> & -> & _).
  assert (Hp : ∀ x, l1 ++ x :: l2 ≡ₚ x :: (l1 ++ l2)) by (intros; by rewrite Permutation_middle).
  rewrite (index_perm _ _ (eq_ind_r NoDup Hnd Hkeys) (Hp (u d))), (index_perm _ _ Hnd (Hp d)).
  rewrite !index_cons, Hk. by rewrite insert_insert_eq.
Qed.
End Index.

Definition incidentDocument_key (d : incidentDocument) : string * string :=
  (ind_ClusterID d, ind_IncidentKey d).

Definition abstract (d : Database) : StoreView :=
  {| v_incidents := index incidentDocument_key incidentFromDocument (db_incidents d);
     v_evaluated := list_to_set (map documentIdentity (db_evaluations d));
     v_outbox := index obd_ID deliveryFromDocument (db_outbox d) |}.

Record database_ok (d : Database) : Prop := {
  ok_incident_ids : NoDup (map ind_ID (db_incidents d));
  ok_incident_keys : NoDup (map incidentDocument_key (db_incidents d));
  ok_outbox_ids : NoDup (map obd_ID (db_outbox d))
}.

(** ** Insertions keep the indexes unique *)

Lemma NoDup_map_snoc {D K} (key : D → K) d l :
  NoDup (map key l) → Forall (λ e, key d ≠ key e) l → NoDup (map key (l ++ [d])).
Proof.
  intros Hnd Hf. rewrite map_app. apply NoDup_app. split_and!; [done| |apply NoDup_singleton].
  intros k Hk ->%list_elem_of_singleton. apply list_elem_of_fmap in Hk as (e & He & Hin).
  rewrite Forall_forall in Hf. by apply (Hf e Hin).
Qed.

Lemma insert_incident_ok d l l' :
  insert_doc incidents d l l' →
  Forall (λ e, ind_ID d ≠ ind_ID e) l ∧
  Forall (λ e, incidentDocument_key d ≠ incidentDocument_key e) l.
Proof.
  intros [Hc _]. split; eapply Forall_impl; [exact Hc| |exact Hc|]; intros e; simpl;
    rewrite orb_false_iff, andb_false_iff, !String.eqb_neq; unfold incidentDocument_key;
    [naive_solver|]. intros [_ [?|?]] [= ? ?]; done.
Qed.

Lemma insert_outbox_ok ds l l' :
  insert_all outbox ds l l' → NoDup (map obd_ID l) →
  NoDup (map obd_ID l') ∧ NoDup (map obd_ID ds) ∧ Forall (λ d, obd_ID d ∉ map obd_ID l) ds.
Proof.
  intros Hi Hnd. pose proof (insert_all_app _ _ _ _ Hi) as Happ.
  assert (Hl' : NoDup (map obd_ID l')).
  { clear Happ. induction Hi as [l|d ds l l1 l2 [Hc ->] _ IH]; [done|]. apply IH.
    apply NoDup_map_snoc; [done|]. eapply Forall_impl; [exact Hc|]. intros e. simpl.
    rewrite orb_false_iff, String.eqb_neq. tauto. }
  split; [done|]. subst l'. rewrite map_app in Hl'. apply NoDup_app in Hl' as (_ & Hdis & Hds).
  split; [done|]. apply Forall_forall. intros d Hd Hin. apply (Hdis _ Hin).
  by apply list_elem_of_fmap_2.
Qed.

(** ** Single updates, on the abstract state *)

Lemma replace_one_id {D} (f : D → bool) l l' d : replace_one f id l l' d → l' = l.
Proof. by intros (l1 & l2 & -> & -> & _). Qed.

Lemma put_same_incidents d : coll_put incidents (db_incidents d) d = d.
Proof. by destruct d. Qed.
Lemma put_same_outbox d : coll_put outbox (db_outbox d) d = d.
Proof. by destruct d. Qed.

Lemma put_incidents_ok d f u l' doc :
  (∀ x, ind_ID (u x) = ind_ID x) → (∀ x, incidentDocument_key (u x) = incidentDocument_key x) →
  database_ok d → replace_one f u (db_incidents d) l' doc →
  database_ok (coll_put incidents l' d) ∧
  abstract (coll_put incidents l' d) =
    {| v_incidents := <[incidentDocument_key doc := incidentFromDocument (u doc)]>
         (v_incidents (abstract d));
       v_evaluated := v_evaluated (abstract d); v_outbox := v_outbox (abstract d) |}.
Proof.
  intros Hid Hkey [H1 H2 H3] Hr. split.
  - split; simpl; [| |done].
    + by rewrite (replace_one_key f u _ _ _ _ Hid Hr).
    + by rewrite (replace_one_key f u _ _ _ _ Hkey Hr).
  - unfold abstract. simpl. f_equal. by apply (index_replace _ _ f).
Qed.

Lemma put_outbox_ok d f u l' doc :
  (∀ x, obd_ID (u x) = obd_ID x) → database_ok d → replace_one f u (db_outbox d) l' doc →
  database_ok (coll_put outbox l' d) ∧
  abstract (coll_put outbox l' d) =
    put_outbox (obd_ID doc) (deliveryFromDocument (u doc)) (abstract d) ∧
  v_outbox (abstract d) !! obd_ID doc = Some (deliveryFromDocument doc).
Proof.
  intros Hid [H1 H2 H3] Hr. split_and!.
  - split; simpl; [done..|]. by rewrite (replace_one_key f u _ _ _ _ Hid Hr).
  - unfold abstract, put_outbox. simpl. f_equal. by apply (index_replace _ _ f).
  - apply lookup_index; [done|]. exists doc. by destruct (replace_one_elem _ _ _ _ _ Hr).
Qed.

Section Refinement.
Context {W : Type} `{Driver W}.

Lemma abstract_incident_keys d :
  database_ok d → map_Forall (λ k i, incident_key i = k) (v_incidents (abstract d)).
Proof. intros [_ Hk _] k i Hi. by apply lookup_index in Hi as (doc & _ & <- & <-). Qed.

Lemma abstract_incident_ids d k k' i i' :
  database_ok d → v_incidents (abstract d) !! k = Some i →
  v_incidents (abstract d) !! k' = Some i' → inc_ID i = inc_ID i' → k = k'.
Proof.
  intros [Hids Hk _] Hi Hi' Heq. apply lookup_index in Hi as (x & Hx & <- & <-); [|done].
  apply lookup_index in Hi' as (y & Hy & <- & <-); [|done]. simpl in Heq.
  apply list_elem_of_lookup in Hx as [n Hn], Hy as [m Hm].
  assert (n = m) as ->; [|by simplify_eq].
  eapply (NoDup_lookup (map ind_ID (db_incidents d))); [done|..]; rewrite list_lookup_fmap.
  - by rewrite Hn.
  - rewrite Hm. simpl. by rewrite Heq.
Qed.

Lemma abstract_outbox_keys d :
  database_ok d → map_Forall (λ id x, nt_ID (dl_Notification x) = id) (v_outbox (abstract d)).
Proof. intros [_ _ Hk] id x Hx. by apply lookup_index in Hx as (doc & _ & <- & <-). Qed.

#[export] Instance mongo_state : StoreState W :=
  {| st_codec := driver_codec; view w := abstract (db w); store_ok w := database_ok (db w);
     incident_keys w := abstract_incident_keys (db w);
     incident_ids w := abstract_incident_ids (db w);
     outbox_keys w := abstract_outbox_keys (db w) |}.

Lemma same_unchanged w w' : database_ok (db w) → db w' = db w → unchanged w w'.
Proof. unfold unchanged. simpl. by intros ? ->. Qed.
Lemma same_maybe P w w' : database_ok (db w) → db w' = db w → maybe P w w'.
Proof. unfold maybe. simpl. intros ? ->. auto. Qed.

(** ** Incidents *)

Lemma lookup_incident w c k i :
  database_ok (db w) →
  v_incidents (view w) !! (c, k) = Some i ↔
  ∃ d, d ∈ db_incidents (db w) ∧ incident_filter c k d = true ∧ incidentFromDocument d = i.
Proof.
  intros [_ Hk _]. simpl. rewrite lookup_index by done. unfold incidentDocument_key, incident_filter.
  setoid_rewrite andb_true_iff. setoid_rewrite String.eqb_eq.
  split; intros (d & ? & Hd & ?); exists d; naive_solver.
Qed.

Lemma lookup_no_incident w c k :
  Forall (λ d, incident_filter c k d = false) (db_incidents (db w)) →
  v_incidents (view w) !! (c, k) = None.
Proof.
  intros Hf. simpl. apply lookup_index_None. intros d Hd [= Hc Hk].
  rewrite Forall_forall in Hf. specialize (Hf d Hd). unfold incident_filter in Hf.
  by rewrite Hc, Hk, !String.eqb_refl in Hf.
Qed.

Lemma GetIncident_spec c k w r w' :
  database_ok (db w) → GetIncident c k w = (r, w') → unchanged w w' ∧
  match r with
  | Ok i => v_incidents (view w) !! (c, k) = Some i
  | Err e => is_ErrNotFound e = true → v_incidents (view w) !! (c, k) = None
  end.
Proof.
  intros Hok. unfold GetIncident. destruct (_ || _).
  { intros [= <- <-]. split; [by apply same_unchanged|done]. }
  unfold ebind, ewrap. destruct (FindOne incidents _ w) as [[d|e] w1] eqn:Hf;
    apply findOne_spec in Hf as [Hdb Hf]; intros [= <- <-]; (split; [by apply same_unchanged|]).
  - apply (lookup_incident w c k); [done|]. destruct Hf. eauto.
  - destruct e; try done. intros _. by apply lookup_no_incident.
Qed.

(** The upsert leaves an existing document alone. *)
Lemma upsert_effect f d l res l' :
  update_effect incidents f id (Some d) l res l' →
  UpsertedCount res = 0 ∧ l' = l ∨
  UpsertedCount res = 1 ∧ Forall (λ e, f e = false) l ∧ insert_doc incidents d l l'.
Proof.
  intros Hu. inversion Hu as [d0 l0 Hr|Hn Hs|d0 l0 Hn Hs Hi]; simplify_eq; simpl; auto.
  left. split; [done|]. by eapply replace_one_id.
Qed.

Lemma insert_incident_view i x w w' l' :
  database_ok (db w) →
  insert_doc incidents (encode_incident (incidentToDocument i x)) (db_incidents (db w)) l' →
  db w' = coll_put incidents l' (db w) →
  database_ok (db w') ∧ upserted i (view w) (view w').
Proof.
  intros [H1 H2 H3] Hi Hdb. pose proof (insert_incident_ok _ _ _ Hi) as [Hids Hkeys].
  destruct Hi as [_ ->]. split.
  { rewrite Hdb. split; simpl; [by apply NoDup_map_snoc..|done]. }
  unfold upserted. simpl. split.
  - apply lookup_index_None. intros d Hd Heq. rewrite Forall_forall in Hkeys.
    by apply (Hkeys d Hd).
  - rewrite Hdb. unfold abstract. simpl. f_equal.
    rewrite index_snoc by (by apply NoDup_map_snoc). by rewrite incident_roundtrip.
Qed.

Lemma upserted_lookup i v v' :
  upserted i v v' → v_incidents v' !! incident_key i = Some (rounded_incident i).
Proof. intros [_ ->]. simpl. apply lookup_insert_eq. Qed.

Lemma read_upserted_spec i (created : bool) w (r : result StoreError (Incident * bool)) w' :
  database_ok (db w) →
  (persisted ←~ ewrap (driver_error "read upserted incident")
     (FindOne incidents (incident_filter (inc_ClusterID i) (inc_Key i)));
   eret (incidentFromDocument persisted, created)) w = (r, w') →
  db w' = db w ∧
  match r with
  | Ok (i', c) => c = created ∧ v_incidents (view w) !! incident_key i = Some i'
  | Err _ => True
  end.
Proof.
  intros Hok. unfold ebind, ewrap. destruct (FindOne incidents _ w) as [[d|e] w1] eqn:Hf;
    apply findOne_spec in Hf as [Hdb Hf]; intros [= <- <-]; (split; [done|]); [|done].
  split; [done|]. apply (lookup_incident w); [done|]. destruct Hf. eauto.
Qed.

(** What [UpsertIncident] promises, by its result. *)
Definition upsert_promise (i : Incident) (w w' : W) (r : result StoreError (Incident * bool)) : Prop :=
  match r with
  | Ok (i', true) => store_ok w' ∧ i' = rounded_incident i ∧ upserted i (view w) (view w')
  | Ok (i', false) => unchanged w w' ∧ v_incidents (view w) !! incident_key i = Some i'
  | Err _ => maybe (upserted i) w w'
  end.

Lemma read_existing i w w1 r w' :
  database_ok (db w) → db w1 = db w →
  (persisted ←~ ewrap (driver_error "read upserted incident")
     (FindOne incidents (incident_filter (inc_ClusterID i) (inc_Key i)));
   eret (incidentFromDocument persisted, false)) w1 = (r, w') → upsert_promise i w w' r.
Proof.
  intros Hok Hdb Hread%read_upserted_spec; [|by rewrite Hdb]. destruct Hread as [Hdb' Hr].
  destruct r as [[i' c]|]; [|exact (same_maybe _ _ _ Hok (eq_trans Hdb' Hdb))].
  destruct Hr as [-> Hl]. simpl in Hl. rewrite Hdb in Hl. simpl.
  split; [|done]. apply same_unchanged; congruence.
Qed.

Lemma read_inserted i w w1 r w' :
  database_ok (db w1) → upserted i (view w) (view w1) →
  (persisted ←~ ewrap (driver_error "read upserted incident")
     (FindOne incidents (incident_filter (inc_ClusterID i) (inc_Key i)));
   eret (incidentFromDocument persisted, true)) w1 = (r, w') → upsert_promise i w w' r.
Proof.
  intros Hok Hup Hread%read_upserted_spec; [|done]. destruct Hread as [Hdb' Hr].
  assert (Hv : view w' = view w1) by (simpl; by rewrite Hdb').
  assert (Hok' : store_ok w') by (simpl; by rewrite Hdb').
  destruct r as [[i' c]|].
  - destruct Hr as [-> Hl]. rewrite (upserted_lookup _ _ _ Hup) in Hl. injection Hl as <-.
    rewrite <- Hv in Hup. by split_and!.
  - rewrite <- Hv in Hup. split; [done|by right].
Qed.

(** Updating with [$setOnInsert] but without upsert changes nothing. *)
Lemma noop_update f w r w' :
  UpdateOne incidents f id None w = (r, w') →
  db w' = db w ∧ match r with Ok res => UpsertedCount res = 0 | Err _ => True end.
Proof.
  assert (He : ∀ res l', update_effect incidents f id None (db_incidents (db w)) res l' →
            l' = db_incidents (db w) ∧ UpsertedCount res = 0).
  { intros res l' Hu. inversion Hu as [d0 l0 Hr|?|?]; simplify_eq; [|done].
    split; [|done]. by eapply replace_one_id. }
  intros Hu%updateOne_spec. destruct r as [res|[| |what]].
  1: destruct Hu as (l' & [-> ->]%He & ->).
  3: done.
  2,3: destruct Hu as [->|(res & l' & [-> _]%He & ->)]; [done|].
  all: split; [apply put_same_incidents|done].
Qed.

Lemma UpsertIncident_spec i x w r w' :
  database_ok (db w) → UpsertIncident i x w = (r, w') → upsert_promise i w w' r.
Proof.
  intros Hok. unfold UpsertIncident, ebind at 1, elift.
  destruct (validateIncident i) as [[]|]; [|intros [= <- <-]; exact (same_maybe _ _ _ Hok eq_refl)].
  set (f := incident_filter _ _). set (doc := encode_incident _).
  destruct (UpdateOne incidents f id (Some doc) w) as [[res|e] w1] eqn:Hu;
    apply updateOne_spec in Hu.
  - destruct Hu as (l' & [[-> ->]|(-> & _ & Hi)]%upsert_effect & Hdb).
    + apply read_existing; [done|]. rewrite Hdb. apply put_same_incidents.
    + destruct (insert_incident_view i x w w1 l' Hok Hi Hdb). by apply read_inserted.
  - destruct e as [| |what].
    2:{ destruct (UpdateOne incidents f id None w1) as [r2 w2] eqn:Hu2.
      apply noop_update in Hu2 as [Hdb2 Hr2]. destruct r2 as [res|e2]; [rewrite Hr2|].
      - apply read_existing; congruence.
      - intros [= <- <-]. exact (same_maybe _ _ _ Hok (eq_trans Hdb2 Hu)). }
    all: intros [= <- <-]; destruct Hu as [?|(res & l' & Hu & Hdb)]; [exact (same_maybe _ _ _ Hok ltac:(eassumption))|].
    all: apply upsert_effect in Hu as [[_ ->]|(_ & _ & Hi)];
      [rewrite put_same_incidents in Hdb; exact (same_maybe _ _ _ Hok Hdb)|].
    all: destruct (insert_incident_view i x w w1 l' Hok Hi Hdb); split; auto.
Qed.

(** ** Snapshots *)

(** Snapshots are no part of the abstract state: they are written for audit. *)
Lemma put_snapshots_unchanged w w' l' :
  database_ok (db w) → db w' = coll_put snapshots l' (db w) → unchanged w w'.
Proof. intros [H1 H2 H3] Hdb. unfold unchanged. simpl. by rewrite Hdb. Qed.

Lemma UpsertSnapshot_spec id s x w r w' :
  database_ok (db w) → UpsertSnapshot id s x w = (r, w') → unchanged w w'.
Proof.
  intros Hok. unfold UpsertSnapshot. destruct (_ || _).
  { intros [= <- <-]. by apply same_unchanged. }
  destruct (NewObjectID w) as [oid w1] eqn:Hn. apply newObjectID_spec in Hn as [Hn _].
  assert (Hok1 : database_ok (db w1)) by (by rewrite Hn).
  set (f := λ d, _ && _). set (doc := encode_snapshot _).
  assert (Hstep : ∀ w2, unchanged w1 w2 → unchanged w w2).
  { unfold unchanged. simpl. by rewrite Hn. }
  destruct (FindOneAndUpdate snapshots f Datatypes.id (Some doc) _ w1) as [r1 w2] eqn:Hf.
  apply findOneAndUpdate_spec in Hf.
  assert (Hw2 : unchanged w1 w2).
  { destruct r1 as [d|[| |what]].
    - destruct Hf as [(? & l' & _ & _ & _ & Hdb)|(l' & _ & _ & _ & Hdb)];
        by eapply put_snapshots_unchanged.
    - destruct Hf as (? & _). done.
    - by apply same_unchanged.
    - destruct Hf as [?|[(? & l' & _ & _ & Hdb)|(? & l' & _ & _ & _ & Hdb)]];
        [by apply same_unchanged|by eapply put_snapshots_unchanged..]. }
  destruct r1 as [d|[| |what]].
  3:{ destruct (FindOne snapshots f w2) as [[d|e] w3] eqn:Hf3; apply findOne_spec in Hf3 as [H3 _];
      intros [= <- <-]; apply Hstep; unfold unchanged in *; simpl in *; by rewrite H3. }
  all: intros [= <- <-]; by apply Hstep.
Qed.

(** ** Commit *)

Lemma enqueue_index r ns l :
  NoDup (map obd_ID (l ++ map (λ n, encode_outbox (outboxToDocument (default_status n)
    (inc_UpdatedAt (cr_Incident r)) (cr_ExpiresAt r))) ns)) →
  index obd_ID deliveryFromDocument (l ++ map (λ n, encode_outbox
    (outboxToDocument (default_status n) (inc_UpdatedAt (cr_Incident r)) (cr_ExpiresAt r))) ns) =
  enqueue (cr_ExpiresAt r) ns (index obd_ID deliveryFromDocument l).
Proof.
  revert l. induction ns as [|n ns IH]; intros l Hnd; simpl; [by rewrite app_nil_r|].
  simpl in Hnd. rewrite cons_middle, (assoc_L (++)) in Hnd |- *. rewrite IH by done.
  rewrite index_snoc; [done|]. rewrite map_app in Hnd. by apply NoDup_app in Hnd as [? _].
Qed.

Lemma update_incident_ok i v x w w' :
  database_ok (db w) → update_incident i v x w = (Ok (), w') →
  ∃ doc l', replace_one (version_filter (inc_ID i) v) (incident_update i x)
              (db_incidents (db w)) l' doc ∧ db w' = coll_put incidents l' (db w).
Proof.
  intros Hok. unfold update_incident. rewrite ebind_ok. intros (res & w1 & Hu & Hm).
  rewrite ewrap_ok in Hu. apply updateOne_spec in Hu as (l' & Hu & Hdb).
  apply guard_ok in Hm as [Hm [= <-]].
  inversion Hu as [doc l0 Hr|?|?]; simplify_eq; eauto.
Qed.

Lemma advanced_document i x d :
  incidentFromDocument (incident_update i x d) = advanced i (incidentFromDocument d).
Proof. unfold incidentFromDocument, incident_update, advanced. simpl. by rewrite source_roundtrip. Qed.

Lemma known_identity e l :
  e ∈ (list_to_set (map documentIdentity l) : gset EvaluationIdentity) ↔
  ∃ d, d ∈ l ∧ documentIdentity d = e.
Proof. rewrite elem_of_list_to_set, list_elem_of_fmap. naive_solver. Qed.

(** The inserts of a commit, after the incident has been updated. *)
Lemma commit_inserts_ok r w w' :
  database_ok (db w) →
  (_ ←~ ewrap (driver_error "insert evaluation")
     (InsertOne evaluations
        (encode_evaluation (evaluationToDocument (cr_Evaluation r) (cr_ExpiresAt r))));
   match cr_Deliveries r with
   | [] => eret ()
   | _ => ewrap (driver_error "insert outbox deliveries") (InsertMany outbox (commitDocuments r))
   end) w = (Ok (), w') →
  database_ok (db w') ∧
  NoDup (map nt_ID (cr_Deliveries r)) ∧
  Forall (λ n, v_outbox (view w) !! nt_ID n = None) (cr_Deliveries r) ∧
  view w' =
    {| v_incidents := v_incidents (view w);
       v_evaluated := {[identityOf (cr_Evaluation r)]} ∪ v_evaluated (view w);
       v_outbox := enqueue (cr_ExpiresAt r) (cr_Deliveries r) (v_outbox (view w)) |}.
Proof.
  intros [H1 H2 H3]. rewrite ebind_ok. intros ([] & w1 & Hi & Hrest).
  rewrite ewrap_ok in Hi. apply insertOne_spec in Hi as (l1 & [_ ->] & Hdb1).
  assert (∃ l', insert_all outbox (commitDocuments r) (db_outbox (db w1)) l' ∧
                db w' = coll_put outbox l' (db w1)) as (l' & Hall & Hdb').
  { unfold commitDocuments. destruct (cr_Deliveries r) as [|n ns] eqn:Hd.
    - injection Hrest as <-. eexists. split; [constructor|]. symmetry. apply put_same_outbox.
    - rewrite ewrap_ok in Hrest. apply insertMany_spec in Hrest. unfold commitDocuments in Hrest.
      by rewrite Hd in Hrest. }
  rewrite Hdb1 in Hdb', Hall. simpl in *.
  destruct (insert_outbox_ok _ _ _ Hall H3) as (Hnd & Hids & Hnew).
  apply insert_all_app in Hall as ->.
  assert (Hmap : map obd_ID (commitDocuments r) = map nt_ID (cr_Deliveries r))
    by (unfold commitDocuments; by rewrite map_map).
  split_and!; [by rewrite Hdb'; split|by rewrite <- Hmap| |].
  - apply Forall_forall. intros n Hn. apply lookup_index_None. intros d Hd Heq.
    rewrite Forall_forall in Hnew.
    eapply (Hnew _ (list_elem_of_fmap_2 _ _ _ Hn)). simpl. rewrite <- Heq.
    by apply list_elem_of_fmap_2.
  - rewrite Hdb'. unfold abstract. simpl. f_equal; [|by apply enqueue_index].
    apply set_eq. intros e. rewrite elem_of_union, elem_of_singleton, !known_identity.
    setoid_rewrite elem_of_app. setoid_rewrite list_elem_of_singleton. naive_solver.
Qed.

Lemma commitBody_ok r w w' :
  database_ok (db w) → commitBody r w = (Ok (), w') →
  database_ok (db w') ∧ commit_effect r (view w) (view w').
Proof.
  intros Hok. unfold commitBody.
  destruct (FindOne evaluations _ w) as [[d|[]] w1] eqn:Hf; apply findOne_spec in Hf as [Hdb Hf];
    [|..|done|done].
  - intros [= <-]. simpl. rewrite Hdb. split; [done|]. constructor. apply known_identity.
    exists d. destruct Hf as [? ?%bool_decide_eq_true]. auto.
  - rewrite ebind_ok. intros ([] & w2 & Hu & Hins).
    assert (Hok1 : database_ok (db w1)) by (by rewrite Hdb).
    apply update_incident_ok in Hu as (doc & l' & Hr & Hdb2); [|done].
    destruct (put_incidents_ok (db w1) _ (incident_update (cr_Incident r) (cr_ExpiresAt r)) l' doc
      ltac:(done) ltac:(done) Hok1 Hr) as [Hok2 Hview2].
    rewrite <- Hdb2 in Hok2, Hview2. apply commit_inserts_ok in Hins as (Hok' & Hnd & Hnew & Hview);
      [|done].
    split; [done|]. change (view w2) with (abstract (db w2)) in Hview, Hnew.
    rewrite Hview2, Hdb, advanced_document in Hview. rewrite Hview2, Hdb in Hnew. rewrite Hview.
    rewrite Hdb in Hr.
    apply replace_one_elem in Hr as (Hin & _ & Hv). unfold version_filter in Hv.
    apply andb_true_iff in Hv as [Hid%String.eqb_eq Hver%Z.eqb_eq].
    apply (commit_new r (abstract (db w)) (incidentDocument_key doc) (incidentFromDocument doc));
      simpl; try done.
    + rewrite known_identity. intros (d & Hd & Heq). rewrite Forall_forall in Hf.
      specialize (Hf d Hd). by apply bool_decide_eq_false in Hf.
    + apply lookup_index; [by destruct Hok|]. eauto.
Qed.

Lemma Commit_spec q w r w' :
  database_ok (db w) → Commit q w = (r, w') →
  match r with
  | Ok _ => store_ok w' ∧ commit_effect q (view w) (view w')
  | Err e => if is_ErrConflict e then unchanged w w' else maybe (commit_effect q) w w'
  end.
Proof.
  intros Hok. unfold Commit, ebind, elift, ewrap.
  destruct (validateCommit q) as [[]|e] eqn:Hv.
  2:{ intros [= <- <-]. destruct (is_ErrConflict e); [by apply same_unchanged|by apply same_maybe]. }
  destruct (StartSession w) as [[[]|e] w1] eqn:Hs; apply startSession_spec in Hs.
  2:{ intros [= <- <-]. by apply same_maybe. }
  assert (Hok1 : database_ok (db w1)) by (by rewrite Hs).
  assert (Hv1 : view w1 = view w) by (simpl; by rewrite Hs).
  destruct (WithTransaction (commitBody q) w1) as [[[]|e] w2] eqn:Ht;
    apply withTransaction_spec in Ht; intros [= <- <-].
  - destruct Ht as (w3 & w4 & H3 & Hb & H4). apply commitBody_ok in Hb as [Hok4 He];
      [|by rewrite H3]. simpl in *. rewrite H4. split; [done|]. by rewrite H3, Hs in He.
  - simpl. destruct Ht as [[H2 _]|(what & -> & [H2|(w3 & w4 & H3 & Hb & H4)])].
    + rewrite Hs in H2. destruct (is_ErrConflict e); [by apply same_unchanged|by apply same_maybe].
    + rewrite Hs in H2. by apply same_maybe.
    + apply commitBody_ok in Hb as [Hok4 He]; [|by rewrite H3]. simpl in *.
      split; simpl; rewrite H4; [done|]. right. by rewrite H3, Hs in He.
Qed.

(** ** Outbox *)

Lemma eligible_document now d : eligible now (deliveryFromDocument d) = claim_filter now d.
Proof. done. Qed.
Lemma due_before_document a b :
  due_before (deliveryFromDocument a) (deliveryFromDocument b) = claim_less a b.
Proof. done. Qed.

Lemma outbox_elem w id x :
  database_ok (db w) →
  v_outbox (view w) !! id = Some x ↔
  ∃ d, d ∈ db_outbox (db w) ∧ obd_ID d = id ∧ deliveryFromDocument d = x.
Proof. intros [_ _ Hi]. by apply lookup_index. Qed.

Lemma outbox_Forall w (P : Delivery → Prop) :
  database_ok (db w) → Forall (λ d, P (deliveryFromDocument d)) (db_outbox (db w)) →
  map_Forall (λ _ d, P d) (v_outbox (view w)).
Proof.
  intros Hok Hall id x Hx. apply outbox_elem in Hx as (d & Hd & _ & <-); [|done].
  rewrite Forall_forall in Hall. by apply Hall.
Qed.

Lemma claim_replace q w w' l' d :
  blank (cl_WorkerID q) = false → 0 < cl_LeaseDuration q → database_ok (db w) →
  replace_one (claim_filter (cl_Now q)) (claim_update q) (db_outbox (db w)) l' d →
  Forall (λ e, claim_filter (cl_Now q) e = true → claim_less e d = false) (db_outbox (db w)) →
  db w' = coll_put outbox l' (db w) →
  database_ok (db w') ∧ claim_effect q (view w) (deliveryFromDocument (claim_update q d)) (view w').
Proof.
  intros Hw Hd Hok Hr Hmin Hdb.
  destruct (put_outbox_ok _ _ (claim_update q) _ _ ltac:(done) Hok Hr) as (Hok' & Hview & Hl).
  simpl. rewrite Hdb, Hview. split; [done|].
  change (deliveryFromDocument (claim_update q d)) with (claimed q (deliveryFromDocument d)).
  constructor; [done..| |].
  - rewrite eligible_document. by apply replace_one_elem in Hr as (_ & _ & ?).
  - by apply (outbox_Forall w (λ x, eligible (cl_Now q) x = true →
      due_before x (deliveryFromDocument d) = false)).
Qed.

(** An update of a leased document. *)
Lemma lease_replace id owner u w w' l' d :
  (∀ x, obd_ID (u x) = obd_ID x) → database_ok (db w) →
  replace_one (lease_filter id owner) u (db_outbox (db w)) l' d →
  db w' = coll_put outbox l' (db w) →
  database_ok (db w') ∧ obd_ID d = id ∧
  v_outbox (view w) !! id = Some (deliveryFromDocument d) ∧
  held_by owner (deliveryFromDocument d) ∧
  view w' = put_outbox id (deliveryFromDocument (u d)) (view w).
Proof.
  intros Hu Hok Hr Hdb. destruct (put_outbox_ok _ _ u _ _ Hu Hok Hr) as (Hok' & Hview & Hl).
  apply replace_one_elem in Hr as (_ & _ & Hf). unfold lease_filter in Hf.
  rewrite !andb_true_iff, !String.eqb_eq in Hf. destruct Hf as [[Hid Hst] Hown].
  simpl. rewrite Hdb, Hview. rewrite Hid in *. by split_and!.
Qed.

Lemma no_lease id owner w :
  database_ok (db w) → Forall (λ d, lease_filter id owner d = false) (db_outbox (db w)) →
  ∀ x, v_outbox (view w) !! id = Some x → ¬ held_by owner x.
Proof.
  intros Hok Hall x Hx [Hst Hown]. apply outbox_elem in Hx as (d & Hd & Hid & <-); [|done].
  rewrite Forall_forall in Hall. specialize (Hall d Hd). unfold lease_filter in Hall.
  unfold d_status in Hst. simpl in Hst, Hown.
  by rewrite Hid, Hst, Hown, !String.eqb_refl in Hall.
Qed.

(** The shape [CompleteDelivery] and [RescheduleDelivery] share: an update of
    the leased document, and a conflict when there is none. *)
Lemma lease_update_spec what id owner u (P : StoreView → StoreView → Prop) w r w' :
  (∀ x, obd_ID (u x) = obd_ID x) → database_ok (db w) →
  (∀ d, v_outbox (view w) !! id = Some (deliveryFromDocument d) →
        held_by owner (deliveryFromDocument d) →
        P (view w) (put_outbox id (deliveryFromDocument (u d)) (view w))) →
  (result ←~ ewrap (driver_error what) (UpdateOne outbox (lease_filter id owner) u None);
   guard! MatchedCount result =? 0 with ErrConflict; eret ()) w = (r, w') →
  match r with
  | Ok _ => store_ok w' ∧ P (view w) (view w')
  | Err e => if is_ErrConflict e
             then unchanged w w' ∧ ∀ x, v_outbox (view w) !! id = Some x → ¬ held_by owner x
             else maybe P w w'
  end.
Proof.
  intros Hu Hok HP.
  assert (Heff : ∀ res l' w', update_effect outbox (lease_filter id owner) u None
            (db_outbox (db w)) res l' → db w' = coll_put outbox l' (db w) →
            (MatchedCount res =? 0) = false ∧ store_ok w' ∧ P (view w) (view w') ∨
            (MatchedCount res =? 0) = true ∧ unchanged w w' ∧
            ∀ x, v_outbox (view w) !! id = Some x → ¬ held_by owner x).
  { intros res l' w1 He Hdb. inversion He as [d l0 Hr|Hn|?]; simplify_eq.
    - left. destruct (lease_replace id owner u w w1 l' d Hu Hok Hr Hdb) as (? & _ & ? & ? & ->). auto.
    - right. rewrite put_same_outbox in Hdb.
      split_and!; [done|by apply same_unchanged|by apply no_lease]. }
  unfold ebind, ewrap. destruct (UpdateOne outbox _ u None w) as [[res|e] w1] eqn:Hup;
    apply updateOne_spec in Hup.
  - destruct Hup as (l' & He & Hdb).
    destruct (Heff _ _ _ He Hdb) as [(-> & ?)|(-> & ?)]; intros [= <- <-]; done.
  - intros [= <- <-]. simpl. destruct e as [| |what']; [|by apply same_maybe|].
    all: destruct Hup as [?|(res & l' & He & Hdb)]; [by apply same_maybe|].
    all: destruct (Heff _ _ _ He Hdb) as [(_ & ? & ?)|(_ & [? ?] & _)]; split; auto.
Qed.

Lemma ClaimDelivery_spec q w r w' :
  database_ok (db w) → ClaimDelivery q w = (r, w') →
  match r with
  | Ok d => store_ok w' ∧ claim_effect q (view w) d (view w')
  | Err e => if is_ErrNotFound e
             then unchanged w w' ∧
                  map_Forall (λ _ d, eligible (cl_Now q) d = false) (v_outbox (view w))
             else maybe (λ v v', ∃ d, claim_effect q v d v') w w'
  end.
Proof.
  intros Hok. unfold ClaimDelivery. destruct (_ || _) eqn:Hguard.
  { intros [= <- <-]. by apply same_maybe. }
  rewrite !orb_false_iff, Z.leb_gt in Hguard. destruct Hguard as [[Hworker _] Hlease].
  unfold ebind, ewrap. destruct (FindOneAndUpdate outbox _ _ None _ w) as [[d|e] w1] eqn:Hf;
    apply findOneAndUpdate_spec in Hf; intros [= <- <-].
  - destruct Hf as [(d0 & l' & Hr & -> & Hmin & Hdb)|(? & ? & _)]; [|done].
    by apply (claim_replace q w w1 l' d0).
  - destruct e as [| |what]; simpl.
    + destruct Hf as (_ & Hn & Hdb). split; [by apply same_unchanged|].
      by apply (outbox_Forall w (λ x, eligible (cl_Now q) x = false)).
    + by apply same_maybe.
    + destruct Hf as [?|[(d0 & l' & Hr & Hmin & Hdb)|(? & ? & ? & _)]]; [by apply same_maybe| |done].
      destruct (claim_replace q w w1 l' d0 Hworker Hlease Hok Hr Hmin Hdb). split; eauto.
Qed.

Lemma CompleteDelivery_spec q w r w' :
  database_ok (db w) → CompleteDelivery q w = (r, w') →
  match r with
  | Ok _ => store_ok w' ∧ complete_effect q (view w) (view w')
  | Err e => if is_ErrConflict e
             then unchanged w w' ∧
                  ∀ d, v_outbox (view w) !! cp_ID q = Some d → ¬ held_by (cp_WorkerID q) d
             else maybe (complete_effect q) w w'
  end.
Proof.
  intros Hok. unfold CompleteDelivery. destruct (_ || _ || _).
  { intros [= <- <-]. by apply same_maybe. }
  apply lease_update_spec; [done..|]. intros d. by apply complete_one.
Qed.

Lemma RescheduleDelivery_spec q w r w' :
  database_ok (db w) → RescheduleDelivery q w = (r, w') →
  match r with
  | Ok _ => store_ok w' ∧ reschedule_effect q (view w) (view w')
  | Err e => if is_ErrConflict e
             then unchanged w w' ∧
                  ∀ d, v_outbox (view w) !! rr_ID q = Some d → ¬ held_by (rr_WorkerID q) d
             else maybe (reschedule_effect q) w w'
  end.
Proof.
  intros Hok. unfold RescheduleDelivery. destruct (_ || _ || _).
  { intros [= <- <-]. by apply same_maybe. }
  unfold ebind at 1, elift, rescheduleStatus, before.
  destruct (String.eqb_spec (rr_Failure q) FailureRetryable) as [Hf|Hf].
  - destruct (Z.ltb_spec (rr_NextAttemptAt q) (rr_Now q)) as [|Hle];
      [intros [= <- <-]; by apply same_maybe|].
    apply lease_update_spec; [done..|]. intros d Hl Hh.
    pose proof (reschedule_one q (view w) _ Hl Hh ltac:(auto)) as He.
    unfold rescheduled in He. by rewrite (proj2 (String.eqb_eq _ _) Hf) in He.
  - destruct (String.eqb_spec (rr_Failure q) FailurePermanent) as [Hp|Hp];
      [|intros [= <- <-]; by apply same_maybe].
    apply lease_update_spec; [done..|]. intros d Hl Hh.
    pose proof (reschedule_one q (view w) _ Hl Hh ltac:(auto)) as He.
    unfold rescheduled in He. by rewrite (proj2 (String.eqb_neq _ _) Hf) in He.
Qed.

(** ** The MongoDB store is an instance of both interfaces *)

#[export] Instance mongo_incident_ops : IncidentOps W :=
  {| get_incident := GetIncident; upsert_incident := UpsertIncident;
     upsert_snapshot := UpsertSnapshot; commit := Commit |}.
#[export] Instance mongo_outbox_ops : OutboxOps W :=
  {| claim_delivery := ClaimDelivery; complete_delivery := CompleteDelivery;
     reschedule_delivery := RescheduleDelivery |}.

#[export] Instance mongo_incidents : IncidentStore W :=
  {| incident_state := mongo_state; incident_ops := mongo_incident_ops;
     get_incident_spec := GetIncident_spec; upsert_incident_spec := UpsertIncident_spec;
     upsert_snapshot_spec := UpsertSnapshot_spec; commit_spec := Commit_spec |}.

#[export] Instance mongo_outbox : OutboxStore W :=
  {| outbox_state := mongo_state; outbox_ops := mongo_outbox_ops;
     claim_delivery_spec := ClaimDelivery_spec; complete_delivery_spec := CompleteDelivery_spec;
     reschedule_delivery_spec := RescheduleDelivery_spec |}.
End Refinement.

(** ** Properties *)

Section StoreProperties.
Context {W : Type} `{Driver W}.

(** C3: the MongoDB store refines the incident contract.  Reading finds exactly
    the incident of the cluster and key; inserting an incident that exists
    leaves it alone and returns it; a successful commit either found the
    evaluation already recorded and changed nothing, or advanced the incident
    from the expected version and recorded the evaluation and every delivery in
    one step; a version conflict changes nothing. *)
Theorem mongo_refines_incident_store w :
  database_ok (db w) →
  (∀ c k r w', GetIncident c k w = (r, w') → unchanged w w' ∧
     match r with
     | Ok i => v_incidents (view w) !! (c, k) = Some i
     | Err e => is_ErrNotFound e = true → v_incidents (view w) !! (c, k) = None
     end) ∧
  (∀ i x r w', UpsertIncident i x w = (r, w') →
     match r with
     | Ok (i', true) => store_ok w' ∧ i' = rounded_incident i ∧ upserted i (view w) (view w')
     | Ok (i', false) => unchanged w w' ∧ v_incidents (view w) !! incident_key i = Some i'
     | Err _ => maybe (upserted i) w w'
     end) ∧
  (∀ q r w', Commit q w = (r, w') →
     match r with
     | Ok _ => store_ok w' ∧ commit_effect q (view w) (view w')
     | Err e => if is_ErrConflict e then unchanged w w' else maybe (commit_effect q) w w'
     end).
Proof.
  intros Hok. split_and!; intros.
  - by apply GetIncident_spec.
  - by eapply UpsertIncident_spec.
  - by apply Commit_spec.
Qed.

(** C4: the MongoDB store refines the outbox contract.  A claim takes the
    earliest eligible delivery and leases it, and reports that there is none
    only when there is none; completing or rescheduling changes exactly the
    delivery that the worker holds, and conflicts exactly when the worker does
    not hold it. *)
Theorem mongo_refines_outbox_store w :
  database_ok (db w) →
  (∀ q r w', ClaimDelivery q w = (r, w') →
     match r with
     | Ok d => store_ok w' ∧ claim_effect q (view w) d (view w')
     | Err e => if is_ErrNotFound e
                then unchanged w w' ∧
                     map_Forall (λ _ d, eligible (cl_Now q) d = false) (v_outbox (view w))
                else maybe (λ v v', ∃ d, claim_effect q v d v') w w'
     end) ∧
  (∀ q r w', CompleteDelivery q w = (r, w') →
     match r with
     | Ok _ => store_ok w' ∧ complete_effect q (view w) (view w')
     | Err e => if is_ErrConflict e
                then unchanged w w' ∧
                     ∀ d, v_outbox (view w) !! cp_ID q = Some d → ¬ held_by (cp_WorkerID q) d
                else maybe (complete_effect q) w w'
     end) ∧
  (∀ q r w', RescheduleDelivery q w = (r, w') →
     match r with
     | Ok _ => store_ok w' ∧ reschedule_effect q (view w) (view w')
     | Err e => if is_ErrConflict e
                then unchanged w w' ∧
                     ∀ d, v_outbox (view w) !! rr_ID q = Some d → ¬ held_by (rr_WorkerID q) d
                else maybe (reschedule_effect q) w w'
     end).
Proof.
  intros Hok. split_and!; intros.
  - by apply ClaimDelivery_spec.
  - by apply CompleteDelivery_spec.
  - by apply RescheduleDelivery_spec.
Qed.
End StoreProperties.

(** ** Witnesses *)

Module StoreWitness.
#[local] Existing Instance Memory.memory_driver.

Definition noon : time := unix_epoch + 10 ^ 18.
Definition doc (id : string) (status : NotificationStatus) (next : time) : outboxDocument :=
  {| obd_ID := id; obd_EvaluationID := "e1"; obd_DestinationID := id; obd_EventType := "opened";
     obd_Status := status; obd_Attempts := 0; obd_NextAttemptAt := next; obd_Payload := "{}";
     obd_LeaseOwner := ""; obd_LeaseUntil := None; obd_LastFailure := "";
     obd_DeliveredAt := None; obd_UpdatedAt := noon; obd_ExpiresAt := None |}.

(** An incident and two due deliveries, the later one first. *)
Definition database : Database :=
  {| db_incidents := [encode_incident (incidentToDocument DocumentsWitness.incident None)];
     db_snapshots := []; db_evaluations := [];
     db_outbox := [doc "d2" NotificationPending noon; doc "d1" NotificationPending (noon - second)] |}.

Lemma database_is_ok : database_ok (db database).
Proof. split; simpl; repeat constructor; set_solver. Qed.

Definition claim : ClaimRequest := {| cl_WorkerID := "w1"; cl_Now := noon; cl_LeaseDuration := second |}.
Definition request : CommitRequest :=
  {| cr_Incident := DocumentsWitness.incident; cr_ExpectedVersion := 1;
     cr_Evaluation := DocumentsWitness.evaluation; cr_Deliveries := []; cr_ExpiresAt := None |}.
End StoreWitness.

Lemma mongo_refines_incident_store_witness :
  let _ := Memory.memory_driver in
  ∃ w', Commit StoreWitness.request StoreWitness.database = (Ok (), w') ∧
    commit_effect StoreWitness.request (view StoreWitness.database) (view w').
Proof.
  intros D. destruct (Commit StoreWitness.request StoreWitness.database) as [[[]|e] w'] eqn:Hc;
    [|by vm_compute in Hc].
  exists w'. split; [reflexivity|].
  exact (proj2 (proj2 (proj2 (mongo_refines_incident_store StoreWitness.database
    StoreWitness.database_is_ok)) StoreWitness.request (Ok ()) w' Hc)).
Defined.

Lemma mongo_refines_outbox_store_witness :
  let _ := Memory.memory_driver in
  ∃ d w', ClaimDelivery StoreWitness.claim StoreWitness.database = (Ok d, w') ∧
    nt_ID (dl_Notification d) = "d1" ∧
    claim_effect StoreWitness.claim (view StoreWitness.database) d (view w').
Proof.
  intros D. destruct (ClaimDelivery StoreWitness.claim StoreWitness.database) as [[d|e] w'] eqn:Hc;
    [|by vm_compute in Hc].
  exists d, w'. split; [reflexivity|]. split; [by vm_compute in Hc; injection Hc as <- <-|].
  exact (proj2 (proj1 (mongo_refines_outbox_store StoreWitness.database
    StoreWitness.database_is_ok) StoreWitness.claim (Ok d) w' Hc)).
Defined.
