(* ===== verification/Outbox.v ===== *)
(** * The life of a notification

    The outbox as a transition system: any number of dispatcher workers, with
    clocks of their own, interleave their claims, completions and reschedulings
    with the commits of reconcilers and with the database dropping expired
    documents.  The steps are the effects of [Contract] for the requests the
    program makes: new notifications are pending and never tried, and only a
    finished delivery is given an expiry ([reconciler.go], [dispatcher.go]). *)
From S2P Require Import Prelude GoBase Domain Provider Store Documents Contract.

Abbreviation outbox_map := (gmap string Delivery) (only parsing).

(** A notification as the reconciler enqueues it. *)
Definition fresh_notification (n : Notification) : Prop :=
  nt_Status n = NotificationPending ∧ nt_Attempts n = 0.

Section Outbox.
Context `{Codec}.
Implicit Types (m : gmap string Delivery) (d : Delivery).

Inductive outbox_step : gmap string Delivery → gmap string Delivery → Prop :=
  | step_enqueue m ns :
      Forall fresh_notification ns → NoDup (map nt_ID ns) →
      Forall (λ n, m !! nt_ID n = None) ns → outbox_step m (enqueue None ns m)
  | step_claim m id d q :
      m !! id = Some d → eligible (cl_Now q) d = true →
      blank (cl_WorkerID q) = false → outbox_step m (<[id := claimed q d]> m)
  | step_complete m id d q :
      m !! id = Some d → held_by (cp_WorkerID q) d →
      outbox_step m (<[id := completed q d]> m)
  | step_retry m id d q :
      m !! id = Some d → held_by (rr_WorkerID q) d → rr_Failure q = FailureRetryable →
      rr_ExpiresAt q = None → rr_Now q ≤ rr_NextAttemptAt q →
      outbox_step m (<[id := rescheduled q d]> m)
  | step_give_up m id d q :
      m !! id = Some d → held_by (rr_WorkerID q) d → rr_Failure q = FailurePermanent →
      outbox_step m (<[id := rescheduled q d]> m)
  | step_expire m id d t :
      m !! id = Some d → dl_ExpiresAt d = Some t → outbox_step m (delete id m).

Definition reachable : gmap string Delivery → Prop := rtc outbox_step ∅.

(** ** The invariant *)

Definition final (d : Delivery) : Prop :=
  d_status d = NotificationDelivered ∨ d_status d = NotificationFailed.

(** Each status determines the rest of the bookkeeping. *)
Definition delivery_wf (d : Delivery) : Prop :=
  d_status d = NotificationPending ∧ dl_LeaseOwner d = "" ∧ dl_LeaseUntil d = None ∧
    dl_DeliveredAt d = None ∧ dl_ExpiresAt d = None ∧ 0 ≤ d_attempts d ∨
  d_status d = NotificationDelivering ∧ dl_LeaseOwner d ≠ "" ∧ is_Some (dl_LeaseUntil d) ∧
    dl_DeliveredAt d = None ∧ dl_ExpiresAt d = None ∧ 1 ≤ d_attempts d ∨
  d_status d = NotificationDelivered ∧ dl_LeaseOwner d = "" ∧ dl_LeaseUntil d = None ∧
    is_Some (dl_DeliveredAt d) ∧ 1 ≤ d_attempts d ∨
  d_status d = NotificationFailed ∧ dl_LeaseOwner d = "" ∧ dl_LeaseUntil d = None ∧
    dl_DeliveredAt d = None ∧ dl_LastFailure d = FailurePermanent ∧ 1 ≤ d_attempts d.

(** What never changes about a delivery: the message. *)
Definition same_message (d d' : Delivery) : Prop :=
  nt_ID (dl_Notification d) = nt_ID (dl_Notification d') ∧
  nt_EvaluationID (dl_Notification d) = nt_EvaluationID (dl_Notification d') ∧
  nt_DestinationID (dl_Notification d) = nt_DestinationID (dl_Notification d') ∧
  nt_EventType (dl_Notification d) = nt_EventType (dl_Notification d') ∧
  nt_Payload (dl_Notification d) = nt_Payload (dl_Notification d').

#[export] Instance same_message_refl : Reflexive same_message.
Proof. by intros ?; unfold same_message. Qed.
#[export] Instance same_message_trans : Transitive same_message.
Proof. unfold same_message. intros x y z. naive_solver congruence. Qed.

(** ** Lemmas *)

Lemma blank_empty : blank "" = true.
Proof. by vm_compute. Qed.

Lemma held_not_final w d : held_by w d → ¬ final d.
Proof. intros [Hs _]. unfold final. rewrite Hs. by intros [|]. Qed.
Lemma eligible_not_final now d : eligible now d = true → ¬ final d.
Proof.
  unfold eligible, final. rewrite orb_true_iff, !andb_true_iff, !String.eqb_eq.
  intros [[-> _]|[-> _]]; by intros [|].
Qed.

Lemma enqueued_wf n : fresh_notification n → delivery_wf (enqueued None n).
Proof. intros [Hs Ha]. left. unfold d_status, d_attempts. simpl. by rewrite Hs, Ha. Qed.

Lemma claimed_wf q d :
  blank (cl_WorkerID q) = false → eligible (cl_Now q) d = true → delivery_wf d →
  delivery_wf (claimed q d).
Proof.
  intros Hb He Hwf. right. left. unfold d_status, d_attempts. simpl.
  assert (cl_WorkerID q ≠ "") by (intros E; by rewrite E, blank_empty in Hb).
  pose proof (eligible_not_final _ _ He) as Hnf. unfold final, delivery_wf, d_attempts in *.
  split_and!; eauto; destruct Hwf as [Hwf|[Hwf|[Hwf|Hwf]]]; destruct_and!; first [done | lia | tauto].
Qed.

Lemma held_wf w d : delivery_wf d → held_by w d → dl_DeliveredAt d = None ∧ 1 ≤ d_attempts d.
Proof.
  intros Hwf [Hs _]. unfold delivery_wf in Hwf. rewrite Hs in Hwf.
  destruct Hwf as [Hwf|[Hwf|[Hwf|Hwf]]]; destruct_and!; done.
Qed.

Lemma completed_wf q d : delivery_wf d → held_by (cp_WorkerID q) d → delivery_wf (completed q d).
Proof.
  intros Hwf Hh. destruct (held_wf _ _ Hwf Hh). right. right. left.
  unfold d_status, d_attempts in *. simpl. eauto.
Qed.

Lemma retried_wf q d :
  delivery_wf d → held_by (rr_WorkerID q) d → rr_Failure q = FailureRetryable →
  rr_ExpiresAt q = None → delivery_wf (rescheduled q d).
Proof.
  intros Hwf Hh Hf Hx. destruct (held_wf _ _ Hwf Hh). left.
  unfold rescheduled, d_status, d_attempts in *. rewrite Hf, Hx. simpl. split_and!; done || lia.
Qed.

Lemma given_up_wf q d :
  delivery_wf d → held_by (rr_WorkerID q) d → rr_Failure q = FailurePermanent →
  delivery_wf (rescheduled q d).
Proof.
  intros Hwf Hh Hf. destruct (held_wf _ _ Hwf Hh). right. right. right.
  unfold rescheduled, d_status, d_attempts in *. rewrite Hf. simpl. by split_and!.
Qed.

Lemma enqueue_lookup x ns m id d :
  NoDup (map nt_ID ns) → Forall (λ n, m !! nt_ID n = None) ns →
  enqueue x ns m !! id = Some d ↔
  m !! id = Some d ∨ ∃ n, n ∈ ns ∧ nt_ID n = id ∧ d = enqueued x n.
Proof.
  unfold enqueue. revert m. induction ns as [|n ns IH]; intros m Hnd Hnew; simpl; [set_solver|].
  apply NoDup_cons in Hnd as [Hn Hnd]. apply Forall_cons in Hnew as [Hn' Hnew].
  rewrite IH; [|done|].
  - rewrite lookup_insert_Some. setoid_rewrite elem_of_cons. naive_solver.
  - apply Forall_forall. intros n' Hin. rewrite Forall_forall in Hnew.
    rewrite lookup_insert_ne; [by apply Hnew|]. intros Heq. apply Hn. rewrite Heq.
    by apply list_elem_of_fmap_2.
Qed.

Definition outbox_wf (m : gmap string Delivery) : Prop := map_Forall (λ _ d, delivery_wf d) m.

Lemma outbox_step_wf m m' : outbox_wf m → outbox_step m m' → outbox_wf m'.
Proof.
  intros Hwf Hs. destruct Hs as [m ns Hf Hnd Hnew|m id d q Hl He Hb|m id d q Hl Hh
    |m id d q Hl Hh Hf Hx Hle|m id d q Hl Hh Hf|m id d t Hl Hx].
  - intros id d Hd. apply enqueue_lookup in Hd; [|done..].
    destruct Hd as [Hd|(n & Hn & _ & ->)]; [by apply (Hwf id)|]. apply enqueued_wf. rewrite Forall_forall in Hf. by apply Hf.
  - apply map_Forall_insert_2; [|done]. apply claimed_wf; [done..|]. by apply (Hwf id).
  - apply map_Forall_insert_2; [|done]. apply completed_wf; [by apply (Hwf id)|done].
  - apply map_Forall_insert_2; [|done]. apply retried_wf; [by apply (Hwf id)|done..].
  - apply map_Forall_insert_2; [|done]. apply given_up_wf; [by apply (Hwf id)|done..].
  - by apply map_Forall_delete.
Qed.

Lemma reachable_wf m : reachable m → outbox_wf m.
Proof.
  unfold reachable. intros Hr. assert (Hempty : outbox_wf ∅) by apply map_Forall_empty.
  revert Hempty. induction Hr as [|m1 m2 m3 Hs _ IH]; [done|]. eauto using outbox_step_wf.
Qed.

(** One step of one delivery. *)
Inductive evolves (d : Delivery) : option Delivery → Prop :=
  | ev_same : evolves d (Some d)
  | ev_claim q : eligible (cl_Now q) d = true → blank (cl_WorkerID q) = false →
      evolves d (Some (claimed q d))
  | ev_complete q : held_by (cp_WorkerID q) d → evolves d (Some (completed q d))
  | ev_reschedule q : held_by (rr_WorkerID q) d → evolves d (Some (rescheduled q d))
  | ev_expire t : dl_ExpiresAt d = Some t → evolves d None.

Lemma insert_evolves m id d d' id0 d0 :
  m !! id = Some d → m !! id0 = Some d0 → evolves d (Some d') →
  evolves d0 (<[id := d']> m !! id0).
Proof.
  intros Hl Hl0 He. destruct (decide (id = id0)) as [->|Hne].
  - rewrite lookup_insert_eq. by simplify_eq.
  - rewrite lookup_insert_ne, Hl0 by done. constructor.
Qed.

Lemma step_evolves m m' id d : outbox_step m m' → m !! id = Some d → evolves d (m' !! id).
Proof.
  intros Hs Hl0. destruct Hs as [m ns Hf Hnd Hnew|m id1 d1 q Hl He Hb|m id1 d1 q Hl Hh
    |m id1 d1 q Hl Hh Hf Hx Hle|m id1 d1 q Hl Hh Hf|m id1 d1 t Hl Hx].
  - assert (enqueue None ns m !! id = Some d) as ->; [|constructor].
    apply enqueue_lookup; auto.
  - eapply insert_evolves; [done..|]. by constructor.
  - eapply insert_evolves; [done..|]. by constructor.
  - eapply insert_evolves; [done..|]. by constructor.
  - eapply insert_evolves; [done..|]. by constructor.
  - destruct (decide (id1 = id)) as [->|Hne].
    + rewrite lookup_delete_eq. simplify_eq. by econstructor.
    + rewrite lookup_delete_ne, Hl0 by done. constructor.
Qed.

Lemma evolves_message d d' : evolves d (Some d') → same_message d d' ∧ d_attempts d ≤ d_attempts d'.
Proof.
  inversion 1; subst; unfold same_message, claimed, completed, rescheduled, d_attempts; simpl;
    (split; [by split_and!|lia]).
Qed.

Lemma unfinished_no_expiry d t : delivery_wf d → dl_ExpiresAt d = Some t → final d.
Proof.
  intros Hwf Hx. unfold delivery_wf in Hwf. rewrite Hx in Hwf. unfold final.
  destruct Hwf as [Hwf|[Hwf|[Hwf|Hwf]]]; destruct_and!; auto; done.
Qed.

(** *** The effects of the contract are steps *)

Lemma claim_effect_step q v d v' :
  claim_effect q v d v' → outbox_step (v_outbox v) (v_outbox v').
Proof. intros []. by constructor. Qed.

Lemma complete_effect_step q v v' :
  complete_effect q v v' → outbox_step (v_outbox v) (v_outbox v').
Proof. intros []. by constructor. Qed.

Lemma reschedule_effect_step q v v' :
  (rr_Failure q = FailureRetryable → rr_ExpiresAt q = None) →
  reschedule_effect q v v' → outbox_step (v_outbox v) (v_outbox v').
Proof.
  intros Hx [old Hl Hh [[Hf Hle]|Hf]]; [apply step_retry; auto|by apply step_give_up].
Qed.

Lemma commit_effect_steps q v v' :
  cr_ExpiresAt q = None → Forall fresh_notification (cr_Deliveries q) →
  commit_effect q v v' → rtc outbox_step (v_outbox v) (v_outbox v').
Proof.
  intros Hx Hf [|k old _ _ _ _ Hnd Hnew]; [done|]. simpl. rewrite Hx.
  apply rtc_once. by constructor.
Qed.

(** ** Properties *)

(** C31: every outbox the program can reach is well formed, whatever the
    interleaving of workers, commits and expiries: a pending delivery has no
    lease and no expiry; one being delivered has an owner, a lease and no
    expiry; a delivered one has a delivery time and a failed one a permanent
    failure, and neither has a lease; only a delivery that was claimed at least
    once is ever finished. *)
Theorem outbox_invariant m : reachable m → map_Forall (λ _ d, delivery_wf d) m.
Proof. apply reachable_wf. Qed.

(** No notification is lost: between its commit and any later moment a
    notification keeps its message and its attempts only grow; it can leave
    the outbox only after it was delivered or failed for good. *)
Lemma outbox_keeps m m' id d :
  reachable m → m !! id = Some d → rtc outbox_step m m' →
  (∃ d', m' !! id = Some d' ∧ same_message d d' ∧ d_attempts d ≤ d_attempts d') ∨
  (∃ m1 d1, rtc outbox_step m m1 ∧ rtc outbox_step m1 m' ∧ m1 !! id = Some d1 ∧
            same_message d d1 ∧ final d1).
Proof.
  intros Hr Hl Hs. revert d Hr Hl. induction Hs as [m|m1 m2 m3 Hs Hs' IH]; intros d Hr Hl.
  { left. exists d. split_and!; [done|done|lia]. }
  assert (Hr2 : reachable m2) by (eapply rtc_r; eauto).
  pose proof (step_evolves _ _ _ _ Hs Hl) as He. destruct (m2 !! id) as [d2|] eqn:Hl2.
  - apply evolves_message in He as [Hm Ha].
    destruct (IH d2 Hr2 eq_refl) as [(d' & Hl' & Hm' & Ha')|(m & d1 & ? & ? & ? & ? & ?)].
    + left. exists d'. split_and!; [done|by transitivity d2|lia].
    + right. exists m, d1. split_and!; [by eapply rtc_l|done|done|by transitivity d2|done].
  - right. inversion He as [| | | |t Hx]; subst. exists m1, d.
    split_and!; [done|by eapply rtc_l|done|done|].
    eapply unfinished_no_expiry; [|done]. by apply (reachable_wf _ Hr id).
Qed.

(** A finished delivery is final: it is never claimed, completed or
    rescheduled again, and only its expiry can remove it. *)
Theorem finished_is_final m m' id d :
  outbox_step m m' → m !! id = Some d → final d →
  m' !! id = Some d ∨ m' !! id = None ∧ is_Some (dl_ExpiresAt d).
Proof.
  intros Hs Hl Hf. pose proof (step_evolves _ _ _ _ Hs Hl) as He.
  inversion He as [|q Hel|q Hh|q Hh|t Hx]; subst; auto.
  - by apply eligible_not_final in Hel.
  - by apply held_not_final in Hh.
  - by apply held_not_final in Hh.
Qed.

End Outbox.

(** ** Interference *)

Section Interference.
Context `{StoreState W}.

(** What other workers, reconcilers and the database may do meanwhile. *)
Definition env (w w' : W) : Prop :=
  store_ok w' ∧ rtc outbox_step (v_outbox (view w)) (v_outbox (view w')).

Lemma env_trans w1 w2 w3 : env w1 w2 → env w2 w3 → env w1 w3.
Proof. intros [_ H1] [? H2]. split; [done|]. by etrans. Qed.
Lemma unchanged_env w w' : unchanged w w' → env w w'.
Proof. intros [? Hv]. split; [done|]. by rewrite Hv. Qed.
Lemma maybe_env (P : StoreView → StoreView → Prop) w w' :
  (∀ v v', P v v' → outbox_step (v_outbox v) (v_outbox v')) → maybe P w w' → env w w'.
Proof.
  intros HP [? [Hv|Hp]]; (split; [done|]); [by rewrite Hv|]. by apply rtc_once, HP.
Qed.
Lemma env_refl w : store_ok w → env w w.
Proof. by split. Qed.
End Interference.

(** A store shared with other workers and reconcilers: all that is known of a
    call is that it, and whatever others do meanwhile, performs protocol
    steps. *)
Class SharedIncidents (W : Type) `{StoreState W} := {
  shared_incident_ops :: IncidentOps W;
  get_incident_env c k w x w' : store_ok w → get_incident c k w = (x, w') → env w w';
  upsert_incident_env i x w y w' : store_ok w → upsert_incident i x w = (y, w') → env w w';
  upsert_snapshot_env id s x w y w' :
    store_ok w → upsert_snapshot id s x w = (y, w') → env w w';
  commit_env q w x w' :
    cr_ExpiresAt q = None → Forall fresh_notification (cr_Deliveries q) →
    store_ok w → commit q w = (x, w') → env w w'
}.

Class SharedOutbox (W : Type) `{StoreState W} := {
  shared_outbox_ops :: OutboxOps W;
  claim_env q w x w' : store_ok w → claim_delivery q w = (x, w') → env w w';
  complete_env q w x w' : store_ok w → complete_delivery q w = (x, w') → env w w';
  reschedule_env q w x w' :
    (rr_Failure q = FailureRetryable → rr_ExpiresAt q = None) →
    store_ok w → reschedule_delivery q w = (x, w') → env w w'
}.

(** Any interference [noise] before each operation of a store makes a shared
    store of it; without noise, the store itself is one. *)
Section Shared.
Context {W : Type} (noise : W → W).

Definition noisy {E A} (op : eff W E A) : eff W E A := λ w, op (noise w).

Definition noisy_incidents `{IncidentOps W} : IncidentOps W :=
  {| get_incident c k := noisy (get_incident c k);
     upsert_incident i x := noisy (upsert_incident i x);
     upsert_snapshot id s x := noisy (upsert_snapshot id s x);
     commit q := noisy (commit q) |}.
Definition noisy_outbox `{OutboxOps W} : OutboxOps W :=
  {| claim_delivery q := noisy (claim_delivery q);
     complete_delivery q := noisy (complete_delivery q);
     reschedule_delivery q := noisy (reschedule_delivery q) |}.

Lemma upserted_env `{StoreState W} i w w' :
  store_ok w' → upserted i (view w) (view w') → env w w'.
Proof. intros Hok [_ Hv]. split; [done|]. by rewrite Hv. Qed.

Lemma noisy_env `{StoreState W} {E A} (op : eff W E A) w x w' :
  (∀ w, store_ok w → env w (noise w)) →
  (∀ w x w', store_ok w → op w = (x, w') → env w w') →
  store_ok w → noisy op w = (x, w') → env w w'.
Proof.
  intros Hn Hop Hok Hr. apply Hn in Hok as He. eapply env_trans; [done|].
  eapply Hop; [|done]. by destruct He.
Qed.

Program Definition shared_incidents `{IncidentStore W}
    (Hnoise : ∀ w, store_ok w → env w (noise w)) : SharedIncidents W :=
  {| shared_incident_ops := noisy_incidents |}.
Next Obligation.
  intros ? Hnoise c k w x w'. apply noisy_env; [done|]. clear w x w'. intros w x w' Hok Hg.
  apply get_incident_spec in Hg as [Hu _]; [|done]. by apply unchanged_env.
Qed.
Next Obligation.
  intros ? Hnoise i t w y w'. apply noisy_env; [done|]. clear w y w'. intros w y w' Hok Hu.
  apply upsert_incident_spec in Hu; [|done]. destruct y as [[i' []]|e].
  - destruct Hu as (? & _ & ?). by eapply upserted_env.
  - by apply unchanged_env, Hu.
  - destruct Hu as [? [Hv|Hu]]; [by apply unchanged_env|by eapply upserted_env].
Qed.
Next Obligation.
  intros ? Hnoise id s t w y w'. apply noisy_env; [done|]. clear w y w'. intros w y w' Hok Hu.
  apply upsert_snapshot_spec in Hu; [|done]. by apply unchanged_env.
Qed.
Next Obligation.
  intros ? Hnoise q w y w' Hx Hf. apply noisy_env; [done|]. clear w y w'. intros w y w' Hok Hc.
  apply commit_spec in Hc; [|done]. destruct y as [[]|e].
  - destruct Hc as [? He]. split; [done|]. by eapply commit_effect_steps.
  - destruct (is_ErrConflict e); [by apply unchanged_env|].
    destruct Hc as [? [Hv|He]]; (split; [done|]); [by rewrite Hv|]. by eapply commit_effect_steps.
Qed.

Program Definition shared_outbox `{OutboxStore W}
    (Hnoise : ∀ w, store_ok w → env w (noise w)) : SharedOutbox W :=
  {| shared_outbox_ops := noisy_outbox |}.
Next Obligation.
  intros ? Hnoise q w x w'. apply noisy_env; [done|]. clear w x w'. intros w x w' Hok Hc.
  apply claim_delivery_spec in Hc; [|done]. destruct x as [dl|e].
  - destruct Hc as [? He]. split; [done|]. by eapply rtc_once, claim_effect_step.
  - destruct (is_ErrNotFound e); [by apply unchanged_env, Hc|].
    eapply maybe_env; [|done]. intros v v' [dl He]. by eapply claim_effect_step.
Qed.
Next Obligation.
  intros ? Hnoise q w x w'. apply noisy_env; [done|]. clear w x w'. intros w x w' Hok Hc.
  apply complete_delivery_spec in Hc; [|done]. destruct x as [[]|e].
  - destruct Hc as [? He]. split; [done|]. by eapply rtc_once, complete_effect_step.
  - destruct (is_ErrConflict e); [by apply unchanged_env, Hc|].
    eapply maybe_env; [|done]. apply complete_effect_step.
Qed.
Next Obligation.
  intros ? Hnoise q w x w' Hx. apply noisy_env; [done|]. clear w x w'. intros w x w' Hok Hc.
  apply reschedule_delivery_spec in Hc; [|done]. destruct x as [[]|e].
  - destruct Hc as [? He]. split; [done|]. by eapply rtc_once, reschedule_effect_step.
  - destruct (is_ErrConflict e); [by apply unchanged_env, Hc|].
    eapply maybe_env; [|done]. intros v v'. by apply reschedule_effect_step.
Qed.
End Shared.

(** ** Witnesses *)

Module OutboxWitness.
#[local] Existing Instance ms_codec.

Definition noon : time := unix_epoch + 10 ^ 18.
Definition note : Notification :=
  {| nt_ID := "n1"; nt_EvaluationID := "e1"; nt_DestinationID := "ops"; nt_EventType := "opened";
     nt_Status := NotificationPending; nt_Attempts := 0; nt_NextAttemptAt := noon;
     nt_Payload := "{}" |}.
Definition claim : ClaimRequest :=
  {| cl_WorkerID := "w1"; cl_Now := noon; cl_LeaseDuration := second |}.
Definition complete : CompleteRequest :=
  {| cp_ID := "n1"; cp_WorkerID := "w1"; cp_CompletedAt := noon + 5 * millisecond;
     cp_ExpiresAt := Some (noon + 100 * second) |}.

Definition pending : Delivery := enqueued None note.
Definition leased : Delivery := claimed claim pending.
Definition done : Delivery := completed complete leased.

Definition box (d : Delivery) : gmap string Delivery := {["n1" := d]}.

Lemma enqueue_step : outbox_step ∅ (box pending).
Proof.
  apply (step_enqueue ∅ [note]).
  - by repeat constructor.
  - apply NoDup_singleton.
  - by repeat constructor.
Qed.
Lemma claim_step : outbox_step (box pending) (box leased).
Proof.
  assert ((box leased) = <["n1" := leased]> (box pending)) as ->
    by (by vm_compute).
  by apply step_claim.
Qed.
Lemma complete_step : outbox_step (box leased) (box done).
Proof.
  assert ((box done) = <["n1" := done]> (box leased)) as ->
    by (by vm_compute).
  by apply step_complete.
Qed.
Lemma expire_step : outbox_step (box done) ∅.
Proof.
  assert (∅ = delete "n1" (box done)) as -> by (by vm_compute).
  by eapply step_expire.
Qed.
Lemma leased_reachable : reachable (box leased).
Proof. eapply rtc_l; [apply enqueue_step|]. apply rtc_once, claim_step. Qed.
End OutboxWitness.

Lemma outbox_invariant_witness :
  let _ := ms_codec in map_Forall (λ _ d, delivery_wf d) (OutboxWitness.box OutboxWitness.leased).
Proof. intros C. exact (outbox_invariant _ OutboxWitness.leased_reachable). Defined.

Lemma finished_is_final_witness :
  let _ := ms_codec in
  (OutboxWitness.box OutboxWitness.done) !! "n1" = Some OutboxWitness.done ∧
  is_Some (dl_ExpiresAt OutboxWitness.done).
Proof.
  intros C. destruct (finished_is_final (OutboxWitness.box OutboxWitness.done) ∅ "n1" OutboxWitness.done)
    as [H|[_ H]]; [exact OutboxWitness.expire_step|reflexivity|by left|by vm_compute in H|].
  split; [reflexivity|exact H].
Defined.

