(* ===== verification/Sha256.v ===== *)
(** * [crypto/sha256], [crypto/hmac] and [encoding/hex]

    The hash, the keyed hash and the hexadecimal encoding the program uses for
    content fingerprints, identifiers and webhook signatures: FIPS 180-4
    SHA-256 and RFC 2104 HMAC over byte strings, executable, with the published
    test vectors. *)
From S2P Require Import Prelude GoBase.

(** ** Byte strings *)

Fixpoint string_to_bytes (s : string) : list Z :=
  match s with EmptyString => [] | String c r => Z.of_N (N_of_ascii c) :: string_to_bytes r end.
Fixpoint string_of_bytes (l : list Z) : string :=
  match l with [] => "" | b :: r => String (ascii_of_N (Z.to_N b)) (string_of_bytes r) end.

Definition is_byte (b : Z) : Prop := 0 ≤ b < 256.

(** ** SHA-256 *)

Definition mask32 (x : Z) : Z := Z.land x 0xFFFFFFFF.
Definition add32 (x y : Z) : Z := mask32 (x + y).
Definition rotr (x n : Z) : Z := Z.lor (Z.shiftr x n) (mask32 (Z.shiftl x (32 - n))).

(** The constants are the first 32 bits of the fractional parts of the roots of
    the first primes: cube roots for the rounds, square roots for the initial
    hash.  They are computed from that description. *)
Definition is_prime (n : Z) : bool :=
  forallb (λ d, negb (n mod d =? 0)) (seqZ 2 (n - 2)).
Definition primes : list Z := List.filter is_prime (seqZ 2 310).

(** The integer cube root, one bit at a time from bit [n - 1] down. *)
Fixpoint cube_root (n : nat) (root x : Z) : Z :=
  match n with
  | O => root
  | S n =>
      let next := root + 2 ^ Z.of_nat n in
      cube_root n (if next * next * next <=? x then next else root) x
  end.

Definition round_constants : list Z := Eval vm_compute in
  map (λ p, mask32 (cube_root 40 0 (p * 2 ^ 96))) (take 64 primes).
Definition initial_hash : list Z := Eval vm_compute in
  map (λ p, mask32 (Z.sqrt (p * 2 ^ 64))) (take 8 primes).

(** The message schedule, newest word first: [W(t)] from the sixteen words
    before it. *)
Definition next_word (rev : list Z) : Z :=
  let w i := nth i rev 0 in
  let s0 x := Z.lxor (Z.lxor (rotr x 7) (rotr x 18)) (Z.shiftr x 3) in
  let s1 x := Z.lxor (Z.lxor (rotr x 17) (rotr x 19)) (Z.shiftr x 10) in
  add32 (add32 (s1 (w 1%nat)) (w 6%nat)) (add32 (s0 (w 14%nat)) (w 15%nat)).
Fixpoint extend_schedule (n : nat) (rev : list Z) : list Z :=
  match n with O => rev | S n => extend_schedule n (next_word rev :: rev) end.
Definition schedule (block : list Z) : list Z := List.rev (extend_schedule 48 (List.rev block)).

Record Working := { ha : Z; hb : Z; hc : Z; hd : Z; he : Z; hf : Z; hg : Z; hh : Z }.

Definition sha_round (s : Working) (kw : Z * Z) : Working :=
  let S1 := Z.lxor (Z.lxor (rotr (he s) 6) (rotr (he s) 11)) (rotr (he s) 25) in
  let ch := Z.lxor (Z.land (he s) (hf s)) (Z.land (Z.lxor (he s) 0xFFFFFFFF) (hg s)) in
  let t1 := add32 (hh s) (add32 S1 (add32 ch (add32 (fst kw) (snd kw)))) in
  let S0 := Z.lxor (Z.lxor (rotr (ha s) 2) (rotr (ha s) 13)) (rotr (ha s) 22) in
  let maj := Z.lxor (Z.lxor (Z.land (ha s) (hb s)) (Z.land (ha s) (hc s))) (Z.land (hb s) (hc s)) in
  {| ha := add32 t1 (add32 S0 maj); hb := ha s; hc := hb s; hd := hc s;
     he := add32 (hd s) t1; hf := he s; hg := hf s; hh := hg s |}.

Definition working_of (l : list Z) : Working :=
  let h i := nth i l 0 in
  {| ha := h 0%nat; hb := h 1%nat; hc := h 2%nat; hd := h 3%nat;
     he := h 4%nat; hf := h 5%nat; hg := h 6%nat; hh := h 7%nat |}.
Definition words_of (s : Working) : list Z := [ha s; hb s; hc s; hd s; he s; hf s; hg s; hh s].

Definition compress (hash block : list Z) : list Z :=
  zip_with add32 hash
    (words_of (fold_left sha_round (zip round_constants (schedule block)) (working_of hash))).

(** Big-endian words. *)
Definition be_bytes (x : Z) : list Z :=
  [Z.land (Z.shiftr x 24) 0xFF; Z.land (Z.shiftr x 16) 0xFF; Z.land (Z.shiftr x 8) 0xFF; Z.land x 0xFF].
Fixpoint be_words (l : list Z) : list Z :=
  match l with
  | a :: b :: c :: d :: r =>
      Z.lor (Z.shiftl a 24) (Z.lor (Z.shiftl b 16) (Z.lor (Z.shiftl c 8) d)) :: be_words r
  | _ => []
  end.

(** [0x80], zeros up to 56 modulo 64, and the length in bits. *)
Definition pad (msg : list Z) : list Z :=
  let n := Z.of_nat (length msg) in
  let zeros := Z.to_nat ((55 - n) `mod` 64) in
  msg ++ 0x80 :: replicate zeros 0 ++ be_bytes (mask32 (Z.shiftr (8 * n) 32)) ++ be_bytes (mask32 (8 * n)).

Fixpoint process (fuel : nat) (hash words : list Z) : list Z :=
  match fuel, words with
  | S fuel, _ :: _ => process fuel (compress hash (take 16 words)) (drop 16 words)
  | _, _ => hash
  end.

Definition sha256_bytes (msg : list Z) : list Z :=
  let words := be_words (pad msg) in
  concat (map be_bytes (process (length words) initial_hash words)).

(** [sha256.Sum256]. *)
Definition sha256 (msg : string) : string := string_of_bytes (sha256_bytes (string_to_bytes msg)).

(** ** HMAC-SHA-256 *)

Definition hmac_key (key : list Z) : list Z :=
  let k := if Nat.ltb 64 (length key) then sha256_bytes key else key in
  k ++ replicate (64 - length k)%nat 0.

Definition hmac_sha256_bytes (key msg : list Z) : list Z :=
  let k := hmac_key key in
  sha256_bytes (map (Z.lxor 0x5c) k ++ sha256_bytes (map (Z.lxor 0x36) k ++ msg)).

Definition hmac_sha256 (key msg : string) : string :=
  string_of_bytes (hmac_sha256_bytes (string_to_bytes key) (string_to_bytes msg)).

(** ** Hexadecimal *)

Definition hex_digit (n : Z) : ascii := ascii_of_N (Z.to_N (if n <? 10 then 48 + n else 87 + n)).

(** [hex.EncodeToString]. *)
Fixpoint hex_encode (s : string) : string :=
  match s with
  | EmptyString => ""
  | String c r =>
      let b := Z.of_N (N_of_ascii c) in
      String (hex_digit (b / 16)) (String (hex_digit (b `mod` 16)) (hex_encode r))
  end.

Definition hex_value (c : ascii) : option Z :=
  let n := Z.of_N (N_of_ascii c) in
  if (48 <=? n) && (n <=? 57) then Some (n - 48)
  else if (97 <=? n) && (n <=? 102) then Some (n - 87)
  else if (65 <=? n) && (n <=? 70) then Some (n - 55)
  else None.

(** [hex.DecodeString]: both cases of digits, [None] for an error. *)
Fixpoint hex_decode (s : string) : option string :=
  match s with
  | EmptyString => Some ""
  | String a (String b r) =>
      hi ← hex_value a; lo ← hex_value b; rest ← hex_decode r;
      Some (String (ascii_of_N (Z.to_N (16 * hi + lo))) rest)
  | String _ EmptyString => None
  end.

(** The test vectors of FIPS 180-4 and RFC 4231. *)
Example sha256_abc : hex_encode (sha256 "abc") =
  "ba7816bf8f01cfea414140de5dae2223b00361a396177a9cb410ff61f20015ad".
Proof. vm_compute. reflexivity. Qed.
Example sha256_two_blocks :
  hex_encode (sha256 "abcdbcdecdefdefgefghfghighijhijkijkljklmklmnlmnomnopnopq") =
  "248d6a61d20638b8e5c026930c3e6039a33ce45964ff2167f6ecedd419db06c1".
Proof. vm_compute. reflexivity. Qed.
Example sha256_empty : hex_encode (sha256 "") =
  "e3b0c44298fc1c149afbf4c8996fb92427ae41e4649b934ca495991b7852b855".
Proof. vm_compute. reflexivity. Qed.
Example hmac_jefe : hex_encode (hmac_sha256 "Jefe" "what do ya want for nothing?") =
  "5bdcc146bf60754e6a042426089575c75a003f089d2739839dec58b964ec3843".
Proof. vm_compute. reflexivity. Qed.

(** ** Lemmas *)

Lemma N_of_ascii_lt c : (N_of_ascii c < 256)%N.
Proof. by destruct c as [[] [] [] [] [] [] [] []]. Qed.

Lemma hex_byte_roundtrip c :
  hex_value (hex_digit (Z.of_N (N_of_ascii c) / 16)) = Some (Z.of_N (N_of_ascii c) / 16) ∧
  hex_value (hex_digit (Z.of_N (N_of_ascii c) `mod` 16)) = Some (Z.of_N (N_of_ascii c) `mod` 16).
Proof. by destruct c as [[] [] [] [] [] [] [] []]. Qed.

Lemma hex_roundtrip s : hex_decode (hex_encode s) = Some s.
Proof.
  induction s as [|c s IH]; [done|]. cbn -[hex_value hex_digit Z.div Z.modulo].
  destruct (hex_byte_roundtrip c) as [-> ->]. simpl. rewrite IH. simpl.
  rewrite <- Z.div_mod by lia. by rewrite N2Z.id, ascii_N_embedding.
Qed.

Lemma length_hex_encode s : String.length (hex_encode s) = (2 * String.length s)%nat.
Proof. induction s as [|c s IH]; [done|]. simpl. rewrite IH. lia. Qed.

Lemma length_string_of_bytes l : String.length (string_of_bytes l) = length l.
Proof. induction l; simpl; congruence. Qed.

Lemma length_compress hash block : length hash = 8%nat → length (compress hash block) = 8%nat.
Proof. intros Hl. unfold compress. rewrite length_zip_with, Hl. done. Qed.

Lemma length_process fuel hash words :
  length hash = 8%nat → length (process fuel hash words) = 8%nat.
Proof.
  revert hash words. induction fuel as [|fuel IH]; intros hash [|w ws] Hl; [done..|].
  cbn [process]. by apply IH, length_compress.
Qed.

Lemma length_concat_be l : length (concat (map be_bytes l)) = (4 * length l)%nat.
Proof. induction l as [|x l IH]; [done|]. cbn [map concat]. rewrite length_app, IH. simpl. lia. Qed.

Lemma length_sha256_bytes msg : length (sha256_bytes msg) = 32%nat.
Proof. unfold sha256_bytes. rewrite length_concat_be, length_process; done. Qed.

Lemma length_sha256 s : String.length (sha256 s) = 32%nat.
Proof. unfold sha256. by rewrite length_string_of_bytes, length_sha256_bytes. Qed.
Lemma length_hmac_sha256 k s : String.length (hmac_sha256 k s) = 32%nat.
Proof.
  unfold hmac_sha256, hmac_sha256_bytes. by rewrite length_string_of_bytes, length_sha256_bytes.
Qed.
