(* ===== verification/Signing.v ===== *)
(** * Package [internal/notify], [signing.go]: webhook signatures *)
From S2P Require Import Prelude GoBase Sha256.
From stdpp Require Import pretty.
#[local] Open Scope Z_scope.

(** [strconv.FormatInt(z, 10)]. *)
Definition format_int (z : Z) : string := pretty z.

(** The bytes that are authenticated. *)
Definition signed_bytes (timestamp : time) (rawBody : string) : string :=
  format_int (unix timestamp) +:+ "." +:+ rawBody.

Definition Sign (secret : string) (timestamp : time) (rawBody : string) : string :=
  hex_encode (hmac_sha256 secret (signed_bytes timestamp rawBody)).

Definition Verify (secret : string) (timestamp : time) (rawBody signature : string) : bool :=
  if negb (Nat.eqb (String.length signature) 64) then false else
  match hex_decode signature with
  | None => false
  | Some decoded =>
      if hex_encode decoded ≠s? signature then false else
      match hex_decode (Sign secret timestamp rawBody) with
      | None => false
      | Some actual => actual =s? decoded
      end
  end.

(** ** Lemmas *)

(** No byte of a decimal number is the separator. *)
Lemma pretty_N_char_not_dot x : pretty_N_char x ≠ "."%char.
Proof. by destruct x as [|[[[[]|[]|]|[[]|[]|]|]|[[[]|[]|]|[[]|[]|]|]|]]. Qed.

Lemma pretty_N_go_has_dot x s : has_char "."%char (pretty_N_go x s) = has_char "."%char s.
Proof.
  revert s. induction (N.lt_wf_0 x) as [x _ IH]. intros s. destruct (decide (x = 0)%N) as [->|Hx].
  { by rewrite pretty_N_go_0. }
  rewrite pretty_N_go_step by lia. rewrite IH by (apply N.div_lt; lia).
  cbn [has_char]. by rewrite bool_decide_eq_false_2 by apply pretty_N_char_not_dot.
Qed.

Lemma format_int_has_dot z : has_char "."%char (format_int z) = false.
Proof.
  unfold format_int, pretty, pretty_Z.
  assert (HN : ∀ n : N, has_char "."%char (pretty n) = false).
  { intros n. unfold pretty, pretty_N. case_decide; [done|]. by rewrite pretty_N_go_has_dot. }
  destruct z as [|p|p]; [done|apply (HN (Npos p))|]. cbn. apply (HN (Npos p)).
Qed.

Lemma Verify_Sign secret t body : Verify secret t body (Sign secret t body) = true.
Proof.
  unfold Verify, Sign. rewrite length_hex_encode, length_hmac_sha256. simpl.
  rewrite hex_roundtrip, !String.eqb_refl. done.
Qed.

(** ** Properties *)

(** A receiver accepts exactly one signature for a timestamp and a body:
    the canonical lower-case one that [Sign] produces.  Any other string,
    shorter, longer, upper-case or with a wrong digit, is rejected. *)
Theorem verify_exact secret t body signature :
  Verify secret t body signature = true ↔ signature = Sign secret t body.
Proof.
  unfold Verify. split.
  - destruct (Nat.eqb_spec (String.length signature) 64) as [Hl|]; [|done]. simpl.
    destruct (hex_decode signature) as [decoded|] eqn:Hd; [|done].
    destruct (String.eqb_spec (hex_encode decoded) signature) as [He|]; [|done]. simpl.
    unfold Sign. rewrite hex_roundtrip. intros <-%String.eqb_eq. by rewrite He.
  - intros ->. apply Verify_Sign.
Qed.

(** The authenticated bytes determine the second of the timestamp and the
    body, so a signature cannot be moved to another pair with the same
    authenticated bytes. *)
Theorem signed_bytes_inj t body t' body' :
  signed_bytes t body = signed_bytes t' body' → unix t = unix t' ∧ body = body'.
Proof.
  unfold signed_bytes. intros Heq.
  apply (sep_split "."%char) in Heq as [Ht ->]; [|apply format_int_has_dot..].
  split; [|done]. by apply (inj (pretty : Z → string)).
Qed.

Lemma signed_bytes_inj_witness :
  unix unix_epoch = unix (unix_epoch + 5) ∧ "{}" = "{}".
Proof. apply (signed_bytes_inj unix_epoch "{}" (unix_epoch + 5) "{}"). by vm_compute. Defined.

Example verify_ex :
  Verify "key" (unix_epoch + 1700000000 * second) "{}"
    (Sign "key" (unix_epoch + 1700000000 * second) "{}") = true.
Proof. vm_compute. reflexivity. Qed.
