(* ===== verification/Json.v ===== *)
(** * [encoding/json] as the program uses it

    Values are printed as [json.Marshal] prints them (Go 1.22, HTML escaping
    on); [json_valid] is [json.Valid].  Times are printed in UTC, in the layout
    RFC 3339 with nanoseconds. *)
From S2P Require Import Prelude GoBase Sha256.
From stdpp Require Import pretty.
#[local] Open Scope Z_scope.

Definition code (c : ascii) : Z := Z.of_N (N_of_ascii c).
Definition in_range (c : ascii) (lo hi : Z) : bool := (lo <=? code c) && (code c <=? hi).
Definition char_of (n : Z) : ascii := ascii_of_N (Z.to_N n).
Definition quote : string := bytes [34%N].
Definition backslash : string := bytes [92%N].

(** ** Strings *)

(** The escape of a byte below 0x80. *)
Definition escape_ascii (c : ascii) : string :=
  let n := code c in
  if (n =? 34) || (n =? 92) then backslash +:+ String c ""
  else if n =? 8 then backslash +:+ "b"
  else if n =? 12 then backslash +:+ "f"
  else if n =? 10 then backslash +:+ "n"
  else if n =? 13 then backslash +:+ "r"
  else if n =? 9 then backslash +:+ "t"
  else if (n <? 32) || (n =? 60) || (n =? 62) || (n =? 38)
  then backslash +:+ "u00" +:+ hex_encode (String c "")
  else String c "".

Definition cont (c : ascii) : bool := in_range c 0x80 0xBF.

(** Is [a b], [a b c], [a b c d] the UTF-8 encoding of a rune? *)
Definition utf8_2 (a b : ascii) : bool := in_range a 0xC2 0xDF && cont b.
Definition utf8_3 (a b c : ascii) : bool :=
  cont c &&
  ((in_range a 0xE0 0xE0 && in_range b 0xA0 0xBF) || (in_range a 0xE1 0xEC && cont b)
   || (in_range a 0xED 0xED && in_range b 0x80 0x9F) || (in_range a 0xEE 0xEF && cont b)).
Definition utf8_4 (a b c d : ascii) : bool :=
  cont c && cont d &&
  ((in_range a 0xF0 0xF0 && in_range b 0x90 0xBF) || (in_range a 0xF1 0xF3 && cont b)
   || (in_range a 0xF4 0xF4 && in_range b 0x80 0x8F)).

(** U+2028 and U+2029 are escaped. *)
Definition line_separator (a b c : ascii) : bool :=
  in_range a 0xE2 0xE2 && in_range b 0x80 0x80 && in_range c 0xA8 0xA9.

Definition replacement : string := backslash +:+ "ufffd".

Fixpoint json_escape (s : string) : string :=
  match s with
  | EmptyString => ""
  | String a r =>
      if code a <? 0x80 then escape_ascii a +:+ json_escape r
      else match r with
           | String b r2 =>
               if utf8_2 a b then String a (String b (json_escape r2))
               else match r2 with
                    | String c r3 =>
                        if utf8_3 a b c then
                          (if line_separator a b c
                           then backslash +:+ (if code c =? 0xA8 then "u2028" else "u2029")
                           else String a (String b (String c ""))) +:+ json_escape r3
                        else match r3 with
                             | String d r4 =>
                                 if utf8_4 a b c d
                                 then String a (String b (String c (String d (json_escape r4))))
                                 else replacement +:+ json_escape r
                             | EmptyString => replacement +:+ json_escape r
                             end
                    | EmptyString => replacement +:+ json_escape r
                    end
           | EmptyString => replacement +:+ json_escape r
           end
  end.

Definition json_string (s : string) : string := quote +:+ json_escape s +:+ quote.

(** ** Values *)

(** A number is its literal. *)
#[warnings="-register-all"]
Inductive json :=
  | JNull
  | JBool (b : bool)
  | JNumber (literal : string)
  | JString (s : string)
  | JArray (l : list json)
  | JObject (fields : list (string * json)).

Definition JInt (z : Z) : json := JNumber (pretty z).

Fixpoint join (sep : string) (l : list string) : string :=
  match l with
  | [] => ""
  | [x] => x
  | x :: r => x +:+ sep +:+ join sep r
  end.

Fixpoint json_print (j : json) : string :=
  match j with
  | JNull => "null"
  | JBool b => if b then "true" else "false"
  | JNumber literal => literal
  | JString s => json_string s
  | JArray l => "[" +:+ join "," (map json_print l) +:+ "]"
  | JObject fields =>
      "{" +:+ join "," (map (λ kv, json_string kv.1 +:+ ":" +:+ json_print kv.2) fields) +:+ "}"
  end.

(** The text of a field. *)
Definition json_field (kv : string * json) : string := json_string kv.1 +:+ ":" +:+ json_print kv.2.

(** A field, and a field with [omitempty] that is given only when present. *)
Definition field (k : string) (v : json) : list (string * json) := [(k, v)].
Definition field_if (present : bool) (k : string) (v : json) : list (string * json) :=
  if present then [(k, v)] else [].
Definition string_field (k v : string) : list (string * json) := field k (JString v).
Definition string_omitempty (k v : string) : list (string * json) :=
  field_if (v ≠s? "") k (JString v).

(** ** Times *)

(** The civil date of a number of days since January 1 of year 1. *)
Definition civil (days : Z) : Z * Z * Z :=
  let z := days + 306 in
  let era := z / 146097 in
  let doe := z `mod` 146097 in
  let yoe := (doe - doe / 1460 + doe / 36524 - doe / 146096) / 365 in
  let doy := doe - (365 * yoe + yoe / 4 - yoe / 100) in
  let mp := (5 * doy + 2) / 153 in
  let month := if mp <? 10 then mp + 3 else mp - 9 in
  (yoe + era * 400 + (if month <=? 2 then 1 else 0), month, doy - (153 * mp + 2) / 5 + 1).

(** [n] in decimal with at least [w] digits. *)
Fixpoint digits (w : nat) (n : Z) : string :=
  match w with
  | O => ""
  | S w => digits w (n / 10) +:+ String (char_of (48 + n `mod` 10)) ""
  end.

(** The fraction of a second without trailing zeros. *)
Fixpoint trim_zeros (fuel : nat) (w : nat) (n : Z) : string :=
  match fuel with
  | O => ""
  | S fuel => if n `mod` 10 =? 0 then trim_zeros fuel (w - 1) (n / 10) else digits w n
  end.

Definition format_rfc3339nano (t : time) : string :=
  let day := 86400 * second in
  let '(y, m, d) := civil (t / day) in
  let rest := t `mod` day in
  let s := rest / second in
  let ns := rest `mod` second in
  digits 4 y +:+ "-" +:+ digits 2 m +:+ "-" +:+ digits 2 d +:+ "T"
  +:+ digits 2 (s / 3600) +:+ ":" +:+ digits 2 ((s / 60) `mod` 60) +:+ ":" +:+ digits 2 (s `mod` 60)
  +:+ (if ns =? 0 then "" else "." +:+ trim_zeros 9 9 ns) +:+ "Z".

Definition JTime (t : time) : json := JString (format_rfc3339nano t).
(** Only years 0 to 9999 have an encoding. *)
Definition time_marshals (t : time) : bool :=
  let '(y, _, _) := civil (t / (86400 * second)) in (0 <=? y) && (y <=? 9999).

(** ** [json.Valid] *)

Definition is_ws (c : ascii) : bool :=
  (code c =? 32) || (code c =? 9) || (code c =? 10) || (code c =? 13).
Fixpoint skip_ws (s : string) : string :=
  match s with String c r => if is_ws c then skip_ws r else s | EmptyString => s end.

Definition is_digit (c : ascii) : bool := in_range c 48 57.
Fixpoint skip_digits (s : string) : string :=
  match s with String c r => if is_digit c then skip_digits r else s | EmptyString => s end.

(** One or more digits. *)
Definition digits1 (s : string) : option string :=
  match s with String c r => if is_digit c then Some (skip_digits r) else None | EmptyString => None end.

Definition after_prefix (p s : string) : option string :=
  if has_prefix s p then Some (str_drop (String.length p) s) else None.

Definition number_rest (s : string) : option string :=
  let s := match after_prefix "-" s with Some r => r | None => s end in
  s ← match s with
      | String c r => if code c =? 48 then Some r else digits1 s
      | EmptyString => None
      end;
  s ← match after_prefix "." s with Some r => digits1 r | None => Some s end;
  match s with
  | String c r =>
      if (code c =? 101) || (code c =? 69) then
        digits1 match r with
                | String d r' => if (code d =? 43) || (code d =? 45) then r' else r
                | EmptyString => r
                end
      else Some s
  | EmptyString => Some s
  end.

(** ** Compact text *)

(** The bytes [<], [>] and [&] are escaped wherever they occur. *)
Definition html_escape (c : ascii) : string :=
  if bool_decide (code c ∈ [60; 62; 38]) then backslash +:+ "u00" +:+ hex_encode (String c "")
  else String c "".

(** [json.Compact] of valid JSON, with HTML escaping: white space outside
    strings is dropped. *)
Fixpoint json_compact (in_string escaped : bool) (s : string) : string :=
  match s with
  | EmptyString => ""
  | String c r =>
      let next := if in_string then
                    if escaped then json_compact true false
                    else if code c =? 92 then json_compact true true
                    else json_compact (negb (code c =? 34)) false
                  else json_compact (code c =? 34) false in
      if negb in_string && is_ws c then next r
      else match r with
           | String b (String d r') =>
               if line_separator c b d
               then backslash +:+ (if code d =? 0xA8 then "u2028" else "u2029")
                    +:+ json_compact in_string false r'
               else html_escape c +:+ next r
           | _ => html_escape c +:+ next r
           end
  end.

Definition isSome_hex (c : ascii) : bool :=
  match hex_value c with Some _ => true | None => false end.

(** The bytes of a string after its opening quote. *)
Fixpoint string_rest (s : string) : option string :=
  match s with
  | EmptyString => None
  | String c r =>
      if code c =? 34 then Some r
      else if code c <? 32 then None
      else if code c =? 92 then
        match r with
        | String e r' =>
            if bool_decide (code e ∈ [34; 92; 47; 98; 102; 110; 114; 116]) then string_rest r'
            else if code e =? 117 then
              match r' with
              | String h1 (String h2 (String h3 (String h4 r4))) =>
                  if isSome_hex h1 && isSome_hex h2 && isSome_hex h3 && isSome_hex h4
                  then string_rest r4 else None
              | _ => None
              end
            else None
        | EmptyString => None
        end
      else string_rest r
  end.

(** The scanner: a stack of open brackets and what may come next. *)
Variant bracket := InArray | InObject.
Variant expecting := Value | Key | AfterValue.

Definition max_nesting : Z := 10000.

(** One step: the new stack, expectation and input, or [inl] the verdict. *)
Definition scan_step (stack : list bracket) (e : expecting) (s : string)
    : bool + (list bracket * expecting * string) :=
  let open_ b next r := if max_nesting <=? Z.of_nat (length stack) then inl false
                        else inr (b :: stack, next, r) in
  let go o next := match o with Some r => inr (stack, next, r) | None => inl false end in
  match e, skip_ws s with
  | Value, String c r =>
      if code c =? 123 then
        match after_prefix "}" (skip_ws r) with
        | Some r' => if max_nesting <=? Z.of_nat (length stack) then inl false
                     else inr (stack, AfterValue, r')
        | None => open_ InObject Key r
        end
      else if code c =? 91 then
        match after_prefix "]" (skip_ws r) with
        | Some r' => if max_nesting <=? Z.of_nat (length stack) then inl false
                     else inr (stack, AfterValue, r')
        | None => open_ InArray Value r
        end
      else if code c =? 34 then go (string_rest r) AfterValue
      else if code c =? 116 then go (after_prefix "rue" r) AfterValue
      else if code c =? 102 then go (after_prefix "alse" r) AfterValue
      else if code c =? 110 then go (after_prefix "ull" r) AfterValue
      else go (number_rest (String c r)) AfterValue
  | Key, String c r =>
      if code c =? 34 then go (r ← string_rest r; after_prefix ":" (skip_ws r)) Value
      else inl false
  | AfterValue, EmptyString => inl (bool_decide (length stack = 0%nat))
  | AfterValue, String c r =>
      match stack with
      | InArray :: rest => if code c =? 44 then inr (stack, Value, r)
                           else if code c =? 93 then inr (rest, AfterValue, r) else inl false
      | InObject :: rest => if code c =? 44 then inr (stack, Key, r)
                            else if code c =? 125 then inr (rest, AfterValue, r) else inl false
      | [] => inl false
      end
  | _, EmptyString => inl false
  end.

Fixpoint scan (fuel : nat) (stack : list bracket) (e : expecting) (s : string) : bool :=
  match fuel with
  | O => false
  | S fuel => match scan_step stack e s with
              | inl verdict => verdict
              | inr (stack, e, s) => scan fuel stack e s
              end
  end.

(** Every step but the last consumes a byte. *)
Definition json_valid (s : string) : bool := scan (S (String.length s)) [] Value s.

Example json_valid_ex :
  json_valid "{}" = true ∧ json_valid " [1, -2.5e+3, true, null, {}] " = true ∧
  json_valid (json_print (JObject [("a", JString quote); ("b", JArray [JInt 0; JBool false])])) = true ∧
  json_valid "[1,]" = false ∧ json_valid "01" = false ∧ json_valid "{} x" = false ∧ json_valid "" = false.
Proof. vm_compute. auto 10. Qed.

Example format_time_ex :
  format_rfc3339nano zero_time = "0001-01-01T00:00:00Z" ∧
  format_rfc3339nano (unix_epoch + 1709210096 * second + 5000000) = "2024-02-29T12:34:56.005Z".
Proof. by vm_compute. Qed.
