(* ===== verification/GoTime.v ===== *)
(** * [time.Parse] with the layout RFC 3339

    The general parser of package [time] on ["2006-01-02T15:04:05Z07:00"]: two
    digits for every field but the hour, which may have one; a fraction of a
    second after a period or a comma, of which nine digits count; the zone [Z]
    or an offset of up to 24 hours and 60 minutes. *)
From S2P Require Import Prelude GoBase Json.

Definition digit_of (c : ascii) : option Z := if is_digit c then Some (code c - 48) else None.
(** [getnum(value, fixed)]. *)
Definition getnum (fixed : bool) (s : string) : option (Z * string) :=
  match s with
  | String a r =>
      d ← digit_of a;
      match r with
      | String b r' =>
          match digit_of b with
          | Some e => Some (10 * d + e, r')
          | None => if fixed then None else Some (d, r)
          end
      | EmptyString => if fixed then None else Some (d, r)
      end
  | EmptyString => None
  end.
Definition literal (c : ascii) (s : string) : option string :=
  match s with String a r => if bool_decide (a = c) then Some r else None | EmptyString => None end.

(** The digits of a fraction, scaled to nanoseconds. *)
Fixpoint fraction (scale : Z) (s : string) : Z * string :=
  match s with
  | String c r =>
      match digit_of c with
      | Some d => let '(n, rest) := fraction (scale / 10) r in (d * scale + n, rest)
      | None => (0, s)
      end
  | EmptyString => (0, s)
  end.
Definition nanoseconds (s : string) : Z * string :=
  match s with
  | String p (String c _ as r) =>
      if (bool_decide (p = "."%char) || bool_decide (p = ","%char)) && is_digit c
      then fraction (10 ^ 8) r else (0, s)
  | _ => (0, s)
  end.

(** The offset of a zone in seconds. *)
Definition zone_offset (s : string) : option (Z * string) :=
  match s with
  | String a r =>
      if bool_decide (a = "Z"%char) then Some (0, r) else
      sign ← (if bool_decide (a = "+"%char) then Some 1
              else if bool_decide (a = "-"%char) then Some (-1) else None);
      '(hour, r) ← getnum true r;
      r ← literal ":" r;
      '(minute, r) ← getnum true r;
      if (24 <? hour) || (60 <? minute) then None
      else Some (sign * (3600 * hour + 60 * minute), r)
  | EmptyString => None
  end.

Definition is_leap (year : Z) : bool :=
  (year `mod` 4 =? 0) && (negb (year `mod` 100 =? 0) || (year `mod` 400 =? 0)).
Definition days_in (month year : Z) : Z :=
  if month =? 2 then (if is_leap year then 29 else 28)
  else if bool_decide (month ∈ [4; 6; 9; 11]) then 30 else 31.

(** The days from January 1 of year 1 to a date. *)
Definition days_of (year month day : Z) : Z :=
  let y := if month <=? 2 then year - 1 else year in
  let mp := (month + 9) `mod` 12 in
  let yoe := y `mod` 400 in
  y / 400 * 146097 + (365 * yoe + yoe / 4 - yoe / 100 + (153 * mp + 2) / 5 + day - 1) - 306.

Definition parse_rfc3339 (s : string) : option time :=
  '(century, s) ← getnum true s;
  '(year2, s) ← getnum true s;
  let year := 100 * century + year2 in
  s ← literal "-" s;
  '(month, s) ← getnum true s;
  if (month <=? 0) || (12 <? month) then None else
  s ← literal "-" s;
  '(day, s) ← getnum true s;
  s ← literal "T" s;
  '(hour, s) ← getnum false s;
  if 24 <=? hour then None else
  s ← literal ":" s;
  '(minute, s) ← getnum true s;
  if 60 <=? minute then None else
  s ← literal ":" s;
  '(sec, s) ← getnum true s;
  if 60 <=? sec then None else
  let '(nsec, s) := nanoseconds s in
  '(offset, s) ← zone_offset s;
  if (s ≠s? "") || (day <? 1) || (days_in month year <? day) then None else
  Some ((86400 * days_of year month day + 3600 * hour + 60 * minute + sec - offset) * second + nsec).

Example parse_rfc3339_ex :
  parse_rfc3339 "0001-01-01T00:00:00Z" = Some 0 ∧
  map (λ t, parse_rfc3339 (format_rfc3339nano t)) [0; 63870811200123456789; 63839361600000000000]
    = map Some [0; 63870811200123456789; 63839361600000000000] ∧
  parse_rfc3339 "2024-02-29T12:00:00.5+02:00" = parse_rfc3339 "2024-02-29T10:00:00,50Z" ∧
  parse_rfc3339 "2023-02-29T10:00:00Z" = None ∧ parse_rfc3339 "yesterday" = None.
Proof. by vm_compute. Qed.
