(* ===== verification/GoFloat.v ===== *)
(** * [float64]: integers below 2^53 are exact

    Conversions and products of integers whose result is below 2^53 have no
    rounding error; used for the fractions of a duration. *)
From Stdlib Require Import SpecFloat.
From S2P Require Import Prelude GoBase Provider.

(** [uint64(x)] of a [float64] that is neither negative nor too large: the
    fraction is discarded. *)
Definition f64_trunc (x : float64) : Z :=
  match x with
  | S754_finite false m e => if 0 <=? e then Zpos m * 2 ^ e else Zpos m / 2 ^ (- e)
  | _ => 0
  end.

(** ** Digits and shifts *)

Lemma digits2_log2 p : Zpos (digits2_pos p) = Z.log2 (Zpos p) + 1.
Proof.
  induction p as [p IH|p IH|]; cbn [digits2_pos]; [..|done]; rewrite Pos2Z.inj_succ, IH.
  - rewrite (Pos2Z.inj_xI p), (Z.log2_succ_double (Zpos p)) by lia. lia.
  - rewrite (Pos2Z.inj_xO p), (Z.log2_double (Zpos p)) by lia. lia.
Qed.

Lemma iter_pos_nat {A} (f : A → A) n x : SpecFloat.iter_pos f n x = Nat.iter (Pos.to_nat n) f x.
Proof.
  revert x. induction n as [n IH|n IH|]; intros x; cbn [SpecFloat.iter_pos]; [..|done]; rewrite !IH.
  - rewrite Pos2Nat.inj_xI, Nat.iter_succ_r. replace (2 * Pos.to_nat n)%nat with (Pos.to_nat n + Pos.to_nat n)%nat by lia.
    by rewrite Nat.iter_add.
  - rewrite Pos2Nat.inj_xO. replace (2 * Pos.to_nat n)%nat with (Pos.to_nat n + Pos.to_nat n)%nat by lia.
    by rewrite Nat.iter_add.
Qed.

(** An exact shift to the right. *)
Definition exact (m : Z) : shr_record := {| shr_m := m; shr_r := false; shr_s := false |}.
Lemma shr_1_exact m : 0 < m → shr_1 (exact (2 * m)) = exact m.
Proof. by destruct m as [|p|p]. Qed.
Lemma shr_exact m n : 0 < m → Nat.iter n shr_1 (exact (m * 2 ^ Z.of_nat n)) = exact m.
Proof.
  intros Hm. induction n as [|n IH]; [cbn; by rewrite Z.mul_1_r|]. rewrite Nat.iter_succ_r.
  rewrite Nat2Z.inj_succ, Z.pow_succ_r by lia.
  replace (m * (2 * 2 ^ Z.of_nat n)) with (2 * (m * 2 ^ Z.of_nat n)) by ring.
  rewrite shr_1_exact by (apply Z.mul_pos_pos; [done|by apply Z.pow_pos_nonneg; lia]). exact IH.
Qed.

Lemma Zdigits2_log2 z : 0 < z → Zdigits2 z = Z.log2 z + 1.
Proof. destruct z as [|p|p]; try done. intros _. apply digits2_log2. Qed.

Lemma shr_fexp_exact m n e : 0 ≤ n → 2 ^ 52 ≤ m < 2 ^ 53 → -1074 ≤ e →
  shr_fexp 53 1024 (m * 2 ^ n) (e - n) loc_Exact = (exact m, e).
Proof.
  intros Hn Hm He. assert (H0 : 0 < m) by lia. unfold shr_fexp.
  rewrite Zdigits2_log2, Z.log2_mul_pow2 by (try apply Z.mul_pos_pos; try apply Z.pow_pos_nonneg; lia).
  rewrite (Z.log2_unique m 52) by (cbn; lia). unfold fexp, emin.
  replace (Z.max (n + 52 + 1 + (e - n) - 53) (3 - 1024 - 53) - (e - n)) with n by lia.
  unfold shr. destruct n as [|p|p]; [|..|lia].
  - rewrite Z.pow_0_r, Z.mul_1_r, Z.sub_0_r. done.
  - rewrite iter_pos_nat, <- (positive_nat_Z p) at 1. change (shr_record_of_loc ?x loc_Exact) with (exact x).
    rewrite shr_exact by done. f_equal. lia.
Qed.

(** Rounding what needs no rounding. *)
Lemma round_exact m n e : 0 ≤ n → 2 ^ 52 ≤ m < 2 ^ 53 → -1074 ≤ e ≤ 971 →
  binary_round_aux 53 1024 false (m * 2 ^ n) (e - n) loc_Exact = S754_finite false (Z.to_pos m) e.
Proof.
  intros Hn Hm He. unfold binary_round_aux. rewrite shr_fexp_exact by lia.
  change (round_nearest_even (shr_m (exact m)) (loc_of_shr_record (exact m))) with m.
  pose proof (shr_fexp_exact m 0 e) as H1. rewrite Z.mul_1_r, Z.sub_0_r in H1. rewrite H1 by lia.
  cbn [shr_m exact]. destruct m as [|p|p]; [lia| |lia]. change (1024 - 53) with 971.
  by rewrite (proj2 (Z.leb_le e 971)) by lia.
Qed.

(** The 53-bit significand of [z] and its exponent. *)
Definition significand (z : Z) : Z := z * 2 ^ (52 - Z.log2 z).
Lemma significand_bounds z : 0 < z < 2 ^ 53 → 0 ≤ Z.log2 z ≤ 52 ∧ 2 ^ 52 ≤ significand z < 2 ^ 53.
Proof.
  intros Hz. pose proof (Z.log2_spec z ltac:(lia)) as [Hlo Hhi]. pose proof (Z.log2_nonneg z).
  assert (HL : Z.log2 z ≤ 52) by (apply Z.lt_succ_r, Z.log2_lt_pow2; lia). split; [done|].
  unfold significand. assert (Hp : 0 < 2 ^ (52 - Z.log2 z)) by (apply Z.pow_pos_nonneg; lia).
  replace (2 ^ 52) with (2 ^ Z.log2 z * 2 ^ (52 - Z.log2 z)) by (rewrite <- Z.pow_add_r by lia; f_equal; lia).
  replace (2 ^ 53) with (2 ^ Z.succ (Z.log2 z) * 2 ^ (52 - Z.log2 z)) by (rewrite <- Z.pow_add_r by lia; f_equal; lia).
  split; [by apply Z.mul_le_mono_pos_r|by apply Z.mul_lt_mono_pos_r].
Qed.

Lemma iter_xO p d : Zpos (Pos.iter xO p d) = Zpos p * 2 ^ Zpos d.
Proof.
  revert p. induction d as [|d IH] using Pos.peano_ind; intros p; [cbn; lia|].
  rewrite Pos.iter_succ_r, IH, Pos2Z.inj_succ, Z.pow_succ_r by lia. lia.
Qed.

Lemma f64_of_Z_exact z : 0 < z < 2 ^ 53 →
  f64_of_Z z = S754_finite false (Z.to_pos (significand z)) (Z.log2 z - 52).
Proof.
  intros Hz. destruct (significand_bounds z Hz) as [HL Hs].
  pose proof (round_exact (significand z) 0 (Z.log2 z - 52)) as Hr. rewrite Z.mul_1_r, Z.sub_0_r in Hr.
  rewrite <- Hr by lia. clear Hr. unfold f64_of_Z. destruct z as [|p|p]; [lia| |lia]. cbn [binary_normalize].
  unfold binary_round. rewrite digits2_log2. unfold fexp, emin.
  replace (Z.max (Z.log2 (Zpos p) + 1 + 0 - 53) (3 - 1024 - 53)) with (Z.log2 (Zpos p) - 52) by lia.
  unfold shl_align, significand. rewrite Z.sub_0_r.
  destruct (Z.log2 (Zpos p) - 52) as [|d|d] eqn:Hd; [| |]; [|lia|].
  - replace (52 - Z.log2 (Zpos p)) with 0 by lia. by rewrite Z.mul_1_r.
  - rewrite iter_xO. do 2 f_equal. f_equal. lia.
Qed.

Lemma f64_trunc_of_Z z : 0 ≤ z < 2 ^ 53 → f64_trunc (f64_of_Z z) = z.
Proof.
  intros Hz. destruct (Z.eq_dec z 0) as [->|Hne]; [done|]. assert (Hp : 0 < z < 2 ^ 53) by lia.
  destruct (significand_bounds z Hp) as [HL Hs]. rewrite (f64_of_Z_exact z Hp). unfold f64_trunc.
  rewrite Z2Pos.id by lia. unfold significand. destruct (Z.leb_spec 0 (Z.log2 z - 52)).
  - replace (Z.log2 z - 52) with 0 by lia. replace (52 - Z.log2 z) with 0 by lia. lia.
  - replace (- (Z.log2 z - 52)) with (52 - Z.log2 z) by lia. apply Z.div_mul. apply Z.pow_nonzero; lia.
Qed.

(** A product of integers that stays below 2^53 is exact. *)
Lemma f64_mul_exact a b : 0 < a → 0 < b → a * b < 2 ^ 53 → f64_mul (f64_of_Z a) (f64_of_Z b) = f64_of_Z (a * b).
Proof.
  intros Ha Hb Hab. assert (Hab0 : 0 < a * b < 2 ^ 53) by nia.
  assert (Ha' : 0 < a < 2 ^ 53) by nia. assert (Hb' : 0 < b < 2 ^ 53) by nia.
  destruct (significand_bounds a Ha') as [HLa Hsa], (significand_bounds b Hb') as [HLb Hsb],
    (significand_bounds (a * b) Hab0) as [HL Hs].
  pose proof (Z.log2_mul_below a b Ha Hb) as Hlog.
  rewrite (f64_of_Z_exact a Ha'), (f64_of_Z_exact b Hb'), (f64_of_Z_exact (a * b) Hab0).
  unfold f64_mul, SFmul. cbn [xorb]. rewrite Pos2Z.inj_mul, !Z2Pos.id by lia.
  rewrite <- (round_exact (significand (a * b)) (52 - Z.log2 a - Z.log2 b + Z.log2 (a * b)) (Z.log2 (a * b) - 52)) by lia.
  f_equal; [|lia]. unfold significand.
  replace (a * 2 ^ (52 - Z.log2 a) * (b * 2 ^ (52 - Z.log2 b))) with
    (a * b * (2 ^ (52 - Z.log2 a) * 2 ^ (52 - Z.log2 b))) by ring.
  rewrite <- (Z.mul_assoc (a * b) (2 ^ (52 - Z.log2 (a * b)))). f_equal. rewrite <- !Z.pow_add_r by lia. f_equal. lia.
Qed.
