(* ===== verification/GoDuration.v ===== *)
(** * Durations: [time.ParseDuration], [Duration.String], and the YAML form of
    [config.Duration]

    [String] writes into a buffer from its end; here the written part is the
    string [buf].  Values are [uint64]: a sum that can wrap around is taken
    modulo 2^64.  A unit is looked up among the byte strings of [unitMap], with
    both spellings of the micro sign. *)
From Stdlib Require Import SpecFloat.
From S2P Require Import Prelude GoBase Provider Json GoFloat.

Definition microsecond : duration := 10 ^ 3.
Definition minute : duration := 60 * second.
Definition hour : duration := 60 * minute.
(** U+00B5 and U+03BC. *)
Definition micro_sign : string := bytes [0xC2%N; 0xB5%N].
Definition greek_mu : string := bytes [0xCE%N; 0xBC%N].

(** ** [Duration.String] *)

Definition digit_char (v : Z) : ascii := ascii_of_N (Z.to_N (v + 48)).

(** The loop of [fmtInt]; twenty digits are enough for a [uint64]. *)
Fixpoint fmtDigits (fuel : nat) (v : Z) (buf : string) : string :=
  match fuel with
  | O => buf
  | S fuel => if 0 <? v then fmtDigits fuel (v / 10) (String (digit_char (v mod 10)) buf) else buf
  end.
Definition fmtInt (v : Z) (buf : string) : string :=
  if v =? 0 then String "0" buf else fmtDigits 20 v buf.

(** The loop of [fmtFrac]: the rest of the value, whether a digit was printed,
    and the buffer. *)
Fixpoint fracDigits (prec : nat) (v : Z) (print : bool) (buf : string) : Z * bool * string :=
  match prec with
  | O => (v, print, buf)
  | S prec =>
      let digit := v mod 10 in
      let print := print || negb (digit =? 0) in
      fracDigits prec (v / 10) print (if print then String (digit_char digit) buf else buf)
  end.
Definition fmtFrac (v : Z) (prec : nat) (buf : string) : string * Z :=
  let '(v, print, buf) := fracDigits prec v false buf in
  (if print then String "." buf else buf, v).

(** [format] on the absolute value. *)
Definition fmtAbs (u : Z) : string :=
  if u <? second then
    if u =? 0 then "0s"
    else
      let '(prec, suffix) :=
        if u <? microsecond then (0%nat, "ns")
        else if u <? millisecond then (3%nat, micro_sign +:+ "s")
        else (6%nat, "ms") in
      let '(buf, u) := fmtFrac u prec suffix in fmtInt u buf
  else
    let '(buf, u) := fmtFrac u 9 "s" in
    let buf := fmtInt (u mod 60) buf in
    let u := u / 60 in
    if 0 <? u then
      let buf := fmtInt (u mod 60) (String "m" buf) in
      let u := u / 60 in
      if 0 <? u then fmtInt u (String "h" buf) else buf
    else buf.
Definition Duration_String (d : duration) : string :=
  let u := (if d <? 0 then - d else d) mod 2 ^ 64 in
  if d <? 0 then String "-" (fmtAbs u) else fmtAbs u.

(** ** [time.ParseDuration] *)

Variant DurationError := invalid_duration | missing_unit | unknown_unit (u : string).

Definition digit_value (c : ascii) : Z := code c - 48.

(** [leadingInt]; [None] on overflow. *)
Fixpoint leadingInt (x : Z) (s : string) : option (Z * string) :=
  match s with
  | EmptyString => Some (x, s)
  | String c r =>
      if negb (is_digit c) then Some (x, s)
      else if 2 ^ 63 / 10 <? x then None
      else let x := x * 10 + digit_value c in if 2 ^ 63 <? x then None else leadingInt x r
  end.

(** [leadingFraction]: digits that would overflow are skipped. *)
Definition f64_10 : float64 := S754_finite false 5629499534213120 (-49).
Fixpoint leadingFraction (x : Z) (scale : float64) (overflow : bool) (s : string) : Z * float64 * string :=
  match s with
  | EmptyString => (x, scale, s)
  | String c r =>
      if negb (is_digit c) then (x, scale, s)
      else if overflow then leadingFraction x scale true r
      else if (2 ^ 63 - 1) / 10 <? x then leadingFraction x scale true r
      else
        let y := x * 10 + digit_value c in
        if 2 ^ 63 <? y then leadingFraction x scale true r
        else leadingFraction y (f64_mul scale f64_10) false r
  end.

(** The bytes before the next digit or period. *)
Fixpoint takeUnit (s : string) : string * string :=
  match s with
  | EmptyString => ("", "")
  | String c r =>
      if bool_decide (c = "."%char) || is_digit c then ("", s)
      else let '(u, rest) := takeUnit r in (String c u, rest)
  end.

Definition unitMap (u : string) : option Z :=
  if u =s? "ns" then Some 1
  else if (u =s? "us") || (u =s? micro_sign +:+ "s") || (u =s? greek_mu +:+ "s") then Some microsecond
  else if u =s? "ms" then Some millisecond
  else if u =s? "s" then Some second
  else if u =s? "m" then Some minute
  else if u =s? "h" then Some hour
  else None.

(** The fraction after the integer part: its digits, their scale, whether there
    were any, and the rest. *)
Definition takeFraction (s : string) : Z * float64 * bool * string :=
  match s with
  | String c r =>
      if bool_decide (c = "."%char) then
        let '(f, scale, rest) := leadingFraction 0 f64_1 false r in
        (f, scale, negb (len r =? len rest), rest)
      else (0, f64_1, false, s)
  | EmptyString => (0, f64_1, false, s)
  end.

(** One pass of the loop: the value of a number with its unit, and the rest. *)
Definition parseItem (s : string) : result DurationError (Z * string) :=
  match s with
  | EmptyString => Err invalid_duration
  | String c _ =>
      fail_if! negb (bool_decide (c = "."%char) || is_digit c) with invalid_duration;
      match leadingInt 0 s with
      | None => Err invalid_duration
      | Some (v, rest) =>
          let pre := negb (len s =? len rest) in
          let '(f, scale, post, rest) := takeFraction rest in
          fail_if! negb pre && negb post with invalid_duration;
          let '(u, rest) := takeUnit rest in
          fail_if! u =s? "" with missing_unit;
          match unitMap u with
          | None => Err (unknown_unit u)
          | Some unit =>
              fail_if! 2 ^ 63 / unit <? v with invalid_duration;
              let v := v * unit in
              let v := if 0 <? f then v + f64_trunc (f64_mul (f64_of_Z f) (SFdiv 53 1024 (f64_of_Z unit) scale))
                       else v in
              fail_if! (0 <? f) && (2 ^ 63 <? v) with invalid_duration;
              Ok (v, rest)
          end
      end
  end.

(** The loop; every pass consumes a byte, so the length of the text is enough. *)
Fixpoint parseItems (fuel : nat) (d : Z) (s : string) : result DurationError Z :=
  match s, fuel with
  | EmptyString, _ => Ok d
  | _, O => Err invalid_duration
  | _, S fuel =>
      item ←! parseItem s;
      let '(v, rest) := item in
      let d := (d + v) mod 2 ^ 64 in
      fail_if! 2 ^ 63 <? d with invalid_duration;
      parseItems fuel d rest
  end.

Definition ParseDuration (s : string) : result DurationError duration :=
  let '(neg, s) := match s with
                   | String c r => if bool_decide (c = "-"%char) then (true, r)
                                   else if bool_decide (c = "+"%char) then (false, r) else (false, s)
                   | EmptyString => (false, s)
                   end in
  if s =s? "0" then Ok 0 else
  fail_if! s =s? "" with invalid_duration;
  d ←! parseItems (String.length s) 0 s;
  if neg then Ok (wrap64 (- wrap64 d))
  else fail_if! 2 ^ 63 - 1 <? d with invalid_duration; Ok d.

(** ** [config.Duration] *)

Section Yaml.
Context {Node : Type} (decode_string : Node → result string string).

Definition UnmarshalYAML (node : Node) : result string duration :=
  match decode_string node with
  | Err e => Err ("duration must be a string: " +:+ e)
  | Ok raw => match ParseDuration raw with
              | Err _ => Err ("invalid duration " +:+ raw)
              | Ok parsed => Ok parsed
              end
  end.
Definition MarshalYAML (d : duration) : string := Duration_String d.
End Yaml.

Example duration_examples :
  map ParseDuration ["5s"; "1.5h"; "-2m0.25s"; "+0"; "1h15m30.918s"; ".5us"; "5"; "1x"; ""; "9223372036854775808ns";
                     "-9223372036854775808ns"] =
  [Ok 5000000000; Ok 5400000000000; Ok (-120250000000); Ok 0; Ok 4530918000000; Ok 500; Err missing_unit;
   Err (unknown_unit "x"); Err invalid_duration; Err invalid_duration; Ok (-9223372036854775808)] ∧
  map Duration_String [0; 1; 1500; 1500000; -1; 90 * second; 5400 * second + 30; -9223372036854775808] =
  ["0s"; "1ns"; "1.5" +:+ micro_sign +:+ "s"; "1.5ms"; "-1ns"; "1m30s"; "1h30m0.00000003s"; "-2562047h47m16.854775808s"].
Proof. vm_compute. done. Qed.

(** ** Reading back what was written *)

Lemma digit_char_spec v : 0 ≤ v < 10 → is_digit (digit_char v) = true ∧ digit_value (digit_char v) = v.
Proof.
  intros Hv. assert (H : code (digit_char v) = v + 48).
  { unfold code, digit_char. rewrite N_ascii_embedding; [rewrite Z2N.id; lia|]. apply N2Z.inj_lt. rewrite Z2N.id; lia. }
  unfold is_digit, in_range, digit_value. rewrite H. split; [|lia]. rewrite andb_true_iff, !Z.leb_le. lia.
Qed.
Lemma digit_char_mod v : 0 ≤ v → is_digit (digit_char (v mod 10)) = true ∧ digit_value (digit_char (v mod 10)) = v mod 10.
Proof. intros. apply digit_char_spec. apply Z.mod_pos_bound. lia. Qed.

Lemma leadingInt_digit x v s : 0 ≤ x → 0 ≤ v < 10 → x * 10 + v ≤ 2 ^ 63 →
  leadingInt x (String (digit_char v) s) = leadingInt (x * 10 + v) s.
Proof.
  intros Hx Hv Hb. destruct (digit_char_spec v Hv) as [Hd Hval]. cbn [leadingInt]. rewrite Hd, Hval. cbn [negb].
  rewrite (proj2 (Z.ltb_ge (2 ^ 63 / 10) x)) by (change (2 ^ 63 / 10) with 922337203685477580; lia).
  by rewrite (proj2 (Z.ltb_ge (2 ^ 63) (x * 10 + v))) by lia.
Qed.

(** Reading the digits of [v] makes [v]. *)
Lemma leadingInt_digits fuel v buf : 0 ≤ v ≤ 2 ^ 63 → v < 10 ^ Z.of_nat fuel →
  leadingInt 0 (fmtDigits fuel v buf) = leadingInt v buf.
Proof.
  revert v buf. induction fuel as [|fuel IH]; intros v buf Hv Hf; cbn [fmtDigits].
  { cbn in Hf. by replace v with 0 by lia. }
  rewrite Nat2Z.inj_succ, Z.pow_succ_r in Hf by lia. destruct (Z.ltb_spec 0 v); [|by replace v with 0 by lia].
  pose proof (Z.div_mod v 10 ltac:(lia)) as Hdm. pose proof (Z.mod_pos_bound v 10 ltac:(lia)).
  rewrite IH; [|split; [apply Z.div_pos; lia|]; apply Z.div_le_upper_bound; lia|apply Z.div_lt_upper_bound; lia].
  rewrite leadingInt_digit by (try (apply Z.div_pos; lia); lia). f_equal. lia.
Qed.
Definition stops (s : string) : Prop := match s with String c _ => is_digit c = false | EmptyString => True end.
Lemma leadingInt_stops x s : stops s → leadingInt x s = Some (x, s).
Proof. destruct s as [|c r]; [done|]. cbn. by intros ->. Qed.
Lemma leadingInt_fmtInt v buf : 0 ≤ v ≤ 2 ^ 63 → stops buf → leadingInt 0 (fmtInt v buf) = Some (v, buf).
Proof.
  intros Hv Hs. unfold fmtInt. destruct (Z.eqb_spec v 0) as [->|Hne].
  - change "0"%char with (digit_char 0). rewrite leadingInt_digit by lia. by apply leadingInt_stops.
  - rewrite leadingInt_digits by (cbn; lia). by apply leadingInt_stops.
Qed.

(** What is written starts with a digit and is longer than the buffer. *)
Definition starts_digit (s : string) : Prop := match s with String c _ => is_digit c = true | EmptyString => False end.
Lemma fmtDigits_starts fuel v buf : 0 < v → (0 < fuel)%nat ∨ starts_digit buf →
  starts_digit (fmtDigits fuel v buf) ∧ len buf + (if (0 <? fuel)%nat then 1 else 0) ≤ len (fmtDigits fuel v buf).
Proof.
  revert v buf. induction fuel as [|fuel IH]; intros v buf Hv Hf; cbn [fmtDigits].
  { destruct Hf as [?|?]; [lia|]. split; [done|]. cbn. lia. }
  change (0 <? S fuel)%nat with true. cbv iota.
  rewrite (proj2 (Z.ltb_lt 0 v)) by done. pose proof (digit_char_mod v ltac:(lia)) as [Hd _].
  set (buf' := String (digit_char (v mod 10)) buf). assert (Hlen : len buf' = len buf + 1) by (unfold len; cbn; lia).
  destruct (Z.ltb_spec 0 (v / 10)) as [Hp|Hp].
  - destruct (IH (v / 10) buf' Hp (or_intror Hd)) as [H1 H2]. split; [done|]. destruct (0 <? fuel)%nat; lia.
  - assert (He : fmtDigits fuel (v / 10) buf' = buf') by (destruct fuel; cbn; [done|]; by rewrite (proj2 (Z.ltb_ge 0 (v / 10)))).
    rewrite He. split; [done|]. lia.
Qed.
Lemma fmtInt_starts v buf : 0 ≤ v → starts_digit (fmtInt v buf) ∧ len buf < len (fmtInt v buf).
Proof.
  intros Hv. unfold fmtInt. destruct (Z.eqb_spec v 0) as [->|Hne]; [split; [done|unfold len; cbn; lia]|].
  destruct (fmtDigits_starts 20 v buf ltac:(lia) ltac:(left; lia)) as [H1 H2]. split; [done|].
  change (0 <? 20)%nat with true in H2. cbv iota in H2. lia.
Qed.

(** *** Fractions *)

Definition scaleOf (k : nat) : float64 := Nat.iter k (λ s, f64_mul s f64_10) f64_1.

Lemma leadingFraction_digit x j v s : 0 ≤ x → 0 ≤ v < 10 → x * 10 + v ≤ 10 ^ 9 →
  leadingFraction x (scaleOf j) false (String (digit_char v) s) = leadingFraction (x * 10 + v) (scaleOf (S j)) false s.
Proof.
  intros Hx Hv Hb. destruct (digit_char_spec v Hv) as [Hd Hval]. cbn [leadingFraction]. rewrite Hd, Hval. cbn [negb].
  rewrite (proj2 (Z.ltb_ge ((2 ^ 63 - 1) / 10) x)) by (change ((2 ^ 63 - 1) / 10) with 922337203685477580; lia).
  by rewrite (proj2 (Z.ltb_ge (2 ^ 63) (x * 10 + v))) by lia.
Qed.
Lemma leadingFraction_stops x scale s : stops s → leadingFraction x scale false s = (x, scale, s).
Proof. destruct s as [|c r]; [done|]. cbn. by intros ->. Qed.

(** The buffer [buf] is [k] digits, which read [f], before [rest]. *)
Definition reads_as (f : Z) (k : nat) (rest buf : string) : Prop :=
  ∀ x j, 0 ≤ x → x * 10 ^ Z.of_nat k + f ≤ 10 ^ 9 →
    leadingFraction x (scaleOf j) false buf = leadingFraction (x * 10 ^ Z.of_nat k + f) (scaleOf (j + k)) false rest.

Lemma reads_as_nil rest : reads_as 0 0 rest rest.
Proof. intros x j _ _. by rewrite Z.mul_1_r, Z.add_0_r, Nat.add_0_r. Qed.
Lemma reads_as_digit v f k rest buf : 0 ≤ v < 10 → 0 ≤ f → reads_as f k rest buf →
  reads_as (v * 10 ^ Z.of_nat k + f) (S k) rest (String (digit_char v) buf).
Proof.
  intros Hv Hf Hr x j Hx. rewrite Nat2Z.inj_succ, Z.pow_succ_r by lia. intros Hb.
  assert (Hp : 0 < 10 ^ Z.of_nat k) by (apply Z.pow_pos_nonneg; lia).
  rewrite leadingFraction_digit by nia. rewrite Hr by nia. f_equal; [nia|]. f_equal. lia.
Qed.

(** The digits of the fraction: after [n] digits the last [k] of which were
    printed. *)
Lemma fracDigits_spec rest prec : ∀ n v print buf f k,
  0 ≤ v → 0 ≤ f < 10 ^ Z.of_nat k → (k ≤ n)%nat → reads_as f k rest buf → (print = false → k = 0%nat ∧ buf = rest) →
  ∃ print' buf' f' k',
    fracDigits prec v print buf = (v / 10 ^ Z.of_nat prec, print', buf') ∧
    0 ≤ f' < 10 ^ Z.of_nat k' ∧ (k' ≤ n + prec)%nat ∧ reads_as f' k' rest buf' ∧
    (print' = false → k' = 0%nat ∧ buf' = rest) ∧
    f' * 10 ^ Z.of_nat (n + prec - k') = f * 10 ^ Z.of_nat (n - k) + 10 ^ Z.of_nat n * (v mod 10 ^ Z.of_nat prec).
Proof.
  induction prec as [|prec IH]; intros n v print buf f k Hv Hf Hk Hr Hp; cbn [fracDigits].
  { exists print, buf, f, k. rewrite Z.div_1_r, Z.mod_1_r, Nat.add_0_r, Z.mul_0_r, Z.add_0_r. split_and!; auto; lia. }
  pose proof (Z.mod_pos_bound v 10 ltac:(lia)) as Hdig. assert (Hq : 0 ≤ v / 10) by (apply Z.div_pos; lia).
  assert (Hsucc : v mod 10 ^ Z.of_nat (S prec) = v mod 10 + 10 * ((v / 10) mod 10 ^ Z.of_nat prec)).
  { rewrite Nat2Z.inj_succ, Z.pow_succ_r by lia. apply Z.rem_mul_r; [lia|]. apply Z.pow_pos_nonneg; lia. }
  assert (Hdiv : v / 10 ^ Z.of_nat (S prec) = v / 10 / 10 ^ Z.of_nat prec).
  { rewrite Nat2Z.inj_succ, Z.pow_succ_r by lia. symmetry. apply Z.div_div; [lia|]. apply Z.pow_pos_nonneg; lia. }
  rewrite Hsucc, Hdiv. replace (n + S prec)%nat with (S n + prec)%nat by lia.
  assert (Hpow : 10 ^ Z.of_nat (S n) = 10 * 10 ^ Z.of_nat n) by (rewrite Nat2Z.inj_succ, Z.pow_succ_r by lia; done).
  destruct (print || negb (v mod 10 =? 0)) eqn:Hprint.
  - destruct (IH (S n) (v / 10) true (String (digit_char (v mod 10)) buf) (v mod 10 * 10 ^ Z.of_nat k + f) (S k))
      as (print' & buf' & f' & k' & He & Hf' & Hk' & Hr' & Hp' & Hval); [lia| |lia|apply reads_as_digit; [lia|lia|done]|done|].
    { rewrite Nat2Z.inj_succ, Z.pow_succ_r by lia. assert (0 < 10 ^ Z.of_nat k) by (apply Z.pow_pos_nonneg; lia). nia. }
    exists print', buf', f', k'. split_and!; try done; try lia.
    rewrite Hval. replace (S n - S k)%nat with (n - k)%nat by lia. rewrite Hpow.
    assert (Hs : 10 ^ Z.of_nat k * 10 ^ Z.of_nat (n - k) = 10 ^ Z.of_nat n)
      by (rewrite <- Z.pow_add_r by lia; f_equal; lia).
    rewrite <- Hs. ring.
  - apply orb_false_iff in Hprint as [-> Hz]. apply negb_false_iff, Z.eqb_eq in Hz. destruct (Hp eq_refl) as [-> ->].
    assert (f = 0) as -> by (cbn in Hf; lia).
    destruct (IH (S n) (v / 10) false rest 0 0%nat) as (print' & buf' & f' & k' & He & Hf' & Hk' & Hr' & Hp' & Hval);
      [lia|lia|lia|done|done|].
    exists print', buf', f', k'. split_and!; try done; rewrite ?Hval, ?Hpow, ?Hz; lia.
Qed.

Lemma fmtFrac_spec v prec rest : 0 ≤ v → (prec ≤ 9)%nat → stops rest →
  match rest with String c _ => c ≠ "."%char | EmptyString => True end →
  ∃ s f k post, fmtFrac v prec rest = (s, v / 10 ^ Z.of_nat prec) ∧ stops s ∧
    takeFraction s = (f, scaleOf k, post, rest) ∧ (k ≤ prec)%nat ∧ 0 ≤ f ∧
    f * 10 ^ Z.of_nat (prec - k) = v mod 10 ^ Z.of_nat prec.
Proof.
  intros Hv Hprec Hstop Hdot. unfold fmtFrac.
  destruct (fracDigits_spec rest prec 0 v false rest 0 0%nat) as (print & buf & f & k & He & Hf & Hk & Hr & Hp & Hval);
    [lia|lia|lia|apply reads_as_nil|done|].
  rewrite He. cbn [Nat.add] in Hk, Hval. change (10 ^ Z.of_nat 0) with 1 in Hval. rewrite Z.mul_1_l in Hval.
  destruct print.
  - exists (String "." buf), f, k, (negb (len buf =? len rest)). split; [done|]. split; [done|].
    assert (Hb : 10 ^ Z.of_nat k ≤ 10 ^ 9) by (apply Z.pow_le_mono_r; lia).
    unfold takeFraction. rewrite bool_decide_eq_true_2 by done. change f64_1 with (scaleOf 0) at 1. rewrite (Hr 0 0%nat) by lia. rewrite leadingFraction_stops by done. cbn [Z.mul Nat.add].
    split_and!; [done|done|lia|lia].
  - destruct (Hp eq_refl) as [-> ->]. exists rest, 0, 0%nat, false. split; [done|]. split; [done|].
    cbn in Hf. assert (f = 0) as -> by lia. split; [|split_and!; [lia|lia|lia]].
    destruct rest as [|c r]; [done|]. cbn. by rewrite bool_decide_eq_false_2.
Qed.

(** The factor of a fraction is a power of ten, without rounding. *)
Lemma scale_div prec k : (k ≤ prec ≤ 9)%nat →
  SFdiv 53 1024 (f64_of_Z (10 ^ Z.of_nat prec)) (scaleOf k) = f64_of_Z (10 ^ Z.of_nat (prec - k)).
Proof.
  intros H. do 10 (destruct prec as [|prec]; [do 10 (destruct k as [|k]; [first [exfalso; lia|vm_compute; reflexivity]|]); exfalso; lia|]). lia.
Qed.

Lemma fraction_exact f k prec : (k ≤ prec ≤ 9)%nat → 0 < f → f * 10 ^ Z.of_nat (prec - k) < 10 ^ 9 →
  f64_trunc (f64_mul (f64_of_Z f) (SFdiv 53 1024 (f64_of_Z (10 ^ Z.of_nat prec)) (scaleOf k)))
  = f * 10 ^ Z.of_nat (prec - k).
Proof.
  intros Hk Hf Hb. assert (Hp : 0 < 10 ^ Z.of_nat (prec - k)) by (apply Z.pow_pos_nonneg; lia).
  rewrite scale_div, f64_mul_exact by lia. apply f64_trunc_of_Z. nia.
Qed.

(** Reading one number with its unit. *)
Lemma parseItem_written v s f k post prec u unit rest :
  0 ≤ v → stops s → takeFraction s = (f, scaleOf k, post, u +:+ rest) → takeUnit (u +:+ rest) = (u, rest) →
  u ≠ "" → unitMap u = Some unit → 0 ≤ f → (k ≤ prec ≤ 9)%nat → (0 < f → unit = 10 ^ Z.of_nat prec) →
  f * 10 ^ Z.of_nat (prec - k) < 10 ^ 9 → 0 < unit → v * unit + f * 10 ^ Z.of_nat (prec - k) ≤ 2 ^ 63 →
  parseItem (fmtInt v s) = Ok (v * unit + f * 10 ^ Z.of_nat (prec - k), rest).
Proof.
  intros Hv Hs Ht Hu Hne Hunit Hf Hk Hpow Hsmall Hpos Hb.
  assert (Hfr : 0 ≤ f * 10 ^ Z.of_nat (prec - k)) by (apply Z.mul_nonneg_nonneg; [done|apply Z.pow_nonneg; lia]).
  destruct (fmtInt_starts v s Hv) as [Hstart Hlen]. unfold parseItem.
  destruct (fmtInt v s) as [|c r] eqn:Hfmt; [done|]. cbn in Hstart. rewrite Hstart, orb_true_r. cbn [negb].
  rewrite <- Hfmt. rewrite leadingInt_fmtInt by (done || nia). rewrite Hfmt.
  rewrite (proj2 (Z.eqb_neq _ _)) by lia. cbn [negb andb]. rewrite Ht, Hu.
  rewrite (proj2 (String.eqb_neq u "")) by done. rewrite Hunit.
  rewrite (proj2 (Z.ltb_ge (2 ^ 63 / unit) v)) by (apply Z.div_le_lower_bound; nia).
  destruct (Z.ltb_spec 0 f) as [Hf0|Hf0].
  - rewrite (Hpow Hf0). rewrite fraction_exact by done. rewrite (Hpow Hf0) in Hb.
    by rewrite (proj2 (Z.ltb_ge (2 ^ 63) _)) by lia.
  - assert (f = 0) as -> by lia. cbn [andb]. do 2 f_equal. lia.
Qed.

(** *** The whole text *)

Lemma length_len s : Z.of_nat (String.length s) = len s.
Proof. done. Qed.

Lemma parseItems_step fuel d s v rest :
  s ≠ "" → (String.length s ≤ fuel)%nat → len rest < len s →
  parseItem s = Ok (v, rest) → 0 ≤ d → 0 ≤ v → d + v ≤ 2 ^ 63 →
  ∃ fuel', (String.length rest ≤ fuel')%nat ∧ parseItems fuel d s = parseItems fuel' (d + v) rest.
Proof.
  intros Hne Hfuel Hlen Hitem Hd Hv Hb. unfold len in Hlen. destruct s as [|c r]; [done|].
  destruct fuel as [|fuel]; [cbn in Hfuel; lia|]. exists fuel. split; [cbn in Hfuel, Hlen; lia|].
  cbn [parseItems]. rewrite Hitem. cbn [rbind]. rewrite Z.mod_small by lia.
  by rewrite (proj2 (Z.ltb_ge (2 ^ 63) (d + v))) by lia.
Qed.

(** Hours and minutes: a number, one letter, and more digits. *)
Lemma parseItems_whole fuel d v c unit rest :
  (String.length (fmtInt v (String c rest)) ≤ fuel)%nat → starts_digit rest → is_digit c = false → c ≠ "."%char →
  unitMap (String c "") = Some unit → 0 < unit → 0 ≤ v → 0 ≤ d → d + v * unit ≤ 2 ^ 63 →
  ∃ fuel', (String.length rest ≤ fuel')%nat ∧
    parseItems fuel d (fmtInt v (String c rest)) = parseItems fuel' (d + v * unit) rest.
Proof.
  intros Hfuel Hrest Hc Hdot Hunit Hpos Hv Hd Hb. destruct (fmtInt_starts v (String c rest) Hv) as [Hstart Hlen].
  apply parseItems_step; try done; try nia.
  - by intros He; rewrite He in Hstart.
  - unfold len in *. cbn in Hlen. lia.
  - pose proof (parseItem_written v (String c rest) 0 0%nat false 0%nat (String c "") unit rest) as H.
    rewrite Z.mul_0_l, Z.add_0_r in H. apply H; try done; try lia.
    + unfold takeFraction. by rewrite bool_decide_eq_false_2.
    + change (takeUnit (String c rest) = (String c "", rest)). cbn [takeUnit]. rewrite bool_decide_eq_false_2, Hc by done. cbn [orb].
      destruct rest as [|c' r]; [done|]. cbn [takeUnit starts_digit] in Hrest |- *. by rewrite Hrest, orb_true_r.
Qed.

(** The last item: a number and the fraction of [w]. *)
Lemma parseItems_last fuel d v w prec u unit s :
  0 ≤ v → 0 ≤ w → (prec ≤ 9)%nat → unit = 10 ^ Z.of_nat prec → u ≠ "" → stops u →
  match u with String c _ => c ≠ "."%char | EmptyString => True end → takeUnit u = (u, "") → unitMap u = Some unit →
  fmtFrac w prec u = (s, w / unit) → (String.length (fmtInt v s) ≤ fuel)%nat → 0 ≤ d →
  d + (v * unit + w mod unit) ≤ 2 ^ 63 →
  starts_digit (fmtInt v s) ∧ 2 ≤ len (fmtInt v s) ∧
  parseItems fuel d (fmtInt v s) = Ok (d + (v * unit + w mod unit)).
Proof.
  intros Hv Hw Hprec -> Hne Hstop Hdot Hu Hunit He Hfuel Hd Hb.
  assert (Hp : 0 < 10 ^ Z.of_nat prec ≤ 10 ^ 9) by (split; [apply Z.pow_pos_nonneg; lia|apply Z.pow_le_mono_r; lia]).
  destruct (fmtFrac_spec w prec u Hw Hprec Hstop Hdot) as (s' & f & k & post & He' & Hs & Ht & Hk & Hf & Hval).
  rewrite He in He'. injection He' as <-.
  pose proof (Z.mod_pos_bound w (10 ^ Z.of_nat prec) ltac:(lia)) as Hmod.
  destruct (fmtInt_starts v s Hv) as [Hstart Hlen]. split; [done|].
  assert (Hs0 : 0 < len s) by (destruct s; [cbn in Ht; by injection Ht as _ _ _ <-|unfold len; cbn; lia]). split; [lia|].
  pose proof (parseItem_written v s f k post prec u (10 ^ Z.of_nat prec) "") as H.
  assert (Hnil : u +:+ "" = u)
    by (clear; induction u as [|c u IH]; [done|]; change (String c (u +:+ "") = String c u); by rewrite IH).
  rewrite Hnil, Hval in H.
  destruct (parseItems_step fuel d (fmtInt v s) (v * 10 ^ Z.of_nat prec + w mod 10 ^ Z.of_nat prec) "")
    as (fuel' & _ & ->).
  - by intros He'; rewrite He' in Hstart.
  - done.
  - unfold len in *. cbn. lia.
  - apply H; try done; lia.
  - done.
  - nia.
  - lia.
  - by destruct fuel'.
Qed.

Definition reads_back (u : Z) (s : string) : Prop :=
  starts_digit s ∧ 2 ≤ len s ∧ parseItems (String.length s) 0 s = Ok u.

(** Less than a second. *)
Lemma fmtAbs_small u : 0 ≤ u < second → reads_back u (fmtAbs u).
Proof.
  intros Hu. unfold second in Hu. unfold fmtAbs. rewrite (proj2 (Z.ltb_lt u second)) by (unfold second; lia).
  destruct (Z.eqb_spec u 0) as [->|Hne]; [by vm_compute|].
  assert (H : ∀ prec suffix, (prec ≤ 9)%nat → suffix ≠ "" → stops suffix →
    match suffix with String c _ => c ≠ "."%char | EmptyString => True end → takeUnit suffix = (suffix, "") →
    unitMap suffix = Some (10 ^ Z.of_nat prec) →
    let '(buf, u') := fmtFrac u prec suffix in reads_back u (fmtInt u' buf)).
  { intros prec suffix Hprec Hs1 Hs2 Hs3 Hs4 Hs5. assert (Hp : 0 < 10 ^ Z.of_nat prec) by (apply Z.pow_pos_nonneg; lia).
    destruct (fmtFrac_spec u prec suffix ltac:(lia) Hprec Hs2 Hs3) as (s & f & k & post & He & _).
    rewrite He. pose proof (Z.div_mod u (10 ^ Z.of_nat prec) ltac:(lia)) as Hdm.
    destruct (parseItems_last (String.length (fmtInt (u / 10 ^ Z.of_nat prec) s)) 0 (u / 10 ^ Z.of_nat prec) u prec suffix
      (10 ^ Z.of_nat prec) s) as (H1 & H2 & H3); try done; try lia; [apply Z.div_pos; lia|].
    split_and!; [done|done|]. rewrite H3. f_equal. lia. }
  destruct (u <? microsecond); [by apply (H 0%nat "ns"); [lia|..]|].
  destruct (u <? millisecond); [by apply (H 3%nat (micro_sign +:+ "s")); [lia|..]|by apply (H 6%nat "ms"); [lia|..]].
Qed.

(** A second or more: hours, minutes, seconds and their fraction. *)
Lemma fmtAbs_large u : second ≤ u ≤ 2 ^ 63 → reads_back u (fmtAbs u).
Proof.
  intros Hu. unfold fmtAbs. rewrite (proj2 (Z.ltb_ge u second)) by lia. unfold second in Hu.
  destruct (fmtFrac_spec u 9 "s" ltac:(lia) ltac:(lia) eq_refl ltac:(done)) as (s & f & k & post & He & _).
  rewrite He. change (10 ^ Z.of_nat 9) with second in *. set (t := u / second).
  assert (Ht0 : 0 ≤ t) by (apply Z.div_pos; unfold second; lia).
  pose proof (Z.mod_pos_bound t 60 ltac:(lia)) as Hsec. pose proof (Z.div_mod t 60 ltac:(lia)) as Hmin.
  pose proof (Z.mod_pos_bound (t / 60) 60 ltac:(lia)) as Hmin'. pose proof (Z.div_mod (t / 60) 60 ltac:(lia)) as Hhour.
  pose proof (Z.div_mod u second ltac:(unfold second; lia)) as Hdiv. fold t in Hdiv.
  pose proof (Z.mod_pos_bound u second ltac:(unfold second; lia)) as Hns.
  assert (Hm0 : 0 ≤ t / 60) by (apply Z.div_pos; lia). assert (Hh0 : 0 ≤ t / 60 / 60) by (apply Z.div_pos; lia).
  assert (Hlast : ∀ fuel d, (String.length (fmtInt (t mod 60) s) ≤ fuel)%nat → 0 ≤ d →
    d + (t mod 60 * second + u mod second) ≤ 2 ^ 63 →
    starts_digit (fmtInt (t mod 60) s) ∧ 2 ≤ len (fmtInt (t mod 60) s) ∧
    parseItems fuel d (fmtInt (t mod 60) s) = Ok (d + (t mod 60 * second + u mod second))).
  { intros. apply (parseItems_last fuel d (t mod 60) u 9 "s" second s); try done; lia. }
  unfold second in Hdiv, Hns. destruct (Z.ltb_spec 0 (t / 60)) as [Hm|Hm].
  2:{ destruct (Hlast _ 0 (Nat.le_refl _)) as (H1 & H2 & H3); [lia|unfold second; lia|]. split_and!; [done|done|].
      rewrite H3. f_equal. unfold second. lia. }
  destruct (Hlast _ 0 (Nat.le_refl _)) as (H1 & H2 & _); [lia|unfold second; lia|].
  destruct (fmtInt_starts (t / 60 mod 60) (String "m" (fmtInt (t mod 60) s)) ltac:(lia)) as [H3 H4].
  assert (Hlm : len (String "m" (fmtInt (t mod 60) s)) = len (fmtInt (t mod 60) s) + 1) by (unfold len; cbn; lia).
  assert (Hmins : ∀ fuel d, (String.length (fmtInt (t / 60 mod 60) (String "m" (fmtInt (t mod 60) s))) ≤ fuel)%nat → 0 ≤ d →
    d + (t / 60 mod 60 * minute + (t mod 60 * second + u mod second)) ≤ 2 ^ 63 →
    parseItems fuel d (fmtInt (t / 60 mod 60) (String "m" (fmtInt (t mod 60) s)))
      = Ok (d + (t / 60 mod 60 * minute + (t mod 60 * second + u mod second)))).
  { intros fuel d Hfuel Hd. unfold minute, second. intros Hb.
    destruct (parseItems_whole fuel d (t / 60 mod 60) "m" minute (fmtInt (t mod 60) s) Hfuel)
      as (fuel' & Hf' & ->); try done; try (unfold minute, second; lia).
    destruct (Hlast fuel' (d + t / 60 mod 60 * minute) Hf') as (_ & _ & ->); [unfold minute, second; lia..|].
    f_equal. unfold minute, second. lia. }
  destruct (Z.ltb_spec 0 (t / 60 / 60)) as [Hh|Hh].
  2:{ split_and!; [done|lia|]. rewrite Hmins by (unfold minute, second; lia). f_equal. unfold minute, second. lia. }
  set (buf := fmtInt (t / 60 mod 60) (String "m" (fmtInt (t mod 60) s))) in *.
  destruct (fmtInt_starts (t / 60 / 60) (String "h" buf) Hh0) as [H5 H6].
  assert (Hlh : len (String "h" buf) = len buf + 1) by (unfold len; cbn; lia). split_and!; [done|lia|].
  destruct (parseItems_whole _ 0 (t / 60 / 60) "h" hour buf (Nat.le_refl _)) as (fuel' & Hf' & ->); try done;
    try (unfold hour, minute, second; lia).
  rewrite Hmins by (try done; unfold hour, minute, second; lia). f_equal. unfold hour, minute, second. lia.
Qed.

Lemma starts_digit_plain s : starts_digit s → match s with String c _ => c ≠ "-"%char ∧ c ≠ "+"%char | EmptyString => False end.
Proof. destruct s as [|c r]; [done|]. cbn. intros H. split; intros ->; done. Qed.

(** C36: what is written of a duration is read back.  For every 64-bit duration,
    the shortest and the longest negative one included, [ParseDuration] of
    [Duration.String] is the duration itself, with no rounding in the floating
    point of its fraction; so a configuration that is written and read again has
    the same durations. *)
Theorem duration_roundtrip {Node} (decode_string : Node → result string string) node d :
  is_int64 d → decode_string node = Ok (MarshalYAML d) → UnmarshalYAML decode_string node = Ok d.
Proof.
  intros Hd Hn. unfold UnmarshalYAML. rewrite Hn. unfold MarshalYAML. unfold is_int64, int64_min, int64_max in Hd.
  assert (Habs : ∀ u, 0 ≤ u ≤ 2 ^ 63 → reads_back u (fmtAbs u)).
  { intros u Hu. destruct (Z.lt_ge_cases u second); [apply fmtAbs_small; lia|apply fmtAbs_large; lia]. }
  assert (Htext : ∀ s, 2 ≤ len s → (s =s? "0") = false ∧ (s =s? "") = false).
  { intros s Hs. split; apply String.eqb_neq; intros ->; by vm_compute in Hs. }
  unfold Duration_String. destruct (Z.ltb_spec d 0) as [Hneg|Hpos]; rewrite Z.mod_small by lia.
  - destruct (Habs (- d) ltac:(lia)) as (_ & Hlen & Hparse). destruct (Htext _ Hlen) as [H0 H1].
    unfold ParseDuration. rewrite bool_decide_eq_true_2, H0, H1, Hparse by done. cbn [rbind].
    f_equal. unfold wrap64, wrap. destruct (Z.eq_dec d (- 2 ^ 63)) as [->|Hne]; [done|].
    rewrite (Z.mod_small (- d + _)) by lia. rewrite Z.mod_small by lia. lia.
  - destruct (Habs d ltac:(lia)) as (Hs & Hlen & Hparse). destruct (Htext _ Hlen) as [H0 H1].
    apply starts_digit_plain in Hs. unfold ParseDuration. destruct (fmtAbs d) as [|c r] eqn:He; [done|].
    destruct Hs as [Hc1 Hc2]. rewrite !bool_decide_eq_false_2 by done. rewrite H0, H1, Hparse. cbn [rbind].
    by rewrite (proj2 (Z.ltb_ge (2 ^ 63 - 1) d)) by lia.
Qed.

(** Whatever is parsed is a 64-bit duration: sums that leave the range are
    refused. *)
Lemma parseItems_range fuel d s x : 0 ≤ d ≤ 2 ^ 63 → parseItems fuel d s = Ok x → 0 ≤ x ≤ 2 ^ 63.
Proof.
  revert d s. induction fuel as [|fuel IH]; intros d s Hd; destruct s as [|c r]; cbn [parseItems]; try (by intros [= <-]).
  rewrite rbind_ok. intros ([v rest] & _ & Hx). rewrite fail_if_ok in Hx. destruct Hx as [Hle%Z.ltb_ge Hx].
  apply IH in Hx; [done|]. split; [|done]. apply Z.mod_pos_bound. lia.
Qed.
Lemma ParseDuration_range s d : ParseDuration s = Ok d → is_int64 d.
Proof.
  unfold ParseDuration. destruct (match s with EmptyString => _ | String _ _ => _ end) as [neg t].
  destruct (t =s? "0"); [by intros [= <-]|]. rewrite fail_if_ok, rbind_ok. intros (_ & x & Hx & Hd).
  apply parseItems_range in Hx; [|lia]. destruct neg.
  - injection Hd as <-. apply wrap64_range.
  - rewrite fail_if_ok in Hd. destruct Hd as [Hle%Z.ltb_ge [= <-]]. unfold is_int64, int64_min, int64_max. lia.
Qed.

Lemma duration_roundtrip_witness :
  UnmarshalYAML (λ s : string, Ok s) "-2562047h47m16.854775808s" = Ok (- 2 ^ 63).
Proof. apply duration_roundtrip; [by vm_compute|vm_compute; reflexivity]. Defined.
