(* ===== verification/GoNet.v ===== *)
(** * Packages [net], [net/url], [net/http], [strconv] and [io] as the program uses them

    IP addresses and their classes, decimal integers, header keys and bounded
    reading are translated.  Parsing a URL and an HTTP date are left open as
    the functions of the class [NetParsers]: nothing is assumed about them, so
    what is proved holds for every parser.  An HTTP exchange is an effect of
    the outside world. *)
From S2P Require Import Prelude GoBase Json.

(** ** [net.IP] *)

(** The bytes of an address; [None] is [nil]. *)
Abbreviation IP := (option (list Z)) (only parsing).

Definition v4_prefix : list Z := [0; 0; 0; 0; 0; 0; 0; 0; 0; 0; 0xff; 0xff].

(** [ip.To4()]: the four bytes of an IPv4 address, possibly in IPv6 form. *)
Definition to4 (b : list Z) : option (list Z) :=
  if Nat.eqb (length b) 4 then Some b
  else if Nat.eqb (length b) 16 && bool_decide (take 12 b = v4_prefix) then Some (drop 12 b)
  else None.

(** [ip.Equal(x)] for a 16-byte [x]. *)
Definition ip_equal16 (b x : list Z) : bool :=
  if Nat.eqb (length b) 4 then bool_decide (take 12 x = v4_prefix) && bool_decide (drop 12 x = b)
  else bool_decide (b = x).

Definition IPv4zero : list Z := v4_prefix ++ [0; 0; 0; 0].
Definition IPv6unspecified : list Z := replicate 16 0.
Definition IPv6loopback : list Z := replicate 15 0 ++ [1].

Definition byte_at (b : list Z) (i : nat) : Z := nth i b 0.
Definition is16 (b : list Z) : bool := Nat.eqb (length b) 16.

Definition IsUnspecified (b : list Z) : bool := ip_equal16 b IPv4zero || ip_equal16 b IPv6unspecified.
Definition IsLoopback (b : list Z) : bool :=
  match to4 b with Some v => byte_at v 0 =? 127 | None => ip_equal16 b IPv6loopback end.
Definition IsPrivate (b : list Z) : bool :=
  match to4 b with
  | Some v => (byte_at v 0 =? 10)
              || ((byte_at v 0 =? 172) && (Z.land (byte_at v 1) 0xf0 =? 16))
              || ((byte_at v 0 =? 192) && (byte_at v 1 =? 168))
  | None => is16 b && (Z.land (byte_at b 0) 0xfe =? 0xfc)
  end.
Definition IsMulticast (b : list Z) : bool :=
  match to4 b with
  | Some v => Z.land (byte_at v 0) 0xf0 =? 0xe0
  | None => is16 b && (byte_at b 0 =? 0xff)
  end.
Definition IsLinkLocalUnicast (b : list Z) : bool :=
  match to4 b with
  | Some v => (byte_at v 0 =? 169) && (byte_at v 1 =? 254)
  | None => is16 b && (byte_at b 0 =? 0xfe) && (Z.land (byte_at b 1) 0xc0 =? 0x80)
  end.
Definition IsLinkLocalMulticast (b : list Z) : bool :=
  match to4 b with
  | Some v => (byte_at v 0 =? 224) && (byte_at v 1 =? 0) && (byte_at v 2 =? 0)
  | None => is16 b && (byte_at b 0 =? 0xff) && (Z.land (byte_at b 1) 0x0f =? 0x02)
  end.

(** ** [strconv.ParseInt(s, 10, 64)] *)

Fixpoint decimal (acc : Z) (s : string) : option Z :=
  match s with
  | EmptyString => Some acc
  | String c r => if is_digit c then decimal (10 * acc + (code c - 48)) r else None
  end.
(** At least one digit. *)
Definition parse_uint (s : string) : option Z := if s =s? "" then None else decimal 0 s.

Definition parse_int (s : string) : option Z :=
  let '(neg, digits) := match s with
                        | String c r => if code c =? 43 then (false, r)
                                        else if code c =? 45 then (true, r) else (false, s)
                        | EmptyString => (false, s)
                        end in
  n ← parse_uint digits;
  let z := if neg : bool then - n else n in
  if (int64_min <=? z) && (z <=? int64_max) then Some z else None.

(** ** URLs *)

Record URL := { u_Scheme : string; u_HasUser : bool; u_Host : string; u_RawQuery : string; u_Fragment : string }.

Class NetParsers := {
  url_parse : string → option URL;
  url_string : URL → string;
  parse_http_time : string → option time
}.

Fixpoint all_digits (s : string) : bool :=
  match s with EmptyString => true | String c r => is_digit c && all_digits r end.

(** A port is cut off at the last colon when only digits follow. *)
Fixpoint cut_port (s : string) : string :=
  match s with
  | EmptyString => ""
  | String c r =>
      if (code c =? 58) && all_digits r then "" else String c (cut_port r)
  end.
Fixpoint drop_last (s : string) : string :=
  match s with
  | EmptyString => ""
  | String _ EmptyString => ""
  | String c r => String c (drop_last r)
  end.
Definition has_suffix (s p : string) : bool := String.prefix (String.rev p) (String.rev s).

(** [u.Hostname()]: the host without its port and without brackets. *)
Definition hostname (u : URL) : string :=
  let host := cut_port (u_Host u) in
  if has_prefix host "[" && has_suffix host "]" then drop_last (str_drop 1 host) else host.

(** ** HTTP *)

(** Header keys are stored in canonical form: upper case at the start and after
    a dash. *)
Definition upper_byte (c : ascii) : ascii :=
  let n := N_of_ascii c in
  if ((97 <=? n) && (n <=? 122))%N then ascii_of_N (n - 32) else c.
Fixpoint canonical_key (upper : bool) (s : string) : string :=
  match s with
  | EmptyString => ""
  | String c r => String (if upper then upper_byte c else lower_byte c) (canonical_key (code c =? 45) r)
  end.

(** Headers with one value per key; [header_get] of a missing key is empty. *)
Abbreviation Header := (gmap string string) (only parsing).
Definition header_set (k v : string) (h : Header) : Header := <[canonical_key true k := v]> h.
Definition header_get (k : string) (h : Header) : string := default "" (h !! canonical_key true k).

Record Request := { rq_Method : string; rq_URL : string; rq_Header : Header; rq_Body : string }.

(** A response: its body is the bytes that can be read, after which reading
    ends or fails. *)
Record Response := {
  rs_StatusCode : Z; rs_Header : Header; rs_ContentLength : Z; rs_Body : string; rs_ReadFails : bool
}.

(** [io.ReadAll(io.LimitReader(body, n))]. *)
Definition str_take (n : nat) (s : string) : string := String.substring 0 n s.
Definition read_limited (n : Z) (r : Response) : option string :=
  if n <=? len (rs_Body r) then Some (str_take (Z.to_nat n) (rs_Body r))
  else if rs_ReadFails r then None else Some (rs_Body r).

(** The error of a context that has ended. *)
Variant CtxError := Canceled | DeadlineExceeded.

(** An HTTP client: it may exchange messages and change the world. *)
Definition Do (W : Type) : Type := Request → W → option Response * W.

(** ** Lemmas *)

Lemma length_str_take n s : (n ≤ String.length s)%nat → String.length (str_take n s) = n.
Proof.
  unfold str_take. revert n. induction s as [|c s IH]; intros [|n] Hn; simpl in *; try lia; [done..|].
  f_equal. apply IH. lia.
Qed.
Lemma str_take_all s : str_take (String.length s) s = s.
Proof. unfold str_take. induction s; simpl; [done|]. by f_equal. Qed.

Lemma decimal_nonneg s acc n : 0 ≤ acc → decimal acc s = Some n → 0 ≤ n.
Proof.
  revert acc. induction s as [|c s IH]; intros acc Ha; simpl; [by intros [= <-]|].
  destruct (is_digit c) eqn:Hd; [|done]. apply IH. unfold is_digit, in_range in Hd.
  apply andb_true_iff in Hd as [Hd _]. apply Z.leb_le in Hd. lia.
Qed.
Lemma parse_int_int64 s z : parse_int s = Some z → is_int64 z.
Proof.
  unfold parse_int. destruct (match s with EmptyString => _ | String _ _ => _ end) as [neg digits].
  intros (n & _ & Hz)%bind_Some. destruct (_ && _) eqn:Hb; [|done]. injection Hz as <-.
  apply andb_true_iff in Hb as [?%Z.leb_le ?%Z.leb_le]. by split.
Qed.

(** A bounded read returns at most one byte more than the bound, and the whole
    body if it is within the bound. *)
Lemma read_limited_spec n r s :
  0 ≤ n → read_limited (n + 1) r = Some s →
  len s ≤ n + 1 ∧ (len s ≤ n → s = rs_Body r ∧ rs_ReadFails r = false) ∧
  (len s ≤ n ↔ len (rs_Body r) ≤ n).
Proof.
  intros Hn. unfold read_limited, len. destruct (Z.leb_spec (n + 1) (Z.of_nat (String.length (rs_Body r)))).
  - intros [= <-]. rewrite length_str_take by lia. rewrite Z2Nat.id by lia. split_and!; lia.
  - destruct (rs_ReadFails r); [done|]. intros [= <-]. split_and!; [lia|done|done].
Qed.

Example hostname_ex :
  hostname {| u_Scheme := "https"; u_HasUser := false; u_Host := "[::1]:8443"; u_RawQuery := ""; u_Fragment := "" |} = "::1" ∧
  hostname {| u_Scheme := "https"; u_HasUser := false; u_Host := "hooks.example:443"; u_RawQuery := ""; u_Fragment := "" |}
    = "hooks.example" ∧
  parse_int "+12" = Some 12 ∧ parse_int "-9223372036854775808" = Some (- 2 ^ 63) ∧
  parse_int "9223372036854775808" = None ∧ parse_int "" = None ∧ parse_int "1_0" = None ∧
  canonical_key true "X-RuleRaven-Event-ID" = "X-Ruleraven-Event-Id".
Proof. vm_compute. auto 10. Qed.

(** Parsers for plain addresses without paths, to run examples with. *)
Module NetExample.
#[export] Instance plain_parsers : NetParsers := {
  url_parse s := if has_prefix s "https://"
                 then Some {| u_Scheme := "https"; u_HasUser := false; u_Host := str_drop 8 s; u_RawQuery := ""; u_Fragment := "" |}
                 else None;
  url_string u := u_Scheme u +:+ "://" +:+ u_Host u;
  parse_http_time _ := None
}.
End NetExample.
