(* ===== verification/JsonParse.v ===== *)
(** * [encoding/json]: reading one JSON value

    [parse_value] reads a value from the front of a text as the decoder of
    [encoding/json] does: strings are unquoted with invalid UTF-8 and unpaired
    surrogates replaced by U+FFFD, numbers are kept as their literals, and at
    most [max_nesting] brackets may be open.  What [json_print] prints is read
    back, and everything the parser reads the scanner of [json.Valid]
    accepts. *)
From stdpp Require Import pretty.
From S2P Require Import Prelude GoBase Sha256 Json GoNet.
#[local] Open Scope Z_scope.

(** ** Strings *)

Definition ufffd : string := bytes [0xEF; 0xBF; 0xBD]%N.

Definition utf8_encode (r : Z) : string :=
  let byte n := String (char_of n) "" in
  let tail n := byte (0x80 + n `mod` 64) in
  if r <? 0x80 then byte r
  else if r <? 0x800 then byte (0xC0 + r / 64) +:+ tail r
  else if r <? 0x10000 then byte (0xE0 + r / 4096) +:+ tail (r / 64) +:+ tail r
  else byte (0xF0 + r / 262144) +:+ tail (r / 4096) +:+ tail (r / 64) +:+ tail r.

Definition hex4 (a b c d : ascii) : option Z :=
  a ← hex_value a; b ← hex_value b; c ← hex_value c; d ← hex_value d;
  Some (4096 * a + 256 * b + 16 * c + d).

Definition surrogate (u : Z) : bool := (0xD800 <=? u) && (u <? 0xE000).
(** [utf16.DecodeRune]. *)
Definition decode_pair (hi lo : Z) : option Z :=
  if (0xD800 <=? hi) && (hi <? 0xDC00) && (0xDC00 <=? lo) && (lo <? 0xE000)
  then Some ((hi - 0xD800) * 1024 + (lo - 0xDC00) + 0x10000) else None.

Definition simple_escape (e : ascii) : option ascii :=
  let n := code e in
  if (n =? 34) || (n =? 92) || (n =? 47) then Some e
  else if n =? 98 then Some (char_of 8)
  else if n =? 102 then Some (char_of 12)
  else if n =? 110 then Some (char_of 10)
  else if n =? 114 then Some (char_of 13)
  else if n =? 116 then Some (char_of 9)
  else None.

Definition prepend (p : string) (o : option (string * string)) : option (string * string) :=
  '(s, r) ← o; Some (p +:+ s, r).

(** The text after an opening quote: the string and what follows it. *)
Fixpoint unquote (s : string) : option (string * string) :=
  match s with
  | EmptyString => None
  | String a r =>
      if code a =? 34 then Some ("", r)
      else if code a <? 32 then None
      else if code a =? 92 then
        match r with
        | EmptyString => None
        | String e r1 =>
            match simple_escape e with
            | Some c => prepend (String c "") (unquote r1)
            | None =>
                if code e =? 117 then
                  match r1 with
                  | String h1 (String h2 (String h3 (String h4 r2))) =>
                      match hex4 h1 h2 h3 h4 with
                      | None => None
                      | Some u =>
                          if surrogate u then
                            match r2 with
                            | String b (String v (String l1 (String l2 (String l3 (String l4 r3))))) =>
                                match (if (code b =? 92) && (code v =? 117)
                                       then hex4 l1 l2 l3 l4 ≫= decode_pair u else None) with
                                | Some rune => prepend (utf8_encode rune) (unquote r3)
                                | None => prepend ufffd (unquote r2)
                                end
                            | _ => prepend ufffd (unquote r2)
                            end
                          else prepend (utf8_encode u) (unquote r2)
                      end
                  | _ => None
                  end
                else None
            end
        end
      else if code a <? 0x80 then prepend (String a "") (unquote r)
      else match r with
           | String b r2 =>
               if utf8_2 a b then prepend (String a (String b "")) (unquote r2)
               else match r2 with
                    | String c r3 =>
                        if utf8_3 a b c then prepend (String a (String b (String c ""))) (unquote r3)
                        else match r3 with
                             | String d r4 =>
                                 if utf8_4 a b c d
                                 then prepend (String a (String b (String c (String d "")))) (unquote r4)
                                 else prepend ufffd (unquote r)
                             | EmptyString => prepend ufffd (unquote r)
                             end
                    | EmptyString => prepend ufffd (unquote r)
                    end
           | EmptyString => prepend ufffd (unquote r)
           end
  end.

(** [strings.ToValidUTF8] with U+FFFD for every invalid byte: what survives a
    round trip through JSON. *)
Fixpoint to_valid (s : string) : string :=
  match s with
  | EmptyString => ""
  | String a r =>
      if code a <? 0x80 then String a (to_valid r)
      else match r with
           | String b r2 =>
               if utf8_2 a b then String a (String b (to_valid r2))
               else match r2 with
                    | String c r3 =>
                        if utf8_3 a b c then String a (String b (String c (to_valid r3)))
                        else match r3 with
                             | String d r4 =>
                                 if utf8_4 a b c d
                                 then String a (String b (String c (String d (to_valid r4))))
                                 else ufffd +:+ to_valid r
                             | EmptyString => ufffd +:+ to_valid r
                             end
                    | EmptyString => ufffd +:+ to_valid r
                    end
           | EmptyString => ufffd +:+ to_valid r
           end
  end.

(** ** Values *)

(** The part of [s] before its suffix [r]. *)
Definition before_rest (s r : string) : string :=
  String.substring 0 (String.length s - String.length r) s.

Fixpoint parse_value (fuel : nat) (depth : Z) (s : string) : option (json * string) :=
  match fuel with
  | O => None
  | S fuel =>
      match skip_ws s with
      | EmptyString => None
      | String c r =>
          if code c =? 123 then
            if max_nesting <=? depth then None else
            match after_prefix "}" (skip_ws r) with
            | Some r' => Some (JObject [], r')
            | None => '(fields, r') ← parse_fields fuel (depth + 1) r; Some (JObject fields, r')
            end
          else if code c =? 91 then
            if max_nesting <=? depth then None else
            match after_prefix "]" (skip_ws r) with
            | Some r' => Some (JArray [], r')
            | None => '(l, r') ← parse_elements fuel (depth + 1) r; Some (JArray l, r')
            end
          else if code c =? 34 then '(t, r') ← unquote r; Some (JString t, r')
          else if code c =? 116 then r' ← after_prefix "rue" r; Some (JBool true, r')
          else if code c =? 102 then r' ← after_prefix "alse" r; Some (JBool false, r')
          else if code c =? 110 then r' ← after_prefix "ull" r; Some (JNull, r')
          else r' ← number_rest (String c r); Some (JNumber (before_rest (String c r) r'), r')
      end
  end
with parse_elements (fuel : nat) (depth : Z) (s : string) : option (list json * string) :=
  match fuel with
  | O => None
  | S fuel =>
      '(v, r) ← parse_value fuel depth s;
      match skip_ws r with
      | EmptyString => None
      | String c r' =>
          if code c =? 44 then '(l, r'') ← parse_elements fuel depth r'; Some (v :: l, r'')
          else if code c =? 93 then Some ([v], r') else None
      end
  end
with parse_fields (fuel : nat) (depth : Z) (s : string) : option (list (string * json) * string) :=
  match fuel with
  | O => None
  | S fuel =>
      match skip_ws s with
      | EmptyString => None
      | String q r =>
          if code q =? 34 then
            '(k, r) ← unquote r;
            r ← after_prefix ":" (skip_ws r);
            '(v, r) ← parse_value fuel depth r;
            match skip_ws r with
            | EmptyString => None
            | String c r' =>
                if code c =? 44 then '(l, r'') ← parse_fields fuel depth r'; Some ((k, v) :: l, r'')
                else if code c =? 125 then Some ([(k, v)], r') else None
            end
          else None
      end
  end.

(** Every value consumes a byte, so twice the length of the text is enough
    fuel. *)
Definition parse_fuel (s : string) : nat := (2 * String.length s + 2)%nat.

(** The one value of a text, with nothing but white space after it. *)
Definition parse_one (s : string) : option json :=
  '(v, r) ← parse_value (parse_fuel s) 0 s;
  if skip_ws r =s? "" then Some v else None.

Example parse_ex :
  parse_one " {}" = Some (JObject []) ∧
  parse_one "[1, -2.5e+3 ,true,null,[]]"
    = Some (JArray [JNumber "1"; JNumber "-2.5e+3"; JBool true; JNull; JArray []]) ∧
  parse_one (json_print (JString "<é>")) = Some (JString "<é>") ∧
  parse_one (quote +:+ backslash +:+ "ud83d" +:+ backslash +:+ "ude00" +:+ quote)
    = Some (JString (bytes [0xF0; 0x9F; 0x98; 0x80]%N)) ∧
  parse_one "[1,]" = None ∧ parse_one "1 2" = None ∧ parse_one "" = None.
Proof. vm_compute. auto 10. Qed.

(** ** Round trip of strings *)

Lemma prepend_some p s r : prepend p (Some (s, r)) = Some (p +:+ s, r).
Proof. done. Qed.

Lemma unquote_ascii c r : code c <? 0x80 = true →
  unquote (escape_ascii c +:+ r) = prepend (String c "") (unquote r).
Proof. by destruct c as [[] [] [] [] [] [] [] []]; intros Hc; try discriminate Hc. Qed.
Lemma unquote_replacement r : unquote (replacement +:+ r) = prepend ufffd (unquote r).
Proof. done. Qed.

(** A byte outside ASCII is none of the bytes with a meaning. *)
Lemma high_byte a : code a <? 0x80 = false →
  (code a =? 34) = false ∧ (code a <? 32) = false ∧ (code a =? 92) = false.
Proof. intros Ha. bool_to_prop. lia. Qed.
Ltac high_byte Ha := destruct (high_byte _ Ha) as (-> & -> & ->); rewrite Ha.

Lemma unquote_2 a b r : code a <? 0x80 = false → utf8_2 a b = true →
  unquote (String a (String b r)) = prepend (String a (String b "")) (unquote r).
Proof. intros Ha Hu. cbn -[utf8_2 prepend]. high_byte Ha. by rewrite Hu. Qed.
Lemma utf8_3_not_2 a b c : utf8_3 a b c = true → utf8_2 a b = false.
Proof. unfold utf8_3, utf8_2, in_range, cont, in_range. bool_to_prop. lia. Qed.
Lemma utf8_4_not_2 a b c d : utf8_4 a b c d = true → utf8_2 a b = false ∧ utf8_3 a b c = false.
Proof. unfold utf8_4, utf8_3, utf8_2, in_range, cont, in_range. bool_to_prop. lia. Qed.
Lemma unquote_3 a b c r : code a <? 0x80 = false → utf8_3 a b c = true →
  unquote (String a (String b (String c r))) = prepend (String a (String b (String c ""))) (unquote r).
Proof.
  intros Ha Hu. cbn -[utf8_2 utf8_3 prepend]. high_byte Ha.
  by rewrite (utf8_3_not_2 a b c Hu), Hu.
Qed.
Lemma unquote_4 a b c d r : code a <? 0x80 = false → utf8_4 a b c d = true →
  unquote (String a (String b (String c (String d r))))
  = prepend (String a (String b (String c (String d "")))) (unquote r).
Proof.
  intros Ha Hu. cbn -[utf8_2 utf8_3 utf8_4 prepend]. high_byte Ha.
  destruct (utf8_4_not_2 a b c d Hu) as [-> ->]. by rewrite Hu.
Qed.
Lemma unquote_separator c r : code c = 0xA8 ∨ code c = 0xA9 →
  unquote (backslash +:+ (if code c =? 0xA8 then "u2028" else "u2029") +:+ r)
  = prepend (bytes [0xE2; 0x80]%N +:+ String c "") (unquote r).
Proof. by intros [Hc|Hc]; destruct c as [[] [] [] [] [] [] [] []]; try discriminate Hc. Qed.
Lemma line_separator_bytes a b c : line_separator a b c = true →
  (code c = 0xA8 ∨ code c = 0xA9) ∧ String a (String b "") = bytes [0xE2; 0x80]%N.
Proof.
  unfold line_separator, in_range. rewrite !andb_true_iff, !Z.leb_le. intros [[Ha Hb] Hc].
  split; [lia|]. assert (a = char_of 0xE2) as -> by
    (rewrite <- (ascii_N_embedding a); unfold char_of, code in *; f_equal; lia).
  assert (b = char_of 0x80) as -> by
    (rewrite <- (ascii_N_embedding b); unfold char_of, code in *; f_equal; lia).
  done.
Qed.

Lemma unquote_escape s rest : unquote (json_escape s +:+ quote +:+ rest) = Some (to_valid s, rest).
Proof.
  remember (String.length s) as n eqn:Hn. revert s Hn. induction (lt_wf n) as [n _ IH].
  intros [|a r] ->; [done|].
  assert (Hsub : ∀ r', (String.length r' < String.length (String a r))%nat →
    unquote (json_escape r' +:+ quote +:+ rest) = Some (to_valid r', rest)) by (intros; by eapply IH).
  clear IH. cbn [json_escape to_valid]. destruct (code a <? 0x80) eqn:Ha.
  { rewrite str_app_assoc, unquote_ascii, Hsub by (simpl; done || lia). done. }
  assert (Hbad : unquote ((replacement +:+ json_escape r) +:+ quote +:+ rest)
                 = Some (ufffd +:+ to_valid r, rest)).
  { rewrite str_app_assoc, unquote_replacement, Hsub by (simpl; lia). done. }
  destruct r as [|b r2]; [done|]. destruct (utf8_2 a b) eqn:H2.
  { change (unquote (String a (String b (json_escape r2 +:+ quote +:+ rest))) =
            Some (String a (String b (to_valid r2)), rest)).
    rewrite unquote_2, Hsub by (simpl; done || lia). done. }
  destruct r2 as [|c r3]; [done|]. destruct (utf8_3 a b c) eqn:H3.
  { rewrite str_app_assoc. destruct (line_separator a b c) eqn:Hl.
    - apply line_separator_bytes in Hl as [Hc Hab].
      rewrite str_app_assoc, unquote_separator, Hsub by (simpl; done || lia). rewrite prepend_some.
      rewrite <- Hab. done.
    - change (String a (String b (String c "")) +:+ ?x) with (String a (String b (String c x))).
      rewrite (unquote_3 a b c), Hsub by (simpl; done || lia). done. }
  destruct r3 as [|d r4]; [done|]. destruct (utf8_4 a b c d) eqn:H4; [|done].
  change (unquote (String a (String b (String c (String d (json_escape r4 +:+ quote +:+ rest))))) =
          Some (String a (String b (String c (String d (to_valid r4)))), rest)).
  rewrite unquote_4, Hsub by (simpl; done || lia). done.
Qed.

(** ** Round trip of values *)

Section JsonInd.
Context (P : json → Prop) (Hnull : P JNull) (Hbool : ∀ b, P (JBool b)) (Hnum : ∀ n, P (JNumber n))
  (Hstr : ∀ s, P (JString s)) (Harr : ∀ l, Forall P l → P (JArray l))
  (Hobj : ∀ l, Forall (λ kv, P kv.2) l → P (JObject l)).
(** Induction with hypotheses for the parts of arrays and objects. *)
Fixpoint json_induction (j : json) : P j :=
  match j with
  | JNull => Hnull
  | JBool b => Hbool b
  | JNumber n => Hnum n
  | JString s => Hstr s
  | JArray l => Harr l ((fix go l : Forall P l :=
      match l with [] => Forall_nil_2 P | x :: l => Forall_cons_2 P _ _ (json_induction x) (go l) end) l)
  | JObject l => Hobj l ((fix go l : Forall (λ kv, P kv.2) l :=
      match l with
      | [] => Forall_nil_2 _
      | kv :: l => Forall_cons_2 (λ kv, P kv.2) _ _ (json_induction kv.2) (go l)
      end) l)
  end.
End JsonInd.

(** The value that comes back: strings are made valid UTF-8. *)
Fixpoint sanitize (j : json) : json :=
  match j with
  | JString s => JString (to_valid s)
  | JArray l => JArray (map sanitize l)
  | JObject l => JObject (map (λ kv, (to_valid kv.1, sanitize kv.2)) l)
  | _ => j
  end.

(** A number literal is read to its end. *)
Definition number_ok (literal : string) : bool :=
  match number_rest literal with Some r => r =s? "" | None => false end.
Fixpoint json_wf (j : json) : bool :=
  match j with
  | JNumber literal => number_ok literal
  | JArray l => forallb json_wf l
  | JObject l => forallb (λ kv, json_wf kv.2) l
  | _ => true
  end.

(** The brackets open at the same time, and the fuel that reading needs. *)
Fixpoint nesting (j : json) : nat :=
  match j with
  | JArray l => S (max_list (map nesting l))
  | JObject l => S (max_list (map (λ kv, nesting kv.2) l))
  | _ => 0%nat
  end.
Fixpoint weight (j : json) : nat :=
  match j with
  | JArray l => S (sum_list (map (λ x, S (weight x)) l))
  | JObject l => S (sum_list (map (λ kv, S (weight kv.2)) l))
  | _ => 1%nat
  end.

(** *** Numbers *)

(** A number cannot be continued by what follows it. *)
Definition stops (rest : string) : bool :=
  match rest with
  | EmptyString => true
  | String c _ => negb (is_digit c || (code c =? 46) || (code c =? 101) || (code c =? 69))
  end.

Lemma code_inj c p : code c = code p → c = p.
Proof.
  unfold code. intros Heq. rewrite <- (ascii_N_embedding c), <- (ascii_N_embedding p). f_equal. lia.
Qed.
Lemma after_char p s :
  after_prefix (String p "") s
  = match s with String c r => if code c =? code p then Some r else None | EmptyString => None end.
Proof.
  unfold after_prefix, has_prefix. destruct s as [|c r]; [done|]. cbn -[code].
  destruct (ascii_dec p c) as [->|Hn]; [by destruct r; rewrite Z.eqb_refl|].
  destruct (Z.eqb_spec (code c) (code p)) as [He|]; [|done]. by apply code_inj in He.
Qed.

Lemma skip_digits_app s rest : stops rest = true → skip_digits (s +:+ rest) = skip_digits s +:+ rest.
Proof.
  intros Hr. induction s as [|c s IH].
  - change ("" +:+ rest) with rest. cbn. destruct rest as [|c r]; [done|].
    cbn in *. by destruct (is_digit c).
  - change (String c s +:+ rest) with (String c (s +:+ rest)). cbn. by destruct (is_digit c).
Qed.
Lemma digits1_app s rest t : stops rest = true → digits1 s = Some t →
  digits1 (s +:+ rest) = Some (t +:+ rest).
Proof.
  intros Hr. destruct s as [|c s]; [done|]. change (String c s +:+ rest) with (String c (s +:+ rest)).
  cbn. destruct (is_digit c); [|done]. intros [= <-]. by rewrite skip_digits_app.
Qed.

Lemma number_rest_app s t rest : stops rest = true → number_rest s = Some t →
  number_rest (s +:+ rest) = Some (t +:+ rest).
Proof.
  intros Hr. unfold number_rest.
  assert (Hminus : ∀ s, s ≠ "" →
    match after_prefix "-" (s +:+ rest) with Some r => r | None => s +:+ rest end
    = match after_prefix "-" s with Some r => r | None => s end +:+ rest).
  { intros [|c s'] Hs; [done|]. change (String c s' +:+ rest) with (String c (s' +:+ rest)).
    rewrite !after_char. by destruct (_ =? _). }
  destruct (decide (s = "")) as [->|Hs]; [done|]. rewrite Hminus by done. clear Hminus.
  generalize (match after_prefix "-" s with Some r => r | None => s end). clear s Hs. intros s.
  intros (s1 & H1 & Hn)%bind_Some. apply bind_Some in Hn as (s2 & H2 & H3).
  apply bind_Some. exists (s1 +:+ rest). split.
  { destruct s as [|c s]; [done|]. change (String c s +:+ rest) with (String c (s +:+ rest)).
    cbn in H1 |- *. destruct (code c =? 48); [by injection H1 as ->|].
    by apply (digits1_app (String c s)). }
  apply bind_Some. exists (s2 +:+ rest). split.
  { revert H2. rewrite !after_char. destruct s1 as [|c s1].
    - intros [= <-]. change ("" +:+ rest) with rest. destruct rest as [|c r]; [done|].
      cbn in Hr. change (code ".") with 46.
      rewrite negb_true_iff, !orb_false_iff in Hr. by destruct Hr as [[[_ ->] _] _].
    - change (String c s1 +:+ rest) with (String c (s1 +:+ rest)).
      cbn -[code digits1 String.append]. destruct (code c =? code "."); [by apply digits1_app|by intros [= <-]]. }
  destruct s2 as [|c s2].
  - injection H3 as <-. change ("" +:+ rest) with rest. destruct rest as [|c r]; [done|].
    cbn in Hr. rewrite negb_true_iff, !orb_false_iff in Hr. by destruct Hr as [[_ ->] ->].
  - change (String c s2 +:+ rest) with (String c (s2 +:+ rest)). cbn -[code digits1 String.append].
    destruct ((code c =? 101) || (code c =? 69)); [|by injection H3 as <-].
    destruct s2 as [|d s2]; [done|]. change (String d s2 +:+ rest) with (String d (s2 +:+ rest)).
    cbn -[code digits1 String.append]. destruct ((code d =? 43) || (code d =? 45)); [by apply digits1_app|].
    by apply (digits1_app (String d s2)).
Qed.

Lemma before_rest_app s rest : before_rest (s +:+ rest) rest = s.
Proof.
  unfold before_rest. rewrite str_length_app.
  replace (String.length s + String.length rest - String.length rest)%nat with (String.length s) by lia.
  induction s as [|c s IH]; [by destruct rest|].
  change (String c (String.substring 0 (String.length s) (s +:+ rest)) = String c s). by rewrite IH.
Qed.

(** The first byte of a printed value. *)
Lemma number_first s : number_ok s = true → ∃ c r, s = String c r ∧ (code c = 45 ∨ 48 ≤ code c ≤ 57).
Proof.
  unfold number_ok, number_rest. destruct s as [|c r]; [done|]. intros H. exists c, r. split; [done|].
  rewrite after_char in H. change (code "-") with 45 in H.
  destruct (Z.eqb_spec (code c) 45); [by left|]. right. cbn -[code digits1] in H.
  destruct (Z.eqb_spec (code c) 48); [lia|]. unfold digits1, is_digit, in_range in H.
  destruct (_ && _) eqn:Hd; [|done]. bool_to_prop. lia.
Qed.

(** *** Values *)

(** A printed value starts with a byte that is neither white space nor a
    closing bracket. *)
Definition opens (s : string) : Prop :=
  ∃ c r, s = String c r ∧ is_ws c = false ∧ code c ≠ 93 ∧ code c ≠ 125.

Lemma print_opens j : json_wf j = true → opens (json_print j).
Proof.
  destruct j as [|[]|n|s|l|l]; cbn [json_wf json_print]; intros Hw;
    try (by eexists _, _; split_and!; [done|done|vm_compute; discriminate..]).
  destruct (number_first n Hw) as (c & r & -> & Hc). exists c, r. split; [done|].
  unfold is_ws. rewrite !orb_false_iff, !Z.eqb_neq. lia.
Qed.
Lemma opens_app s t : opens s → opens (s +:+ t).
Proof. intros (c & r & -> & H). by exists c, (r +:+ t). Qed.
Lemma skip_opens s : opens s → skip_ws s = s.
Proof. intros (c & r & -> & Hw & _). cbn. by rewrite Hw. Qed.
Lemma not_closed s : opens s → after_prefix "]" (skip_ws s) = None ∧ after_prefix "}" (skip_ws s) = None.
Proof.
  intros Hs. rewrite (skip_opens s Hs), !after_char. destruct Hs as (c & r & -> & _ & H1 & H2).
  change (code "]") with 93. change (code "}") with 125.
  by rewrite (proj2 (Z.eqb_neq _ _) H1), (proj2 (Z.eqb_neq _ _) H2).
Qed.

(** Decides the tests on a known byte. *)
Ltac known_byte :=
  repeat match goal with
  | |- context [is_ws ?c] =>
      let b := eval vm_compute in (is_ws c) in
      lazymatch b with true => change (is_ws c) with true | false => change (is_ws c) with false end
  | |- context [code ?c =? ?n] =>
      let b := eval vm_compute in (code c =? n) in
      lazymatch b with true => change (code c =? n) with true | false => change (code c =? n) with false end
  end; cbn [mbind option_bind].

(** *** White space *)

Fixpoint all_ws (s : string) : bool :=
  match s with EmptyString => true | String c r => is_ws c && all_ws r end.

Lemma skip_ws_app sp s : all_ws sp = true → skip_ws (sp +:+ s) = skip_ws s.
Proof.
  induction sp as [|c sp IH]; [done|]. change (String c sp +:+ s) with (String c (sp +:+ s)).
  cbn. destruct (is_ws c); [|done]. apply IH.
Qed.
Lemma parse_value_ws fuel depth sp s : all_ws sp = true →
  parse_value fuel depth (sp +:+ s) = parse_value fuel depth s.
Proof. intros Hw. destruct fuel; cbn [parse_value]; [done|]. by rewrite skip_ws_app. Qed.
Lemma parse_elements_ws fuel depth sp s : all_ws sp = true →
  parse_elements fuel depth (sp +:+ s) = parse_elements fuel depth s.
Proof. intros Hw. destruct fuel; cbn [parse_elements]; [done|]. by rewrite parse_value_ws. Qed.
Lemma parse_fields_ws fuel depth sp s : all_ws sp = true →
  parse_fields fuel depth (sp +:+ s) = parse_fields fuel depth s.
Proof. intros Hw. destruct fuel; cbn [parse_fields]; [done|]. by rewrite skip_ws_app. Qed.
Lemma stops_ws sp c r : all_ws sp = true → stops (String c r) = true → stops (sp +:+ String c r) = true.
Proof.
  destruct sp as [|d sp]; [done|]. change (String d sp +:+ ?t) with (String d (sp +:+ t)). cbn.
  intros [Hd _]%andb_true_iff _. unfold is_ws in Hd. unfold is_digit, in_range. bool_to_prop. lia.
Qed.

(** *** Arrays and objects *)

(** [p] prints the value so that it is read back. *)
Definition reads (p : json → string) (j : json) : Prop := ∀ fuel depth rest,
  json_wf j = true → stops rest = true → (weight j ≤ fuel)%nat →
  depth + Z.of_nat (nesting j) ≤ max_nesting →
  parse_value fuel depth (p j +:+ rest) = Some (sanitize j, rest).

(** A printer of the parts of an array or an object, with white space after a
    comma, before the closing bracket and after a colon. *)
Section Parts.
Context (p : json → string) (sp tail gap : string)
  (Hsp : all_ws sp = true) (Htail : all_ws tail = true) (Hgap : all_ws gap = true).

Lemma read_elements x l fuel depth rest :
  Forall (reads p) (x :: l) → forallb json_wf (x :: l) = true →
  (sum_list (map (λ x, S (weight x)) (x :: l)) ≤ fuel)%nat →
  depth + Z.of_nat (max_list (map nesting (x :: l))) ≤ max_nesting →
  parse_elements fuel depth (join ("," +:+ sp) (map p (x :: l)) +:+ tail +:+ "]" +:+ rest)
  = Some (map sanitize (x :: l), rest).
Proof.
  revert x fuel. induction l as [|y l IH]; intros x fuel [Hx Hl]%Forall_cons [Wx Wl]%andb_true_iff Hf Hd;
    (destruct fuel as [|fuel]; [simpl in Hf; lia|]); cbn [parse_elements].
  - cbn in Hf, Hd. cbn [map join]. rewrite Hx by (done || lia || by apply stops_ws). cbn [mbind option_bind].
    by rewrite skip_ws_app.
  - change (join ("," +:+ sp) (map p (x :: y :: l)))
      with (p x +:+ String ","%char (sp +:+ join ("," +:+ sp) (map p (y :: l)))).
    rewrite str_app_assoc. cbn [map sum_list_with max_list_with id] in Hf, Hd.
    rewrite Hx by (done || lia). change (String ?c ?t +:+ ?u) with (String c (t +:+ u)).
    cbn -[parse_elements map join String.append code]. known_byte.
    rewrite str_app_assoc, parse_elements_ws by done. rewrite IH; [done|done|done|..].
    + cbn. cbn in Hf. lia.
    + cbn. cbn in Hd. lia.
Qed.

Definition print_field (kv : string * json) : string := json_string kv.1 +:+ ":" +:+ gap +:+ p kv.2.

Lemma read_field k v r fuel depth :
  reads p v → json_wf v = true → stops r = true → (weight v ≤ fuel)%nat →
  depth + Z.of_nat (nesting v) ≤ max_nesting →
  ∃ t, print_field (k, v) +:+ r = String (char_of 34) t ∧
    unquote t = Some (to_valid k, String ":"%char (gap +:+ p v +:+ r)) ∧
    parse_value fuel depth (gap +:+ p v +:+ r) = Some (sanitize v, r).
Proof.
  intros Hv Hw Hr Hf Hd. exists (json_escape k +:+ quote +:+ ":" +:+ gap +:+ p v +:+ r). split_and!.
  - unfold print_field, json_string. cbn [fst snd]. by rewrite !str_app_assoc.
  - apply unquote_escape.
  - rewrite parse_value_ws by done. by apply Hv.
Qed.

Lemma read_fields kv l fuel depth rest :
  Forall (λ kv, reads p kv.2) (kv :: l) → forallb (λ kv, json_wf kv.2) (kv :: l) = true →
  (sum_list (map (λ kv, S (weight kv.2)) (kv :: l)) ≤ fuel)%nat →
  depth + Z.of_nat (max_list (map (λ kv, nesting kv.2) (kv :: l))) ≤ max_nesting →
  parse_fields fuel depth (join ("," +:+ sp) (map print_field (kv :: l)) +:+ tail +:+ "}" +:+ rest)
  = Some (map (λ kv, (to_valid kv.1, sanitize kv.2)) (kv :: l), rest).
Proof.
  revert kv fuel. induction l as [|kv' l IH];
    intros [k v] fuel [Hv Hl]%Forall_cons [Wv Wl]%andb_true_iff Hf Hd;
    (destruct fuel as [|fuel]; [simpl in Hf; lia|]); cbn [parse_fields].
  - cbn in Hf, Hd, Hv, Wv. cbn [map join].
    destruct (read_field k v (tail +:+ "}" +:+ rest) fuel depth) as (t & -> & Hk & Hp);
      [done|done|by apply stops_ws|lia|lia|].
    cbn -[parse_value unquote String.append code]. known_byte. rewrite Hk.
    cbn -[parse_value String.append after_prefix code]. known_byte. rewrite after_char.
    cbn -[parse_value String.append code]. known_byte. rewrite Hp. cbn [mbind option_bind].
    by rewrite skip_ws_app.
  - change (join ("," +:+ sp) (map print_field ((k, v) :: kv' :: l)))
      with (print_field (k, v) +:+ String ","%char (sp +:+ join ("," +:+ sp) (map print_field (kv' :: l)))).
    rewrite str_app_assoc. cbn [map sum_list_with max_list_with id fst snd] in Hf, Hd, Hv, Wv.
    change (String ?c ?t +:+ ?u) with (String c (t +:+ u)). rewrite str_app_assoc.
    match goal with |- context [print_field (k, v) +:+ ?r] =>
      destruct (read_field k v r fuel depth) as (t & -> & Hk & Hp); [done|done|done|lia|lia|] end.
    cbn -[parse_value parse_fields unquote String.append join map code]. known_byte. rewrite Hk.
    cbn -[parse_value parse_fields String.append join map after_prefix code]. known_byte. rewrite after_char.
    cbn -[parse_value parse_fields String.append join map code]. known_byte. rewrite Hp.
    cbn -[parse_fields String.append join map code]. known_byte.
    rewrite parse_fields_ws by done. rewrite IH; [done|done|done|..].
    + cbn. cbn in Hf. lia.
    + cbn. cbn in Hd. lia.
Qed.

(** A whole array or object with white space [lead] after the bracket. *)
Context (lead : string) (Hlead : all_ws lead = true).

Lemma read_array x l fuel depth rest :
  Forall (reads p) (x :: l) → opens (p x) → json_wf (JArray (x :: l)) = true →
  (weight (JArray (x :: l)) ≤ fuel)%nat →
  depth + Z.of_nat (nesting (JArray (x :: l))) ≤ max_nesting →
  parse_value fuel depth ("[" +:+ lead +:+ join ("," +:+ sp) (map p (x :: l)) +:+ tail +:+ "]" +:+ rest)
  = Some (sanitize (JArray (x :: l)), rest).
Proof.
  intros Hl Hx Hw Hf Hd. destruct fuel as [|fuel]; [simpl in Hf; lia|].
  change ("[" +:+ ?t) with (String "["%char t). cbn [parse_value skip_ws nesting] in *. known_byte.
  rewrite (proj2 (Z.leb_gt max_nesting depth)) by lia.
  assert (Ho : opens (join ("," +:+ sp) (map p (x :: l)) +:+ tail +:+ "]" +:+ rest))
    by (destruct l; cbn [map join]; rewrite ?str_app_assoc; by apply opens_app).
  rewrite skip_ws_app by done. rewrite (proj1 (not_closed _ Ho)). rewrite parse_elements_ws by done.
  cbn [weight] in Hf. by rewrite read_elements by (done || lia).
Qed.

Lemma read_object kv l fuel depth rest :
  Forall (λ kv, reads p kv.2) (kv :: l) → json_wf (JObject (kv :: l)) = true →
  (weight (JObject (kv :: l)) ≤ fuel)%nat →
  depth + Z.of_nat (nesting (JObject (kv :: l))) ≤ max_nesting →
  parse_value fuel depth ("{" +:+ lead +:+ join ("," +:+ sp) (map print_field (kv :: l)) +:+ tail +:+ "}" +:+ rest)
  = Some (sanitize (JObject (kv :: l)), rest).
Proof.
  intros Hl Hw Hf Hd. destruct fuel as [|fuel]; [simpl in Hf; lia|].
  change ("{" +:+ ?t) with (String "{"%char t). cbn [parse_value skip_ws nesting] in *. known_byte.
  rewrite (proj2 (Z.leb_gt max_nesting depth)) by lia.
  assert (Ho : opens (join ("," +:+ sp) (map print_field (kv :: l)) +:+ tail +:+ "}" +:+ rest)).
  { destruct l; cbn [map join]; unfold print_field, json_string; rewrite ?str_app_assoc;
      eexists _, _; (split_and!; [done|done|vm_compute; discriminate..]). }
  rewrite skip_ws_app by done. rewrite (proj2 (not_closed _ Ho)). rewrite parse_fields_ws by done.
  cbn [weight] in Hf. by rewrite read_fields by (done || lia).
Qed.
End Parts.

(** Values without parts. *)
Definition scalar (j : json) : bool :=
  match j with JArray (_ :: _) | JObject (_ :: _) => false | _ => true end.
Lemma scalar_reads j : scalar j = true → reads json_print j.
Proof.
  intros Hj fuel depth rest Hw Hr Hf Hd. destruct fuel as [|fuel]; [destruct j; simpl in Hf; lia|].
  destruct j as [|b|n|s|[]|[]]; try done.
  - by destruct rest.
  - by destruct b, rest.
  - cbn [json_print json_wf] in *. destruct (number_first n Hw) as (c & r & -> & Hc).
    unfold number_ok in Hw. destruct (number_rest (String c r)) as [t|] eqn:Hn; [|done].
    apply String.eqb_eq in Hw as ->. pose proof (number_rest_app _ _ rest Hr Hn) as Ha.
    change (String c r +:+ rest) with (String c (r +:+ rest)) in *. cbn [parse_value skip_ws].
    assert (Hws : is_ws c = false) by (unfold is_ws; rewrite !orb_false_iff, !Z.eqb_neq; lia).
    rewrite Hws. rewrite !(proj2 (Z.eqb_neq (code c) _)) by lia. rewrite Ha. cbn [mbind option_bind].
    change ("" +:+ rest) with rest. cbn [sanitize]. do 3 f_equal.
    apply (before_rest_app (String c r) rest).
  - cbn [json_print]. unfold json_string. rewrite !str_app_assoc.
    change (quote +:+ ?t) with (String (char_of 34) t). cbn [parse_value skip_ws]. known_byte.
    change (String (char_of 34) rest) with (quote +:+ rest). by rewrite unquote_escape.
  - cbn [nesting max_list_with map] in Hd. cbn -[max_nesting code]. known_byte.
    rewrite (proj2 (Z.leb_gt max_nesting depth)) by lia. by destruct rest.
  - cbn [nesting max_list_with map] in Hd. cbn -[max_nesting code]. known_byte.
    rewrite (proj2 (Z.leb_gt max_nesting depth)) by lia. by destruct rest.
Qed.

Lemma json_reads j : reads json_print j.
Proof.
  induction j as [|b|n|s|l IH|l IH] using json_induction; try (by apply scalar_reads).
  - destruct l as [|x l]; [by apply scalar_reads|]. intros fuel depth rest Hw Hr Hf Hd.
    cbn [json_print]. rewrite !str_app_assoc.
    apply (read_array json_print "" "" eq_refl eq_refl "" eq_refl); try done.
    apply andb_true_iff in Hw as [Hx _]. by apply print_opens.
  - destruct l as [|kv l]; [by apply scalar_reads|]. intros fuel depth rest Hw Hr Hf Hd.
    cbn [json_print]. rewrite !str_app_assoc.
    by apply (read_object json_print "" "" "" eq_refl eq_refl eq_refl "" eq_refl).
Qed.

Lemma join_weight {A} (sep : string) (f : A → string) (g : A → nat) l :
  (1 ≤ String.length sep)%nat → Forall (λ x, g x ≤ 2 * String.length (f x))%nat l →
  (sum_list (map (λ x, S (g x)) l) ≤ 2 * String.length (join sep (map f l)) + 1)%nat.
Proof.
  intros Hs Hl. induction Hl as [|x l Hx _ IH]; cbn -[String.append String.length]; [lia|].
  destruct l as [|y l]; cbn -[String.append String.length] in *; [lia|].
  rewrite !str_length_app. lia.
Qed.

Lemma wf_parts l P : forallb json_wf l = true → Forall (λ j, json_wf j = true → P j) l → Forall P l.
Proof.
  intros Hw Hl. rewrite forallb_forall in Hw. rewrite Forall_forall in *. intros x Hx.
  apply Hl; [done|]. apply Hw. by apply list_elem_of_In.
Qed.
Lemma wf_fields (l : list (string * json)) P :
  forallb (λ kv, json_wf kv.2) l = true → Forall (λ kv, json_wf kv.2 = true → P kv) l → Forall P l.
Proof.
  intros Hw Hl. rewrite forallb_forall in Hw. rewrite Forall_forall in *. intros x Hx.
  apply Hl; [done|]. apply Hw. by apply list_elem_of_In.
Qed.

Lemma print_length j : json_wf j = true → (weight j ≤ 2 * String.length (json_print j))%nat.
Proof.
  induction j as [|b|n|s|l IH|l IH] using json_induction; cbn [json_wf weight json_print]; intros Hw.
  - cbn. lia.
  - destruct b; cbn; lia.
  - destruct (number_first n Hw) as (c & r & -> & _). cbn. lia.
  - unfold json_string. rewrite str_length_app. cbn. lia.
  - pose proof (join_weight "," json_print weight l ltac:(done) (wf_parts _ _ Hw IH)) as H1.
    rewrite !str_length_app. cbn [String.length]. lia.
  - rewrite !str_length_app. cbn [String.length].
    set (f := λ kv : string * json, json_string kv.1 +:+ ":" +:+ json_print kv.2).
    pose proof (join_weight "," f (λ kv, weight kv.2) l ltac:(done)) as H1. ospecialize* H1; [|lia].
    apply wf_fields; [done|]. eapply Forall_impl; [exact IH|]. intros kv Hkv Hwk. specialize (Hkv Hwk).
    unfold f. rewrite !str_length_app. cbn in *. lia.
Qed.

Lemma parse_print j :
  json_wf j = true → Z.of_nat (nesting j) ≤ max_nesting → parse_one (json_print j) = Some (sanitize j).
Proof.
  intros Hw Hn. unfold parse_one, parse_fuel. pose proof (print_length j Hw) as Hl.
  rewrite <- (str_app_nil (json_print j)) at 2. by rewrite (json_reads j) by (done || lia).
Qed.

(** ** What is read is valid *)

Lemma string_rest_high a r : code a <? 0x80 = false → string_rest (String a r) = string_rest r.
Proof. intros Ha. cbn -[code]. by destruct (high_byte _ Ha) as (-> & -> & ->). Qed.
Lemma cont_high c : cont c = true → code c <? 0x80 = false.
Proof. unfold cont, in_range. bool_to_prop. lia. Qed.
Lemma utf8_2_high a b : utf8_2 a b = true → code b <? 0x80 = false.
Proof. unfold utf8_2. rewrite andb_true_iff. intros [_ ?]. by apply cont_high. Qed.
Lemma utf8_3_high a b c : utf8_3 a b c = true → code b <? 0x80 = false ∧ code c <? 0x80 = false.
Proof. unfold utf8_3, cont, in_range. bool_to_prop. lia. Qed.
Lemma utf8_4_high a b c d : utf8_4 a b c d = true →
  code b <? 0x80 = false ∧ code c <? 0x80 = false ∧ code d <? 0x80 = false.
Proof. unfold utf8_4, cont, in_range. bool_to_prop. lia. Qed.

Lemma prepend_inv p o t r : prepend p o = Some (t, r) → ∃ t', o = Some (t', r).
Proof. destruct o as [[t' r']|]; [|done]. intros [= _ <-]. by exists t'. Qed.

Lemma hex4_some a b c d u : hex4 a b c d = Some u →
  isSome_hex a && isSome_hex b && isSome_hex c && isSome_hex d = true.
Proof.
  unfold hex4, isSome_hex. destruct (hex_value a), (hex_value b), (hex_value c), (hex_value d); done.
Qed.
Lemma simple_escape_some e c : simple_escape e = Some c →
  bool_decide (code e ∈ [34; 92; 47; 98; 102; 110; 114; 116]) = true.
Proof. by destruct e as [[] [] [] [] [] [] [] []]; intros He; try discriminate He. Qed.
Lemma string_rest_u a e h1 h2 h3 h4 u r : code a = 92 → code e = 117 → hex4 h1 h2 h3 h4 = Some u →
  string_rest (String a (String e (String h1 (String h2 (String h3 (String h4 r)))))) = string_rest r.
Proof.
  intros Ha He Hh. apply hex4_some in Hh. cbn -[isSome_hex code bool_decide]. rewrite Ha, He, Hh. done.
Qed.

Lemma unquote_rest s t r : unquote s = Some (t, r) →
  string_rest s = Some r ∧ (String.length r < String.length s)%nat.
Proof.
  remember (String.length s) as n eqn:Hn. revert s t Hn. induction (lt_wf n) as [n _ IH].
  intros [|a r0] t ->; [done|].
  assert (Hsub : ∀ r' p t, (String.length r' < String.length (String a r0))%nat →
    prepend p (unquote r') = Some (t, r) → string_rest r' = Some r ∧ (String.length r < String.length r')%nat).
  { intros r' p t' Hl (t'' & Hp)%prepend_inv. by eapply IH. }
  clear IH. cbn [unquote].
  destruct (code a =? 34) eqn:H34.
  { intros [= _ <-]. cbn -[code]. rewrite H34. split; [done|lia]. }
  destruct (code a <? 32) eqn:H32; [done|].
  destruct (code a =? 92) eqn:H92.
  { destruct r0 as [|e r1]; [done|]. destruct (simple_escape e) as [c|] eqn:He.
    { intros [Hr Hl]%Hsub; [|simpl; lia]. cbn -[code bool_decide]. rewrite H34, H32, H92.
      rewrite (simple_escape_some e c He). split; [done|lia]. }
    destruct (code e =? 117) eqn:H117; [|done].
    destruct r1 as [|h1 [|h2 [|h3 [|h4 r2]]]]; try done.
    destruct (hex4 h1 h2 h3 h4) as [u|] eqn:Hh; [|done]. apply Z.eqb_eq in H92, H117.
    rewrite (string_rest_u a e h1 h2 h3 h4 u) by done.
    assert (Hone : ∀ p, prepend p (unquote r2) = Some (t, r) → string_rest r2 = Some r ∧
      (String.length r < String.length (String a (String e (String h1 (String h2 (String h3 (String h4 r2)))))))%nat).
    { intros p [Hr Hl]%Hsub; [|simpl; lia]. split; [done|simpl; lia]. }
    destruct (surrogate u); [|by apply Hone].
    destruct r2 as [|b [|v [|l1 [|l2 [|l3 [|l4 r3]]]]]]; try (by apply Hone).
    destruct ((code b =? 92) && (code v =? 117)) eqn:Hbv; [|by apply Hone].
    destruct (hex4 l1 l2 l3 l4) as [lo|] eqn:Hlo; [|by apply Hone]. cbn [mbind option_bind].
    destruct (decode_pair u lo); [|by apply Hone].
    apply andb_true_iff in Hbv as [?%Z.eqb_eq ?%Z.eqb_eq].
    intros [Hr Hl]%Hsub; [|simpl; lia]. rewrite (string_rest_u b v l1 l2 l3 l4 lo) by done.
    split; [done|simpl; lia]. }
  destruct (code a <? 0x80) eqn:Ha.
  { intros [Hr Hl]%Hsub; [|simpl; lia]. cbn -[code]. rewrite H34, H32, H92. split; [done|lia]. }
  rewrite (string_rest_high a) by done.
  assert (Hbad : prepend ufffd (unquote r0) = Some (t, r) →
    string_rest r0 = Some r ∧ (String.length r < String.length (String a r0))%nat).
  { intros [Hr Hl]%Hsub; [|simpl; lia]. split; [done|simpl; lia]. }
  destruct r0 as [|b r2]; [done|]. destruct (utf8_2 a b) eqn:H2.
  { intros [Hr Hl]%Hsub; [|simpl; lia]. rewrite string_rest_high by (by eapply utf8_2_high).
    split; [done|simpl; lia]. }
  destruct r2 as [|c r3]; [done|]. destruct (utf8_3 a b c) eqn:H3.
  { intros [Hr Hl]%Hsub; [|simpl; lia]. destruct (utf8_3_high a b c H3).
    rewrite !string_rest_high by done. split; [done|simpl; lia]. }
  destruct r3 as [|d r4]; [done|]. destruct (utf8_4 a b c d) eqn:H4; [|done].
  intros [Hr Hl]%Hsub; [|simpl; lia]. destruct (utf8_4_high a b c d H4) as (? & ? & ?).
  rewrite !string_rest_high by done. split; [done|simpl; lia].
Qed.

Definition scans_to (stack : list bracket) (e : expecting) (s : string)
    (stack' : list bracket) (e' : expecting) (s' : string) : Prop :=
  ∃ n, (n + String.length s' ≤ String.length s)%nat ∧
       ∀ k, scan (n + k) stack e s = scan k stack' e' s'.

Lemma scans_trans st1 e1 s1 st2 e2 s2 st3 e3 s3 :
  scans_to st1 e1 s1 st2 e2 s2 → scans_to st2 e2 s2 st3 e3 s3 → scans_to st1 e1 s1 st3 e3 s3.
Proof.
  intros (n & Hn & H1) (m & Hm & H2). exists (n + m)%nat. split; [lia|].
  intros k. rewrite <- Nat.add_assoc, H1. apply H2.
Qed.
Lemma scans_step stack e s stack' e' s' :
  scan_step stack e s = inr (stack', e', s') → (String.length s' < String.length s)%nat →
  scans_to stack e s stack' e' s'.
Proof. intros Hs Hl. exists 1%nat. split; [lia|]. intros k. cbn [Nat.add scan]. by rewrite Hs. Qed.

Lemma skip_ws_length s : (String.length (skip_ws s) ≤ String.length s)%nat.
Proof. induction s as [|c s IH]; cbn; [lia|]. destruct (is_ws c); cbn; lia. Qed.
Lemma after_prefix_length p s r : after_prefix p s = Some r → (String.length r ≤ String.length s)%nat.
Proof.
  unfold after_prefix. destruct (has_prefix s p); [|done]. intros [= <-].
  generalize (String.length p). intros n. revert s. induction n as [|n IH]; intros [|c s]; cbn; try lia.
  specialize (IH s). lia.
Qed.
Lemma after_char_length c s r : after_prefix (String c "") s = Some r → (String.length r < String.length s)%nat.
Proof. rewrite after_char. destruct s as [|c' s]; [done|]. destruct (_ =? _); [|done]. intros [= <-]. simpl. lia. Qed.
Lemma skip_digits_length s : (String.length (skip_digits s) ≤ String.length s)%nat.
Proof. induction s as [|c s IH]; cbn; [lia|]. destruct (is_digit c); cbn; lia. Qed.
Lemma digits1_length s r : digits1 s = Some r → (String.length r < String.length s)%nat.
Proof.
  destruct s as [|c s]; [done|]. cbn. destruct (is_digit c); [|done]. intros [= <-].
  pose proof (skip_digits_length s). lia.
Qed.
Lemma number_rest_length s r : number_rest s = Some r → (String.length r < String.length s)%nat.
Proof.
  unfold number_rest.
  assert (Hm : (String.length match after_prefix "-" s with Some r => r | None => s end ≤ String.length s)%nat).
  { destruct (after_prefix "-" s) eqn:Hp; [|done]. by apply after_prefix_length in Hp. }
  revert Hm. generalize (match after_prefix "-" s with Some r => r | None => s end). intros s0 Hm.
  intros (s1 & H1 & H)%bind_Some. apply bind_Some in H as (s2 & H2 & H3).
  assert (String.length s1 < String.length s0)%nat.
  { destruct s0 as [|c s0]; [done|]. destruct (code c =? 48); [injection H1 as ->; simpl; lia|].
    by apply digits1_length. }
  assert (String.length s2 ≤ String.length s1)%nat.
  { destruct (after_prefix "." s1) as [t|] eqn:Ht; [|by injection H2 as ->].
    apply after_char_length in Ht. apply digits1_length in H2. lia. }
  destruct s2 as [|c s2]; [injection H3 as <-; simpl; lia|].
  destruct (_ || _); [|injection H3 as <-; simpl in *; lia]. apply digits1_length in H3.
  destruct s2 as [|d s2]; [simpl in *; lia|]. destruct (_ || _); simpl in *; lia.
Qed.

(** What follows an element or a field: a separator, or the closing bracket. *)
Lemma scans_separator b c stack s r next close :
  skip_ws s = String c r →
  (b = InArray ∧ next = Value ∧ close = 93) ∨ (b = InObject ∧ next = Key ∧ close = 125) →
  (code c = 44 → scans_to (b :: stack) AfterValue s (b :: stack) next r) ∧
  (code c = close → scans_to (b :: stack) AfterValue s stack AfterValue r).
Proof.
  intros Hs Hb. pose proof (skip_ws_length s) as Hl. rewrite Hs in Hl. simpl in Hl.
  split; intros Hc; (apply scans_step; [|lia]); cbn [scan_step]; rewrite Hs;
    by destruct Hb as [(-> & -> & ->)|(-> & -> & ->)]; rewrite Hc.
Qed.

Definition value_scans (fuel : nat) : Prop := ∀ depth s v r stack,
  parse_value fuel depth s = Some (v, r) → Z.of_nat (length stack) = depth →
  scans_to stack Value s stack AfterValue r.
Definition elements_scan (fuel : nat) : Prop := ∀ depth s l r stack,
  parse_elements fuel depth s = Some (l, r) → Z.of_nat (length stack) + 1 = depth →
  scans_to (InArray :: stack) Value s stack AfterValue r.
Definition fields_scan (fuel : nat) : Prop := ∀ depth s l r stack,
  parse_fields fuel depth s = Some (l, r) → Z.of_nat (length stack) + 1 = depth →
  scans_to (InObject :: stack) Key s stack AfterValue r.

Lemma elements_scan_S fuel : value_scans fuel → elements_scan fuel → elements_scan (S fuel).
Proof.
  intros IHv IHe depth s l r stack. cbn [parse_elements].
  intros ([v r1] & Hv & H)%bind_Some Hd.
  eapply scans_trans; [apply (IHv _ _ _ _ (InArray :: stack) Hv); simpl; lia|].
  destruct (skip_ws r1) as [|c r2] eqn:Hw; [done|].
  destruct (scans_separator InArray c stack r1 r2 Value 93 Hw) as [Hcomma Hclose]; [by left|].
  destruct (Z.eqb_spec (code c) 44).
  - apply bind_Some in H as ([l' r3] & He & [= _ <-]). eapply scans_trans; [by apply Hcomma|].
    by eapply IHe.
  - destruct (Z.eqb_spec (code c) 93); [|done]. injection H as _ <-. by apply Hclose.
Qed.

Lemma fields_scan_S fuel : value_scans fuel → fields_scan fuel → fields_scan (S fuel).
Proof.
  intros IHv IHf depth s l r stack. cbn [parse_fields]. destruct (skip_ws s) as [|q r0] eqn:Hq; [done|].
  destruct (code q =? 34) eqn:H34; [|done].
  intros ([k r1] & Hk & H)%bind_Some Hd. apply bind_Some in H as (r2 & Hcolon & H).
  apply bind_Some in H as ([v r3] & Hv & H). apply unquote_rest in Hk as [Hk Hlk].
  pose proof (skip_ws_length s) as Hls. rewrite Hq in Hls. simpl in Hls.
  pose proof (skip_ws_length r1) as Hl1. pose proof (after_char_length _ _ _ Hcolon) as Hl2.
  eapply scans_trans.
  { apply (scans_step _ _ _ (InObject :: stack) Value r2); [|lia].
    cbn [scan_step]. rewrite Hq, H34, Hk. cbn [mbind option_bind]. by rewrite Hcolon. }
  eapply scans_trans; [apply (IHv _ _ _ _ (InObject :: stack) Hv); simpl; lia|].
  destruct (skip_ws r3) as [|c r4] eqn:Hw; [done|].
  destruct (scans_separator InObject c stack r3 r4 Key 125 Hw) as [Hcomma Hclose]; [by right|].
  destruct (Z.eqb_spec (code c) 44).
  - apply bind_Some in H as ([l' r5] & He & [= _ <-]). eapply scans_trans; [by apply Hcomma|].
    by eapply IHf.
  - destruct (Z.eqb_spec (code c) 125); [|done]. injection H as _ <-. by apply Hclose.
Qed.

(** A token: the scanner takes the same step. *)
Lemma value_scans_S fuel : elements_scan fuel → fields_scan fuel → value_scans (S fuel).
Proof.
  intros IHe IHf depth s v r stack. cbn [parse_value]. destruct (skip_ws s) as [|c r0] eqn:Hs; [done|].
  pose proof (skip_ws_length s) as Hls. rewrite Hs in Hls. simpl in Hls.
  assert (Htoken : ∀ o, scan_step stack Value s = match o with Some r => inr (stack, AfterValue, r)
      | None => inl false end → o = Some r → (String.length r < String.length s)%nat →
      scans_to stack Value s stack AfterValue r).
  { intros o Hstep -> Hl. by apply scans_step. }
  cbn [scan_step] in Htoken. rewrite Hs in Htoken. intros H Hd. revert H.
  pose proof (skip_ws_length r0) as Hl0.
  destruct (code c =? 123) eqn:H123; [|destruct (code c =? 91) eqn:H91;
    [|destruct (code c =? 34); [|destruct (code c =? 116); [|destruct (code c =? 102);
      [|destruct (code c =? 110)]]]]].
  - destruct (Z.leb_spec max_nesting depth) as [|Hm]; [done|].
    assert (Hopen : scan_step stack Value s = match after_prefix "}" (skip_ws r0) with
      | Some r' => inr (stack, AfterValue, r') | None => inr (InObject :: stack, Key, r0) end).
    { cbn [scan_step]. rewrite Hs, H123, Hd, (proj2 (Z.leb_gt _ _)) by done. by destruct (after_prefix _ _). }
    destruct (after_prefix "}" (skip_ws r0)) as [r'|] eqn:Hc.
    + intros [= _ <-]. apply after_char_length in Hc. apply scans_step; [done|lia].
    + intros ([l r'] & Hl & [= _ <-])%bind_Some.
      eapply scans_trans; [apply scans_step; [done|lia]|]. eapply IHf; [done|lia].
  - destruct (Z.leb_spec max_nesting depth) as [|Hm]; [done|].
    assert (Hopen : scan_step stack Value s = match after_prefix "]" (skip_ws r0) with
      | Some r' => inr (stack, AfterValue, r') | None => inr (InArray :: stack, Value, r0) end).
    { cbn [scan_step]. rewrite Hs, H123, H91, Hd, (proj2 (Z.leb_gt _ _)) by done.
      by destruct (after_prefix _ _). }
    destruct (after_prefix "]" (skip_ws r0)) as [r'|] eqn:Hc.
    + intros [= _ <-]. apply after_char_length in Hc. apply scans_step; [done|lia].
    + intros ([l r'] & Hl & [= _ <-])%bind_Some.
      eapply scans_trans; [apply scans_step; [done|lia]|]. eapply IHe; [done|lia].
  - intros ([t r'] & Hu & [= _ <-])%bind_Some. apply unquote_rest in Hu as [Hu Hl].
    eapply Htoken; [done|done|lia].
  - intros (r' & Hp & [= _ <-])%bind_Some. pose proof (after_prefix_length _ _ _ Hp).
    eapply Htoken; [done|done|lia].
  - intros (r' & Hp & [= _ <-])%bind_Some. pose proof (after_prefix_length _ _ _ Hp).
    eapply Htoken; [done|done|lia].
  - intros (r' & Hp & [= _ <-])%bind_Some. pose proof (after_prefix_length _ _ _ Hp).
    eapply Htoken; [done|done|lia].
  - intros (r' & Hp & [= _ <-])%bind_Some. pose proof (number_rest_length _ _ Hp).
    eapply Htoken; [done|done|simpl in *; lia].
Qed.

Lemma parse_scans fuel : value_scans fuel ∧ elements_scan fuel ∧ fields_scan fuel.
Proof.
  induction fuel as [|fuel (IHv & IHe & IHf)]; [done|].
  split_and!; [by apply value_scans_S|by apply elements_scan_S|by apply fields_scan_S].
Qed.

Lemma parse_valid s v : parse_one s = Some v → json_valid s = true.
Proof.
  unfold parse_one. intros ([v' r] & Hv & Hr)%bind_Some. destruct (skip_ws r =s? "") eqn:He; [|done].
  apply String.eqb_eq in He.
  destruct (proj1 (parse_scans _) _ _ _ _ [] Hv eq_refl) as (n & Hn & Hs). unfold json_valid.
  replace (S (String.length s)) with (n + S (String.length s - n))%nat by lia.
  rewrite Hs. cbn [scan scan_step]. by rewrite He.
Qed.

(** ** Integers *)

Lemma pretty_N_go_digits x s : all_digits s = true → (0 < x)%N →
  ∃ c r, pretty_N_go x s = String c r ∧ 49 ≤ code c ≤ 57 ∧ all_digits r = true.
Proof.
  revert s. induction (N.lt_wf_0 x) as [x _ IH]. intros s Hs Hx. rewrite pretty_N_go_step by done.
  assert (Hc : 48 ≤ code (pretty_N_char (x `mod` 10)) ≤ 57 ∧
               ((x < 10)%N → 49 ≤ code (pretty_N_char (x `mod` 10)))).
  { assert (Hm : (x `mod` 10 < 10)%N) by (by apply N.mod_lt).
    assert (Hmod : (x < 10)%N → (x `mod` 10 = x)%N) by (by apply N.mod_small).
    remember (x `mod` 10)%N as m eqn:Em. clear Em IH.
    assert (Hcode : code (pretty_N_char m) = 48 + Z.of_N m).
    { assert (m = 0 ∨ m = 1 ∨ m = 2 ∨ m = 3 ∨ m = 4 ∨ m = 5 ∨ m = 6 ∨ m = 7 ∨ m = 8 ∨ m = 9)%N
        as Hcases by lia.
      by repeat (destruct Hcases as [->|Hcases]; [done|]); subst m. }
    rewrite Hcode. lia. }
  destruct (decide (x < 10)%N) as [Hlt|Hge].
  - rewrite (N.div_small x 10) by done. rewrite pretty_N_go_0. eexists _, _. split; [done|].
    split; [lia|done].
  - apply IH; [apply N.div_lt; lia| |].
    + cbn. rewrite Hs. unfold is_digit, in_range.
      rewrite (proj2 (Z.leb_le _ _)), (proj2 (Z.leb_le _ _)) by lia. done.
    + apply N.div_str_pos. lia.
Qed.

Lemma skip_all_digits s : all_digits s = true → skip_digits s = "".
Proof. induction s as [|c s IH]; [done|]. cbn. destruct (is_digit c); [|done]. apply IH. Qed.

Lemma number_ok_digits c r : 49 ≤ code c ≤ 57 → all_digits r = true →
  number_ok (String c r) = true ∧ number_ok ("-" +:+ String c r) = true.
Proof.
  intros Hc Hr. assert (Hd : is_digit c = true)
    by (unfold is_digit, in_range; rewrite (proj2 (Z.leb_le _ _)), (proj2 (Z.leb_le _ _)) by lia; done).
  unfold number_ok, number_rest. rewrite !after_char. change (code "-") with 45.
  split.
  - rewrite (proj2 (Z.eqb_neq _ _)) by lia. cbn -[code is_digit].
    rewrite (proj2 (Z.eqb_neq _ _)) by lia. cbn -[code is_digit]. rewrite Hd, skip_all_digits by done. done.
  - change ("-" +:+ String c r) with (String "-"%char (String c r)). cbn -[code is_digit]. known_byte.
    rewrite (proj2 (Z.eqb_neq _ _)) by lia. cbn -[code is_digit]. rewrite Hd, skip_all_digits by done. done.
Qed.

(** Integers print as well-formed numbers. *)
Lemma pretty_number_ok (z : Z) : number_ok (pretty z) = true.
Proof.
  assert (Hp : ∀ p : positive, ∃ c r, pretty (N.pos p) = String c r ∧ 49 ≤ code c ≤ 57 ∧ all_digits r = true).
  { intros p. unfold pretty, pretty_N. rewrite decide_False by done. by apply pretty_N_go_digits. }
  destruct z as [|p|p]; [done|..]; destruct (Hp p) as (c & r & Heq & Hc & Hr);
    destruct (number_ok_digits c r Hc Hr) as [H1 H2].
  - change (pretty (Z.pos p)) with (pretty (N.pos p)). by rewrite Heq.
  - change (pretty (Z.neg p)) with ("-" +:+ pretty (N.pos p)). by rewrite Heq.
Qed.

(** What [json.Marshal] writes, the decoder reads back and [json.Valid]
    accepts: every value with well-formed numbers and at most 10000 nested
    brackets comes back as it was, with its strings made valid UTF-8. *)
Theorem print_parse j :
  json_wf j = true → Z.of_nat (nesting j) ≤ max_nesting →
  parse_one (json_print j) = Some (sanitize j) ∧ json_valid (json_print j) = true.
Proof. intros Hw Hn. pose proof (parse_print j Hw Hn) as Hp. split; [done|]. by eapply parse_valid. Qed.

Lemma print_parse_witness :
  let j := JObject [("a", JArray [JInt (-12); JNull; JNumber "1.5e+3"]); ("<", JString (bytes [195; 169; 255]%N))] in
  parse_one (json_print j) = Some (sanitize j) ∧ sanitize j ≠ j.
Proof.
  intros j. split; [|vm_compute; discriminate].
  exact (proj1 (print_parse j ltac:(vm_compute; reflexivity) ltac:(vm_compute; discriminate))).
Defined.
