(* ===== verification/JsonCompact.v ===== *)
(** * [json.Compact] leaves printed values alone

    [json.Marshal] compacts the raw messages it embeds; what the program embeds
    was printed by [json.Marshal] itself, and compacting that changes nothing. *)
From S2P Require Import Prelude GoBase Sha256 Json JsonParse.

(** Characters that are copied outside strings and end nothing. *)
Definition plain_char (c : ascii) : bool :=
  negb (is_ws c) && negb (code c =? 34) && negb (code c =? 0xE2) && negb (bool_decide (code c ∈ [60; 62; 38])).
Fixpoint all_plain (s : string) : bool :=
  match s with EmptyString => true | String c r => plain_char c && all_plain r end.

Lemma not_separator c b d : code c ≠ 0xE2 → line_separator c b d = false.
Proof. unfold line_separator, in_range. intros Hc. bool_to_prop. lia. Qed.
Lemma html_escape_id c : code c ∉ [60; 62; 38] → html_escape c = String c "".
Proof. intros Hc. unfold html_escape. by rewrite bool_decide_eq_false_2. Qed.

(** A byte that is copied: not white space outside a string, not escaped, not
    the start of a line separator. *)
Lemma compact_copies in_string escaped c r :
  negb in_string && is_ws c = false → code c ∉ [60; 62; 38] → code c ≠ 0xE2 →
  json_compact in_string escaped (String c r)
  = String c ((if in_string then
                 if escaped then json_compact true false
                 else if code c =? 92 then json_compact true true
                 else json_compact (negb (code c =? 34)) false
               else json_compact (code c =? 34) false) r).
Proof.
  intros Hw Hh He. cbn [json_compact]. rewrite Hw, html_escape_id by done.
  destruct r as [|b [|d r']]; try done. by rewrite not_separator by done.
Qed.

Lemma compact_plain s rest :
  all_plain s = true → json_compact false false (s +:+ rest) = s +:+ json_compact false false rest.
Proof.
  induction s as [|c s IH]; [done|]. cbn [all_plain]. unfold plain_char.
  rewrite !andb_true_iff, !negb_true_iff, !Z.eqb_neq, bool_decide_eq_false. intros [[[[Hw Hq] He] Hh] Hs].
  change (String c s +:+ rest) with (String c (s +:+ rest)). rewrite compact_copies by done.
  rewrite (proj2 (Z.eqb_neq _ _)) by done. by rewrite IH.
Qed.

(** ** Numbers *)

Definition consumes (s r : string) : Prop := ∃ pre, s = pre +:+ r ∧ all_plain pre = true.
Lemma consumes_refl s : consumes s s.
Proof. by exists "". Qed.
Lemma all_plain_app s t : all_plain (s +:+ t) = all_plain s && all_plain t.
Proof.
  induction s as [|c s IH]; [done|]. change (String c s +:+ t) with (String c (s +:+ t)). cbn [all_plain].
  by rewrite IH, andb_assoc.
Qed.
Lemma consumes_trans s r t : consumes s r → consumes r t → consumes s t.
Proof.
  intros (p & -> & Hp) (q & -> & Hq). exists (p +:+ q). by rewrite str_app_assoc, all_plain_app, Hp, Hq.
Qed.
Lemma consumes_char c r : plain_char c = true → consumes (String c r) r.
Proof. intros Hc. exists (String c ""). cbn. by rewrite Hc. Qed.

Lemma number_char c : (43 ≤ code c ≤ 59 ∨ code c = 101 ∨ code c = 69) → plain_char c = true.
Proof.
  unfold plain_char, is_ws. intros Hc. rewrite !andb_true_iff, !negb_true_iff, bool_decide_eq_false.
  rewrite !elem_of_cons, elem_of_nil. split_and!; [bool_to_prop; lia|bool_to_prop; lia|bool_to_prop; lia|lia].
Qed.
Lemma digit_plain c : is_digit c = true → plain_char c = true.
Proof. unfold is_digit, in_range. rewrite andb_true_iff, !Z.leb_le. intros. apply number_char. lia. Qed.

Lemma skip_digits_consumes s : consumes s (skip_digits s).
Proof.
  induction s as [|c s IH]; cbn; [apply consumes_refl|]. destruct (is_digit c) eqn:Hd; [|apply consumes_refl].
  eapply consumes_trans; [by apply consumes_char, digit_plain|done].
Qed.
Lemma digits1_consumes s r : digits1 s = Some r → consumes s r.
Proof.
  destruct s as [|c s]; [done|]. cbn. destruct (is_digit c) eqn:Hd; [|done]. intros [= <-].
  eapply consumes_trans; [by apply consumes_char, digit_plain|apply skip_digits_consumes].
Qed.
Lemma sign_consumes c p s :
  (43 ≤ code c ≤ 59) → after_prefix (String c "") s = Some p → consumes s p.
Proof.
  unfold after_prefix, has_prefix. intros Hc. destruct (String.prefix _ s) eqn:Hp; [|done]. intros [= <-].
  apply prefix_spec in Hp as [t ->]. cbn. by apply consumes_char, number_char; left.
Qed.

Lemma number_rest_consumes s r : number_rest s = Some r → consumes s r.
Proof.
  unfold number_rest. set (s1 := match after_prefix "-" s with Some r => r | None => s end).
  assert (H1 : consumes s s1).
  { unfold s1. destruct (after_prefix "-" s) eqn:Hp; [eapply sign_consumes; [|done]; by vm_compute|apply consumes_refl]. }
  intros (s2 & Hs2 & (s3 & Hs3 & Hr)%bind_Some)%bind_Some.
  assert (H2 : consumes s1 s2).
  { destruct s1 as [|c s1']; [done|]. destruct (Z.eqb_spec (code c) 48); [|by apply digits1_consumes].
    injection Hs2 as <-. apply consumes_char, number_char. lia. }
  assert (H3 : consumes s2 s3).
  { destruct (after_prefix "." s2) as [t|] eqn:Hp; [|injection Hs3 as <-; apply consumes_refl].
    eapply consumes_trans; [eapply sign_consumes; [|done]; by vm_compute|by apply digits1_consumes]. }
  assert (H4 : consumes s3 r).
  { destruct s3 as [|c s4]; [injection Hr as <-; apply consumes_refl|].
    destruct (_ || _) eqn:He; [|injection Hr as <-; apply consumes_refl].
    rewrite orb_true_iff, !Z.eqb_eq in He.
    eapply consumes_trans; [apply consumes_char, number_char; lia|].
    apply digits1_consumes in Hr. destruct s4 as [|d s5]; [done|].
    destruct (_ || _) eqn:Hd; [|done]. rewrite orb_true_iff, !Z.eqb_eq in Hd.
    eapply consumes_trans; [apply consumes_char, number_char; lia|done]. }
  eauto using consumes_trans.
Qed.
Lemma number_plain s : number_ok s = true → all_plain s = true.
Proof.
  unfold number_ok. destruct (number_rest s) as [r|] eqn:Hr; [|done]. destruct r; [|done]. intros _.
  apply number_rest_consumes in Hr as (p & -> & Hp). by rewrite str_app_nil.
Qed.

(** ** Strings *)

(** The text [e] inside a string is copied and leaves the scanner in the
    returned state: is the next character escaped? *)
Fixpoint copied (escaped : bool) (e : string) : option bool :=
  match e with
  | EmptyString => Some escaped
  | String c e =>
      if bool_decide (code c ∈ [60; 62; 38; 0xE2]) then None
      else if escaped then copied false e
      else if code c =? 92 then copied true e
      else if code c =? 34 then None
      else copied false e
  end.
Lemma copied_spec escaped e escaped' t :
  copied escaped e = Some escaped' →
  json_compact true escaped (e +:+ t) = e +:+ json_compact true escaped' t.
Proof.
  revert escaped. induction e as [|c e IH]; intros escaped; cbn [copied]; [by intros [= ->]|].
  case_bool_decide as Hc; [done|]. rewrite !not_elem_of_cons in Hc. destruct Hc as (H1 & H2 & H3 & H4 & _).
  change (String c e +:+ ?u) with (String c (e +:+ u)).
  rewrite compact_copies; [|done|rewrite !elem_of_cons, elem_of_nil; naive_solver|done].
  destruct escaped; [intros H; by rewrite <- (IH _ H)|].
  destruct (code c =? 92); [intros H; by rewrite <- (IH _ H)|].
  destruct (code c =? 34); [done|]. intros H. by rewrite <- (IH _ H).
Qed.

Lemma copied_ascii c : code c <? 0x80 = true → copied false (escape_ascii c) = Some false.
Proof. destruct c as [[] [] [] [] [] [] [] []]; by vm_compute. Qed.
Lemma copied_high c e : code c <? 0x80 = false → code c ≠ 0xE2 → copied false (String c e) = copied false e.
Proof.
  intros Hc%Z.ltb_ge He. cbn [copied]. rewrite bool_decide_eq_false_2 by (rewrite !elem_of_cons, elem_of_nil; lia).
  by rewrite !(proj2 (Z.eqb_neq _ _)) by lia.
Qed.
Lemma range_spec c lo hi : in_range c lo hi = true → lo ≤ code c ≤ hi.
Proof. unfold in_range. by rewrite andb_true_iff, !Z.leb_le. Qed.

(** A rune of three bytes that is no line separator. *)
Lemma compact_3 a b c t :
  utf8_3 a b c = true → line_separator a b c = false →
  json_compact true false (String a (String b (String c t))) = String a (String b (String c (json_compact true false t))).
Proof.
  intros Hu Hl. assert (Hbc : 0x80 ≤ code b ≤ 0xBF ∧ 0x80 ≤ code c ≤ 0xBF ∧ 0xE0 ≤ code a ≤ 0xEF).
  { unfold utf8_3, cont in Hu. revert Hu. unfold in_range. bool_to_prop. lia. }
  assert (Ha : json_compact true false (String a (String b (String c t)))
    = String a (json_compact true false (String b (String c t)))).
  { cbn [json_compact]. rewrite Hl. rewrite html_escape_id by (rewrite !elem_of_cons, elem_of_nil; lia).
    by rewrite !(proj2 (Z.eqb_neq (code a) _)) by lia. }
  rewrite Ha. f_equal.
  apply (copied_spec false (String b (String c "")) false t).
  rewrite !copied_high; [done|by apply Z.ltb_ge; lia|lia|by apply Z.ltb_ge; lia|lia].
Qed.

Lemma compact_escape s t :
  json_compact true false (json_escape s +:+ t) = json_escape s +:+ json_compact true false t.
Proof.
  remember (String.length s) as n eqn:Hn. revert s Hn. induction (lt_wf n) as [n _ IH]. intros s ->.
  destruct s as [|a r]; [done|]. cbn [json_escape].
  assert (Hr : ∀ s', (String.length s' < String.length (String a r))%nat →
    json_compact true false (json_escape s' +:+ t) = json_escape s' +:+ json_compact true false t)
    by (intros; by eapply IH).
  assert (Hcat : ∀ e s', copied false e = Some false → (String.length s' < String.length (String a r))%nat →
    json_compact true false ((e +:+ json_escape s') +:+ t) = (e +:+ json_escape s') +:+ json_compact true false t).
  { intros e s' He Hs'. rewrite !str_app_assoc, (copied_spec false e false) by done. by rewrite Hr. }
  destruct (code a <? 0x80) eqn:Ha; [apply Hcat; [by apply copied_ascii|cbn; lia]|].
  assert (Hbad : json_compact true false ((replacement +:+ json_escape r) +:+ t)
    = (replacement +:+ json_escape r) +:+ json_compact true false t) by (apply Hcat; [done|cbn; lia]).
  destruct r as [|b r2]; [done|]. destruct (utf8_2 a b) eqn:H2.
  { apply (Hcat (String a (String b "")) r2); [|cbn; lia]. unfold utf8_2, cont in H2.
    apply andb_true_iff in H2 as [?%range_spec ?%range_spec].
    rewrite !copied_high; [done|by apply Z.ltb_ge; lia|lia|done|lia]. }
  destruct r2 as [|c r3]; [done|]. destruct (utf8_3 a b c) eqn:H3.
  { destruct (line_separator a b c) eqn:Hl.
    - apply Hcat; [by destruct (code c =? 0xA8)|cbn; lia].
    - change ((String a (String b (String c "")) +:+ json_escape r3) +:+ t)
        with (String a (String b (String c (json_escape r3 +:+ t)))).
      rewrite compact_3 by done. rewrite Hr by (cbn; lia). done. }
  destruct r3 as [|d r4]; [done|]. destruct (utf8_4 a b c d) eqn:H4; [|done].
  apply (Hcat (String a (String b (String c (String d "")))) r4); [|cbn; lia].
  assert (Hr4 : 0xF0 ≤ code a ∧ 0x80 ≤ code b ≤ 0xBF ∧ 0x80 ≤ code c ≤ 0xBF ∧ 0x80 ≤ code d ≤ 0xBF).
  { unfold utf8_4, cont in H4. revert H4. unfold in_range. bool_to_prop. lia. }
  rewrite !copied_high; try done; try (apply Z.ltb_ge); lia.
Qed.

Lemma compact_string s t :
  json_compact false false (json_string s +:+ t) = json_string s +:+ json_compact false false t.
Proof.
  assert (Hq : ∀ escaped u, json_compact escaped false (quote +:+ u) = quote +:+ json_compact (negb escaped) false u).
  { intros escaped u. change (quote +:+ ?u) with (String (char_of 34) u).
    rewrite compact_copies; [by destruct escaped|by destruct escaped|by apply (bool_decide_unpack _)|done]. }
  unfold json_string. rewrite !str_app_assoc, Hq. cbn [negb]. by rewrite compact_escape, Hq.
Qed.

(** ** Values *)

Lemma compact_join (l : list string) t :
  Forall (λ x, ∀ t, json_compact false false (x +:+ t) = x +:+ json_compact false false t) l →
  json_compact false false (join "," l +:+ t) = join "," l +:+ json_compact false false t.
Proof.
  induction 1 as [|x l Hx Hl IH]; [done|]. destruct l as [|y l]; [apply Hx|].
  change (join "," (x :: y :: l)) with (x +:+ "," +:+ join "," (y :: l)).
  rewrite !str_app_assoc, Hx. by rewrite (compact_plain ",") by done; rewrite IH.
Qed.

Lemma compact_print j t :
  json_wf j = true → json_compact false false (json_print j +:+ t) = json_print j +:+ json_compact false false t.
Proof.
  revert t. induction j as [|b|n|s|l IH|l IH] using json_induction; intros t Hw; cbn [json_print json_wf] in *.
  - by apply compact_plain.
  - by destruct b; apply compact_plain.
  - by apply compact_plain, number_plain.
  - apply compact_string.
  - rewrite !str_app_assoc, (compact_plain "[") by done. f_equal. rewrite compact_join.
    + by rewrite (compact_plain "]") by done.
    + apply Forall_map. apply (wf_parts l _ Hw). eapply Forall_impl; [exact IH|]. cbn. auto.
  - rewrite !str_app_assoc, (compact_plain "{") by done. f_equal. rewrite compact_join.
    + by rewrite (compact_plain "}") by done.
    + apply Forall_map. apply (wf_fields l _ Hw). eapply Forall_impl; [exact IH|]. cbn. intros [k v] Hv Hwf u.
      cbn [fst snd]. rewrite !str_app_assoc, compact_string, (compact_plain ":") by done. by rewrite Hv.
Qed.

Lemma compact_printed j : json_wf j = true → json_compact false false (json_print j) = json_print j.
Proof. intros Hw. pose proof (compact_print j "" Hw) as H. by rewrite !str_app_nil in H. Qed.
