(* ===== verification/JsonDecode.v ===== *)
(** * [encoding/json]: decoding into Go values

    A decoder stores a JSON value into a variable that already has a value, as
    [Decode] does: [null] leaves strings, numbers and structs alone and clears
    pointers, maps and slices; the fields of an object are matched without
    regard to case and stored in their order, so a repeated field is stored
    twice.  [None] is an error; the callers discard what was stored before
    it. *)
From stdpp Require Import pretty.
From Stdlib Require Import SpecFloat.
From S2P Require Import Prelude GoBase Sha256 Json GoNet JsonParse Provider.

Definition decoder (A : Type) : Type := A → json → option A.

(** ** [strconv.ParseFloat(s, 64)] of a JSON number *)

(** The digits at the front of a text: their number, how many, and the rest. *)
Fixpoint read_digits (value : Z) (count : Z) (s : string) : Z * Z * string :=
  match s with
  | String c r => if is_digit c then read_digits (10 * value + (code c - 48)) (count + 1) r
                  else (value, count, s)
  | EmptyString => (value, count, s)
  end.
(** The digits of an exponent; they stop counting at 10000. *)
Fixpoint read_exponent (e : Z) (s : string) : Z :=
  match s with
  | String c r => read_exponent (if e <? 10000 then 10 * e + (code c - 48) else e) r
  | EmptyString => e
  end.

(** The binary64 number nearest to [m * 10^e]. *)
Definition f64_of_decimal (neg : bool) (m e : Z) : spec_float :=
  if m =? 0 then S754_zero neg
  else if 0 <=? e then
    binary_normalize 53 1024 (if neg then - (m * 10 ^ e) else m * 10 ^ e) 0 neg
  else let '(q, e', l) := SFdiv_core_binary 53 1024 m 0 (10 ^ (- e)) 0 in
       binary_round_aux 53 1024 neg q e' l.

(** The value of a number literal; out of range is an error. *)
Definition parse_float (literal : string) : option spec_float :=
  let '(neg, s) := match after_prefix "-" literal with
                   | Some r => (true, r) | None => (false, literal) end in
  let '(whole, _, s) := read_digits 0 0 s in
  let '(mantissa, fraction, s) := match after_prefix "." s with
                                  | Some r => read_digits whole 0 r
                                  | None => (whole, 0, s) end in
  let exponent := match s with
                  | String _ (String d r) =>
                      if code d =? 45 then - read_exponent 0 r
                      else if code d =? 43 then read_exponent 0 r
                      else read_exponent 0 (String d r)
                  | _ => 0
                  end in
  let x := f64_of_decimal neg mantissa (exponent - fraction) in
  if isFinite x then Some x else None.

Example parse_float_ex :
  parse_float "1" = Some f64_1 ∧ parse_float "-0" = Some (S754_zero true) ∧
  parse_float "1e-9" = Some probabilityTolerance ∧ parse_float "0.1e-5" = Some f64_1em6 ∧
  parse_float "0.1" = Some (S754_finite false 7205759403792794 (-56)) ∧
  parse_float "1e309" = None ∧ parse_float "4.9E-324" = Some (S754_finite false 1 (-1074)).
Proof. vm_compute. auto 10. Qed.

(** ** Decoders *)

Definition dec_string : decoder string := λ cur v,
  match v with JString s => Some s | JNull => Some cur | _ => None end.

(** A number into an [int] and into a [float64]. *)
Definition dec_int : decoder Z := λ cur v,
  match v with JNumber n => parse_int n | JNull => Some cur | _ => None end.
Definition dec_float : decoder spec_float := λ cur v,
  match v with JNumber n => parse_float n | JNull => Some cur | _ => None end.

(** A [json.RawMessage]: the value itself stands for its text; [None] is the
    empty message. *)
Definition dec_raw : decoder (option json) := λ _ v, Some (Some v).

Section Decoders.
Context {A : Type} (zero : A) (d : decoder A).

(** Pointers. *)
Definition dec_ptr : decoder (option A) := λ cur v,
  match v with
  | JNull => Some None
  | _ => x ← d (default zero cur) v; Some (Some x)
  end.

(** Maps with string keys; [None] is the nil map.  Every entry is decoded into
    a fresh element. *)
Fixpoint dec_entries (m : gmap string A) (l : list (string * json)) : option (gmap string A) :=
  match l with
  | [] => Some m
  | (k, v) :: l => x ← d zero v; dec_entries (<[k := x]> m) l
  end.
Definition dec_map : decoder (option (gmap string A)) := λ cur v,
  match v with
  | JNull => Some None
  | JObject l => m ← dec_entries (default ∅ cur) l; Some (Some m)
  | _ => None
  end.

(** Slices: the elements written so far and how many of them are in use.  The
    elements of a new array are decoded over the old ones. *)
Definition slice : Type := list A * nat.
Definition slice_list (s : slice) : list A := take s.2 s.1.

Fixpoint dec_elements (old : list A) (l : list json) : option (list A) :=
  match l with
  | [] => Some old
  | v :: l =>
      x ← d (default zero (head old)) v; rest ← dec_elements (tail old) l; Some (x :: rest)
  end.
Definition dec_slice : decoder slice := λ cur v,
  match v with
  | JNull | JArray [] => Some ([], O)
  | JArray l => elements ← dec_elements cur.1 l; Some (elements, length l)
  | _ => None
  end.
End Decoders.

(** Structs: a list of field names with what a field does.  An unknown field is
    an error for a strict decoder. *)
Fixpoint dec_fields {A} (strict : bool) (fields : list (string * decoder A)) (cur : A)
    (l : list (string * json)) : option A :=
  match l with
  | [] => Some cur
  | (k, v) :: l =>
      cur ← match find (λ f, equal_fold k f.1) fields with
            | Some f => f.2 cur v
            | None => if strict then None else Some cur
            end;
      dec_fields strict fields cur l
  end.
Definition dec_struct {A} (strict : bool) (fields : list (string * decoder A)) : decoder A := λ cur v,
  match v with
  | JNull => Some cur
  | JObject l => dec_fields strict fields cur l
  | _ => None
  end.

(** A field of a struct through its reader and its writer. *)
Definition dec_field {A B} (name : string) (get : A → B) (set : B → A → A) (d : decoder B)
    : string * decoder A := (name, λ a v, b ← d (get a) v; Some (set b a)).

(** One value and nothing after it. *)
Definition decode {A} (d : decoder A) (zero : A) (raw : string) : option A := v ← parse_one raw; d zero v.

(** ** Encoding maps and values of type [any] *)

(** Maps are written with sorted keys. *)
Definition json_map (m : gmap string json) : json :=
  JObject (map (λ k, (k, default JNull (m !! k))) (sortedKeys m)).
Definition json_object (fields : list (string * json)) : json :=
  JObject (sort_slice (less_by fst str_ltb) fields).

(** A decoded [any], encoded again: objects are maps, so of a repeated key the
    last value is kept; [number] is what becomes of a number literal. *)
Fixpoint any_json (number : string → string) (j : json) : json :=
  match j with
  | JNumber n => JNumber (number n)
  | JArray l => JArray (map (any_json number) l)
  | JObject l => json_map (list_to_map (rev (map (λ kv, (kv.1, any_json number kv.2)) l)))
  | _ => j
  end.

Example decode_ex :
  decode (dec_struct true [dec_field "Answers" fst (λ a p, (a, p.2)) (dec_map "" dec_string);
                           dec_field "n" snd (λ n p, (p.1, n)) (dec_ptr 0 dec_int)]) (None, None)
    "{answers:1}" = None ∧
  decode (dec_slice 0 dec_int) ([], O) "[1, null, 3]" = Some ([1; 0; 3], 3%nat).
Proof. vm_compute. auto. Qed.

(** ** Facts *)

Lemma dec_fields_known {A} (fields : list (string * decoder A)) cur l a :
  dec_fields true fields cur l = Some a →
  Forall (λ kv, ∃ f, f ∈ fields ∧ equal_fold kv.1 f.1 = true) l.
Proof.
  revert cur. induction l as [|[k v] l IH]; intros cur; cbn [dec_fields]; [by constructor|].
  destruct (find _ fields) as [f|] eqn:Hf; [|done]. intros (c & _ & H)%bind_Some.
  constructor; [|by eapply IH]. apply find_some in Hf as [Hin Hk]. exists f.
  split; [by apply list_elem_of_In|done].
Qed.
