(* ===== verification/Redactor.v ===== *)
(** * Package [internal/kube], [redactor.go]: credentials in free text and fields

    A Go regular expression reads runes and prefers, like Perl, the left-most
    match and the first alternative that succeeds; [regex] and [rmatch] are the
    constructs the two expressions of the file use, with that preference.  A
    rune is the string of its bytes; an invalid byte is a rune of its own.
    Strings, maps and slices are the values [RedactFields] visits; the entries
    of a map are listed in an arbitrary order. *)
From S2P Require Import Prelude GoBase Json.

(** ** Runes *)

Definition rune := string.

Fixpoint runes (s : string) : list rune :=
  match s with
  | EmptyString => []
  | String a r =>
      match r with
      | String b r2 =>
          if utf8_2 a b then String a (String b "") :: runes r2
          else match r2 with
               | String c r3 =>
                   if utf8_3 a b c then String a (String b (String c "")) :: runes r3
                   else match r3 with
                        | String d r4 =>
                            if utf8_4 a b c d
                            then String a (String b (String c (String d ""))) :: runes r4
                            else String a "" :: runes r
                        | EmptyString => String a "" :: runes r
                        end
               | EmptyString => String a "" :: runes r
               end
      | EmptyString => [String a ""]
      end
  end.

Definition text (l : list rune) : string := String.concat "" l.

(** The ASCII character a rune is. *)
Definition ascii_rune (p : ascii → bool) (r : rune) : bool :=
  match r with String c "" => p c | _ => false end.

(** ** Regular expressions *)

Inductive regex :=
  | REps
  | RClass (p : rune → bool)
  | RStar (p : rune → bool)       (* a greedy star of a class *)
  | RBound                        (* \b *)
  | RSeq (r1 r2 : regex)
  | RAlt (r1 r2 : regex)
  | RGroup (n : nat) (r : regex).

Definition word_char (c : ascii) : bool :=
  in_range c 48 57 || in_range c 65 90 || in_range c 97 122 || bool_decide (c = "_"%char).
Definition is_word (r : option rune) : bool :=
  match r with Some r => ascii_rune word_char r | None => false end.

Definition captures := list (nat * list rune).

(** Matches [r] at the runes [s], which follow the rune [prev], and goes on with
    [k]; the first way in the order of preference that lets [k] succeed wins. *)
Fixpoint rmatch {A} (r : regex) (prev : option rune) (s : list rune) (caps : captures)
    (k : option rune → list rune → captures → option A) : option A :=
  match r with
  | REps => k prev s caps
  | RClass p =>
      match s with
      | c :: s' => if p c then k (Some c) s' caps else None
      | [] => None
      end
  | RStar p =>
      (fix star (prev : option rune) (s : list rune) : option A :=
         match s with
         | c :: s' =>
             if p c
             then match star (Some c) s' with Some x => Some x | None => k prev s caps end
             else k prev s caps
         | [] => k prev s caps
         end) prev s
  | RBound => if xorb (is_word prev) (is_word (head s)) then k prev s caps else None
  | RSeq r1 r2 => rmatch r1 prev s caps (λ prev s caps, rmatch r2 prev s caps k)
  | RAlt r1 r2 =>
      match rmatch r1 prev s caps k with Some x => Some x | None => rmatch r2 prev s caps k end
  | RGroup n r =>
      rmatch r prev s caps
        (λ prev' s' caps', k prev' s' ((n, take (length s - length s') s) :: caps'))
  end.

Definition group (n : nat) (caps : captures) : list rune :=
  match find (λ g, Nat.eqb (fst g) n) caps with Some (_, t) => t | None => [] end.

(** [Regexp.ReplaceAllString]: every left-most match is expanded and the search
    goes on after it; what matches nothing is copied.  Both expressions of the
    file consume a rune, so every iteration does and the length of the text is
    fuel enough. *)
Fixpoint replace_from (fuel : nat) (r : regex) (expand : captures → list rune)
    (prev : option rune) (s : list rune) : list rune :=
  match fuel, s with
  | S fuel, c :: s' =>
      match rmatch r prev s [] (λ prev s caps, Some (prev, s, caps)) with
      | Some (prev', rest, caps) =>
          if (length rest <? length s)%nat
          then expand caps ++ replace_from fuel r expand prev' rest
          else c :: replace_from fuel r expand (Some c) s'
      | None => c :: replace_from fuel r expand (Some c) s'
      end
  | _, _ => []
  end.
Definition replace_all (r : regex) (expand : captures → list rune) (prev : option rune)
    (s : list rune) : list rune := replace_from (length s) r expand prev s.

(** ** The two expressions *)

(** A letter under [(?i)]: U+017F folds to [s], U+212A to [k]. *)
Definition fold_letter (c : ascii) (r : rune) : bool :=
  ascii_rune (λ a, bool_decide (lower_byte a = c)) r
  || (bool_decide (c = "s"%char) && (r =s? bytes [0xC5; 0xBF]%N))
  || (bool_decide (c = "k"%char) && (r =s? bytes [0xE2; 0x84; 0xAA]%N)).
Fixpoint word (s : string) : regex :=
  match s with
  | EmptyString => REps
  | String c r => RSeq (RClass (fold_letter c)) (word r)
  end.

(** [[-_.a-z0-9]] under [(?i)]. *)
Definition key_rune (r : rune) : bool :=
  ascii_rune (λ c, word_char c || bool_decide (c = "-"%char) || bool_decide (c = "."%char)) r
  || (r =s? bytes [0xC5; 0xBF]%N) || (r =s? bytes [0xE2; 0x84; 0xAA]%N).
(** [\s]: tab, line feed, form feed, carriage return, space. *)
Definition space_rune : rune → bool :=
  ascii_rune (λ c, bool_decide (code c ∈ [9; 10; 12; 13; 32])).
Definition one_of (l : list rune) (r : rune) : bool := bool_decide (r ∈ l).
Definition dquote : rune := String "034"%char "".
Definition squote : rune := "'".
(** [[^\s,;]]. *)
Definition value_rune (r : rune) : bool := negb (space_rune r) && negb (one_of [","; ";"] r).
Definition quoted (q : rune) : regex :=
  RSeq (RClass (one_of [q])) (RSeq (RStar (λ r, negb (one_of [q] r))) (RClass (one_of [q]))).
Definition plain_value : regex := RSeq (RClass value_rune) (RStar value_rune).

Definition markers : list string := ["secret"; "token"; "password"; "authorization"; "credential"].
Definition any_marker : regex :=
  RAlt (word "secret") (RAlt (word "token") (RAlt (word "password")
    (RAlt (word "authorization") (word "credential")))).

Definition sensitiveAssignment : regex :=
  RSeq RBound (RSeq (RGroup 1 any_marker) (RSeq (RGroup 2 (RStar key_rune))
    (RSeq (RStar space_rune) (RSeq (RGroup 3 (RClass (one_of ["="; ":"])))
    (RSeq (RStar space_rune)
      (RAlt (quoted dquote) (RAlt (quoted squote) plain_value))))))).

Definition authorizationValue : regex :=
  RSeq RBound (RSeq (word "authorization") (RSeq (RClass space_rune) (RSeq (RStar space_rune)
    (RSeq (RAlt (RSeq (word "bearer") (RSeq (RClass space_rune) (RStar space_rune))) REps)
      plain_value)))).

(** ** Operations *)

Definition RedactedValue : string := "[REDACTED]".

Definition IsSensitiveKey (key : string) : bool :=
  let key := to_lower key in existsb (λ marker, contains key marker) markers.

Definition keep_key (caps : captures) : list rune :=
  group 1 caps ++ group 2 caps ++ group 3 caps ++ runes RedactedValue.
Definition RedactText (value : string) : string :=
  let value := text (replace_all sensitiveAssignment keep_key None (runes value)) in
  text (replace_all authorizationValue (λ _, runes ("authorization " +:+ RedactedValue))
          None (runes value)).

#[global] Arguments IsSensitiveKey _ : simpl never.
#[global] Arguments RedactText _ : simpl never.

(** A value of type [any]: the cases of [redactFieldValue]'s type switch, the
    last for every other type.  [None] is a nil map or slice. *)
Inductive any (O : Type) :=
  | AMap (m : option (list (string * any O)))      (* map[string]any *)
  | AStrings (m : option (list (string * string))) (* map[string]string *)
  | AList (l : option (list (any O)))              (* []any *)
  | AString (s : string)
  | AOther (o : O).
Arguments AMap {O} m.
Arguments AStrings {O} m.
Arguments AList {O} l.
Arguments AString {O} s.
Arguments AOther {O} o.

Fixpoint redactFieldValue {O} (value : any O) : any O :=
  match value with
  | AMap m =>
      AMap (match m with
            | None => None
            | Some l =>
                Some ((fix entries (l : list (string * any O)) : list (string * any O) :=
                         match l with
                         | [] => []
                         | (key, v) :: l =>
                             (key, if IsSensitiveKey key then AString RedactedValue
                                   else redactFieldValue v) :: entries l
                         end) l)
            end)
  | AStrings m =>
      AStrings (Some (map (λ kv, (kv.1, if IsSensitiveKey kv.1 then RedactedValue else RedactText kv.2))
                          (default [] m)))
  | AList l =>
      AList (Some (match l with
                   | None => []
                   | Some l => (fix items (l : list (any O)) : list (any O) :=
                                  match l with [] => [] | v :: l => redactFieldValue v :: items l end) l
                   end))
  | AString s => AString (RedactText s)
  | AOther o => AOther o
  end.

Definition redactMap {O} (fields : option (list (string * any O))) : option (list (string * any O)) :=
  match fields with
  | None => None
  | Some l =>
      Some (map (λ kv, (kv.1, if IsSensitiveKey kv.1 then AString RedactedValue
                              else redactFieldValue kv.2)) l)
  end.
Definition RedactFields {O} (fields : option (list (string * any O))) := redactMap fields.

Example redact_ex :
  RedactText "token=LEAK" = "token=[REDACTED]" ∧
  RedactText "password: LEAK, next" = "password:[REDACTED], next" ∧
  RedactText "Authorization Bearer LEAK" = "authorization [REDACTED]" ∧
  RedactText ("credential=" +:+ dquote +:+ "LEAK ME" +:+ dquote +:+ ".") = "credential=[REDACTED]." ∧
  map IsSensitiveKey ["clientSecret"; "api_token"; "PASSWORD"; "Authorization"; "dbCredential"; "safe"]
    = [true; true; true; true; true; false].
Proof. vm_compute. done. Qed.

(** ** Structured fields *)

Lemma redact_map_value {O} (m : option (list (string * any O))) :
  redactFieldValue (AMap m) = AMap (redactMap m).
Proof.
  destruct m as [l|]; [|done]. cbn. do 2 f_equal. induction l as [|[k v] l IH]; cbn; [done|by rewrite IH].
Qed.
Lemma redact_list_value {O} (l : list (any O)) :
  redactFieldValue (AList (Some l)) = AList (Some (map redactFieldValue l)).
Proof. cbn. do 2 f_equal. Qed.

(** [at_path v keys w]: [w] is inside [v], under the map keys [keys]. *)
Inductive at_path {O} : any O → list string → any O → Prop :=
  | at_here v : at_path v [] v
  | at_entry l k v ks w : (k, v) ∈ l → at_path v ks w → at_path (AMap (Some l)) (k :: ks) w
  | at_string l k s : (k, s) ∈ l → at_path (AStrings (Some l)) [k] (AString s)
  | at_item l v ks w : v ∈ l → at_path v ks w → at_path (AList (Some l)) ks w.

Definition sensitive_path (keys : list string) : bool := existsb IsSensitiveKey keys.

Lemma at_path_string {O} s keys (w : any O) : at_path (AString s) keys w → keys = [] ∧ w = AString s.
Proof. by inversion_clear 1. Qed.

Lemma redacted_hidden {O} (v0 : any O) keys w :
  at_path (redactFieldValue v0) keys w → sensitive_path keys = true → w = AString RedactedValue.
Proof.
  intros Hat. remember (redactFieldValue v0) as v eqn:Hv. revert v0 Hv.
  induction Hat as [v|l k v ks w Hin Hat IH|l k s Hin|l v ks w Hin Hat IH]; intros v0 Hv Hk; [done|..].
  - destruct v0 as [m|m|m|s|o]; try done. rewrite redact_map_value in Hv. destruct m as [l0|]; [|done].
    injection Hv as ->. apply list_elem_of_fmap in Hin as ([k0 v0] & [= -> ->] & _). cbn [fst] in *. cbn in Hk.
    destruct (IsSensitiveKey k0); cbn in Hk; [by apply at_path_string in Hat as [-> ->]|by eapply IH].
  - destruct v0 as [m|m|m|s0|o]; try done. injection Hv as ->.
    apply list_elem_of_fmap in Hin as ([k0 v0] & [= -> ->] & _). cbn in *.
    by destruct (IsSensitiveKey k0).
  - destruct v0 as [m|m|m|s|o]; try done. destruct m as [l0|].
    + rewrite redact_list_value in Hv. injection Hv as ->.
      apply list_elem_of_fmap in Hin as (v0 & -> & _). by eapply IH.
    + injection Hv as ->. by apply elem_of_nil in Hin.
Qed.

Lemma redacted_kept {O} (v0 : any O) keys w :
  sensitive_path keys = false →
  at_path (redactFieldValue v0) keys w ↔ ∃ w0, at_path v0 keys w0 ∧ w = redactFieldValue w0.
Proof.
  intros Hk. split.
  - intros Hat. remember (redactFieldValue v0) as v eqn:Hv. revert v0 Hv Hk.
    induction Hat as [v|l k v ks w Hin Hat IH|l k s Hin|l v ks w Hin Hat IH]; intros v0 Hv Hk.
    + exists v0. split; [constructor|done].
    + destruct v0 as [m|m|m|s|o]; try done. rewrite redact_map_value in Hv. destruct m as [l0|]; [|done].
      injection Hv as ->. apply list_elem_of_fmap in Hin as ([k0 v0] & [= -> ->] & Hin).
      cbn [fst snd] in *. cbn in Hk. destruct (IsSensitiveKey k0); [done|].
      destruct (IH v0 eq_refl Hk) as (w0 & ? & ->). exists w0. split; [by econstructor|done].
    + destruct v0 as [m|m|m|s0|o]; try done. injection Hv as ->.
      apply list_elem_of_fmap in Hin as ([k0 v0] & [= -> ->] & Hin). cbn in *.
      destruct (IsSensitiveKey k0); [done|]. destruct m as [l0|]; [|by apply elem_of_nil in Hin].
      exists (AString v0). split; [by constructor|done].
    + destruct v0 as [m|m|m|s|o]; try done. destruct m as [l0|].
      * rewrite redact_list_value in Hv. injection Hv as ->.
        apply list_elem_of_fmap in Hin as (v0 & -> & Hin). destruct (IH v0 eq_refl Hk) as (w0 & ? & ->).
        exists w0. split; [by econstructor|done].
      * injection Hv as ->. by apply elem_of_nil in Hin.
  - intros (w0 & Hat & ->). revert Hk.
    induction Hat as [v|l k v ks w Hin Hat IH|l k s Hin|l v ks w Hin Hat IH]; intros Hk.
    + constructor.
    + rewrite redact_map_value. cbn in Hk. destruct (IsSensitiveKey k) eqn:Hs; [done|].
      eapply at_entry; [|by apply IH]. apply list_elem_of_fmap. exists (k, v). cbn. by rewrite Hs.
    + cbn in Hk. destruct (IsSensitiveKey k) eqn:Hs; [done|]. constructor.
      apply list_elem_of_fmap. exists (k, s). cbn. by rewrite Hs.
    + rewrite redact_list_value. eapply at_item; [|by apply IH]. by apply list_elem_of_fmap_2.
Qed.

(** Redacted fields.  Nothing but the marker is found under a key that
    names credential data, however deep it is nested in maps and slices; under
    the other keys the fields are exactly the given ones, with their texts
    redacted. *)
Theorem redactFields_hides {O} (fields : option (list (string * any O))) keys w :
  (at_path (AMap (RedactFields fields)) keys w → sensitive_path keys = true →
   w = AString RedactedValue) ∧
  (sensitive_path keys = false →
   at_path (AMap (RedactFields fields)) keys w ↔
   ∃ w0, at_path (AMap fields) keys w0 ∧ w = redactFieldValue w0).
Proof.
  unfold RedactFields. rewrite <- redact_map_value.
  split; [apply redacted_hidden|apply redacted_kept].
Qed.

Lemma redactFields_hides_witness :
  let fields := Some [("nested", AList (Some [AMap (Some [("api_token", AOther 7%nat)])]))] in
  at_path (AMap (RedactFields fields)) ["nested"; "api_token"] (AString RedactedValue) ∧
  ∀ w, at_path (AMap (RedactFields fields)) ["nested"; "api_token"] w → w = AString RedactedValue.
Proof.
  intros fields. split.
  - eapply at_entry; [apply list_elem_of_here|]. eapply at_item; [apply list_elem_of_here|].
    eapply at_entry; [apply list_elem_of_here|]. apply at_here.
  - intros w Hw. apply (redactFields_hides fields ["nested"; "api_token"] w); [exact Hw|reflexivity].
Defined.

(** ** Credential assignments in free text *)

(** The rune before the position that follows [l], when [prev] is before [l]. *)
Definition after_runes (prev : option rune) (l : list rune) : option rune :=
  match last l with Some c => Some c | None => prev end.
Definition stops_at (p : rune → bool) (rest : list rune) : Prop :=
  match head rest with Some c => p c = false | None => True end.
Definition all_runes (p : rune → bool) (l : list rune) : Prop := Forall (λ r, p r = true) l.

Lemma after_runes_cons prev c l : after_runes prev (c :: l) = after_runes (Some c) l.
Proof.
  unfold after_runes. rewrite last_cons. by destruct (last l).
Qed.
Lemma after_runes_app prev l1 l2 : after_runes prev (l1 ++ l2) = after_runes (after_runes prev l1) l2.
Proof. unfold after_runes. rewrite last_app. by destruct (last l2). Qed.

(** A greedy star takes a whole run when the continuation succeeds after it. *)
Lemma rmatch_star {A} p w rest prev caps (k : _ → _ → _ → option A) x :
  all_runes p w → stops_at p rest → k (after_runes prev w) rest caps = Some x →
  rmatch (RStar p) prev (w ++ rest) caps k = Some x.
Proof.
  intros Hw Hr Hk. cbn [rmatch]. revert prev Hk. induction Hw as [|c w Hc Hw IH]; intros prev Hk; cbn [app].
  - unfold stops_at in Hr. destruct rest as [|c rest]; [done|]. cbn in Hr. by rewrite Hr.
  - rewrite Hc. rewrite after_runes_cons in Hk. by rewrite (IH (Some c) Hk).
Qed.

Definition folds (kw : string) (key : list rune) : Prop :=
  Forall2 (λ c r, fold_letter c r = true) (String.list_ascii_of_string kw) key.

Lemma rmatch_word {A} kw key s prev caps (k : _ → _ → _ → option A) :
  folds kw key → rmatch (word kw) prev (key ++ s) caps k = k (after_runes prev key) s caps.
Proof.
  unfold folds. revert key prev. induction kw as [|c kw IH]; intros key prev Hf; cbn in Hf.
  - apply Forall2_nil_inv_l in Hf as ->. done.
  - apply Forall2_cons_inv_l in Hf as (r & key' & Hr & Hf & ->). cbn [word rmatch app].
    rewrite Hr, after_runes_cons. by apply IH.
Qed.

Lemma fold_letter_inj c d r : fold_letter c r = true → fold_letter d r = true → c = d.
Proof.
  unfold fold_letter. rewrite !orb_true_iff, !andb_true_iff, !bool_decide_eq_true, !String.eqb_eq.
  intros [[H1|[-> H1]]|[-> H1]] [[H2|[-> H2]]|[-> H2]]; try done; try (subst r; by vm_compute in H1);
    try (subst r; by vm_compute in H2).
  unfold ascii_rune in H1, H2. destruct r as [|a [|b r]]; try done. rewrite bool_decide_eq_true in H1, H2.
  congruence.
Qed.

Lemma rmatch_other_word {A} c d kw kw' key s prev caps (k : _ → _ → _ → option A) :
  folds (String c kw) key → c ≠ d → rmatch (word (String d kw')) prev (key ++ s) caps k = None.
Proof.
  intros Hf Hne. apply Forall2_cons_inv_l in Hf as (r & key' & Hr & _ & ->). cbn [word rmatch app].
  destruct (fold_letter d r) eqn:Hd; [|done]. by pose proof (fold_letter_inj c d r Hr Hd).
Qed.

Lemma rmatch_marker {A} kw key s prev caps (k : _ → _ → _ → option A) :
  kw ∈ markers → folds kw key →
  rmatch any_marker prev (key ++ s) caps k = k (after_runes prev key) s caps.
Proof.
  intros Hkw Hf. unfold markers in Hkw. rewrite !elem_of_cons, elem_of_nil in Hkw.
  pose proof (rmatch_word kw key s prev caps k Hf) as Hm.
  assert (Hn : ∀ d kw', head (String.list_ascii_of_string kw) ≠ Some d →
    rmatch (word (String d kw')) prev (key ++ s) caps k = None).
  { intros d kw' Hd. destruct kw as [|c kw]; [by destruct Hkw as [|[|[|[|[|]]]]]|].
    eapply rmatch_other_word; [done|]. cbn in Hd. congruence. }
  unfold any_marker. cbn [rmatch].
  destruct Hkw as [->|[->|[->|[->|[->|[]]]]]]; rewrite ?Hm, ?Hn by done; by destruct (k _ s caps).
Qed.

Lemma take_matched {A} (l rest : list A) : take (length (l ++ rest) - length rest) (l ++ rest) = l.
Proof. rewrite length_app, Nat.add_sub. apply take_app_length. Qed.

(** An assignment [key suffix before sep after value] of a credential; [value]
    has no white space, comma or semicolon and is not quoted. *)
Record assignment := {
  as_key : list rune; as_suffix : list rune; as_before : list rune; as_sep : rune;
  as_after : list rune; as_value : list rune
}.
Definition assignment_text (a : assignment) : list rune :=
  as_key a ++ as_suffix a ++ as_before a ++ [as_sep a] ++ as_after a ++ as_value a.

Record credential_assignment (a : assignment) : Prop := {
  ca_key : ∃ kw, kw ∈ markers ∧ folds kw (as_key a);
  ca_start : is_word (head (as_key a)) = true;
  ca_suffix : all_runes key_rune (as_suffix a);
  ca_before : all_runes space_rune (as_before a);
  ca_sep : as_sep a = "=" ∨ as_sep a = ":";
  ca_after : all_runes space_rune (as_after a);
  ca_value : all_runes value_rune (as_value a);
  ca_first : match head (as_value a) with Some c => c ≠ dquote ∧ c ≠ squote | None => False end
}.

Lemma rmatch_seq {A} r1 r2 prev s caps (k : _ → _ → _ → option A) :
  rmatch (RSeq r1 r2) prev s caps k = rmatch r1 prev s caps (λ prev s caps, rmatch r2 prev s caps k).
Proof. done. Qed.
Lemma rmatch_group {A} n r prev s caps (k : _ → _ → _ → option A) :
  rmatch (RGroup n r) prev s caps k
  = rmatch r prev s caps (λ prev' s' caps', k prev' s' ((n, take (length s - length s') s) :: caps')).
Proof. done. Qed.
Lemma rmatch_bound {A} prev s caps (k : _ → _ → _ → option A) :
  xorb (is_word prev) (is_word (head s)) = true → rmatch RBound prev s caps k = k prev s caps.
Proof. intros H. cbn [rmatch]. by rewrite H. Qed.
Lemma rmatch_class {A} p c s prev caps (k : _ → _ → _ → option A) :
  p c = true → rmatch (RClass p) prev (c :: s) caps k = k (Some c) s caps.
Proof. intros Hp. cbn. by rewrite Hp. Qed.
Lemma rmatch_alt_r {A} r1 r2 prev s caps (k : _ → _ → _ → option A) :
  rmatch r1 prev s caps k = None → rmatch (RAlt r1 r2) prev s caps k = rmatch r2 prev s caps k.
Proof. intros H. cbn [rmatch]. by rewrite H. Qed.

Lemma space_not_key r : space_rune r = true → key_rune r = false.
Proof.
  unfold space_rune, ascii_rune. destruct r as [|c [|d r]]; try done.
  destruct c as [[] [] [] [] [] [] [] []]; by vm_compute.
Qed.
Lemma quoted_other {A} q c s prev caps (k : _ → _ → _ → option A) :
  c ≠ q → rmatch (quoted q) prev (c :: s) caps k = None.
Proof.
  intros Hc. unfold quoted. rewrite rmatch_seq. cbn [rmatch]. unfold one_of.
  by rewrite bool_decide_eq_false_2 by (rewrite list_elem_of_singleton; done).
Qed.
Lemma stops_app p q l rest :
  all_runes q l → (∀ r, q r = true → p r = false) → stops_at p rest → stops_at p (l ++ rest).
Proof. intros Hl Hqp Hr. destruct Hl as [|c l Hc _]; [done|]. unfold stops_at. cbn. by apply Hqp. Qed.

Lemma rmatch_assignment a prev rest :
  credential_assignment a → is_word prev = false → stops_at value_rune rest →
  rmatch sensitiveAssignment prev (assignment_text a ++ rest) [] (λ prev s caps, Some (prev, s, caps))
  = Some (after_runes prev (assignment_text a), rest,
          [(3%nat, [as_sep a]); (2%nat, as_suffix a); (1%nat, as_key a)]).
Proof.
  intros [(kw & Hkw & Hf) Hs Hsuf Hbef Hsep Haft Hval Hfirst] Hp Hr.
  assert (Hsep' : key_rune (as_sep a) = false ∧ space_rune (as_sep a) = false
                  ∧ one_of ["="; ":"] (as_sep a) = true) by (by destruct Hsep as [-> | ->]; vm_compute).
  destruct Hsep' as (Hk1 & Hk2 & Hk3).
  unfold assignment_text, sensitiveAssignment. rewrite <- !(assoc_L (++)). cbn [app].
  destruct (as_value a) as [|c v] eqn:Hv; [done|]. destruct Hfirst as [Hdq Hsq].
  apply Forall_cons in Hval as [Hc Hval].
  assert (Hnc : space_rune c = false) by (unfold value_rune in Hc; by destruct (space_rune c)).
  rewrite rmatch_seq, rmatch_bound by (rewrite Hp; by destruct (as_key a)).
  rewrite rmatch_seq, rmatch_group, (rmatch_marker kw) by done.
  rewrite take_matched, rmatch_seq, rmatch_group.
  apply rmatch_star; [done| |rewrite take_matched].
  { eapply stops_app; [done|apply space_not_key|done]. }
  rewrite rmatch_seq.
  apply rmatch_star; [done|done|]. cbv beta. rewrite rmatch_seq, rmatch_group, rmatch_class by done.
  assert (Ht : ∀ l : list rune, take (length (as_sep a :: l) - length l) (as_sep a :: l) = [as_sep a])
    by (intros l; apply (take_matched [as_sep a] l)).
  rewrite Ht, rmatch_seq. apply rmatch_star; [done|done|]. cbv beta.
  rewrite (rmatch_alt_r (quoted dquote)) by (by apply quoted_other).
  rewrite rmatch_alt_r by (by apply quoted_other).
  unfold plain_value. cbn [app]. rewrite rmatch_seq, rmatch_class by done.
  apply rmatch_star; [done|done|].
  by rewrite !after_runes_app, !after_runes_cons, !after_runes_app, after_runes_cons.
Qed.

Lemma replace_from_enough r expand n m prev s :
  (length s ≤ n)%nat → (length s ≤ m)%nat →
  replace_from n r expand prev s = replace_from m r expand prev s.
Proof.
  revert m prev s. induction n as [|n IH]; intros [|m] prev [|c s] Hn Hm; cbn [length] in *; try done; try lia.
  cbn [replace_from]. destruct (rmatch _ _ _ _ _) as [[[prev' rest] caps]|]; [|f_equal; apply IH; lia].
  destruct (length rest <? _)%nat eqn:Hl; [|f_equal; apply IH; lia].
  apply Nat.ltb_lt in Hl. cbn in Hl. f_equal. apply IH; lia.
Qed.

(** Credential assignments in free text.  Where the scan of [RedactText]
    reaches [key sep value] after a character that is not part of a word, with a
    key that starts with one of the credential words in any case, white space
    around the separator and an unquoted value, it writes the key, the separator
    and the marker, and goes on after the value: no character of the value
    reaches the output. *)
Theorem assignment_redacted a prev rest :
  credential_assignment a → is_word prev = false → stops_at value_rune rest →
  replace_all sensitiveAssignment keep_key prev (assignment_text a ++ rest)
  = as_key a ++ as_suffix a ++ [as_sep a] ++ runes RedactedValue
    ++ replace_all sensitiveAssignment keep_key (after_runes prev (assignment_text a)) rest.
Proof.
  intros Ha Hp Hr. pose proof (rmatch_assignment a prev rest Ha Hp Hr) as Hm. unfold replace_all.
  assert (Hl : (length rest < length (assignment_text a ++ rest))%nat).
  { unfold assignment_text. rewrite !length_app. cbn. lia. }
  destruct (assignment_text a ++ rest) as [|c s] eqn:Hs; [cbn in Hl; lia|].
  cbn [replace_from length]. rewrite Hm. cbn [length] in Hl. rewrite (proj2 (Nat.ltb_lt _ _) Hl). unfold keep_key, group. cbn [find fst Nat.eqb].
  rewrite <- !(assoc_L (++)). do 4 f_equal. apply replace_from_enough; lia.
Qed.

Lemma assignment_redacted_witness :
  let a := {| as_key := runes "PassWord"; as_suffix := runes "_db.1"; as_before := [" "]; as_sep := ":";
              as_after := [" "]; as_value := runes "hunter2" |} in
  text (replace_all sensitiveAssignment keep_key (Some ";") (assignment_text a ++ runes ", next"))
  = "PassWord_db.1:[REDACTED], next".
Proof.
  intros a. rewrite (assignment_redacted a (Some ";") (runes ", next")).
  - vm_compute. reflexivity.
  - split; [|reflexivity|by repeat constructor|by repeat constructor|by right|by repeat constructor
            |by repeat constructor|vm_compute; split; congruence].
    exists "password". split; [by do 2 apply list_elem_of_further; apply list_elem_of_here|].
    by repeat constructor.
  - reflexivity.
  - reflexivity.
Defined.

(** What the expressions let through.  The word boundary before the credential
    word and the single word taken as a value leave the credentials of these
    texts in place, although [IsSensitiveKey] accepts both keys. *)
Lemma credentials_that_leak :
  IsSensitiveKey "api_token" = true ∧
  RedactText "api_token=hunter2" = "api_token=hunter2" ∧
  IsSensitiveKey "Authorization" = true ∧
  RedactText "Authorization: Bearer hunter2" = "Authorization:[REDACTED] hunter2".
Proof. vm_compute. done. Qed.
