(* ===== verification/Fingerprint.v ===== *)
(** * Package [internal/kube], [fingerprint.go]: content hashes and keys

    [json.Marshal] cannot fail on the canonical form (its only time is the zero
    time), so [ContentHash] returns the hash itself.  [map_to_list] stands for
    the unspecified order in which Go visits the labels; they are sorted
    afterwards and their keys are distinct. *)
From S2P Require Import Prelude GoBase Domain Sha256 Json.

Definition contentHashSchema : string := "ruleraven.snapshot.v1" +:+ nul.
Definition incidentKeySchema : string := "ruleraven.incident.v1" +:+ nul.

Record keyValue := { kv_Key : string; kv_Value : string }.

Record canonicalSource := {
  cs_ClusterID : string; cs_APIVersion : string; cs_Kind : string; cs_UID : string;
  cs_Generation : Z; cs_Owner : option OwnerReference
}.

Record canonicalEvent := {
  ce_Type : string; ce_Reason : string; ce_Message : string; ce_RegardingUID : string
}.

Record canonicalSnapshot := {
  c_Source : canonicalSource; c_Labels : list keyValue; c_Conditions : list Condition;
  c_Containers : list ContainerState; c_Workload : option WorkloadState;
  c_Job : option JobState; c_Event : option canonicalEvent
}.

(** ** Canonical form *)

Definition clear_transition (c : Condition) : Condition :=
  {| cond_Type := cond_Type c; cond_Status := cond_Status c; cond_Reason := cond_Reason c;
     cond_Message := cond_Message c; cond_LastTransitionTime := zero_time |}.

Definition label_less : keyValue → keyValue → bool := less_by kv_Key str_ltb.
Definition condition_less : Condition → Condition → bool :=
  less_then cond_Type (less_then cond_Status (less_then cond_Reason (less_by cond_Message str_ltb))).
Definition container_less : ContainerState → ContainerState → bool :=
  less_then ct_Name (less_then ct_State (less_by ct_Reason str_ltb)).

Definition canonical (s : Snapshot) : canonicalSnapshot :=
  {| c_Source := {| cs_ClusterID := src_ClusterID (sn_Source s);
       cs_APIVersion := src_APIVersion (sn_Source s); cs_Kind := src_Kind (sn_Source s);
       cs_UID := src_UID (sn_Source s); cs_Generation := src_Generation (sn_Source s);
       cs_Owner := src_Owner (sn_Source s) |};
     c_Labels := sort_slice label_less
       (map (λ kv, {| kv_Key := kv.1; kv_Value := kv.2 |}) (map_to_list (sn_Labels s)));
     c_Conditions := sort_slice condition_less (map clear_transition (sn_Conditions s));
     c_Containers := sort_slice container_less (sn_Containers s);
     c_Workload := sn_Workload s; c_Job := sn_Job s;
     c_Event := (λ e, {| ce_Type := ev_Type e; ce_Reason := ev_Reason e;
       ce_Message := ev_Message e; ce_RegardingUID := ev_RegardingUID e |}) <$> sn_Event s |}.

(** ** Encoding, by the struct tags *)

Definition owner_json (o : OwnerReference) : json :=
  JObject (string_omitempty "apiVersion" (owner_APIVersion o) ++ string_field "kind" (owner_Kind o)
           ++ string_field "name" (owner_Name o) ++ string_field "uid" (owner_UID o)).
Definition opt_field {A} (k : string) (f : A → json) (o : option A) : list (string * json) :=
  match o with Some x => field k (f x) | None => [] end.
Definition list_field {A} (k : string) (f : A → json) (l : list A) : list (string * json) :=
  match l with [] => [] | _ => field k (JArray (map f l)) end.

Definition source_json (s : Source) : json :=
  JObject (string_field "clusterId" (src_ClusterID s) ++ string_field "apiVersion" (src_APIVersion s)
           ++ string_field "kind" (src_Kind s) ++ string_omitempty "namespace" (src_Namespace s)
           ++ string_field "name" (src_Name s) ++ string_field "uid" (src_UID s)
           ++ string_omitempty "resourceVersion" (src_ResourceVersion s)
           ++ field_if (negb (src_Generation s =? 0)) "generation" (JInt (src_Generation s))
           ++ opt_field "owner" owner_json (src_Owner s)).

Definition canonicalSource_json (s : canonicalSource) : json :=
  JObject (string_field "clusterId" (cs_ClusterID s) ++ string_field "apiVersion" (cs_APIVersion s)
           ++ string_field "kind" (cs_Kind s) ++ string_field "uid" (cs_UID s)
           ++ field "generation" (JInt (cs_Generation s)) ++ opt_field "owner" owner_json (cs_Owner s)).
Definition keyValue_json (kv : keyValue) : json :=
  JObject (string_field "key" (kv_Key kv) ++ string_field "value" (kv_Value kv)).
(** [omitempty] has no effect on a struct such as [time.Time]. *)
Definition condition_json (c : Condition) : json :=
  JObject (string_field "type" (cond_Type c) ++ string_field "status" (cond_Status c)
           ++ string_omitempty "reason" (cond_Reason c)
           ++ string_omitempty "message" (cond_Message c)
           ++ field "lastTransitionTime" (JTime (cond_LastTransitionTime c))).
Definition container_json (c : ContainerState) : json :=
  JObject (string_field "name" (ct_Name c) ++ field "ready" (JBool (ct_Ready c))
           ++ field "restartCount" (JInt (ct_RestartCount c)) ++ string_field "state" (ct_State c)
           ++ string_omitempty "reason" (ct_Reason c)
           ++ field_if (negb (ct_ExitCode c =? 0)) "exitCode" (JInt (ct_ExitCode c))).
Definition workload_json (w : WorkloadState) : json :=
  JObject [("desired", JInt (wl_Desired w)); ("current", JInt (wl_Current w));
           ("ready", JInt (wl_Ready w)); ("available", JInt (wl_Available w));
           ("updated", JInt (wl_Updated w)); ("unavailable", JInt (wl_Unavailable w))].
Definition job_json (j : JobState) : json :=
  JObject [("active", JInt (job_Active j)); ("succeeded", JInt (job_Succeeded j));
           ("failed", JInt (job_Failed j)); ("backoffLimit", JInt (job_BackoffLimit j))].
Definition canonicalEvent_json (e : canonicalEvent) : json :=
  JObject (string_field "type" (ce_Type e) ++ string_field "reason" (ce_Reason e)
           ++ string_omitempty "message" (ce_Message e)
           ++ string_omitempty "regardingUid" (ce_RegardingUID e)).

Definition canonicalSnapshot_json (c : canonicalSnapshot) : json :=
  JObject (field "source" (canonicalSource_json (c_Source c))
           ++ list_field "labels" keyValue_json (c_Labels c)
           ++ list_field "conditions" condition_json (c_Conditions c)
           ++ list_field "containers" container_json (c_Containers c)
           ++ opt_field "workload" workload_json (c_Workload c)
           ++ opt_field "job" job_json (c_Job c)
           ++ opt_field "event" canonicalEvent_json (c_Event c)).

Definition ContentHash (s : Snapshot) : string :=
  let encoded := json_print (canonicalSnapshot_json (canonical s)) in
  "sha256:" +:+ hex_encode (sha256 (contentHashSchema +:+ encoded)).

(** The bytes an incident key is the hash of. *)
Definition incident_seed (s : Source) : string :=
  incidentKeySchema +:+ src_ClusterID s +:+ nul +:+ src_UID s.

Definition IncidentKey (s : Source) : string :=
  "incident:v1:" +:+ hex_encode (sha256 (incident_seed s)).

(** ** Lemmas *)

#[export] Instance condition_less_strict : StrictWeak condition_less.
Proof. apply _. Qed.
#[export] Instance container_less_strict : StrictWeak container_less.
Proof. apply _. Qed.

(** Conditions without their times that tie in the order are equal. *)
Lemma condition_ties x y :
  cond_LastTransitionTime x = cond_LastTransitionTime y →
  less_le condition_less x y → less_le condition_less y x → x = y.
Proof.
  intros Ht Hxy Hyx. apply less_then_ties in Hyx as (H1 & Hyx & Hxy'); [|done].
  apply less_then_ties in Hyx as (H2 & Hyx & Hxy''); [|done].
  apply less_then_ties in Hyx as (H3 & Hyx & Hxy'''); [|done].
  assert (H4 : cond_Message x = cond_Message y) by (by apply str_less_antisym).
  destruct x, y; simpl in *; congruence.
Qed.

Lemma sorted_conditions_perm l l' :
  map clear_transition l ≡ₚ map clear_transition l' →
  sort_slice condition_less (map clear_transition l)
  = sort_slice condition_less (map clear_transition l').
Proof.
  intros Hp. apply sort_slice_proper; [apply _| |done].
  intros x y Hx Hy. apply condition_ties.
  apply list_elem_of_fmap in Hx as (? & -> & _), Hy as (? & -> & _). done.
Qed.

(** A sorted slice determines its elements up to order. *)
Lemma sort_slice_inj {A} (less : A → A → bool) l l' :
  sort_slice less l = sort_slice less l' → l ≡ₚ l'.
Proof. intros Heq. by rewrite <- (sort_slice_perm less l), Heq, (sort_slice_perm less l'). Qed.

Lemma labels_inj (m m' : gmap string string) :
  map (λ kv, {| kv_Key := kv.1; kv_Value := kv.2 |}) (map_to_list m) ≡ₚ
  map (λ kv, {| kv_Key := kv.1; kv_Value := kv.2 |}) (map_to_list m') → m = m'.
Proof.
  intros Hp. apply (Permutation_map (λ x, (kv_Key x, kv_Value x))) in Hp.
  rewrite !map_map in Hp. simpl in Hp.
  assert (Hid : ∀ l : list (string * string), map (λ x, (x.1, x.2)) l = l).
  { intros l. rewrite <- (map_id l) at 2. apply map_ext. by intros []. }
  rewrite !Hid in Hp. by apply map_to_list_inj.
Qed.

Lemma sorted_containers_perm l l' :
  NoDup (map ct_Name l) → l ≡ₚ l' → sort_slice container_less l = sort_slice container_less l'.
Proof.
  intros Hnd Hp. symmetry. apply sort_slice_proper; [apply _| |done].
  intros x y Hx Hy Hxy Hyx. apply less_then_ties in Hyx as (Hname & _); [|done].
  apply list_elem_of_lookup in Hx as [i Hi], Hy as [j Hj].
  assert (i = j) as ->; [|congruence].
  eapply (NoDup_lookup (map ct_Name l)); [done|..]; rewrite list_lookup_fmap.
  - by rewrite Hi.
  - rewrite Hj. simpl. by rewrite Hname.
Qed.

(** ** Properties *)

(** What two observations must share to be the same content: everything except
    the times, the name, namespace and version of the object, the number of
    occurrences of an event, and the order of conditions and containers. *)
Record same_content (s s' : Snapshot) : Prop := {
  same_source : (src_ClusterID (sn_Source s), src_APIVersion (sn_Source s), src_Kind (sn_Source s),
                 src_UID (sn_Source s), src_Generation (sn_Source s), src_Owner (sn_Source s)) =
                (src_ClusterID (sn_Source s'), src_APIVersion (sn_Source s'),
                 src_Kind (sn_Source s'), src_UID (sn_Source s'),
                 src_Generation (sn_Source s'), src_Owner (sn_Source s'));
  same_labels : sn_Labels s = sn_Labels s';
  same_conditions : map clear_transition (sn_Conditions s) ≡ₚ map clear_transition (sn_Conditions s');
  same_containers : sn_Containers s ≡ₚ sn_Containers s';
  same_workload : sn_Workload s = sn_Workload s';
  same_job : sn_Job s = sn_Job s';
  same_event : (λ e, (ev_Type e, ev_Reason e, ev_Message e, ev_RegardingUID e)) <$> sn_Event s =
               (λ e, (ev_Type e, ev_Reason e, ev_Message e, ev_RegardingUID e)) <$> sn_Event s'
}.

(** C34: the canonical form that is hashed captures exactly the material facts:
    two snapshots (of a Pod whose containers have distinct names) have the same
    canonical form, and hence the same content hash, precisely when they agree
    on everything but times, object name and version, event count, and the
    order of labels, conditions and containers. *)
Theorem canonical_exact s s' :
  NoDup (map ct_Name (sn_Containers s)) →
  (canonical s = canonical s' ↔ same_content s s') ∧
  (same_content s s' → ContentHash s = ContentHash s').
Proof.
  intros Hnd. assert (Hto : same_content s s' → canonical s = canonical s').
  { intros [Hs Hl Hc Hct Hw Hj He]. unfold canonical. simplify_eq. rewrite Hw, Hj, Hl.
    f_equal; [congruence|by apply sorted_conditions_perm|by apply sorted_containers_perm|].
    destruct (sn_Event s), (sn_Event s'); simplify_eq/=; congruence. }
  split; [|by intros ?%Hto; unfold ContentHash; congruence]. split; [|done].
  unfold canonical. intros [= H1 H2 H3 H4 H5 H6 Hl Hc Hct Hw Hj He]. split; try done.
  - congruence.
  - by apply labels_inj, (sort_slice_inj label_less).
  - by apply (sort_slice_inj condition_less).
  - by apply (sort_slice_inj container_less).
  - destruct (sn_Event s), (sn_Event s'); simplify_eq/=; congruence.
Qed.

(** An incident key stands for one cluster and one object: the bytes hashed
    into it determine both, for cluster names without a zero byte, and nothing
    else of the source enters. *)
Theorem incident_key_identity s s' :
  has_char (ascii_of_N 0) (src_ClusterID s) = false →
  has_char (ascii_of_N 0) (src_ClusterID s') = false →
  incident_seed s = incident_seed s' ↔
    src_ClusterID s = src_ClusterID s' ∧ src_UID s = src_UID s'.
Proof.
  intros H1 H2. unfold incident_seed. split; [|by intros [-> ->]].
  intros Heq. apply (sep_split (ascii_of_N 0)); [done..|].
  revert Heq. unfold incidentKeySchema. cbn. intros Heq. by repeat injection Heq as Heq.
Qed.

(** ** Witnesses *)

Module FingerprintWitness.
Definition snapshot (t count : Z) (l : list Condition) : Snapshot :=
  {| sn_Source := {| src_ClusterID := "c1"; src_APIVersion := "v1"; src_Kind := "Event";
       src_Namespace := "shop"; src_Name := "n"; src_UID := "u1"; src_ResourceVersion := "1";
       src_Generation := 0; src_Owner := None |};
     sn_ObservedAt := t; sn_Labels := {["a" := "b"]}; sn_Conditions := l; sn_Containers := [];
     sn_Workload := None; sn_Job := None;
     sn_Event := Some {| ev_Type := "Warning"; ev_Reason := "FailedMount"; ev_Message := "m";
       ev_RegardingUID := "u2"; ev_Count := count; ev_LastObserved := t |};
     sn_ContentHash := "" |}.
Definition cond (ty : string) (t : time) : Condition :=
  {| cond_Type := ty; cond_Status := "True"; cond_Reason := ""; cond_Message := "";
     cond_LastTransitionTime := t |}.
End FingerprintWitness.

(** A recurring event with reordered conditions hashes alike. *)
Lemma canonical_exact_witness :
  ContentHash (FingerprintWitness.snapshot 5 1
    [FingerprintWitness.cond "A" 1; FingerprintWitness.cond "B" 2]) =
  ContentHash (FingerprintWitness.snapshot 900 7
    [FingerprintWitness.cond "B" 3; FingerprintWitness.cond "A" 4]).
Proof.
  apply canonical_exact; [constructor|]. split; try reflexivity. apply Permutation_swap.
Defined.

Lemma incident_key_identity_witness :
  incident_seed (sn_Source (FingerprintWitness.snapshot 1 1 [])) =
  incident_seed (sn_Source (FingerprintWitness.snapshot 2 2 [])).
Proof. apply incident_key_identity; by vm_compute. Defined.
