(* ===== verification/Notifier.v ===== *)
(** * Package [internal/notify], [notifier.go]: event envelopes *)
From S2P Require Import Prelude GoBase Sha256 Json.

Definition CloudEventsSpecVersion : string := "1.0".
Definition EnvelopeSchemaVersion : string := "v1".

(** The [json.RawMessage] is its bytes. *)
Record Envelope := {
  env_SpecVersion : string; env_ID : string; env_Source : string; env_Type : string;
  env_Time : time; env_DataContentType : string; env_SchemaVersion : string; env_Data : string
}.

(** The error type of the package. *)
Record NotifyError := {
  ne_StatusCode : Z; ne_Retryable : bool; ne_RetryDelay : duration; ne_Kind : string
}.

(** *** [url.PathEscape] *)

Definition upper_hex (n : Z) : ascii := char_of (if n <? 10 then 48 + n else 55 + n).
Definition path_safe (c : ascii) : bool :=
  in_range c 97 122 || in_range c 65 90 || in_range c 48 57
  || bool_decide (c ∈ ["-"; "_"; "."; "~"; "$"; "&"; "+"; "="; ":"; "@"]%char).
Fixpoint path_escape (s : string) : string :=
  match s with
  | EmptyString => ""
  | String c r =>
      (if path_safe c then String c ""
       else String "%"%char (String (upper_hex (code c / 16)) (String (upper_hex (code c `mod` 16)) "")))
      +:+ path_escape r
  end.

Inductive EnvelopeError := envelope_fields_required | envelope_data_invalid.

Definition NewEnvelope (id eventType clusterID : string) (occurredAt : time) (data : string)
    : result EnvelopeError Envelope :=
  fail_if! blank id || blank eventType || blank clusterID || is_zero occurredAt
    with envelope_fields_required;
  fail_if! (len data =? 0) || negb (json_valid data) with envelope_data_invalid;
  Ok {| env_SpecVersion := CloudEventsSpecVersion; env_ID := id;
        env_Source := "urn:ruleraven:cluster:" +:+ path_escape clusterID; env_Type := eventType;
        env_Time := occurredAt; env_DataContentType := "application/json";
        env_SchemaVersion := EnvelopeSchemaVersion; env_Data := data |}.
