(* ===== verification/Dispatcher.v ===== *)
(** * Package [internal/notify], [dispatcher.go]: delivering the outbox

    A dispatcher runs over the outside world [W]: the store of the interface
    [OutboxStore], a clock, the notifiers and the end of its context.  Metrics
    and logging are added in [ReportsDispatcher], which shows that they change
    nothing.  The program returns a boolean and an error together, so [DispatchOne] returns both. *)
From S2P Require Import Prelude GoBase Domain Provider Store Documents Driver Contract.
From S2P Require Import MongoRefinement Outbox Json Notifier Retry.

(** What a notifier can return: the package's own error, the end of the
    context's time, or anything else. *)
Inductive DeliverError :=
  | notify_error (e : NotifyError)
  | deadline_exceeded
  | other_deliver_error (what : string).

Inductive DispatchError :=
  | context_ended (what : string)
  | claim_failed (e : StoreError)
  | complete_failed (e : StoreError)
  | finalize_failed (e : StoreError).

Record Notifier (W : Type) := {
  nf_Name : string;
  nf_Deliver : Envelope → W → option DeliverError * W
}.
Arguments nf_Name {W}. Arguments nf_Deliver {W}.

(** [nil] arguments are [None]; whether a store is given is a flag. *)
Record DispatcherConfig (W : Type) := {
  dc_HasStore : bool; dc_Notifiers : list (option (Notifier W)); dc_WorkerID : string;
  dc_Workers : Z; dc_ClusterID : string; dc_LeaseDuration : duration; dc_MaxAttempts : Z;
  dc_InitialBackoff : duration; dc_MaxBackoff : duration; dc_DeliveredExpiry : duration;
  dc_FailedExpiry : duration; dc_Now : option (W → time * W)
}.
Arguments dc_HasStore {W}. Arguments dc_Notifiers {W}. Arguments dc_WorkerID {W}.
Arguments dc_Workers {W}. Arguments dc_ClusterID {W}. Arguments dc_LeaseDuration {W}.
Arguments dc_MaxAttempts {W}. Arguments dc_InitialBackoff {W}. Arguments dc_MaxBackoff {W}.
Arguments dc_DeliveredExpiry {W}. Arguments dc_FailedExpiry {W}. Arguments dc_Now {W}.

Record Dispatcher (W : Type) := {
  dp_notifiers : gmap string (Notifier W); dp_workerID : string; dp_workers : Z;
  dp_clusterID : string; dp_leaseDuration : duration; dp_maxAttempts : Z;
  dp_initialBackoff : duration; dp_maxBackoff : duration; dp_deliveredExpiry : duration;
  dp_failedExpiry : duration; dp_now : W → time * W
}.
Arguments dp_notifiers {W}. Arguments dp_workerID {W}. Arguments dp_workers {W}.
Arguments dp_clusterID {W}. Arguments dp_leaseDuration {W}. Arguments dp_maxAttempts {W}.
Arguments dp_initialBackoff {W}. Arguments dp_maxBackoff {W}. Arguments dp_deliveredExpiry {W}.
Arguments dp_failedExpiry {W}. Arguments dp_now {W}.

Inductive DispatcherError :=
  | store_required | ids_required | limits_inconsistent | expiry_negative | clock_required
  | notifier_required | duplicate_notifier (name : string).

Fixpoint addNotifiers {W} (l : list (option (Notifier W))) (m : gmap string (Notifier W))
    : result DispatcherError (gmap string (Notifier W)) :=
  match l with
  | [] => Ok m
  | None :: _ => Err notifier_required
  | Some n :: rest =>
      fail_if! blank (nf_Name n) with notifier_required;
      match m !! nf_Name n with
      | Some _ => Err (duplicate_notifier (nf_Name n))
      | None => addNotifiers rest (<[nf_Name n := n]> m)
      end
  end.

Definition NewDispatcher {W} (c : DispatcherConfig W) : result DispatcherError (Dispatcher W) :=
  fail_if! negb (dc_HasStore c) with store_required;
  fail_if! blank (dc_WorkerID c) || blank (dc_ClusterID c) with ids_required;
  fail_if! (dc_Workers c <=? 0) || (dc_LeaseDuration c <=? 0) || (dc_MaxAttempts c <=? 0)
           || (dc_InitialBackoff c <=? 0) || (dc_MaxBackoff c <? dc_InitialBackoff c)
    with limits_inconsistent;
  fail_if! (dc_DeliveredExpiry c <? 0) || (dc_FailedExpiry c <? 0) with expiry_negative;
  match dc_Now c with
  | None => Err clock_required
  | Some now =>
      notifiers ←! addNotifiers (dc_Notifiers c) ∅;
      Ok {| dp_notifiers := notifiers; dp_workerID := dc_WorkerID c; dp_workers := dc_Workers c;
            dp_clusterID := dc_ClusterID c; dp_leaseDuration := dc_LeaseDuration c;
            dp_maxAttempts := dc_MaxAttempts c; dp_initialBackoff := dc_InitialBackoff c;
            dp_maxBackoff := dc_MaxBackoff c; dp_deliveredExpiry := dc_DeliveredExpiry c;
            dp_failedExpiry := dc_FailedExpiry c; dp_now := now |}
  end.

Definition backoff {W} (d : Dispatcher W) (attempt : Z) : duration :=
  let delay := backoffLoop (dp_maxBackoff d) (Z.to_nat (attempt - 1)) (dp_initialBackoff d) in
  if dp_maxBackoff d <? delay then dp_maxBackoff d else delay.

Definition expiry (now : time) (retention : duration) : option time :=
  if retention <=? 0 then None else Some (time_add now retention).

Section DispatchOne.
Context {W : Type} `{OutboxOps W} (ctx_err : W → option string) (d : Dispatcher W).

(** The data of the event: the payload, or a minimal document. *)
Definition eventData (delivery : Delivery) : string :=
  let n := dl_Notification delivery in
  if len (nt_Payload n) =? 0
  then json_print (JObject [("evaluationId", JString (nt_EvaluationID n));
                            ("destinationId", JString (nt_DestinationID n))])
  else nt_Payload n.

Definition simple_error (kind : string) : DeliverError :=
  notify_error {| ne_StatusCode := 0; ne_Retryable := false; ne_RetryDelay := 0; ne_Kind := kind |}.

(** One attempt to deliver a claimed notification. *)
Definition attempt (delivery : Delivery) (now : time) (w : W) : option DeliverError * W :=
  let n := dl_Notification delivery in
  match dp_notifiers d !! nt_DestinationID n with
  | None => (Some (simple_error "unknown_destination"), w)
  | Some notifier =>
      match NewEnvelope (nt_ID n) (nt_EventType n) (dp_clusterID d) now (eventData delivery) with
      | Err _ => (Some (simple_error "invalid_delivery"), w)
      | Ok event => nf_Deliver notifier event w
      end
  end.

(** May the delivery be tried again after this error? *)
Definition retryable_error (err : DeliverError) : bool :=
  match err with notify_error e => ne_Retryable e | deadline_exceeded => true | _ => false end.

(** The failure class and the delay after a failed attempt. *)
Definition classify (attempts : Z) (err : DeliverError) : FailureClass * duration :=
  if retryable_error err && (attempts <? dp_maxAttempts d) then
    let delay := backoff d attempts in
    let delay := match err with
                 | notify_error e =>
                     if delay <? ne_RetryDelay e then
                       if dp_maxBackoff d <? ne_RetryDelay e then dp_maxBackoff d
                       else ne_RetryDelay e
                     else delay
                 | _ => delay
                 end in
    (FailureRetryable, delay)
  else (FailurePermanent, 0).

Definition finalizeFailure (delivery : Delivery) (err : DeliverError) (w : W)
    : (bool * option DispatchError) * W :=
  let n := dl_Notification delivery in
  let '(failure, delay) := classify (nt_Attempts n) err in
  let '(requestNow, w) := dp_now d w in
  let request := {| rr_ID := nt_ID n; rr_WorkerID := dp_workerID d; rr_Now := requestNow;
    rr_NextAttemptAt := time_add requestNow delay; rr_Failure := failure;
    rr_ExpiresAt := if failure =s? FailurePermanent then expiry requestNow (dp_failedExpiry d)
                    else None |} in
  match reschedule_delivery request w with
  | (Err e, w) => ((true, Some (finalize_failed e)), w)
  | (Ok _, w) => ((true, None), w)
  end.

Definition finalizeSuccess (delivery : Delivery) (w : W) : (bool * option DispatchError) * W :=
  let '(completedAt, w) := dp_now d w in
  let request := {| cp_ID := nt_ID (dl_Notification delivery); cp_WorkerID := dp_workerID d;
    cp_CompletedAt := completedAt; cp_ExpiresAt := expiry completedAt (dp_deliveredExpiry d) |} in
  match complete_delivery request w with
  | (Err e, w) => ((true, Some (complete_failed e)), w)
  | (Ok _, w) => ((true, None), w)
  end.

Definition DispatchOne (w : W) : (bool * option DispatchError) * W :=
  match ctx_err w with
  | Some e => ((false, Some (context_ended e)), w)
  | None =>
      let '(now, w) := dp_now d w in
      match claim_delivery {| cl_WorkerID := dp_workerID d; cl_Now := now;
                              cl_LeaseDuration := dp_leaseDuration d |} w with
      | (Err e, w) =>
          if is_ErrNotFound e then ((false, None), w) else ((false, Some (claim_failed e)), w)
      | (Ok delivery, w) =>
          let '(deliveryErr, w) := attempt delivery now w in
          match deliveryErr with
          | None => finalizeSuccess delivery w
          | Some err =>
              match ctx_err w with
              | Some e => ((true, Some (context_ended e)), w)
              | None => finalizeFailure delivery err w
              end
          end
      end
  end.

(** The loop of one worker of [Run], for at most [fuel] rounds. *)
Fixpoint workerLoop (fuel : nat) (w : W) : option (option DispatchError) * W :=
  match fuel with
  | O => (None, w)
  | S fuel =>
      match DispatchOne w with
      | ((_, Some e), w) => (Some (Some e), w)
      | ((false, None), w) => (Some None, w)
      | ((true, None), w) => workerLoop fuel w
      end
  end.
End DispatchOne.

(** ** Lemmas *)

Lemma backoff_bounds {W} (d : Dispatcher W) n :
  0 < dp_initialBackoff d ≤ dp_maxBackoff d → is_int64 (dp_maxBackoff d) →
  dp_initialBackoff d ≤ backoff d n ≤ dp_maxBackoff d.
Proof.
  intros Hb Hm. unfold backoff.
  pose proof (backoffLoop_bounds (dp_maxBackoff d) (Z.to_nat (n - 1)) _ Hb Hm).
  destruct (Z.ltb_spec (dp_maxBackoff d)
    (backoffLoop (dp_maxBackoff d) (Z.to_nat (n - 1)) (dp_initialBackoff d))); lia.
Qed.

(** A constructed dispatcher has consistent limits. *)
Definition limits_ok {W} (d : Dispatcher W) : Prop :=
  blank (dp_workerID d) = false ∧ 0 < dp_leaseDuration d ∧ 0 < dp_maxAttempts d ∧
  0 < dp_initialBackoff d ≤ dp_maxBackoff d.

Lemma NewDispatcher_ok {W} (c : DispatcherConfig W) d : NewDispatcher c = Ok d → limits_ok d.
Proof.
  unfold NewDispatcher. rewrite !fail_if_ok, !orb_false_iff, !Z.leb_gt, Z.ltb_ge.
  intros Hn. destruct_and! Hn. destruct (dc_Now c); [|done].
  match goal with H : rbind _ _ = Ok d |- _ => apply rbind_ok in H as (m & _ & [= <-]) end.
  unfold limits_ok. simpl. split_and!; done || lia.
Qed.

Lemma addNotifiers_ok {W} l (m m' : gmap string (Notifier W)) :
  addNotifiers l m = Ok m' →
  ∀ k n, m' !! k = Some n ↔ m !! k = Some n ∨ Some n ∈ l ∧ nf_Name n = k.
Proof.
  revert m. induction l as [|[x|] l IH]; intros m; simpl; [|..|done].
  { intros [= ->] k n. set_solver. }
  rewrite fail_if_ok. intros [_ Hr]. destruct (m !! nf_Name x) eqn:Hx; [done|].
  intros k n. rewrite (IH _ Hr), lookup_insert_Some, elem_of_cons.
  destruct (decide (nf_Name x = k)) as [<-|Hne]; naive_solver.
Qed.

Lemma classify_spec {W} (d : Dispatcher W) n err :
  limits_ok d → is_int64 (dp_maxBackoff d) →
  (classify d n err).1 = (if retryable_error err && (n <? dp_maxAttempts d)
                          then FailureRetryable else FailurePermanent) ∧
  0 ≤ (classify d n err).2 ≤ dp_maxBackoff d ∧
  ((classify d n err).1 = FailureRetryable → dp_initialBackoff d ≤ (classify d n err).2).
Proof.
  intros (_ & _ & _ & Hb) Hm. pose proof (backoff_bounds d n Hb Hm) as Hbo. unfold classify.
  destruct (retryable_error err && _); simpl; (split; [done|]); [|by split; [lia|]].
  destruct err as [e| |]; [|split; [lia|intros _; lia]..].
  destruct (Z.ltb_spec (backoff d n) (ne_RetryDelay e)); [|split; [lia|intros _; lia]].
  destruct (Z.ltb_spec (dp_maxBackoff d) (ne_RetryDelay e)); split; try (intros _; lia); lia.
Qed.

Section DispatchProperties.
Context {W : Type} (ctx_err : W → option string) (d : Dispatcher W).

Section Interleaving.
Context `{StoreState W, !SharedOutbox W}.
Hypothesis now_env : ∀ w t w', store_ok w → dp_now d w = (t, w') → env w w'.
Hypothesis deliver_env : ∀ name n e w r w', dp_notifiers d !! name = Some n →
  store_ok w → nf_Deliver n e w = (r, w') → env w w'.

Lemma attempt_env delivery now w r w' :
  store_ok w → attempt d delivery now w = (r, w') → env w w'.
Proof.
  intros Hok. unfold attempt. destruct (dp_notifiers d !! _) as [n|] eqn:Hn.
  - destruct (NewEnvelope _ _ _ _ _) as [e|e]; [by eapply (deliver_env _ n e)|].
    intros [= <- <-]. by apply unchanged_env.
  - intros [= <- <-]. by apply unchanged_env.
Qed.

Lemma finalizeFailure_env delivery err w r w' :
  store_ok w → finalizeFailure d delivery err w = (r, w') → env w w'.
Proof.
  intros Hok. unfold finalizeFailure. destruct (classify d _ err) as [failure delay].
  destruct (dp_now d w) as [t w1] eqn:Hn. apply now_env in Hn; [|done].
  destruct (reschedule_delivery _ w1) as [r1 w2] eqn:Hr.
  apply reschedule_env in Hr; [| |by destruct Hn].
  - destruct r1; intros [= <- <-]; by eapply env_trans.
  - simpl. by intros ->.
Qed.

Lemma finalizeSuccess_env delivery w r w' :
  store_ok w → finalizeSuccess d delivery w = (r, w') → env w w'.
Proof.
  intros Hok. unfold finalizeSuccess. destruct (dp_now d w) as [t w1] eqn:Hn.
  apply now_env in Hn; [|done]. destruct (complete_delivery _ w1) as [r1 w2] eqn:Hc.
  apply complete_env in Hc; [|by destruct Hn].
  destruct r1; intros [= <- <-]; by eapply env_trans.
Qed.

Lemma DispatchOne_env w r w' : store_ok w → DispatchOne ctx_err d w = (r, w') → env w w'.
Proof.
  intros Hok. unfold DispatchOne. destruct (ctx_err w).
  { intros [= <- <-]. by apply unchanged_env. }
  destruct (dp_now d w) as [t w1] eqn:Hn. apply now_env in Hn; [|done].
  destruct (claim_delivery _ w1) as [[dl|e] w2] eqn:Hc; apply claim_env in Hc; try by destruct Hn.
  2:{ destruct (is_ErrNotFound e); intros [= <- <-]; by eapply env_trans. }
  pose proof (env_trans _ _ _ Hn Hc) as H2. clear Hn Hc.
  destruct (attempt d dl t w2) as [[err|] w3] eqn:Ha; apply attempt_env in Ha; try by destruct H2.
  - pose proof (env_trans _ _ _ H2 Ha) as H3. destruct (ctx_err w3); [by intros [= <- <-]|].
    intros Hf. apply finalizeFailure_env in Hf; [|by destruct H3]. by eapply env_trans.
  - pose proof (env_trans _ _ _ H2 Ha) as H3.
    intros Hf. apply finalizeSuccess_env in Hf; [|by destruct H3]. by eapply env_trans.
Qed.

Lemma workerLoop_env fuel w r w' :
  store_ok w → workerLoop ctx_err d fuel w = (r, w') → env w w'.
Proof.
  revert w. induction fuel as [|fuel IH]; intros w Hok; cbn [workerLoop].
  { intros [= <- <-]. by apply env_refl. }
  destruct (DispatchOne ctx_err d w) as [[b e] w1] eqn:Hd. apply DispatchOne_env in Hd; [|done].
  destruct e as [e|]; [by destruct b; intros [= <- <-]|].
  destruct b; [|by intros [= <- <-]]. intros Hl. apply IH in Hl; [|by destruct Hd].
  by eapply env_trans.
Qed.
End Interleaving.

Section Alone.
Context `{OutboxStore W}.
Hypothesis now_quiet : ∀ w t w', store_ok w → dp_now d w = (t, w') → unchanged w w'.
Hypothesis deliver_quiet : ∀ name n e w r w', dp_notifiers d !! name = Some n →
  store_ok w → nf_Deliver n e w = (r, w') → unchanged w w'.

Lemma attempt_quiet delivery now w r w' :
  store_ok w → attempt d delivery now w = (r, w') → unchanged w w'.
Proof.
  intros Hok. unfold attempt. destruct (dp_notifiers d !! _) as [n|] eqn:Hn.
  - destruct (NewEnvelope _ _ _ _ _) as [e|e]; [by eapply (deliver_quiet _ n e)|].
    by intros [= <- <-].
  - by intros [= <- <-].
Qed.

(** A reading of the dispatcher's clock. *)
Definition reads (t : time) : Prop := ∃ w w', store_ok w ∧ dp_now d w = (t, w').

Lemma finalizeSuccess_outcome dl w w' :
  store_ok w → finalizeSuccess d dl w = ((true, None), w') →
  ∃ c old, v_outbox (view w) !! nt_ID (dl_Notification dl) = Some old ∧ store_ok w' ∧
    v_outbox (view w') = <[nt_ID (dl_Notification dl) := completed c old]> (v_outbox (view w)).
Proof.
  intros Hok. unfold finalizeSuccess. destruct (dp_now d w) as [t w1] eqn:Hn.
  apply now_quiet in Hn as [Hok1 Hv1]; [|done].
  destruct (complete_delivery _ w1) as [[[]|e] w2] eqn:Hc; [|done]. intros [= <-].
  apply complete_delivery_spec in Hc as [Hok2 He]; [|done].
  inversion He as [old Hl Hh Hview]. rewrite Hv1 in *. simpl in *. eauto 6.
Qed.

(** How a failed attempt is finalised: by which request. *)
Definition finalises (err : DeliverError) (attempts : Z) (r : RescheduleRequest) : Prop :=
  rr_Failure r = (if retryable_error err && (attempts <? dp_maxAttempts d)
                  then FailureRetryable else FailurePermanent) ∧
  rr_Now r ≤ rr_NextAttemptAt r ≤ rr_Now r + dp_maxBackoff d ∧
  (rr_Failure r = FailureRetryable → rr_Now r + dp_initialBackoff d ≤ rr_NextAttemptAt r).

Lemma finalizeFailure_outcome dl err w w' :
  limits_ok d → is_int64 (dp_maxBackoff d) →
  store_ok w → finalizeFailure d dl err w = ((true, None), w') →
  ∃ r old, v_outbox (view w) !! nt_ID (dl_Notification dl) = Some old ∧ store_ok w' ∧
    v_outbox (view w') = <[nt_ID (dl_Notification dl) := rescheduled r old]> (v_outbox (view w)) ∧
    finalises err (d_attempts dl) r ∧ reads (rr_Now r).
Proof.
  intros Hlim Hm Hok. unfold finalizeFailure.
  pose proof (classify_spec d (nt_Attempts (dl_Notification dl)) err Hlim Hm) as (Hf & Hdelay & Hmin).
  destruct (classify d _ err) as [failure delay]. simpl in Hf, Hdelay, Hmin.
  destruct (dp_now d w) as [t w1] eqn:Hn.
  assert (Hread : reads t) by (by exists w, w1). apply now_quiet in Hn as [Hok1 Hv1]; [|done].
  destruct (reschedule_delivery _ w1) as [[[]|e] w2] eqn:Hc; [|done]. intros [= <-].
  apply reschedule_delivery_spec in Hc as [Hok2 He]; [|done].
  inversion He as [old Hl Hh _ Hview]. rewrite Hv1 in *. simpl in *.
  eexists _, old. split_and!; [done|done|done| |exact Hread]. unfold finalises, time_add. simpl.
  split_and!; [done|lia..|]. intros ?%Hmin. lia.
Qed.

Lemma DispatchOne_outcome w w' :
  limits_ok d → is_int64 (dp_maxBackoff d) → store_ok w →
  DispatchOne ctx_err d w = ((true, None), w') →
  ∃ q id old err w1 w2,
    v_outbox (view w) !! id = Some old ∧ eligible (cl_Now q) old = true ∧
    cl_WorkerID q = dp_workerID d ∧ reads (cl_Now q) ∧ store_ok w' ∧
    attempt d (claimed q old) (cl_Now q) w1 = (err, w2) ∧
    match err with
    | None => ∃ c, v_outbox (view w') = <[id := completed c (claimed q old)]> (v_outbox (view w))
    | Some e => ∃ r,
        v_outbox (view w') = <[id := rescheduled r (claimed q old)]> (v_outbox (view w)) ∧
        finalises e (d_attempts old + 1) r ∧ reads (rr_Now r)
    end.
Proof.
  intros Hlim Hm Hok. unfold DispatchOne. destruct (ctx_err w); [done|].
  destruct (dp_now d w) as [t w1] eqn:Hn.
  assert (Hread : reads t) by (by exists w, w1). apply now_quiet in Hn as [Hok1 Hv1]; [|done].
  set (q := {| cl_WorkerID := _ |}).
  destruct (claim_delivery q w1) as [[dl|e] w2] eqn:Hc; [|by destruct (is_ErrNotFound e)].
  apply claim_delivery_spec in Hc as [Hok2 He]; [|done].
  inversion He as [id old _ _ Hl Hel _ Hdl Hv2]. subst dl.
  pose proof (outbox_keys _ Hok1 id old Hl) as Hid. rewrite Hv1 in Hl, Hv2.
  assert (Hb2 : v_outbox (view w2) = <[id := claimed q old]> (v_outbox (view w)))
    by (by rewrite <- Hv2).
  destruct (attempt d (claimed q old) t w2) as [err w3] eqn:Ha.
  assert (v_outbox (view w3) = <[id := claimed q old]> (v_outbox (view w)) ∧ store_ok w3)
    as [Hb3 Hok3] by (apply attempt_quiet in Ha as [? ->]; done).
  assert (Hkey : nt_ID (dl_Notification (claimed q old)) = id) by done.
  intros Hfin. exists q, id, old, err, w2, w3. destruct err as [err|].
  - destruct (ctx_err w3); [done|].
    apply finalizeFailure_outcome in Hfin as (r & old' & Hl' & Hok' & Hv' & Hfr & Hr); [|done..].
    rewrite Hkey, Hb3, lookup_insert_eq in *. simplify_eq. split_and!; [done..|].
    exists r. by rewrite Hv', insert_insert_eq.
  - apply finalizeSuccess_outcome in Hfin as (c & old' & Hl' & Hok' & Hv'); [|done].
    rewrite Hkey, Hb3, lookup_insert_eq in *. simplify_eq. split_and!; [done..|].
    exists c. by rewrite Hv', insert_insert_eq.
Qed.

(** C9: one round of a dispatcher that runs alone and reports success delivers
    what it claims: it claims a due (or abandoned) notification; if the
    destination accepts it, the notification becomes delivered; if the attempt
    fails, it is pending again, at most the maximal back-off later, exactly
    when the error is retryable and attempts remain, and failed for good
    otherwise.  No other notification changes. *)
Theorem dispatch_outcome w w' :
  limits_ok d → is_int64 (dp_maxBackoff d) → store_ok w →
  DispatchOne ctx_err d w = ((true, None), w') →
  ∃ q id old err w1 w2,
    v_outbox (view w) !! id = Some old ∧ eligible (cl_Now q) old = true ∧
    cl_WorkerID q = dp_workerID d ∧
    attempt d (claimed q old) (cl_Now q) w1 = (err, w2) ∧
    match err with
    | None => ∃ c, v_outbox (view w') = <[id := completed c (claimed q old)]> (v_outbox (view w))
    | Some e => ∃ r,
        v_outbox (view w') = <[id := rescheduled r (claimed q old)]> (v_outbox (view w)) ∧
        finalises e (d_attempts old + 1) r
    end.
Proof.
  intros Hlim Hm Hok Hd.
  destruct (DispatchOne_outcome w w' Hlim Hm Hok Hd)
    as (q & id & old & err & w1 & w2 & ? & ? & ? & _ & _ & ? & Herr).
  exists q, id, old, err, w1, w2. split_and!; [done..|].
  destruct err as [e|]; [|done]. destruct Herr as (r & ? & ? & _). eauto.
Qed.

Lemma DispatchOne_idle w w' :
  store_ok w → DispatchOne ctx_err d w = ((false, None), w') →
  ∃ t, reads t ∧ map_Forall (λ _ dl, eligible t dl = false) (v_outbox (view w')).
Proof.
  intros Hok. unfold DispatchOne. destruct (ctx_err w); [done|].
  destruct (dp_now d w) as [t w1] eqn:Hn.
  assert (Hread : reads t) by (by exists w, w1). apply now_quiet in Hn as [Hok1 Hv1]; [|done].
  destruct (claim_delivery _ w1) as [[dl|e] w2] eqn:Hc.
  - destruct (attempt d dl t w2) as [[err|] w3]; [destruct (ctx_err w3); [done|]|].
    + unfold finalizeFailure. destruct (classify d _ err), (dp_now d w3) as [? w4].
      destruct (reschedule_delivery _ w4) as [[]]; done.
    + unfold finalizeSuccess. destruct (dp_now d w3) as [? w4].
      destruct (complete_delivery _ w4) as [[]]; done.
  - apply claim_delivery_spec in Hc; [|done]. destruct (is_ErrNotFound e); [|done].
    intros [= <-]. destruct Hc as [[_ Hv] Hel]. exists t. by rewrite Hv.
Qed.

(** *** Draining *)

(** What a worker may still claim before the time [limit]. *)
Definition active (limit : time) (dl : Delivery) : Prop :=
  d_status dl = NotificationDelivering ∨
  d_status dl = NotificationPending ∧ d_next dl < limit.
#[local] Instance active_dec limit dl : base.Decision (active limit dl).
Proof. unfold active. apply _. Defined.
Definition remaining (limit : time) (m : gmap string Delivery) : nat :=
  size (filter (λ kd : string * Delivery, active limit kd.2) m).

Lemma remaining_drop limit id old new m :
  m !! id = Some old → active limit old → ¬ active limit new →
  (remaining limit (<[id := new]> m) < remaining limit m)%nat.
Proof.
  intros Hl Ho Hn. unfold remaining. rewrite map_filter_insert_False by done.
  rewrite map_filter_delete.
  assert (Hf : filter (λ kd : string * Delivery, active limit kd.2) m !! id = Some old)
    by (by apply map_lookup_filter_Some).
  rewrite <- (insert_delete_id _ _ _ Hf) at 2. rewrite map_size_insert_None; [lia|apply lookup_delete_eq].
Qed.

(** A clock that stays before the first possible retry. *)
Definition clock_before_retry (start : time) : Prop :=
  ∀ t, reads t → start ≤ t ∧ bson_time t < bson_time (start + dp_initialBackoff d).

Lemma eligible_active limit t dl : bson_time t < limit → eligible t dl = true → active limit dl.
Proof.
  intros Ht Hel. unfold eligible in Hel. apply orb_true_iff in Hel as [Hel|Hel];
    apply andb_true_iff in Hel as [Hs%String.eqb_eq Hle]; [right|by left].
  apply Z.leb_le in Hle. split; [done|lia].
Qed.

(** A round that handles a delivery leaves one less. *)
Lemma DispatchOne_drops start w w1 :
  limits_ok d → is_int64 (dp_maxBackoff d) → store_ok w → clock_before_retry start →
  DispatchOne ctx_err d w = ((true, None), w1) → store_ok w1 ∧
  (remaining (bson_time (start + dp_initialBackoff d)) (v_outbox (view w1))
   < remaining (bson_time (start + dp_initialBackoff d)) (v_outbox (view w)))%nat.
Proof.
  intros Hlim Hm Hok Hclock Hd. set (limit := bson_time (start + _)) in *.
  destruct (DispatchOne_outcome w w1 Hlim Hm Hok Hd)
    as (q & id & old & err & w2 & w3 & Hl & Hel & _ & [_ Hq]%Hclock & Hok1 & _ & Herr).
  pose proof (eligible_active limit _ _ Hq Hel) as Hold. split; [done|].
  enough (∃ new, v_outbox (view w1) = <[id := new]> (v_outbox (view w)) ∧ ¬ active limit new)
    as (new & -> & Hnew) by (by eapply remaining_drop).
  destruct err as [e|].
  - destruct Herr as (r & -> & (_ & _ & Hmin) & [Hr _]%Hclock). eexists. split; [done|].
    unfold active, rescheduled, d_status, d_next. simpl.
    destruct (String.eqb_spec (rr_Failure r) FailureRetryable) as [Hf|_]; [|by intros [?|[? _]]].
    apply Hmin in Hf. intros [?|[_ Hlt]]; [done|].
    assert (limit ≤ bson_time (rr_NextAttemptAt r)) by (apply bson_time_mono; lia). lia.
  - destruct Herr as (c & ->). eexists. split; [done|]. by intros [?|[? _]].
Qed.

(** A worker drains the outbox and stops.  As long as no clock reading
    comes later than the first possible retry (the readings span less than the
    initial back-off), a worker that runs alone ends after at most as many
    rounds as there are deliveries left, plus one; and unless it ends with an
    error, no delivery is left that was due at its last clock reading. *)
Theorem worker_drains start w fuel :
  limits_ok d → is_int64 (dp_maxBackoff d) → store_ok w →
  clock_before_retry start →
  (remaining (bson_time (start + dp_initialBackoff d)) (v_outbox (view w)) < fuel)%nat →
  ∃ r w', workerLoop ctx_err d fuel w = (Some r, w') ∧
    (r = None → ∃ t, reads t ∧ map_Forall (λ _ dl, eligible t dl = false) (v_outbox (view w'))).
Proof.
  intros Hlim Hm Hok Hclock.
  revert w Hok. induction fuel as [|fuel IH]; intros w Hok Hfuel; [lia|]. cbn [workerLoop].
  destruct (DispatchOne ctx_err d w) as [[b [e|]] w1] eqn:Hd; [by destruct b; eexists _, _|].
  destruct b; [|eexists _, _; split; [done|]; intros _; by eapply DispatchOne_idle].
  destruct (DispatchOne_drops start w w1 Hlim Hm Hok Hclock Hd) as [Hok1 Hlt]. apply IH; [done|lia].
Qed.
End Alone.
End DispatchProperties.

(** Every dispatcher the constructor accepts has consistent limits, finds
    exactly the configured notifiers under their names, and its back-off stays
    between the initial and the maximal one for every attempt. *)
Theorem newDispatcher_sound {W} (c : DispatcherConfig W) d n :
  NewDispatcher c = Ok d → is_int64 (dc_MaxBackoff c) →
  limits_ok d ∧
  (∀ name x, dp_notifiers d !! name = Some x ↔ Some x ∈ dc_Notifiers c ∧ nf_Name x = name) ∧
  dp_initialBackoff d ≤ backoff d n ≤ dp_maxBackoff d.
Proof.
  intros Hd Hm. pose proof (NewDispatcher_ok _ _ Hd) as Hl. split; [done|].
  assert (dp_maxBackoff d = dc_MaxBackoff c ∧ addNotifiers (dc_Notifiers c) ∅ = Ok (dp_notifiers d))
    as [Hmax Hnot].
  { unfold NewDispatcher in Hd. rewrite !fail_if_ok in Hd. destruct_and! Hd.
    destruct (dc_Now c); [|done].
    by match goal with H : rbind _ _ = Ok d |- _ => apply rbind_ok in H as (m & ? & [= <-]) end. }
  split.
  - intros name x. rewrite (addNotifiers_ok _ _ _ Hnot), lookup_empty. naive_solver.
  - destruct Hl as (_ & _ & _ & Hb). apply backoff_bounds; [done|]. by rewrite Hmax.
Qed.

(** ** Witnesses *)

Module DispatcherWitness.
#[local] Existing Instance Memory.memory_driver.

(** Two destinations: one accepts, one asks to come back later. *)
Definition accepting : Notifier Database := {| nf_Name := "d1"; nf_Deliver _ w := (None, w) |}.
Definition busy : Notifier Database :=
  {| nf_Name := "d2"; nf_Deliver _ w := (Some (notify_error {| ne_StatusCode := 503;
       ne_Retryable := true; ne_RetryDelay := 3600 * second; ne_Kind := "retryable" |}), w) |}.
Definition config : DispatcherConfig Database :=
  {| dc_HasStore := true; dc_Notifiers := [Some accepting; Some busy]; dc_WorkerID := "w1";
     dc_Workers := 1; dc_ClusterID := "c1"; dc_LeaseDuration := 30 * second; dc_MaxAttempts := 5;
     dc_InitialBackoff := second; dc_MaxBackoff := 300 * second; dc_DeliveredExpiry := 0;
     dc_FailedExpiry := 0; dc_Now := Some (λ w, (StoreWitness.noon, w)) |}.
Definition dispatcher : Dispatcher Database :=
  {| dp_notifiers := <["d2" := busy]> (<["d1" := accepting]> ∅); dp_workerID := "w1"; dp_workers := 1;
     dp_clusterID := "c1"; dp_leaseDuration := 30 * second; dp_maxAttempts := 5;
     dp_initialBackoff := second; dp_maxBackoff := 300 * second; dp_deliveredExpiry := 0;
     dp_failedExpiry := 0; dp_now w := (StoreWitness.noon, w) |}.
Definition no_end (_ : Database) : option string := None.

Lemma now_quiet w t w' : store_ok w → dp_now dispatcher w = (t, w') → unchanged w w'.
Proof. by intros Hok [= _ <-]. Qed.
Lemma deliver_quiet name n e w r w' :
  dp_notifiers dispatcher !! name = Some n → store_ok w → nf_Deliver n e w = (r, w') → unchanged w w'.
Proof.
  simpl. rewrite !lookup_insert_Some, lookup_empty.
  intros [[_ <-]|[_ [[_ <-]|[_ ?]]]] Hok Hd; [| |done]; simpl in Hd; by injection Hd as _ <-.
Qed.
End DispatcherWitness.

Lemma dispatch_outcome_witness :
  let _ := Memory.memory_driver in
  ∃ q id old, v_outbox (view StoreWitness.database) !! id = Some old ∧
    eligible (cl_Now q) old = true ∧ cl_WorkerID q = "w1".
Proof.
  intros D.
  destruct (DispatchOne DispatcherWitness.no_end DispatcherWitness.dispatcher StoreWitness.database)
    as [[b e] w'] eqn:Hd.
  assert (b = true ∧ e = None) as [-> ->] by (vm_compute in Hd; by injection Hd as <- <- _).
  destruct (dispatch_outcome (H := mongo_outbox) DispatcherWitness.no_end DispatcherWitness.dispatcher
    DispatcherWitness.now_quiet DispatcherWitness.deliver_quiet StoreWitness.database w')
    as (q & id & old & err & w1 & w2 & Hl & Hel & Hw & _).
  - clear Hd. by unfold limits_ok; split_and!.
  - clear Hd. by vm_compute.
  - exact StoreWitness.database_is_ok.
  - exact Hd.
  - exists q, id, old. split; [exact Hl|]. split; [exact Hel|exact Hw].
Defined.

Lemma newDispatcher_sound_witness :
  ∃ d, NewDispatcher DispatcherWitness.config = Ok d ∧ backoff d 4 ≤ 300 * second.
Proof.
  destruct (NewDispatcher DispatcherWitness.config) as [d|] eqn:Hd; [|by vm_compute in Hd].
  exists d. split; [reflexivity|].
  destruct (newDispatcher_sound DispatcherWitness.config d 4 Hd) as (_ & _ & Hb); [by vm_compute|].
  etrans; [apply Hb|]. vm_compute in Hd. by injection Hd as <-.
Defined.

Lemma worker_drains_witness :
  let _ := Memory.memory_driver in
  ∃ r w', workerLoop DispatcherWitness.no_end DispatcherWitness.dispatcher 3
            StoreWitness.database = (Some r, w') ∧ r = None.
Proof.
  intros D.
  destruct (worker_drains (H := mongo_outbox) DispatcherWitness.no_end DispatcherWitness.dispatcher
    DispatcherWitness.now_quiet DispatcherWitness.deliver_quiet StoreWitness.noon
    StoreWitness.database 3) as (r & w' & Hl & _).
  - by unfold limits_ok; split_and!.
  - by vm_compute.
  - exact StoreWitness.database_is_ok.
  - intros t (w & w' & _ & [= <- _]). split; [lia|]. by vm_compute.
  - vm_compute. lia.
  - exists r, w'. split; [exact Hl|]. vm_compute in Hl. by injection Hl as <- _.
Defined.
