(* ===== verification/DispatcherRun.v ===== *)
(** * Package [internal/notify], [dispatcher.go]: the workers of [Run]

    [Run] starts its workers and waits until each has found nothing left to do
    or has failed; their errors are collected in a channel, and the first one
    is returned.  Here the rounds of the workers follow each other in any order,
    given by a schedule of worker numbers; [System] lets them interfere within
    a round. *)
From S2P Require Import Prelude GoBase Domain Provider Store Documents Driver Contract MongoRefinement Outbox Notifier Dispatcher.

Section Run.
Context {W : Type} `{OutboxOps W} (ctx_err : W → option string) (d : Dispatcher W).

(** Which workers still run, what is in the channel, and the world. *)
Record run_state := { rs_running : list bool; rs_errorsOut : list DispatchError; rs_world : W }.

Definition run_start (w : W) : run_state :=
  {| rs_running := replicate (Z.to_nat (dp_workers d)) true; rs_errorsOut := []; rs_world := w |}.

(** One round of a worker. *)
Definition worker_round (s : run_state) (i : nat) : run_state :=
  match rs_running s !! i with
  | Some true =>
      match DispatchOne ctx_err d (rs_world s) with
      | ((_, Some e), w) => {| rs_running := <[i := false]> (rs_running s);
                               rs_errorsOut := rs_errorsOut s ++ [e]; rs_world := w |}
      | ((false, None), w) => {| rs_running := <[i := false]> (rs_running s);
                                 rs_errorsOut := rs_errorsOut s; rs_world := w |}
      | ((true, None), w) => {| rs_running := rs_running s; rs_errorsOut := rs_errorsOut s; rs_world := w |}
      end
  | _ => s
  end.

(** [None] while a worker runs. *)
Definition Dispatcher_Run (schedule : list nat) (w : W) : option (option DispatchError * W) :=
  let s := fold_left worker_round schedule (run_start w) in
  if existsb id (rs_running s) then None else Some (head (rs_errorsOut s), rs_world s).
End Run.

(** ** What a round does to the store *)

(** A relation that holds for every operation of the store on a delivery that is
    due, or that a worker holds, holds for a round, whether it succeeds or
    fails. *)
Section Round.
Context {W : Type} (ctx_err : W → option string) (d : Dispatcher W) `{OutboxStore W} (R : W → W → Prop).
Hypothesis now_quiet : ∀ w t w', store_ok w → dp_now d w = (t, w') → unchanged w w'.
Hypothesis deliver_quiet : ∀ name n e w r w', dp_notifiers d !! name = Some n →
  store_ok w → nf_Deliver n e w = (r, w') → unchanged w w'.

Definition handled (dl : Delivery) : Prop :=
  d_status dl = NotificationDelivering ∨ ∃ t, reads d t ∧ eligible t dl = true.

Hypothesis R_ok : ∀ w w', R w w' → store_ok w'.
Hypothesis R_unchanged : ∀ w w', unchanged w w' → R w w'.
Hypothesis R_trans : ∀ w1 w2 w3, R w1 w2 → R w2 w3 → R w1 w3.
Hypothesis R_put : ∀ w w' id old new, store_ok w' → v_outbox (view w) !! id = Some old → handled old →
  view w' = put_outbox id new (view w) → R w w'.

Lemma claim_relates t w r w' : reads d t → store_ok w →
  claim_delivery {| cl_WorkerID := dp_workerID d; cl_Now := t; cl_LeaseDuration := dp_leaseDuration d |} w = (r, w') →
  R w w'.
Proof.
  intros Ht Hok Hc. pose proof (claim_delivery_spec _ _ _ _ Hok Hc) as Hs.
  assert (Heff : ∀ dl, store_ok w' → claim_effect
    {| cl_WorkerID := dp_workerID d; cl_Now := t; cl_LeaseDuration := dp_leaseDuration d |} (view w) dl (view w') → R w w').
  { intros dl Hok' He. inversion He as [id old _ _ Hl Hel _ Hdl Hv]. eapply R_put; [done|exact Hl| |by symmetry].
    right. by exists t. }
  destruct r as [dl|e]; [destruct Hs; by eapply Heff|]. destruct (is_ErrNotFound e).
  - by apply R_unchanged, (proj1 Hs).
  - destruct Hs as [Hok' [Hv|[dl He]]]; [by apply R_unchanged|by eapply Heff].
Qed.
Lemma complete_relates q w r w' : store_ok w → complete_delivery q w = (r, w') → R w w'.
Proof.
  intros Hok Hc. pose proof (complete_delivery_spec _ _ _ _ Hok Hc) as Hs.
  assert (Heff : store_ok w' → complete_effect q (view w) (view w') → R w w').
  { intros Hok' He. inversion He as [old Hl [Hh _] Hv]. eapply R_put; [done|exact Hl|by left|by symmetry]. }
  destruct r as [[]|e]; [destruct Hs; by apply Heff|]. destruct (is_ErrConflict e).
  - by apply R_unchanged, (proj1 Hs).
  - destruct Hs as [Hok' [Hv|He]]; [by apply R_unchanged|by apply Heff].
Qed.
Lemma reschedule_relates q w r w' : store_ok w → reschedule_delivery q w = (r, w') → R w w'.
Proof.
  intros Hok Hc. pose proof (reschedule_delivery_spec _ _ _ _ Hok Hc) as Hs.
  assert (Heff : store_ok w' → reschedule_effect q (view w) (view w') → R w w').
  { intros Hok' He. inversion He as [old Hl [Hh _] _ Hv]. eapply R_put; [done|exact Hl|by left|by symmetry]. }
  destruct r as [[]|e]; [destruct Hs; by apply Heff|]. destruct (is_ErrConflict e).
  - by apply R_unchanged, (proj1 Hs).
  - destruct Hs as [Hok' [Hv|He]]; [by apply R_unchanged|by apply Heff].
Qed.

Lemma DispatchOne_relates w r w' : store_ok w → DispatchOne ctx_err d w = (r, w') → R w w'.
Proof.
  intros Hok. unfold DispatchOne. destruct (ctx_err w); [by intros [= _ <-]; apply R_unchanged|].
  destruct (dp_now d w) as [t w1] eqn:Hn. assert (Hread : reads d t) by (by exists w, w1).
  pose proof (now_quiet _ _ _ Hok Hn) as Hu1. destruct (claim_delivery _ w1) as [x w2] eqn:Hc.
  pose proof (claim_relates t w1 x w2 Hread (proj1 Hu1) Hc) as H2. apply R_unchanged in Hu1.
  pose proof (R_trans _ _ _ Hu1 H2) as H12. destruct x as [dl|e]; [|by destruct (is_ErrNotFound e); intros [= _ <-]].
  destruct (attempt d dl t w2) as [err w3] eqn:Ha.
  apply (attempt_quiet d deliver_quiet) in Ha; [|by eapply R_ok]. pose proof (proj1 Ha) as Hok3.
  apply R_unchanged in Ha. pose proof (R_trans _ _ _ H12 Ha) as H13.
  destruct err as [err|]; [destruct (ctx_err w3); [by intros [= _ <-]|]|].
  - unfold finalizeFailure. destruct (classify d _ err). destruct (dp_now d w3) as [t' w4] eqn:Hn'.
    apply now_quiet in Hn' as Hu4; [|done]. destruct (reschedule_delivery _ w4) as [y w5] eqn:Hr.
    apply reschedule_relates in Hr; [|by destruct Hu4]. apply R_unchanged in Hu4.
    assert (H15 : R w w5) by (eapply R_trans; [exact H13|]; by eapply R_trans).
    by destruct y; intros [= _ <-].
  - unfold finalizeSuccess. destruct (dp_now d w3) as [t' w4] eqn:Hn'.
    apply now_quiet in Hn' as Hu4; [|done]. destruct (complete_delivery _ w4) as [y w5] eqn:Hr.
    apply complete_relates in Hr; [|by destruct Hu4]. apply R_unchanged in Hu4.
    assert (H15 : R w w5) by (eapply R_trans; [exact H13|]; by eapply R_trans).
    by destruct y; intros [= _ <-].
Qed.
End Round.

Section Drain.
Context {W : Type} (ctx_err : W → option string) (d : Dispatcher W) `{OutboxStore W}.
Hypothesis now_quiet : ∀ w t w', store_ok w → dp_now d w = (t, w') → unchanged w w'.
Hypothesis deliver_quiet : ∀ name n e w r w', dp_notifiers d !! name = Some n →
  store_ok w → nf_Deliver n e w = (r, w') → unchanged w w'.
Hypothesis Hlim : limits_ok d.
Hypothesis Hmax : is_int64 (dp_maxBackoff d).
Context (start : time).
Hypothesis Hclock : clock_before_retry d start.

Definition left_to_do (w : W) : nat :=
  remaining (bson_time (start + dp_initialBackoff d)) (v_outbox (view w)).

Lemma remaining_keep limit id old new m :
  m !! id = Some old → active limit old → (remaining limit (<[id := new]> m) ≤ remaining limit m)%nat.
Proof.
  intros Hl Ho. destruct (decide (active limit new)) as [Hn|Hn]; [|by apply Nat.lt_le_incl; eapply remaining_drop].
  unfold remaining. rewrite map_filter_insert_True by done.
  assert (Hf : filter (λ kd : string * Delivery, active limit kd.2) m !! id = Some old)
    by (by apply map_lookup_filter_Some).
  by rewrite map_size_insert_Some.
Qed.

(** An operation of the store on a delivery that may be claimed, or is held. *)
Definition shrinks (w w' : W) : Prop := store_ok w' ∧ (left_to_do w' ≤ left_to_do w)%nat.
Lemma unchanged_shrinks w w' : unchanged w w' → shrinks w w'.
Proof. intros [Hok Hv]. split; [done|]. unfold left_to_do. by rewrite Hv. Qed.
Lemma shrinks_trans w1 w2 w3 : shrinks w1 w2 → shrinks w2 w3 → shrinks w1 w3.
Proof. intros [_ ?] [? ?]. split; [done|]. by etrans. Qed.
Lemma put_shrinks w w' id old new :
  store_ok w' → v_outbox (view w) !! id = Some old → active (bson_time (start + dp_initialBackoff d)) old →
  view w' = put_outbox id new (view w) → shrinks w w'.
Proof. intros Hok Hl Ha Hv. split; [done|]. unfold left_to_do. rewrite Hv. by eapply remaining_keep. Qed.

(** No round adds work, whether it succeeds or fails. *)
Lemma DispatchOne_shrinks w r w' : store_ok w → DispatchOne ctx_err d w = (r, w') → shrinks w w'.
Proof.
  apply (DispatchOne_relates ctx_err d shrinks now_quiet deliver_quiet).
  - by intros ? ? [? _].
  - exact unchanged_shrinks.
  - exact shrinks_trans.
  - intros w1 w2 id old new Hok Hl Hh Hv. eapply put_shrinks; [done|exact Hl| |exact Hv].
    destruct Hh as [Hh|(t & [_ Ht]%Hclock & Hel)]; [by left|by eapply eligible_active].
Qed.

(** *** The schedule *)

Abbreviation state := (run_state (W := W)) (only parsing).
Abbreviation step := (worker_round ctx_err d) (only parsing).

(** What a turn does to the other workers and to the work that is left. *)
Lemma round_spec (s : state) i : store_ok (rs_world s) →
  shrinks (rs_world s) (rs_world (step s i)) ∧
  length (rs_running (step s i)) = length (rs_running s) ∧
  (∀ j, j ≠ i → rs_running (step s i) !! j = rs_running s !! j) ∧
  (rs_running s !! i = Some true →
   rs_running (step s i) !! i = Some false ∨
   rs_running (step s i) !! i = Some true ∧ (left_to_do (rs_world (step s i)) < left_to_do (rs_world s))%nat).
Proof.
  intros Hok. unfold worker_round. destruct (rs_running s !! i) as [[]|] eqn:Hi;
    [|by split_and!; [apply unchanged_shrinks|..]..].
  pose proof (lookup_lt_Some _ _ _ Hi) as Hlt.
  destruct (DispatchOne ctx_err d (rs_world s)) as [[b [e|]] w] eqn:Hd;
    pose proof (DispatchOne_shrinks _ _ _ Hok Hd) as Hs.
  - destruct b; cbn; (split_and!; [done|by rewrite length_insert|intros j Hj; by rewrite list_lookup_insert_ne by done|];
      intros _; left; by rewrite list_lookup_insert_eq).
  - destruct b; cbn.
    + destruct (DispatchOne_drops ctx_err d now_quiet deliver_quiet start _ _ Hlim Hmax Hok Hclock Hd) as [_ Hlt'].
      split_and!; [done..|]. intros _. right. by split.
    + split_and!; [done|by rewrite length_insert|intros j Hj; by rewrite list_lookup_insert_ne by done|].
      intros _. left. by rewrite list_lookup_insert_eq.
Qed.
Lemma stopped_stays (s : state) i j : rs_running s !! i = Some false → rs_running (step s j) !! i = Some false.
Proof.
  intros Hi. unfold worker_round. destruct (rs_running s !! j) as [[]|] eqn:Hj; [|done..].
  assert (Hne : j ≠ i) by (intros ->; congruence).
  destruct (DispatchOne ctx_err d (rs_world s)) as [[[] [e|]] w]; cbn; by rewrite ?list_lookup_insert_ne.
Qed.

Definition turns (i : nat) (schedule : list nat) : nat := length (List.filter (Nat.eqb i) schedule).

(** A worker stops after at most one turn more than there is work. *)
Lemma worker_stops schedule (s : state) i b : store_ok (rs_world s) → rs_running s !! i = Some b →
  (left_to_do (rs_world s) < turns i schedule)%nat →
  rs_running (fold_left step schedule s) !! i = Some false.
Proof.
  revert s b. induction schedule as [|j schedule IH]; intros s b Hok Hi; cbn [turns List.filter length fold_left]; [cbn; lia|].
  intros Hturns. destruct (round_spec s j Hok) as ([Hok' Hle] & _ & Hother & Hself).
  assert (Hstop : rs_running (step s j) !! i = Some false → rs_running (fold_left step schedule (step s j)) !! i = Some false).
  { clear. generalize (step s j). induction schedule as [|k schedule IH]; intros s' Hf; cbn [fold_left]; [done|].
    by apply IH, stopped_stays. }
  destruct b; [|by apply Hstop, stopped_stays].
  unfold turns in *. cbn [List.filter] in Hturns. destruct (Nat.eqb_spec i j) as [<-|Hne].
  - destruct (Hself Hi) as [Hf|[Ht Hlt]]; [by apply Hstop|]. apply (IH _ true Hok' Ht). cbn [length] in Hturns. lia.
  - apply (IH _ true Hok'); [by rewrite Hother by done|lia].
Qed.

(** Nothing is due once the workers have stopped without an error. *)
Definition quiet (s : state) : Prop :=
  rs_errorsOut s = [] → existsb id (rs_running s) = false → rs_running s ≠ [] →
  ∃ t, reads d t ∧ map_Forall (λ _ dl, eligible t dl = false) (v_outbox (view (rs_world s))).
Lemma round_quiet (s : state) i : store_ok (rs_world s) → quiet s → quiet (step s i).
Proof.
  intros Hok Hq. unfold worker_round. destruct (rs_running s !! i) as [[]|] eqn:Hi; [|done..].
  destruct (DispatchOne ctx_err d (rs_world s)) as [[[] [e|]] w] eqn:Hd; unfold quiet; cbn.
  - intros He. by apply app_eq_nil in He as [_ ?].
  - intros _ Hall. exfalso. apply not_true_iff_false in Hall. apply Hall, existsb_exists. exists true. split; [|done].
    apply list_elem_of_In. by eapply list_elem_of_lookup_2.
  - intros He. by apply app_eq_nil in He as [_ ?].
  - intros _ _ _. by eapply (DispatchOne_idle ctx_err d now_quiet).
Qed.
Lemma rounds_spec schedule (s : state) : store_ok (rs_world s) → quiet s →
  store_ok (rs_world (fold_left step schedule s)) ∧ quiet (fold_left step schedule s) ∧
  length (rs_running (fold_left step schedule s)) = length (rs_running s).
Proof.
  revert s. induction schedule as [|i schedule IH]; intros s Hok Hq; cbn [fold_left]; [done|].
  destruct (round_spec s i Hok) as ([Hok' _] & Hlen & _). rewrite <- Hlen. apply IH; [done|by apply round_quiet].
Qed.

End Drain.

(** ** Witness: two workers, two deliveries *)

Module RunWitness.
#[local] Existing Instance Memory.memory_driver.
Definition dispatcher : Dispatcher Database :=
  let d := DispatcherWitness.dispatcher in
  {| dp_notifiers := dp_notifiers d; dp_workerID := dp_workerID d; dp_workers := 2; dp_clusterID := dp_clusterID d;
     dp_leaseDuration := dp_leaseDuration d; dp_maxAttempts := dp_maxAttempts d;
     dp_initialBackoff := dp_initialBackoff d; dp_maxBackoff := dp_maxBackoff d;
     dp_deliveredExpiry := dp_deliveredExpiry d; dp_failedExpiry := dp_failedExpiry d; dp_now := dp_now d |}.
Definition schedule : list nat := [0; 1; 1; 0; 1; 0]%nat.
Definition limits : limits_ok dispatcher.
Proof. by unfold limits_ok; split_and!. Qed.
Lemma clock : clock_before_retry dispatcher StoreWitness.noon.
Proof. intros t (w & w' & _ & [= <- _]). split; [lia|]. by vm_compute. Qed.
Lemma enough i : (i < Z.to_nat (dp_workers dispatcher))%nat →
  (left_to_do dispatcher StoreWitness.noon StoreWitness.database < turns i schedule)%nat.
Proof.
  replace (left_to_do dispatcher StoreWitness.noon StoreWitness.database) with 2%nat by (vm_compute; reflexivity).
  intros Hi. destruct i as [|[|i]]; [vm_compute; lia..|cbn in Hi; lia].
Qed.
End RunWitness.

