(* ===== verification/Webhook.v ===== *)
(** * Package [internal/notify/webhook]: the webhook notifier

    A webhook lives in an outside world [W] with name resolution, an HTTP
    client and a clock.  The transport of the standard library is a parameter
    that gets the dialer of [safeHTTPClient]. *)
From S2P Require Import Prelude GoBase Json GoNet Sha256 Signing Notifier Dispatcher.

Definition headerEventID : string := "X-RuleRaven-Event-ID".
Definition headerSignature : string := "X-RuleRaven-Signature".
Definition headerTimestamp : string := "X-RuleRaven-Timestamp".
Definition headerGenericSignatureV2 : string := "X-Webhook-Signature-V2".
Definition headerGenericTimestamp : string := "X-Webhook-Timestamp".

Definition unsafeIP (ip : IP) : bool :=
  match ip with
  | None => true
  | Some b => IsUnspecified b || IsLoopback b || IsPrivate b || IsLinkLocalUnicast b
              || IsLinkLocalMulticast b || IsMulticast b
  end.

Definition retryableStatus (status : Z) : bool :=
  (status =? 408) || (status =? 409) || (status =? 425) || (status =? 429)
  || ((500 <=? status) && (status <=? 599)).

Definition webhookRetryAfter `{NetParsers} (raw : string) (now : time) (maximum : duration)
    : duration :=
  if raw =s? "" then 0 else
  let capped delay := if (0 <? maximum) && (maximum <? delay) then maximum else delay in
  let by_date := match parse_http_time raw with
                 | Some retryAt => if after retryAt now then time_sub retryAt now else 0
                 | None => 0
                 end in
  match parse_int (trim_space raw) with
  | Some seconds =>
      if 0 <? seconds then
        if (0 <? maximum) && (Z.quot maximum second <? seconds) then maximum
        else capped (wrap64 (seconds * second))
      else capped by_date
  | None => capped by_date
  end.

(** ** The JSON encoding of an envelope *)

(** [json.Marshal(event)]; the data of an envelope is never [nil]. *)
Definition marshalEnvelope (e : Envelope) : option string :=
  if time_marshals (env_Time e) && json_valid (env_Data e) then
    Some ("{" +:+ join "," (map json_field
            [("specversion", JString (env_SpecVersion e)); ("id", JString (env_ID e));
             ("source", JString (env_Source e)); ("type", JString (env_Type e));
             ("time", JTime (env_Time e)); ("datacontenttype", JString (env_DataContentType e));
             ("ruleravenschema", JString (env_SchemaVersion e))])
          +:+ "," +:+ json_string "data" +:+ ":" +:+ json_compact false false (env_Data e) +:+ "}")
  else None.

(** ** Hosts and connections *)

Section Webhook.
Context {W : Type} `{NetParsers}.

(** [lookup(ctx, host)]: the addresses of a host, [None] for an error. *)
Definition LookupIP : Type := string → W → option (list IP) * W.

Variant HostError := host_required | host_unresolved | host_not_public.

Definition validateHost (host : string) (allowPrivate : bool) (lookup : LookupIP) (w : W)
    : option HostError * W :=
  if blank host then (Some host_required, w) else
  match lookup host w with
  | (None, w) => (Some host_unresolved, w)
  | (Some addresses, w) =>
      if Nat.eqb (length addresses) 0 then (Some host_unresolved, w) else
      if allowPrivate then (None, w) else
      (if existsb unsafeIP addresses then Some host_not_public else None, w)
  end.

(** Opening a connection to an address and a port; [None] when dialing fails. *)
Context {Conn : Type} (split_host_port : string → option (string * string))
  (dial : IP → string → W → option Conn * W).

Definition trim_dot (s : string) : string := if has_suffix s "." then drop_last s else s.

(** The loop over the resolved addresses. *)
Fixpoint dialFirst (allowPrivate : bool) (port : string) (addresses : list IP) (w : W)
    : option (IP * Conn) * W :=
  match addresses with
  | [] => (None, w)
  | ip :: rest =>
      if negb allowPrivate && unsafeIP ip then dialFirst allowPrivate port rest w
      else match dial ip port w with
           | (Some connection, w) => (Some (ip, connection), w)
           | (None, w) => dialFirst allowPrivate port rest w
           end
  end.

(** The [DialContext] of [safeHTTPClient]; the address dialed is returned with
    the connection. *)
Definition safeDial (host : string) (allowPrivate : bool) (lookup : LookupIP) (address : string)
    (w : W) : option (IP * Conn) * W :=
  match split_host_port address with
  | None => (None, w)
  | Some (addressHost, port) =>
      if negb (equal_fold (trim_dot addressHost) (trim_dot host)) then (None, w) else
      match lookup host w with
      | (None, w) => (None, w)
      | (Some addresses, w) =>
          if Nat.eqb (length addresses) 0 then (None, w)
          else dialFirst allowPrivate port addresses w
      end
  end.

(** A client as configured: what it does when it follows redirects or not;
    only a concrete [*http.Client] can be told not to. *)
Record Client := { hc_Do : bool → Do W; hc_Concrete : bool }.

(** The transport of the standard library over a dialer. *)
Context (transport : (string → W → option (IP * Conn) * W) → bool → Do W)
  (defaultLookup : LookupIP) (systemNow : W → time * W).

Definition safeHTTPClient (host : string) (allowPrivate : bool) (lookup : LookupIP) : Do W :=
  transport (safeDial host allowPrivate lookup) false.

(** ** Construction *)

Record FactoryConfig := {
  fc_DestinationID : string; fc_Endpoint : string; fc_Secret : string; fc_Timeout : duration;
  fc_MaxResponseBytes : Z; fc_MaxRetryAfter : duration; fc_AllowInsecureHTTP : bool;
  fc_AllowPrivateNetwork : bool; fc_HTTPClient : option Client; fc_LookupIP : option LookupIP;
  fc_Now : option (W → time * W)
}.

Record Hook := {
  wh_name : string; wh_endpoint : URL; wh_secret : string; wh_timeout : duration;
  wh_maxResponseBytes : Z; wh_maxRetryAfter : duration; wh_allowPrivate : bool;
  wh_client : Do W; wh_lookupIP : LookupIP; wh_now : W → time * W
}.

Variant HookError :=
  | destination_required | secret_required | timeout_not_positive | response_limit_not_positive
  | retry_after_not_positive | endpoint_invalid | endpoint_userinfo | endpoint_not_https
  | endpoint_scheme | host_error (e : HostError) | client_not_allowed.

Definition checkEndpoint (endpoint : URL) (allowInsecure : bool) : result HookError unit :=
  fail_if! u_HasUser endpoint || (u_Fragment endpoint ≠s? "") with endpoint_userinfo;
  fail_if! (u_Scheme endpoint ≠s? "https") && negb ((u_Scheme endpoint =s? "http") && allowInsecure)
    with endpoint_not_https;
  fail_if! (u_Scheme endpoint ≠s? "http") && (u_Scheme endpoint ≠s? "https") with endpoint_scheme;
  Ok ().

Definition checkConfig (c : FactoryConfig) : result HookError URL :=
  fail_if! blank (fc_DestinationID c) with destination_required;
  fail_if! len (fc_Secret c) =? 0 with secret_required;
  fail_if! fc_Timeout c <=? 0 with timeout_not_positive;
  fail_if! fc_MaxResponseBytes c <=? 0 with response_limit_not_positive;
  fail_if! fc_MaxRetryAfter c <=? 0 with retry_after_not_positive;
  match url_parse (fc_Endpoint c) with
  | None => Err endpoint_invalid
  | Some endpoint =>
      fail_if! u_Host endpoint =s? "" with endpoint_invalid;
      _ ←! checkEndpoint endpoint (fc_AllowInsecureHTTP c);
      Ok endpoint
  end.

Definition NewWebhook (c : FactoryConfig) : eff W HookError Hook :=
  endpoint ←~ elift (checkConfig c);
  let lookup := default defaultLookup (fc_LookupIP c) in
  λ w,
    match validateHost (hostname endpoint) (fc_AllowPrivateNetwork c) lookup w with
    | (Some e, w) => (Err (host_error e), w)
    | (None, w) =>
        (guard! match fc_HTTPClient c with Some _ => negb (fc_AllowPrivateNetwork c) | None => false end
           with client_not_allowed;
         let client := match fc_HTTPClient c with
                       | None => safeHTTPClient (hostname endpoint) (fc_AllowPrivateNetwork c) lookup
                       | Some client => hc_Do client (negb (hc_Concrete client))
                       end in
         eret {| wh_name := fc_DestinationID c; wh_endpoint := endpoint;
                 wh_secret := fc_Secret c; wh_timeout := fc_Timeout c;
                 wh_maxResponseBytes := fc_MaxResponseBytes c;
                 wh_maxRetryAfter := fc_MaxRetryAfter c;
                 wh_allowPrivate := fc_AllowPrivateNetwork c; wh_client := client;
                 wh_lookupIP := lookup; wh_now := default systemNow (fc_Now c) |}) w
    end.

(** ** Delivery *)

(** The end of the caller's context and of the request's own context. *)
Context (ctx_err request_err : W → option CtxError).

Definition context_error (e : CtxError) : DeliverError :=
  match e with
  | Canceled => other_deliver_error "context canceled"
  | DeadlineExceeded => deadline_exceeded
  end.

(** The signed request that is sent. *)
Definition hookRequest (h : Hook) (event : Envelope) (body : string) (timestamp : time) : Request :=
  let timestampValue := format_int (unix timestamp) in
  let signature := Sign (wh_secret h) timestamp body in
  {| rq_Method := "POST"; rq_URL := url_string (wh_endpoint h); rq_Body := body;
     rq_Header := header_set headerGenericSignatureV2 signature
       (header_set headerGenericTimestamp timestampValue
       (header_set headerSignature ("v1=" +:+ signature)
       (header_set headerTimestamp timestampValue
       (header_set headerEventID (env_ID event)
       (header_set "Content-Type" "application/cloudevents+json" ∅))))) |}.

Definition success (status : Z) : bool := (200 <=? status) && (status <=? 299).

(** What a response means. *)
Definition judge (h : Hook) (timestamp : time) (response : Response) : option DeliverError :=
  match read_limited (wh_maxResponseBytes h + 1) response with
  | None => Some (notify_error {| ne_StatusCode := 0; ne_Retryable := true; ne_RetryDelay := 0;
                                  ne_Kind := "transport" |})
  | Some body =>
      let status := rs_StatusCode response in
      let retryable := retryableStatus status in
      let delay := webhookRetryAfter (header_get "Retry-After" (rs_Header response)) timestamp
                     (wh_maxRetryAfter h) in
      if wh_maxResponseBytes h <? len body then
        if success status then None
        else Some (notify_error {| ne_StatusCode := status; ne_Retryable := retryable;
                                   ne_RetryDelay := delay; ne_Kind := "response_too_large" |})
      else if success status then None
      else if (300 <=? status) && (status <=? 399) then
        Some (notify_error {| ne_StatusCode := status; ne_Retryable := false; ne_RetryDelay := 0;
                              ne_Kind := "redirect" |})
      else Some (notify_error {| ne_StatusCode := status; ne_Retryable := retryable;
                                 ne_RetryDelay := delay;
                                 ne_Kind := if retryable then "retryable" else "permanent" |})
  end.

Definition exchange (h : Hook) (event : Envelope) (body : string) (w : W)
    : option DeliverError * W :=
  let '(timestamp, w) := wh_now h w in
  let request := hookRequest h event body timestamp in
  match url_parse (rq_URL request) with
  | None => (Some (simple_error "invalid_request"), w)
  | Some _ =>
      match wh_client h request w with
      | (None, w) =>
          (Some match request_err w with
                | Some e => context_error e
                | None => notify_error {| ne_StatusCode := 0; ne_Retryable := true;
                                          ne_RetryDelay := 0; ne_Kind := "transport" |}
                end, w)
      | (Some response, w) => (judge h timestamp response, w)
      end
  end.

Definition Deliver (h : Hook) (event : Envelope) (w : W) : option DeliverError * W :=
  match ctx_err w with
  | Some e => (Some (context_error e), w)
  | None =>
      if (env_ID event =s? "") || (env_SpecVersion event ≠s? CloudEventsSpecVersion)
         || (env_SchemaVersion event ≠s? EnvelopeSchemaVersion)
      then (Some (simple_error "invalid_envelope"), w) else
      match validateHost (hostname (wh_endpoint h)) (wh_allowPrivate h) (wh_lookupIP h) w with
      | (Some _, w) => (Some (simple_error "unsafe_destination"), w)
      | (None, w) =>
          match marshalEnvelope event with
          | None => (Some (simple_error "invalid_envelope"), w)
          | Some body => exchange h event body w
          end
      end
  end.

(** A webhook is a notifier of the dispatcher. *)
Definition hookNotifier (h : Hook) : Notifier W := {| nf_Name := wh_name h; nf_Deliver := Deliver h |}.
End Webhook.

(** ** Address ranges *)

(** An address as a number, and membership in a network given by the bytes of
    its address and the number of its leading bits. *)
Fixpoint ip_number (b : list Z) : Z :=
  match b with [] => 0 | x :: r => x * 256 ^ Z.of_nat (length r) + ip_number r end.
Definition in_network (b : list Z) (network : list Z * Z) : bool :=
  let shift := 8 * Z.of_nat (length b) - network.2 in
  Z.shiftr (ip_number b) shift =? Z.shiftr (ip_number network.1) shift.

(** The networks a webhook must not reach: the unspecified address, loopback,
    private, link-local and multicast addresses. *)
Definition v4_networks : list (list Z * Z) :=
  [([0; 0; 0; 0], 32); ([127; 0; 0; 0], 8); ([10; 0; 0; 0], 8); ([172; 16; 0; 0], 12);
   ([192; 168; 0; 0], 16); ([169; 254; 0; 0], 16); ([224; 0; 0; 0], 4)].
Definition v6_networks : list (list Z * Z) :=
  [(replicate 16 0, 128); (replicate 15 0 ++ [1], 128); (0xfc :: replicate 15 0, 7);
   (0xfe :: 0x80 :: replicate 14 0, 10); (0xff :: replicate 15 0, 8)].

Definition valid_ip (b : list Z) : Prop :=
  (length b = 4%nat ∨ length b = 16%nat) ∧ Forall (λ x, 0 ≤ x < 256) b.

Lemma ip_number_bound b : Forall (λ x, 0 ≤ x < 256) b → 0 ≤ ip_number b < 256 ^ Z.of_nat (length b).
Proof.
  induction 1 as [|x b Hx _ IH]; cbn [ip_number length]; [lia|].
  rewrite Nat2Z.inj_succ, Z.pow_succ_r by lia. nia.
Qed.
Lemma ip_number_inj b b' :
  length b = length b' → Forall (λ x, 0 ≤ x < 256) b → Forall (λ x, 0 ≤ x < 256) b' →
  ip_number b = ip_number b' → b = b'.
Proof.
  revert b'. induction b as [|x b IH]; intros [|y b'] Hl Hb Hb'; try done.
  injection Hl as Hl. apply Forall_cons in Hb as [Hx Hb]. apply Forall_cons in Hb' as [Hy Hb'].
  cbn [ip_number]. pose proof (ip_number_bound b Hb) as H1. pose proof (ip_number_bound b' Hb') as H2.
  rewrite Hl in *. intros Heq. assert (x = y) as -> by nia. f_equal. apply IH; [done..|nia].
Qed.

(** A property of bytes holds when it holds for the 256 values. *)
Lemma byte_cases (P : Z → bool) x : 0 ≤ x < 256 → forallb P (seqZ 0 256) = true → P x = true.
Proof.
  intros Hx Hall. rewrite forallb_forall in Hall. apply Hall.
  apply list_elem_of_In, elem_of_seqZ. lia.
Qed.
Lemma byte_eqb (f g : Z → bool) x :
  0 ≤ x < 256 → forallb (λ x, Bool.eqb (f x) (g x)) (seqZ 0 256) = true → f x = g x.
Proof. intros Hx Hall. apply Bool.eqb_prop. by apply (byte_cases (λ x, Bool.eqb (f x) (g x))). Qed.

(** Networks of at most eight and of at most sixteen bits look at the first one
    or two bytes. *)
Lemma in_network_8 x r n p bits :
  0 ≤ x < 256 → Forall (λ x, 0 ≤ x < 256) r → length n = length r →
  0 ≤ p < 256 → Forall (λ x, 0 ≤ x < 256) n → 0 ≤ bits ≤ 8 →
  in_network (x :: r) (p :: n, bits) = (Z.shiftr x (8 - bits) =? Z.shiftr p (8 - bits)).
Proof.
  intros Hx Hr Hl Hp Hn Hbits. unfold in_network. cbn [ip_number fst snd].
  pose proof (ip_number_bound r Hr) as Br. pose proof (ip_number_bound n Hn) as Bn. rewrite Hl in *.
  assert (Hshift : ∀ y m, 0 ≤ m < 256 ^ Z.of_nat (length r) →
    Z.shiftr (y * 256 ^ Z.of_nat (length r) + m) (8 * Z.of_nat (length (x :: r)) - bits)
    = Z.shiftr y (8 - bits)).
  { intros y m Hm. replace (8 * Z.of_nat (length (x :: r)) - bits)
      with (8 * Z.of_nat (length r) + (8 - bits)) by (cbn [length]; lia).
    rewrite <- Z.shiftr_shiftr by lia. f_equal. rewrite Z.shiftr_div_pow2 by lia.
    rewrite Z.pow_mul_r by lia. change (2 ^ 8) with 256.
    rewrite Z.div_add_l by lia. rewrite Z.div_small by lia. lia. }
  by rewrite !Hshift.
Qed.
Lemma in_network_16 x y r n p q bits :
  0 ≤ x < 256 → 0 ≤ y < 256 → Forall (λ x, 0 ≤ x < 256) r → length n = length r →
  0 ≤ p < 256 → 0 ≤ q < 256 → Forall (λ x, 0 ≤ x < 256) n → 8 ≤ bits ≤ 16 →
  in_network (x :: y :: r) (p :: q :: n, bits)
  = (x =? p) && (Z.shiftr y (16 - bits) =? Z.shiftr q (16 - bits)).
Proof.
  intros Hx Hy Hr Hl Hp Hq Hn Hbits. unfold in_network. cbn [ip_number fst snd length].
  pose proof (ip_number_bound r Hr) as Br. pose proof (ip_number_bound n Hn) as Bn. rewrite Hl in *.
  set (B := 256 ^ Z.of_nat (length r)) in *.
  assert (HB : 256 ^ Z.of_nat (S (length r)) = 256 * B)
    by (rewrite Nat2Z.inj_succ, Z.pow_succ_r by lia; done).
  rewrite HB.
  assert (Hshift : ∀ u v m, 0 ≤ v < 256 → 0 ≤ m < B →
    Z.shiftr (u * (256 * B) + (v * B + m)) (8 * Z.of_nat (S (S (length r))) - bits)
    = u * 2 ^ (bits - 8) + Z.shiftr v (16 - bits)).
  { intros u v m Hv Hm.
    replace (8 * Z.of_nat (S (S (length r))) - bits)
      with (8 * Z.of_nat (length r) + (16 - bits)) by lia.
    rewrite <- Z.shiftr_shiftr by lia.
    replace (u * (256 * B) + (v * B + m)) with ((u * 256 + v) * B + m) by lia.
    rewrite (Z.shiftr_div_pow2 _ (8 * _)) by lia. rewrite Z.pow_mul_r by lia.
    change (2 ^ 8) with 256. fold B. rewrite Z.div_add_l by lia. rewrite (Z.div_small m) by lia.
    rewrite Z.add_0_r, !Z.shiftr_div_pow2 by lia.
    replace 256 with (2 ^ (bits - 8) * 2 ^ (16 - bits)) at 1
      by (rewrite <- Z.pow_add_r by lia; replace (bits - 8 + (16 - bits)) with 8 by lia; done).
    rewrite Z.mul_assoc, Z.div_add_l by (apply Z.pow_nonzero; lia). done. }
  rewrite !Hshift by done. apply eq_true_iff_eq. rewrite andb_true_iff, !Z.eqb_eq.
  assert (Hs : ∀ v, 0 ≤ v < 256 → 0 ≤ Z.shiftr v (16 - bits) < 2 ^ (bits - 8)).
  { intros v Hv. rewrite Z.shiftr_div_pow2 by lia. split; [apply Z.div_pos; lia|].
    apply Z.div_lt_upper_bound; [lia|]. rewrite <- Z.pow_add_r by lia.
    replace (16 - bits + (bits - 8)) with 8 by lia. simpl. lia. }
  pose proof (Hs y Hy). pose proof (Hs q Hq). split; [intros|intros [-> ->]; done].
  assert (x = p) as -> by nia. split; [done|lia].
Qed.
Lemma in_network_full b n bits :
  bits = 8 * Z.of_nat (length b) → length n = length b →
  Forall (λ x, 0 ≤ x < 256) b → Forall (λ x, 0 ≤ x < 256) n →
  in_network b (n, bits) = bool_decide (b = n).
Proof.
  intros -> Hl Hb Hn. unfold in_network. cbn [fst snd]. rewrite Z.sub_diag, !Z.shiftr_0_r.
  apply eq_true_iff_eq. rewrite Z.eqb_eq, bool_decide_eq_true. split; [|by intros ->].
  by apply ip_number_inj.
Qed.

Lemma to4_shape b v : valid_ip b → to4 b = Some v →
  (b = v ∨ b = v4_prefix ++ v) ∧ ∃ w x y z, v = [w; x; y; z] ∧
  0 ≤ w < 256 ∧ 0 ≤ x < 256 ∧ 0 ≤ y < 256 ∧ 0 ≤ z < 256.
Proof.
  intros [Hl Hb]. unfold to4.
  assert (Hfour : ∀ l, length l = 4%nat → Forall (λ x, 0 ≤ x < 256) l → ∃ w x y z, l = [w; x; y; z] ∧
    0 ≤ w < 256 ∧ 0 ≤ x < 256 ∧ 0 ≤ y < 256 ∧ 0 ≤ z < 256).
  { intros [|w [|x [|y [|z []]]]]; try done. rewrite !Forall_cons. intros _ (? & ? & ? & ? & _).
    by exists w, x, y, z. }
  destruct (Nat.eqb_spec (length b) 4); [intros [= <-]; auto|].
  destruct (_ && _) eqn:Hc; [|done]. intros [= <-].
  apply andb_true_iff in Hc as [Hl16%Nat.eqb_eq Hp%bool_decide_eq_true]. split.
  - right. rewrite <- Hp. symmetry. apply take_drop.
  - apply Hfour; [rewrite length_drop; lia|by apply Forall_drop].
Qed.

Lemma unspecified_v4 b v : valid_ip b → to4 b = Some v → IsUnspecified b = bool_decide (v = [0; 0; 0; 0]).
Proof.
  intros Hb Hv. destruct (to4_shape b v Hb Hv) as [[-> | ->] (w & x & y & z & -> & _)].
  - unfold IsUnspecified, ip_equal16. cbn. rewrite orb_false_r.
    rewrite (bool_decide_eq_true_2 (_ = v4_prefix)) by done. apply bool_decide_ext.
    split; intros Heq; by rewrite Heq.
  - unfold IsUnspecified, ip_equal16. cbn.
    rewrite (bool_decide_eq_false_2 (_ = IPv6unspecified)) by (intros [=]). rewrite orb_false_r.
    apply bool_decide_ext. split; intros Heq; [by injection Heq as -> -> -> -> |by rewrite Heq].
Qed.

Ltac all_bytes := repeat (apply Forall_cons; split; [lia|]); by apply Forall_nil.

Lemma unsafe_v4 w x y z :
  0 ≤ w < 256 → 0 ≤ x < 256 → 0 ≤ y < 256 → 0 ≤ z < 256 →
  bool_decide ([w; x; y; z] = [0; 0; 0; 0]) || (w =? 127)
    || ((w =? 10) || ((w =? 172) && (Z.land x 0xf0 =? 16)) || ((w =? 192) && (x =? 168)))
    || ((w =? 169) && (x =? 254)) || ((w =? 224) && (x =? 0) && (y =? 0))
    || (Z.land w 0xf0 =? 0xe0)
  = existsb (in_network [w; x; y; z]) v4_networks.
Proof.
  intros Hw Hx Hy Hz.
  assert (Hr : Forall (λ x, 0 ≤ x < 256) [x; y; z]) by all_bytes.
  assert (Hr2 : Forall (λ x, 0 ≤ x < 256) [y; z]) by all_bytes.
  assert (H0 : Forall (λ x, 0 ≤ x < 256) [0; 0; 0]) by all_bytes.
  assert (H02 : Forall (λ x, 0 ≤ x < 256) [0; 0]) by all_bytes.
  unfold v4_networks. cbn [existsb].
  rewrite in_network_full by (try done; all_bytes).
  rewrite (in_network_8 w [x; y; z] _ 127), (in_network_8 w [x; y; z] _ 10),
    (in_network_8 w [x; y; z] _ 224) by (try done; lia).
  rewrite (in_network_16 w x [y; z] _ 172), (in_network_16 w x [y; z] _ 192),
    (in_network_16 w x [y; z] _ 169) by (try done; lia).
  change (8 - 8) with 0. change (16 - 16) with 0. rewrite !Z.shiftr_0_r.
  rewrite (byte_eqb (λ w, Z.land w 0xf0 =? 0xe0) (λ w, Z.shiftr w (8 - 4) =? Z.shiftr 224 (8 - 4)) w)
    by (try done; by vm_compute).
  rewrite (byte_eqb (λ w, Z.land w 0xf0 =? 16) (λ w, Z.shiftr w (16 - 12) =? Z.shiftr 16 (16 - 12)) x)
    by (try done; by vm_compute).
  assert (Hm : (w =? 224) = true → (Z.shiftr w (8 - 4) =? Z.shiftr 224 (8 - 4)) = true)
    by (intros ->%Z.eqb_eq; by vm_compute).
  rewrite !orb_assoc, !orb_false_r.
  destruct (w =? 224); [by rewrite Hm, !orb_true_r by done|]. by rewrite !andb_false_l, !orb_false_r.
Qed.

Lemma unsafe_v6 b : Forall (λ x, 0 ≤ x < 256) b → length b = 16%nat → to4 b = None →
  unsafeIP (Some b) = existsb (in_network b) v6_networks.
Proof.
  intros Hb Hl Hn. unfold unsafeIP, IsUnspecified, IsLoopback, IsPrivate, IsLinkLocalUnicast,
    IsLinkLocalMulticast, IsMulticast, ip_equal16, is16. rewrite Hn, Hl. cbn [Nat.eqb].
  assert (Hz : bool_decide (b = IPv4zero) = false)
    by (apply bool_decide_eq_false; intros ->; by vm_compute in Hn). rewrite Hz.
  destruct b as [|x [|y r]]; try done.
  pose proof Hb as [Hx [Hy Hr]%Forall_cons]%Forall_cons. injection Hl as Hl.
  assert (H0 : ∀ n, Forall (λ x, 0 ≤ x < 256) (replicate n 0))
    by (intros; apply Forall_replicate; lia).
  unfold v6_networks. cbn [existsb].
  rewrite (in_network_full _ (replicate 16 0)), (in_network_full _ (replicate 15 0 ++ [1]))
    by (rewrite ?length_app, ?length_replicate; cbn [length]; rewrite ?Hl; try done;
        try (apply Forall_app; split); auto; all_bytes).
  rewrite (in_network_8 x (y :: r) _ 0xfc), (in_network_8 x (y :: r) _ 0xff)
    by (try done; rewrite ?length_replicate; cbn [length]; auto; lia).
  rewrite (in_network_16 x y r _ 0xfe) by (try done; rewrite ?length_replicate; auto; lia).
  change (8 - 8) with 0. rewrite !Z.shiftr_0_r. cbn [byte_at nth].
  rewrite (byte_eqb (λ w, Z.land w 0xfe =? 0xfc) (λ w, Z.shiftr w (8 - 7) =? Z.shiftr 0xfc (8 - 7)) x)
    by (try done; by vm_compute).
  rewrite (byte_eqb (λ w, Z.land w 0xc0 =? 0x80)
    (λ w, Z.shiftr w (16 - 10) =? Z.shiftr 0x80 (16 - 10)) y) by (try done; by vm_compute).
  unfold IPv6unspecified, IPv6loopback. rewrite !andb_true_l, !orb_assoc, !orb_false_r, orb_false_l.
  destruct (x =? 0xff); [by rewrite !orb_true_r|]. by rewrite andb_false_l, !orb_false_r.
Qed.

(** C25: the check for unsafe addresses is exactly membership in the unspecified
    address and the loopback, private, link-local and multicast networks, for
    IPv4 addresses in either form and for IPv6 addresses. *)
Theorem unsafeIP_exact b :
  valid_ip b →
  unsafeIP (Some b) = match to4 b with
                      | Some v => existsb (in_network v) v4_networks
                      | None => existsb (in_network b) v6_networks
                      end.
Proof.
  intros Hb. destruct (to4 b) as [v|] eqn:Hv.
  - destruct (to4_shape b v Hb Hv) as [_ (w & x & y & z & -> & Hw & Hx & Hy & Hz)].
    rewrite <- unsafe_v4 by done. unfold unsafeIP. rewrite (unspecified_v4 b _ Hb Hv).
    unfold IsLoopback, IsPrivate, IsLinkLocalUnicast, IsLinkLocalMulticast, IsMulticast.
    by rewrite Hv.
  - destruct Hb as [[Hl|Hl] Hb]; [|by apply unsafe_v6].
    unfold to4 in Hv. by rewrite Hl in Hv.
Qed.

(** ** Retry delays *)

Lemma webhookRetryAfter_bounds `{NetParsers} raw now maximum :
  0 < maximum → is_int64 maximum → 0 ≤ webhookRetryAfter raw now maximum ≤ maximum.
Proof.
  intros Hm [_ Hi]. unfold webhookRetryAfter. destruct (raw =s? ""); [lia|].
  assert (Hcap : ∀ d, 0 ≤ d → 0 ≤ (if (0 <? maximum) && (maximum <? d) then maximum else d) ≤ maximum).
  { intros d Hd. destruct (Z.ltb_spec 0 maximum), (Z.ltb_spec maximum d); simpl; lia. }
  assert (Hdate : 0 ≤ match parse_http_time raw with
                      | Some retryAt => if after retryAt now then time_sub retryAt now else 0
                      | None => 0 end).
  { destruct (parse_http_time raw) as [t|]; [|lia]. unfold after, time_sub, int64_min, int64_max.
    destruct (Z.ltb_spec now t); lia. }
  destruct (parse_int _) as [seconds|]; [|by apply Hcap].
  destruct (Z.ltb_spec 0 seconds); [|by apply Hcap].
  destruct (Z.ltb_spec (Z.quot maximum second) seconds) as [|Hs].
  { rewrite (proj2 (Z.ltb_lt 0 maximum)) by lia. simpl. lia. }
  rewrite andb_false_r. apply Hcap.
  assert (seconds * second ≤ maximum).
  { rewrite Z.quot_div_nonneg in Hs by (unfold second; lia).
    pose proof (Z.mul_div_le maximum second ltac:(unfold second; lia)).
    etrans; [apply Z.mul_le_mono_nonneg_r; [unfold second; lia|exact Hs]|]. lia. }
  rewrite wrap64_id; unfold is_int64, int64_min, second in *; lia.
Qed.

(** ** Properties *)

Section WebhookProperties.
Context {W Conn : Type} `{NetParsers} (split_host_port : string → option (string * string))
  (dial : IP → string → W → option Conn * W)
  (transport : (string → W → option (IP * Conn) * W) → bool → Do W)
  (defaultLookup : LookupIP (W := W)) (systemNow : W → time * W)
  (ctx_err request_err : W → option CtxError).

Lemma dialFirst_safe allow port l w ip c w' :
  dialFirst dial allow port l w = (Some (ip, c), w') →
  ip ∈ l ∧ (allow = false → unsafeIP ip = false) ∧ ∃ w1, dial ip port w1 = (Some c, w').
Proof.
  revert w. induction l as [|x l IH]; intros w; simpl; [done|].
  destruct (negb allow && unsafeIP x) eqn:Hu.
  { intros (? & ? & ?)%IH. split_and!; [by right|done|done]. }
  destruct (dial x port w) as [[c1|] w1] eqn:Hd.
  - intros [= <- <- <-]. split_and!; [by left| |by exists w].
    intros ->. by destruct (unsafeIP x).
  - intros (? & ? & ?)%IH. split_and!; [by right|done|done].
Qed.


Lemma validateHost_ok host allow (lookup : LookupIP (W := W)) w w' :
  validateHost host allow lookup w = (None, w') →
  blank host = false ∧ ∃ addresses, lookup host w = (Some addresses, w') ∧ addresses ≠ [] ∧
    (allow = false → Forall (λ ip, unsafeIP ip = false) addresses).
Proof.
  unfold validateHost. destruct (blank host); [done|].
  destruct (lookup host w) as [[l|] w1]; [|done].
  destruct (Nat.eqb_spec (length l) 0) as [|Hl]; [done|]. intros Hv. split; [done|]. exists l.
  destruct allow.
  - injection Hv as <-. split_and!; [done|by intros ->|done].
  - destruct (existsb unsafeIP l) eqn:He; [done|]. injection Hv as <-.
    split_and!; [done|by intros ->|]. intros _. apply Forall_forall. intros ip Hin.
    apply not_true_iff_false. intros Hu. apply not_true_iff_false in He. apply He, existsb_exists.
    exists ip. by rewrite <- list_elem_of_In.
Qed.

(** What the receiver of a request can check. *)
Definition authentic (secret : string) (timestamp : time) (r : Request) : Prop :=
  header_get headerTimestamp (rq_Header r) = format_int (unix timestamp) ∧
  ∃ signature, header_get headerSignature (rq_Header r) = "v1=" +:+ signature ∧
    header_get headerGenericSignatureV2 (rq_Header r) = signature ∧
    Verify secret timestamp (rq_Body r) signature = true.

Lemma header_get_set k v h : header_get k (header_set k v h) = v.
Proof. unfold header_get, header_set. by rewrite lookup_insert_eq. Qed.
Lemma header_get_set_ne k k' v (h : Header) :
  canonical_key true k ≠ canonical_key true k' → header_get k (header_set k' v h) = header_get k h.
Proof. unfold header_get, header_set. intros. by rewrite lookup_insert_ne by congruence. Qed.

Lemma hookRequest_authentic h event body timestamp :
  authentic (wh_secret h) timestamp (hookRequest (W := W) h event body timestamp).
Proof.
  unfold authentic, hookRequest. cbn [rq_Header rq_Body].
  rewrite !(header_get_set_ne headerTimestamp) by (vm_compute; discriminate).
  rewrite !(header_get_set_ne headerSignature) by (vm_compute; discriminate).
  rewrite !header_get_set. split; [done|]. eexists. split_and!; [done|done|by apply Verify_Sign].
Qed.

(** C19: a delivery that counts as successful really happened: the webhook sent
    one POST request with the encoded event to its endpoint, whose host it had
    just resolved (to safe addresses only, unless private networks are
    allowed), and the receiver answered with a status from 200 to 299; the
    request carries a time stamp and a signature that the receiver's
    verification accepts for exactly the bytes of the body. *)
Theorem deliver_delivers h event w w' :
  Deliver ctx_err request_err h event w = (None, w') →
  ∃ body w1 addresses w2 timestamp w3 response,
    wh_lookupIP h (hostname (wh_endpoint h)) w1 = (Some addresses, w2) ∧
    (wh_allowPrivate h = false → Forall (λ ip, unsafeIP ip = false) addresses) ∧
    marshalEnvelope event = Some body ∧ wh_now h w2 = (timestamp, w3) ∧
    let request := hookRequest h event body timestamp in
    wh_client h request w3 = (Some response, w') ∧ success (rs_StatusCode response) = true ∧
    rq_Method request = "POST" ∧ rq_URL request = url_string (wh_endpoint h) ∧
    rq_Body request = body ∧ authentic (wh_secret h) timestamp request.
Proof.
  unfold Deliver. destruct (ctx_err w); [done|]. destruct (_ || _ || _); [done|].
  destruct (validateHost _ _ _ w) as [[e|] w1] eqn:Hv; [done|].
  apply validateHost_ok in Hv as (_ & addresses & Hl & _ & Hs).
  destruct (marshalEnvelope event) as [body|] eqn:Hm; [|done]. unfold exchange.
  destruct (wh_now h w1) as [timestamp w2] eqn:Hn.
  destruct (url_parse _); [|done].
  destruct (wh_client h _ w2) as [[response|] w3] eqn:Hc; [|done]. intros [= Hj <-].
  exists body, w, addresses, w1, timestamp, w2, response.
  split_and!; [done|done|done|done|done| |done|done|done|apply hookRequest_authentic].
  unfold judge in Hj. destruct (read_limited _ response); [|done].
  destruct (success (rs_StatusCode response)); [done|].
  destruct (_ <? _); [done|]. by destruct (_ && _).
Qed.


(** What the constructor guarantees. *)
Lemma NewWebhook_ok c w h w' :
  NewWebhook split_host_port dial transport defaultLookup systemNow c w = (Ok h, w') →
  blank (wh_name h) = false ∧ wh_secret h ≠ "" ∧ 0 < wh_maxRetryAfter h ∧
  0 < wh_maxResponseBytes h ∧ u_HasUser (wh_endpoint h) = false ∧
  (u_Scheme (wh_endpoint h) = "https" ∨
   u_Scheme (wh_endpoint h) = "http" ∧ fc_AllowInsecureHTTP c = true) ∧
  (wh_allowPrivate h = false →
   wh_client h = safeHTTPClient split_host_port dial transport (hostname (wh_endpoint h)) false
                   (wh_lookupIP h)).
Proof.
  unfold NewWebhook, checkConfig, elift. rewrite ebind_ok. intros (endpoint & w1 & Hc & Hn).
  injection Hc as Hc <-. rewrite !fail_if_ok in Hc. destruct Hc as (Hb & Hs & _ & Hr & Hra & Hu).
  destruct (url_parse (fc_Endpoint c)) as [u|]; [|done]. apply fail_if_ok in Hu as [_ Hu].
  apply rbind_ok in Hu as ([] & He & [= ->]). unfold checkEndpoint in He.
  rewrite !fail_if_ok in He. destruct He as (Huser & Hscheme & _ & _).
  destruct (validateHost _ _ _ w) as [[] w2]; [done|]. apply guard_ok in Hn as [Hcl [= <- <-]]. simpl.
  apply orb_false_iff in Huser as [Huser _].
  split_and!; [done| |by apply Z.leb_gt|by apply Z.leb_gt|done| |].
  - intros Heq. rewrite Heq in Hs. by vm_compute in Hs.
  - rewrite andb_false_iff, !negb_false_iff, andb_true_iff, !String.eqb_eq in Hscheme.
    destruct Hscheme as [?|[? ?]]; auto.
  - intros Hp. rewrite Hp in Hcl. destruct (fc_HTTPClient c); [done|]. by rewrite Hp.
Qed.
End WebhookProperties.

(** ** Witnesses *)

Module WebhookWitness.
Export NetExample.

(** The world is the list of the requests received. *)
Definition lookup (host : string) (w : list Request) : option (list IP) * list Request :=
  (if host =s? "hooks.example" then Some [Some [10; 0; 0; 1]; Some [93; 184; 216; 34]] else None, w).
Definition public (host : string) (w : list Request) : option (list IP) * list Request :=
  (Some [Some [93; 184; 216; 34]], w).
Definition dial (ip : IP) (port : string) (w : list Request) : option unit * list Request := (Some (), w).
Definition split (s : string) : option (string * string) :=
  Some (cut_port s, str_drop (S (String.length (cut_port s))) s).
Definition answer (status : Z) (request : Request) (w : list Request) : option Response * list Request :=
  (Some {| rs_StatusCode := status; rs_Header := header_set "retry-after" "7" ∅; rs_ContentLength := 0;
           rs_Body := "ok"; rs_ReadFails := false |}, w ++ [request]).
Definition transport (_ : string → list Request → option (IP * unit) * list Request) (_ : bool)
    : Do (list Request) := answer 200.
Definition clock (w : list Request) : time * list Request := (1700000000 * second, w).
Definition no_end (_ : list Request) : option CtxError := None.
Definition config : FactoryConfig := {|
  fc_DestinationID := "ops"; fc_Endpoint := "https://hooks.example"; fc_Secret := "s3cret";
  fc_Timeout := 5 * second; fc_MaxResponseBytes := 1024; fc_MaxRetryAfter := 60 * second;
  fc_AllowInsecureHTTP := false; fc_AllowPrivateNetwork := false; fc_HTTPClient := None;
  fc_LookupIP := Some public; fc_Now := Some clock |}.
Definition hook (client : Do (list Request)) : Hook := {|
  wh_name := "ops";
  wh_endpoint := {| u_Scheme := "https"; u_HasUser := false; u_Host := "hooks.example"; u_RawQuery := ""; u_Fragment := "" |};
  wh_secret := "s3cret"; wh_timeout := 5 * second; wh_maxResponseBytes := 1024;
  wh_maxRetryAfter := 60 * second; wh_allowPrivate := false; wh_client := client;
  wh_lookupIP := public; wh_now := clock |}.
Definition event : Envelope := {|
  env_SpecVersion := "1.0"; env_ID := "n1"; env_Source := "urn:ruleraven:cluster:c"; env_Type := "opened";
  env_Time := 1700000000 * second; env_DataContentType := "application/json";
  env_SchemaVersion := "v1"; env_Data := "{ }" |}.
End WebhookWitness.
Import WebhookWitness.

Example new_webhook_ex :
  (NewWebhook split dial transport public clock config []).1 = Ok (hook (answer 200)).
Proof. reflexivity. Qed.

Lemma unsafeIP_exact_witness :
  unsafeIP (Some (v4_prefix ++ [172; 20; 0; 1])) = true ∧ unsafeIP (Some [172; 32; 0; 1]) = false.
Proof.
  assert (H1 : valid_ip (v4_prefix ++ [172; 20; 0; 1]))
    by (split; [right; reflexivity|unfold v4_prefix; cbn; all_bytes]).
  assert (H2 : valid_ip [172; 32; 0; 1])
    by (split; [left; reflexivity|all_bytes]).
  split; [rewrite (unsafeIP_exact _ H1)|rewrite (unsafeIP_exact _ H2)]; vm_compute; reflexivity.
Defined.


Lemma deliver_delivers_witness :
  ∃ body w2 timestamp w3, marshalEnvelope event = Some body ∧ clock w2 = (timestamp, w3) ∧
    authentic "s3cret" timestamp (hookRequest (hook (answer 200)) event body timestamp).
Proof.
  destruct (deliver_delivers no_end no_end (hook (answer 200)) event []
    (Deliver no_end no_end (hook (answer 200)) event []).2) as (body & w1 & l & w2 & t & w3 & r & Hl & _ & Hm & Ht & H).
  { vm_compute. reflexivity. }
  exists body, w2, t, w3. split; [exact Hm|]. split; [exact Ht|apply H].
Defined.

