(* ===== verification/HttpClient.v ===== *)
(** * Package [internal/provider], [httpclient.go]: one bounded JSON exchange

    The HTTP client, the clock and the context live in an outside world [W]. *)
From S2P Require Import Prelude GoBase Json GoNet Retry.

Definition ErrRequestTooLarge : GoError := other_error "provider request exceeds configured limit".
Definition ErrResponseTooLarge : GoError := other_error "provider response exceeds configured limit".

Definition maxDurationSeconds : Z := int64_max `quot` second.

Definition parseRetryAfter `{NetParsers} (value : string) (now : time) : duration :=
  let value := trim_space value in
  if value =s? "" then 0 else
  match parse_int value with
  | Some seconds =>
      if seconds <=? 0 then 0
      else if maxDurationSeconds <? seconds then int64_max
      else wrap64 (seconds * second)
  | None =>
      match parse_http_time value with
      | Some when => if negb (after when now) then 0 else time_sub when now
      | None => 0
      end
  end.

Record HTTPResponse := { hr_Body : string; hr_Header : Header }.

Section HttpClient.
Context {W Ctx : Type} `{NetParsers} (ctx_err : Ctx → W → option GoError)
  (systemNow : W → time * W) (body_error : Response → GoError).

(** [client.Do] of a request with its context. *)
Definition HTTPClient : Type := Ctx → Request → eff W GoError Response.

Record HTTPLimits := {
  MaxRequestBytes : Z; MaxResponseBytes : Z; lim_MaxRetryAfter : duration;
  lim_Now : option (W → time * W)
}.

Definition limits_now (l : HTTPLimits) : W → time * W := default systemNow (lim_Now l).

(** The headers that are sent. *)
Definition jsonHeaders (headers : Header) : Header :=
  if header_get "Content-Type" headers =s? ""
  then header_set "Content-Type" "application/json" headers else headers.

(** What becomes of a response. *)
Definition receive (ctx : Ctx) (limits : HTTPLimits) (response : Response) : eff W GoError HTTPResponse := λ w,
  let status := rs_StatusCode response in
  if (status <? 200) || (300 <=? status) then
    let '(now, w) := limits_now limits w in
    let retryAfter := parseRetryAfter (header_get "Retry-After" (rs_Header response)) now in
    let retryAfter := if (0 <? lim_MaxRetryAfter limits) && (lim_MaxRetryAfter limits <? retryAfter)
                      then lim_MaxRetryAfter limits else retryAfter in
    (Err (http_error (NewHTTPError "request" status retryAfter)), w)
  else if MaxResponseBytes limits <? rs_ContentLength response then (Err ErrResponseTooLarge, w)
  else match read_limited (MaxResponseBytes limits + 1) response with
       | None => (Err match ctx_err ctx w with
                      | Some e => e
                      | None => NewTransportError "read response" (body_error response)
                      end, w)
       | Some body => if MaxResponseBytes limits <? len body then (Err ErrResponseTooLarge, w)
                      else (Ok {| hr_Body := body; hr_Header := rs_Header response |}, w)
       end.

Definition DoJSONResponse (ctx : Ctx) (client : option HTTPClient) (method url : string)
    (headers : Header) (body : string) (limits : HTTPLimits) : eff W GoError HTTPResponse :=
  match client with
  | None => efail (other_error "provider HTTP client is required")
  | Some client =>
      guard! (MaxRequestBytes limits <=? 0) || (MaxResponseBytes limits <=? 0)
        with other_error "provider HTTP limits must be positive";
      guard! lim_MaxRetryAfter limits <? 0
        with other_error "provider maximum Retry-After must not be negative";
      guard! MaxRequestBytes limits <? len body with ErrRequestTooLarge;
      match url_parse url with
      | None => efail (other_error "build provider request")
      | Some _ => λ w,
          match client ctx {| rq_Method := method; rq_URL := url; rq_Header := jsonHeaders headers;
                              rq_Body := body |} w with
          | (Ok response, w) => receive ctx limits response w
          | (Err err, w) =>
              (Err match ctx_err ctx w with
                   | Some e => e
                   | None => NewTransportError "request" err
                   end, w)
          end
      end
  end.

Definition DoJSON (ctx : Ctx) (client : option HTTPClient) (method url : string)
    (headers : Header) (body : string) (limits : HTTPLimits) : eff W GoError string :=
  response ←~ DoJSONResponse ctx client method url headers body limits;
  eret (hr_Body response).

(** ** Properties *)

Lemma parseRetryAfter_bounds value now : 0 ≤ parseRetryAfter value now ≤ int64_max.
Proof.
  unfold parseRetryAfter. destruct (trim_space value =s? ""); [unfold int64_max; lia|].
  destruct (parse_int _) as [seconds|].
  - destruct (Z.leb_spec seconds 0); [unfold int64_max; lia|].
    destruct (Z.ltb_spec maxDurationSeconds seconds) as [|Hs]; [unfold int64_max; lia|].
    assert (maxDurationSeconds * second ≤ int64_max) by (by vm_compute).
    assert (seconds * second ≤ int64_max).
    { etrans; [apply Z.mul_le_mono_nonneg_r; [unfold second; lia|exact Hs]|done]. }
    rewrite wrap64_id; unfold is_int64, int64_min, second in *; lia.
  - destruct (parse_http_time _) as [t|]; [|unfold int64_max; lia]. unfold after, time_sub, int64_min, int64_max.
    destruct (Z.ltb_spec now t); simpl; lia.
Qed.

(** A context ends by cancellation or by its deadline. *)
Context (ctx_errors : ∀ ctx w e, ctx_err ctx w = Some e → e = context_canceled ∨ e = context_deadline_exceeded).

(** A failure of the exchange itself. *)
Definition broke_down (e : HTTPError) : Prop :=
  he_RetryAfterDelay e = 0 ∧ he_StatusCode e = 0 ∧ he_Kind e = ErrorKindTransport ∧ he_Retryable e = true.

Lemma transport_failure ctx w op err :
  match match ctx_err ctx w with Some e => e | None => NewTransportError op err end with
  | http_error e => broke_down e
  | e => IsRetryable e = false
  end.
Proof.
  destruct (ctx_err ctx w) as [e|] eqn:He; [by destruct (ctx_errors _ _ _ He) as [-> | ->]|].
  by destruct err.
Qed.

(** What an exchange may send. *)
Definition sends (method url : string) (headers : Header) (body : string) (request : Request) : Prop :=
  rq_Method request = method ∧ rq_URL request = url ∧ rq_Body request = body ∧
  header_get "Content-Type" (rq_Header request) ≠ "" ∧
  (∀ k, canonical_key true k ≠ "Content-Type" → header_get k (rq_Header request) = header_get k headers).

Lemma jsonHeaders_sends method url headers body :
  sends method url headers body
    {| rq_Method := method; rq_URL := url; rq_Header := jsonHeaders headers; rq_Body := body |}.
Proof.
  unfold sends, jsonHeaders. cbn [rq_Method rq_URL rq_Body rq_Header].
  destruct (String.eqb_spec (header_get "Content-Type" headers) "") as [He|He]; split_and!; try done.
  - unfold header_get, header_set. by rewrite lookup_insert_eq.
  - intros k Hk. unfold header_get, header_set. by rewrite lookup_insert_ne.
Qed.

Lemma exchange_ok ctx client method url headers body limits w response w' :
  DoJSONResponse ctx client method url headers body limits w = (Ok response, w') →
  len body ≤ MaxRequestBytes limits ∧ len (hr_Body response) ≤ MaxResponseBytes limits ∧
  ∃ do request answer, client = Some do ∧ sends method url headers body request ∧
    do ctx request w = (Ok answer, w') ∧ 200 ≤ rs_StatusCode answer ≤ 299 ∧
    hr_Body response = rs_Body answer ∧ rs_ReadFails answer = false ∧
    hr_Header response = rs_Header answer.
Proof.
  unfold DoJSONResponse. destruct client as [do|]; [|done]. rewrite !guard_ok.
  intros (Hpos & _ & Hb & H1). destruct (url_parse url); [|done].
  rewrite orb_false_iff, !Z.leb_gt in Hpos. apply Z.ltb_ge in Hb.
  destruct (do ctx _ w) as [[answer|err] w1] eqn:Hdo; [|done]. unfold receive in H1.
  destruct (_ || _) eqn:Hst; [by destruct (limits_now limits w1)|].
  rewrite orb_false_iff, Z.ltb_ge, Z.leb_gt in Hst.
  destruct (_ <? rs_ContentLength answer); [done|].
  destruct (read_limited _ answer) as [read|] eqn:Hr; [|done].
  apply read_limited_spec in Hr as (_ & Hr & _); [|lia].
  destruct (Z.ltb_spec (MaxResponseBytes limits) (len read)) as [|Hl]; [done|].
  injection H1 as <- <-. destruct (Hr Hl) as [-> Hf]. split_and!; [done|done|].
  eexists do, _, answer. split_and!; [done|apply jsonHeaders_sends|exact Hdo|lia..|done|done|done].
Qed.

End HttpClient.

(** ** Witness: a server that asks for an hour of patience *)

Module HttpWitness.
Definition answer (_ : unit) (_ : Request) (w : Z) : result GoError Response * Z :=
  (Ok {| rs_StatusCode := 429; rs_Header := header_set "retry-after" "3600" ∅; rs_ContentLength := 0;
         rs_Body := ""; rs_ReadFails := false |}, w + 1).
Definition ctx_err (_ : unit) (_ : Z) : option GoError := None.
Definition now (w : Z) : time * Z := (0, w).
Definition body_error (_ : Response) : GoError := other_error "read".
Definition limits : HTTPLimits := {| MaxRequestBytes := 10; MaxResponseBytes := 10;
  lim_MaxRetryAfter := 5 * second; lim_Now := Some now |}.
Definition error : HTTPError := {| he_Operation := "request"; he_StatusCode := 429;
  he_Kind := ErrorKindRateLimited; he_Retryable := true; he_RetryAfterDelay := 5 * second |}.
End HttpWitness.

