(* ===== verification/Schema.v ===== *)
(** * Package [internal/provider], [schema.go]: the JSON Schema of the answers *)
From stdpp Require Import pretty.
From S2P Require Import Prelude GoBase Sha256 Json JsonParse JsonDecode Provider.

(** ** [json.MarshalIndent(v, "", "  ")] *)

Definition newline : string := bytes [10%N].
Fixpoint json_indent (margin : string) (j : json) : string :=
  let inner := margin +:+ "  " in
  match j with
  | JArray ((_ :: _) as l) =>
      "[" +:+ newline +:+ inner +:+ join ("," +:+ newline +:+ inner) (map (json_indent inner) l)
      +:+ newline +:+ margin +:+ "]"
  | JObject ((_ :: _) as fields) =>
      "{" +:+ newline +:+ inner
      +:+ join ("," +:+ newline +:+ inner)
            (map (λ kv, json_string kv.1 +:+ ": " +:+ json_indent inner kv.2) fields)
      +:+ newline +:+ margin +:+ "}"
  | _ => json_print j
  end.

(** ** The schema *)

Definition strings (l : list string) : json := JArray (map JString l).

Definition strictObject (required : list string) (properties : gmap string json) : json :=
  json_object [("type", JString "object"); ("additionalProperties", JBool false);
               ("required", strings required); ("properties", json_map properties)].
Definition unitNumber : json :=
  json_object [("type", JString "number"); ("minimum", JInt 0); ("maximum", JInt 1)].
Definition constString (value : string) : json :=
  json_object [("type", JString "string"); ("const", JString value)].
Definition probabilityObject (keys : list string) : json :=
  strictObject keys (list_to_map (map (λ key, (key, unitNumber)) keys)).

(** The keys of a rubric are the indexes of its levels. *)
Definition levelKeys (levels : list string) : list string := imap (λ i _, pretty i) levels.

(** [None] is the panic on an unknown type. *)
Definition answerSchemaFor (q : Question) : option json :=
  if q_Type q =s? QuestionTypeNoul then
    Some (strictObject ["type"; "noul"]
            (list_to_map [("type", constString QuestionTypeNoul); ("noul", unitNumber)]))
  else if q_Type q =s? QuestionTypeChoice then
    let choices := sortedKeys (q_Criteria q) in
    Some (strictObject ["type"; "choice"; "probabilities"; "confidence"]
            (list_to_map [("type", constString QuestionTypeChoice);
                          ("choice", json_object [("type", JString "string"); ("enum", strings choices)]);
                          ("probabilities", probabilityObject choices); ("confidence", unitNumber)]))
  else if q_Type q =s? QuestionTypeScore then
    let keys := levelKeys (q_Levels q) in
    Some (strictObject ["type"; "score"; "legend"; "probabilities"; "confidence"]
            (list_to_map [("type", constString QuestionTypeScore);
                          ("score", json_object [("type", JString "number"); ("minimum", JInt 0);
                                      ("maximum", JInt (Z.of_nat (length (q_Levels q)) - 1))]);
                          ("legend", strictObject keys
                                       (list_to_map (zip keys (map constString (q_Levels q)))));
                          ("probabilities", probabilityObject keys); ("confidence", unitNumber)]))
  else None.

Fixpoint answerProperties (questions : gmap string Question) (ids : list string)
    : option (list (string * json)) :=
  match ids with
  | [] => Some []
  | id :: ids =>
      q ← questions !! id; s ← answerSchemaFor q; rest ← answerProperties questions ids;
      Some ((id, s) :: rest)
  end.

Definition schemaOf (ids : list string) (properties : gmap string json) : json :=
  json_object
    [("$schema", JString "https://json-schema.org/draft/2020-12/schema");
     ("title", JString "RuleRaven provider answers"); ("type", JString "object");
     ("additionalProperties", JBool false); ("required", strings ["answers"]);
     ("properties", json_map (list_to_map [("answers",
        json_object [("type", JString "object"); ("additionalProperties", JBool false);
                     ("required", strings ids); ("properties", json_map properties)])]))].

(** The outer [option] is the panic. *)
Definition AnswerJSONSchema (questions : gmap string Question) : option (result ValidationError string) :=
  match ValidateQuestions questions with
  | Err e => Some (Err e)
  | Ok _ =>
      let ids := sortedQuestionIDs questions in
      properties ← answerProperties questions ids;
      Some (Ok (json_indent "" (schemaOf ids (list_to_map properties)) +:+ newline))
  end.

(** ** Indented text is read back *)

Lemma indent_opens margin j : json_wf j = true → opens (json_indent margin j).
Proof.
  intros Hw. destruct j as [|b|n|s|[|x l]|[|kv l]]; try (by apply print_opens);
    (eexists _, _; split_and!; [done|done|vm_compute; discriminate..]).
Qed.

Lemma all_ws_app a b : all_ws a = true → all_ws b = true → all_ws (a +:+ b) = true.
Proof.
  induction a as [|c a IH]; [done|]. change (String c a +:+ b) with (String c (a +:+ b)). cbn.
  intros [-> Ha]%andb_true_iff Hb. by apply IH.
Qed.

Lemma indent_reads j : ∀ margin, all_ws margin = true → reads (json_indent margin) j.
Proof.
  assert (Hscalar : ∀ margin j, scalar j = true → reads (json_indent margin) j).
  { intros margin j' Hj fuel depth rest Hw Hr Hf Hd.
    replace (json_indent margin j') with (json_print j') by (by destruct j' as [| | | |[]|[]]).
    by apply scalar_reads. }
  induction j as [|b|n|s|l IH|l IH] using json_induction; intros margin Hm; try (by apply Hscalar).
  - destruct l as [|x l]; [by apply Hscalar|]. intros fuel depth rest Hw Hr Hf Hd.
    set (inner := margin +:+ "  ").
    assert (Hi : all_ws (newline +:+ inner) = true) by (by apply (all_ws_app newline), all_ws_app).
    assert (Ht : all_ws (newline +:+ margin) = true) by (by apply (all_ws_app newline)).
    pose proof (read_array (json_indent inner) (newline +:+ inner) (newline +:+ margin) Hi Ht
      (newline +:+ inner) Hi x l fuel depth rest) as Hread.
    rewrite !str_app_assoc in Hread. cbn [json_indent]. fold inner. rewrite !str_app_assoc.
    apply Hread; [|by apply indent_opens; apply andb_true_iff in Hw as [? _]|done|done|done].
    eapply Forall_impl; [exact IH|]. intros y Hy. apply Hy. by apply all_ws_app.
  - destruct l as [|kv l]; [by apply Hscalar|]. intros fuel depth rest Hw Hr Hf Hd.
    set (inner := margin +:+ "  ").
    assert (Hi : all_ws (newline +:+ inner) = true) by (by apply (all_ws_app newline), all_ws_app).
    assert (Ht : all_ws (newline +:+ margin) = true) by (by apply (all_ws_app newline)).
    pose proof (read_object (json_indent inner) (newline +:+ inner) (newline +:+ margin) " " Hi Ht eq_refl
      (newline +:+ inner) Hi kv l fuel depth rest) as Hread.
    rewrite !str_app_assoc in Hread. cbn [json_indent]. fold inner. rewrite !str_app_assoc.
    apply Hread; [|done|done|done].
    eapply Forall_impl; [exact IH|]. intros y Hy. apply Hy. by apply all_ws_app.
Qed.

Lemma indent_length j margin : json_wf j = true → (weight j ≤ 2 * String.length (json_indent margin j))%nat.
Proof.
  revert margin. induction j as [|b|n|s|l IH|l IH] using json_induction; intros margin Hw;
    try (by apply print_length).
  - destruct l as [|x l]; [by apply (print_length (JArray []))|]. cbn [json_wf weight json_indent] in *.
    set (inner := margin +:+ "  ").
    pose proof (join_weight ("," +:+ newline +:+ inner) (json_indent inner) weight (x :: l)) as H1.
    ospecialize* H1; [rewrite !str_length_app; cbn [String.length]; lia| |rewrite !str_length_app; cbn [String.length]; lia].
    apply wf_parts; [done|]. eapply Forall_impl; [exact IH|]. intros y Hy. apply Hy.
  - destruct l as [|kv l]; [by apply (print_length (JObject []))|]. cbn [json_wf weight json_indent] in *.
    set (inner := margin +:+ "  ").
    set (f := λ kv : string * json, json_string kv.1 +:+ ": " +:+ json_indent inner kv.2).
    pose proof (join_weight ("," +:+ newline +:+ inner) f (λ kv, weight kv.2) (kv :: l)) as H1.
    ospecialize* H1; [rewrite !str_length_app; cbn [String.length]; lia| |rewrite !str_length_app; cbn [String.length]; lia].
    apply wf_fields; [done|]. eapply Forall_impl; [exact IH|]. intros y Hy Hwy.
    specialize (Hy inner Hwy). unfold f. rewrite !str_length_app. lia.
Qed.

Lemma indent_parse j :
  json_wf j = true → Z.of_nat (nesting j) ≤ max_nesting →
  parse_one (json_indent "" j +:+ newline) = Some (sanitize j).
Proof.
  intros Hw Hn. unfold parse_one, parse_fuel. pose proof (indent_length j "" Hw) as Hl.
  rewrite str_length_app. by rewrite (indent_reads j "" eq_refl) by (done || lia).
Qed.

(** ** The schema is always built *)

Lemma validQuestion_schema id q : validateQuestion id q = Ok () → is_Some (answerSchemaFor q).
Proof.
  unfold validateQuestion, answerSchemaFor. rewrite !fail_if_ok. intros (_ & _ & H).
  destruct (q_Type q =s? QuestionTypeNoul); [done|]. destruct (q_Type q =s? QuestionTypeChoice); [done|].
  by destruct (q_Type q =s? QuestionTypeScore).
Qed.

(** A well-formed value with at most [n] open brackets. *)
Definition bounded (n : nat) (j : json) : Prop := json_wf j = true ∧ (nesting j ≤ n)%nat.

Lemma bounded_mono n m j : bounded n j → (n ≤ m)%nat → bounded m j.
Proof. intros [? ?] ?. split; [done|lia]. Qed.
Lemma bounded_fields n l : Forall (λ kv, bounded n kv.2) l → bounded (S n) (JObject l).
Proof.
  intros Hl. split.
  - cbn. apply forallb_forall. intros kv Hkv%list_elem_of_In. rewrite Forall_forall in Hl. by apply Hl.
  - cbn. apply le_n_S. induction Hl as [|kv l [_ Hkv] _ IH]; cbn; lia.
Qed.
Lemma bounded_object n l : Forall (λ kv, bounded n kv.2) l → bounded (S n) (json_object l).
Proof. intros Hl. apply bounded_fields. by rewrite (sort_slice_perm (less_by fst str_ltb)). Qed.
Lemma bounded_map n (m : gmap string json) : map_Forall (λ _, bounded n) m → bounded (S n) (json_map m).
Proof.
  intros Hm. apply bounded_fields, Forall_map, Forall_forall. intros k [v Hv]%elem_of_sortedKeys.
  cbn. rewrite Hv. by apply (Hm k).
Qed.
Lemma bounded_list n (l : list (string * json)) :
  Forall (λ kv, bounded n kv.2) l → map_Forall (λ _, bounded n) (list_to_map l : gmap string json).
Proof.
  intros Hl k v Hv%elem_of_list_to_map_2. rewrite Forall_forall in Hl. by apply (Hl (k, v)).
Qed.
Lemma bounded_strings l : bounded 1 (strings l).
Proof.
  split; cbn.
  - apply forallb_forall. intros j Hj%list_elem_of_In. by apply list_elem_of_fmap in Hj as (s & -> & _).
  - apply le_n_S. induction l; cbn; lia.
Qed.
Lemma bounded_JInt n z : bounded n (JInt z).
Proof. split; [apply pretty_number_ok|cbn; lia]. Qed.
Lemma bounded_JString n s : bounded n (JString s).
Proof. split; [done|cbn; lia]. Qed.
Lemma bounded_JBool n b : bounded n (JBool b).
Proof. split; [done|cbn; lia]. Qed.
#[local] Hint Resolve bounded_JInt bounded_JString bounded_JBool bounded_strings : raven.
#[local] Hint Extern 1 (Forall _ (_ :: _)) => apply Forall_cons; split; cbn [snd] : raven.
#[local] Hint Extern 1 (Forall _ []) => apply Forall_nil : raven.

Lemma bounded_strictObject n required (properties : gmap string json) :
  map_Forall (λ _, bounded n) properties → bounded (S (S n)) (strictObject required properties).
Proof.
  intros Hp. pose proof (bounded_map n properties Hp).
  pose proof (bounded_mono 1 (S n) _ (bounded_strings required) ltac:(lia)).
  apply bounded_object. auto 10 with raven.
Qed.
Lemma bounded_unitNumber : bounded 1 unitNumber.
Proof. apply bounded_object. auto with raven. Qed.
Lemma bounded_constString s : bounded 1 (constString s).
Proof. apply bounded_object. auto with raven. Qed.
#[local] Hint Resolve bounded_unitNumber bounded_constString : raven.

Lemma bounded_probabilities keys : bounded 3 (probabilityObject keys).
Proof.
  apply bounded_strictObject, bounded_list, Forall_map, Forall_forall. intros k _. apply bounded_unitNumber.
Qed.

Lemma bounded_answerSchema q s : answerSchemaFor q = Some s → bounded 5 s.
Proof.
  pose proof (λ k, bounded_mono 1 3 _ (bounded_constString k) ltac:(lia)).
  pose proof (bounded_mono 1 3 _ bounded_unitNumber ltac:(lia)).
  unfold answerSchemaFor. destruct (q_Type q =s? QuestionTypeNoul).
  { intros <-%(inj Some). apply bounded_strictObject, bounded_list. auto 10 with raven. }
  destruct (q_Type q =s? QuestionTypeChoice).
  { intros <-%(inj Some). pose proof (bounded_probabilities (sortedKeys (q_Criteria q))).
    assert (bounded 3 (json_object [("type", JString "string"); ("enum", strings (sortedKeys (q_Criteria q)))])).
    { apply (bounded_mono 2); [apply bounded_object; auto 10 with raven|lia]. }
    apply bounded_strictObject, bounded_list. auto 10 with raven. }
  destruct (q_Type q =s? QuestionTypeScore); [|done]. intros <-%(inj Some).
  pose proof (bounded_probabilities (levelKeys (q_Levels q))).
  set (score := json_object _).
  assert (bounded 3 score) by (apply (bounded_mono 1); [apply bounded_object; auto 10 with raven|lia]).
  set (legend := strictObject (levelKeys _) _).
  assert (bounded 3 legend).
  { apply bounded_strictObject, bounded_list, Forall_forall. intros [k v] Hv.
    apply elem_of_zip_r, list_elem_of_fmap in Hv as (level & -> & _). apply bounded_constString. }
  apply bounded_strictObject, bounded_list. auto 10 with raven.
Qed.

Lemma answerProperties_ok questions ids :
  (∀ id, id ∈ ids → ∃ q, questions !! id = Some q ∧ is_Some (answerSchemaFor q)) →
  ∃ l, answerProperties questions ids = Some l ∧ map fst l = ids ∧
    Forall (λ ks, ∃ q, questions !! ks.1 = Some q ∧ answerSchemaFor q = Some ks.2) l.
Proof.
  induction ids as [|id ids IH]; intros Hq; cbn [answerProperties]; [by exists []|].
  destruct (Hq id ltac:(left)) as (q & Hid & s & Hs). rewrite Hid. cbn. rewrite Hs. cbn.
  destruct IH as (l & -> & Hl & HF); [intros; apply Hq; by right|].
  eexists. split; [done|]. cbn. split; [by rewrite Hl|]. constructor; [by exists q|done].
Qed.

(** What the schema bytes mean: for valid questions the builder does not panic,
    and the text it returns reads back as the schema. *)
Lemma schema_built questions :
  ValidateQuestions questions = Ok () →
  ∃ text l, AnswerJSONSchema questions = Some (Ok text) ∧
    map fst l = sortedQuestionIDs questions ∧
    Forall (λ ks, ∃ q, questions !! ks.1 = Some q ∧ answerSchemaFor q = Some ks.2) l ∧
    parse_one text = Some (sanitize (schemaOf (sortedQuestionIDs questions) (list_to_map l))).
Proof.
  intros Hv. unfold AnswerJSONSchema. rewrite Hv. cbn zeta.
  destruct (answerProperties_ok questions (sortedQuestionIDs questions)) as (l & -> & Hl & HF).
  { intros id [q Hq]%elem_of_sortedKeys. exists q. split; [done|]. eapply validQuestion_schema.
    unfold ValidateQuestions in Hv. apply fail_if_ok in Hv as [_ Hv].
    rewrite forEach_keys in Hv. by apply Hv. }
  eexists _, l. split_and!; [done|done|done|].
  assert (Hb : bounded 9 (schemaOf (sortedQuestionIDs questions) (list_to_map l))).
  { assert (bounded 6 (json_map (list_to_map l))).
    { apply bounded_map, bounded_list. eapply Forall_impl; [exact HF|].
      intros [k s] (q & _ & Hs). by eapply bounded_answerSchema. }
    pose proof (bounded_mono 1 6 _ (bounded_strings (sortedQuestionIDs questions)) ltac:(lia)).
    pose proof (bounded_mono 1 8 _ (bounded_strings ["answers"]) ltac:(lia)).
    unfold schemaOf. match goal with |- context [("answers", ?j)] => set (inner := j) end.
    assert (bounded 7 inner) by (apply bounded_object; auto 10 with raven).
    assert (bounded 8 (json_map (list_to_map [("answers", inner)])))
      by (apply bounded_map, bounded_list; auto with raven).
    apply bounded_object. auto 10 with raven. }
  destruct Hb as [Hw Hn]. apply indent_parse; [done|unfold max_nesting; lia].
Qed.
