(* ===== verification/Clients.v ===== *)
(** * What the two provider clients share

    [internal/provider/internal/jevclient] and
    [internal/provider/internal/structuredclient] have the same construction
    checks, send their requests through the same retry loop and build their
    responses alike.  Both decode answers into [provider.Answer]. *)
From stdpp Require Import pretty.
From Stdlib Require Import SpecFloat.
From S2P Require Import Prelude GoBase Sha256 Json GoNet JsonParse JsonDecode Provider Retry HttpClient.

(** ** Decoding answers *)

Definition zero_answer : Answer :=
  {| a_Type := ""; a_Noul := None; a_Choice := ""; a_Score := None; a_Legend := ∅;
     a_Probabilities := ∅; a_Confidence := None |}.

(** The fields of [provider.Answer]; a nil map and an empty one are the same to
    every reader of an answer. *)
Definition answer_decoder (strict : bool) : decoder Answer := dec_struct strict
  [dec_field "type" a_Type (λ v a, {| a_Type := v; a_Noul := a_Noul a; a_Choice := a_Choice a;
     a_Score := a_Score a; a_Legend := a_Legend a; a_Probabilities := a_Probabilities a;
     a_Confidence := a_Confidence a |}) dec_string;
   dec_field "noul" a_Noul (λ v a, {| a_Type := a_Type a; a_Noul := v; a_Choice := a_Choice a;
     a_Score := a_Score a; a_Legend := a_Legend a; a_Probabilities := a_Probabilities a;
     a_Confidence := a_Confidence a |}) (dec_ptr f64_0 dec_float);
   dec_field "choice" a_Choice (λ v a, {| a_Type := a_Type a; a_Noul := a_Noul a; a_Choice := v;
     a_Score := a_Score a; a_Legend := a_Legend a; a_Probabilities := a_Probabilities a;
     a_Confidence := a_Confidence a |}) dec_string;
   dec_field "score" a_Score (λ v a, {| a_Type := a_Type a; a_Noul := a_Noul a; a_Choice := a_Choice a;
     a_Score := v; a_Legend := a_Legend a; a_Probabilities := a_Probabilities a;
     a_Confidence := a_Confidence a |}) (dec_ptr f64_0 dec_float);
   dec_field "legend" (λ a, Some (a_Legend a)) (λ v a, {| a_Type := a_Type a; a_Noul := a_Noul a;
     a_Choice := a_Choice a; a_Score := a_Score a; a_Legend := default ∅ v;
     a_Probabilities := a_Probabilities a; a_Confidence := a_Confidence a |}) (dec_map "" dec_string);
   dec_field "probabilities" (λ a, Some (a_Probabilities a)) (λ v a, {| a_Type := a_Type a;
     a_Noul := a_Noul a; a_Choice := a_Choice a; a_Score := a_Score a; a_Legend := a_Legend a;
     a_Probabilities := default ∅ v; a_Confidence := a_Confidence a |}) (dec_map f64_0 dec_float);
   dec_field "confidence" a_Confidence (λ v a, {| a_Type := a_Type a; a_Noul := a_Noul a;
     a_Choice := a_Choice a; a_Score := a_Score a; a_Legend := a_Legend a;
     a_Probabilities := a_Probabilities a; a_Confidence := v |}) (dec_ptr f64_0 dec_float)].

(** [map[string]provider.Answer]; [None] is the nil map. *)
Definition answers_decoder (strict : bool) : decoder (option (gmap string Answer)) :=
  dec_map zero_answer (answer_decoder strict).

Record parsedResponse := {
  p_id : string; p_model : string; p_answers : gmap string Answer; p_usage : Usage
}.

(** ** Construction *)

(** [strings.TrimRight(s, "/")]. *)
Fixpoint drop_slashes (s : string) : string :=
  match s with String c r => if code c =? 47 then drop_slashes r else s | EmptyString => s end.
Definition trim_slashes (s : string) : string := String.rev (drop_slashes (String.rev s)).

Section Clients.
Context {W Ctx : Type} `{NetParsers} `{MapRange} (ctx_err : Ctx → W → option GoError)
  (with_timeout : Ctx → duration → W → Ctx) (sleep : Ctx → duration → W → option GoError * W)
  (systemNow : W → time * W) (body_error : Response → GoError).

(** [provider.FactoryConfig]. *)
Record ProviderConfig := {
  pf_Endpoint : string; pf_Model : string; pf_StrictMode : string; pf_Credential : string;
  pf_HTTPClient : option (HTTPClient (W := W) (Ctx := Ctx)); pf_Retry : RetryPolicy;
  pf_MaxRequestBytes : Z; pf_MaxResponseBytes : Z; pf_Now : option (W → time * W)
}.

(** The part of a client that does not depend on the protocol. *)
Record Core := {
  cl_name : string; cl_endpoint : string; cl_model : string; cl_credential : string;
  cl_httpClient : HTTPClient (W := W) (Ctx := Ctx); cl_retry : RetryPolicy;
  cl_limits : HTTPLimits (W := W); cl_now : W → time * W
}.

(** The checks both constructors make, in their order. *)
Definition newCore (name defaultURL endpointPath model : string) (f : ProviderConfig)
    : result string Core :=
  let endpoint := trim_space (pf_Endpoint f) in
  let endpoint := if endpoint =s? "" then defaultURL else endpoint in
  fail_if! match url_parse endpoint with
           | None => true
           | Some parsed =>
               (u_Scheme parsed =s? "") || (u_Host parsed =s? "")
               || ((u_Scheme parsed ≠s? "http") && (u_Scheme parsed ≠s? "https"))
           end with "provider endpoint must be an absolute HTTP URL";
  fail_if! model =s? "" with "provider model is required";
  fail_if! blank (pf_Credential f) with "provider credential is required";
  match pf_HTTPClient f with
  | None => Err "provider HTTP client is required"
  | Some client =>
      fail_if! (pf_MaxRequestBytes f <=? 0) || (pf_MaxResponseBytes f <=? 0)
        with "provider HTTP limits must be positive";
      let now := default systemNow (pf_Now f) in
      Ok {| cl_name := name; cl_endpoint := trim_slashes endpoint +:+ endpointPath; cl_model := model;
            cl_credential := pf_Credential f; cl_httpClient := client; cl_retry := pf_Retry f;
            cl_limits := {| MaxRequestBytes := pf_MaxRequestBytes f;
                            MaxResponseBytes := pf_MaxResponseBytes f;
                            lim_MaxRetryAfter := MaxRetryAfter (pf_Retry f); lim_Now := Some now |};
            cl_now := now |}
  end.

(** ** Sending *)

(** The closure handed to [Retry] stores the response of its last attempt. *)
Abbreviation stored := (W * HTTPResponse)%type (only parsing).
Definition no_response : HTTPResponse := {| hr_Body := ""; hr_Header := ∅ |}.

Definition attempt_exchange (c : Core) (headers : Header) (body : string) (ctx : Ctx) (_ : Z) (s : stored)
    : option GoError * stored :=
  match DoJSONResponse ctx_err systemNow body_error ctx (Some (cl_httpClient c)) "POST" (cl_endpoint c)
          headers body (cl_limits c) s.1 with
  | (Ok response, w) => (None, (w, response))
  | (Err e, w) => (Some e, (w, no_response))
  end.

(** The retried exchange: the number of attempts and the response.  [None] is
    the panic of [Retry]. *)
Definition send (c : Core) (ctx : Ctx) (headers : Header) (body : string) (w : W)
    : option (result GoError (Z * HTTPResponse) * W) :=
  '(o, (w, response)) ←
    Retry (λ ctx s, ctx_err ctx s.1) (λ ctx d s, with_timeout ctx d s.1)
      (λ ctx d s, let '(e, w) := sleep ctx d s.1 in (e, (w, s.2)))
      (cl_retry c) (attempt_exchange c headers body) ctx (w, no_response);
  Some (match o with
        | finished attempts None => Ok (attempts, response)
        | finished _ (Some e) => Err e
        | invalid_policy _ => Err (other_error "retry policy")
        end, w).

(** The response of a successful evaluation. *)
Definition evaluated (c : Core) (request : EvaluationRequest) (started : time) (attempts : Z)
    (response : HTTPResponse) (parsed : parsedResponse) (w : W) : EvaluationResponse * W :=
  let providerRequestID := if p_id parsed =s? "" then header_get "X-Request-ID" (hr_Header response)
                           else p_id parsed in
  let '(now, w) := cl_now c w in
  ({| resp_Answers := p_answers parsed; resp_Provider := cl_name c; resp_RequestedModel := cl_model c;
      resp_ResolvedModel := p_model parsed; resp_RequestID := req_RequestID request;
      resp_ProviderRequestID := providerRequestID; resp_Usage := p_usage parsed;
      resp_Latency := time_sub now started; resp_Attempts := attempts;
      resp_RawResponseHash := hex_encode (sha256 (hr_Body response)) |}, w).

(** ** What a successful evaluation means *)

(** A response that can be traced to one exchange with the provider: the body
    that arrived within the limits, over the configured endpoint and with a
    status from 200 to 299, is the one that was hashed. *)
Definition exchanged (c : Core) (body : string) (headers : Header) (r : EvaluationResponse)
    (content : string) : Prop :=
  ∃ ctx request answer w1 w2, cl_httpClient c ctx request w1 = (Ok answer, w2) ∧
    sends "POST" (cl_endpoint c) headers body request ∧ len body ≤ MaxRequestBytes (cl_limits c) ∧
    200 ≤ rs_StatusCode answer ≤ 299 ∧ rs_Body answer = content ∧
    len content ≤ MaxResponseBytes (cl_limits c) ∧
    resp_RawResponseHash r = hex_encode (sha256 content).

(** What a caller may rely on. *)
Definition trusted (c : Core) (request : EvaluationRequest) (r : EvaluationResponse) : Prop :=
  ValidateAnswers (req_Questions request) (resp_Answers r) = Ok () ∧
  resp_Provider r = cl_name c ∧ resp_RequestedModel r = cl_model c ∧
  resp_RequestID r = req_RequestID request ∧ resp_ResolvedModel r ≠ "" ∧
  0 ≤ InputTokens (resp_Usage r) ∧ 0 ≤ OutputTokens (resp_Usage r) ∧
  1 ≤ resp_Attempts r ≤ MaxAttempts (cl_retry c).

Lemma send_returns c ctx headers body w :
  ∃ o w', send c ctx headers body w = Some (o, w').
Proof.
  unfold send.
  destruct (Retry_returns (λ ctx (s : W * HTTPResponse), ctx_err ctx s.1) (λ ctx d s, with_timeout ctx d s.1)
    (λ ctx d s, let '(e, w) := sleep ctx d s.1 in (e, (w, s.2)))
    (cl_retry c) (attempt_exchange c headers body) ctx (w, no_response)) as [[o [w' r]] ->].
  by eexists _, _.
Qed.

Lemma send_ok c ctx headers body w n response w' :
  send c ctx headers body w = Some (Ok (n, response), w') →
  1 ≤ n ≤ MaxAttempts (cl_retry c) ∧ ∃ ctx w1,
    DoJSONResponse ctx_err systemNow body_error ctx (Some (cl_httpClient c)) "POST" (cl_endpoint c)
      headers body (cl_limits c) w1 = (Ok response, w').
Proof.
  unfold send. intros ([o [w1 r]] & Hr & Ho)%bind_Some. destruct o as [|m [e|]]; try done.
  injection Ho as -> -> ->. apply Retry_success in Hr as (Hn & ctx' & s & Hs). split; [done|].
  exists ctx', s.1. unfold attempt_exchange in Hs.
  match type of Hs with context [match ?x with _ => _ end] => destruct x as [[a|e] w2] end; [|done].
  by injection Hs as -> ->.
Qed.

Lemma send_exchanged c ctx headers body w n response w' request started parsed r w'' :
  send c ctx headers body w = Some (Ok (n, response), w') →
  evaluated c request started n response parsed w' = (r, w'') →
  exchanged c body headers r (hr_Body response) ∧ 1 ≤ resp_Attempts r ≤ MaxAttempts (cl_retry c) ∧
  resp_Answers r = p_answers parsed ∧ resp_Provider r = cl_name c ∧ resp_RequestedModel r = cl_model c ∧
  resp_ResolvedModel r = p_model parsed ∧ resp_RequestID r = req_RequestID request ∧
  resp_Usage r = p_usage parsed.
Proof.
  intros (Hn & ctx' & w1 & He)%send_ok. unfold evaluated.
  destruct (cl_now c w') as [now w2]. intros [= <- _]. cbn. split; [|done].
  apply exchange_ok in He as (Hb & Hl & do & q & answer & [= <-] & Hs & Hdo & Hst & Hbody & _).
  exists ctx', q, answer, w1, w'. rewrite Hbody in *. split_and!; try done; lia.
Qed.

(** A response built from parsed content that passed the checks. *)
Lemma evaluated_trusted c ctx headers body w n response w' request started parsed r w'' :
  send c ctx headers body w = Some (Ok (n, response), w') →
  evaluated c request started n response parsed w' = (r, w'') →
  ValidateAnswers (req_Questions request) (p_answers parsed) = Ok () → p_model parsed ≠ "" →
  0 ≤ InputTokens (p_usage parsed) → 0 ≤ OutputTokens (p_usage parsed) →
  trusted c request r ∧ exchanged c body headers r (hr_Body response).
Proof.
  intros Hs He Hv Hm Hi Ho.
  destruct (send_exchanged _ _ _ _ _ _ _ _ _ _ _ _ _ Hs He) as (Hx & Hn & Ha & ? & ? & Hmod & ? & Hu).
  split; [|done]. unfold trusted. rewrite Ha, Hmod, Hu. done.
Qed.

Lemma newCore_ok name defaultURL path model f c :
  newCore name defaultURL path model f = Ok c →
  cl_name c = name ∧ cl_model c = model ∧ model ≠ "" ∧ blank (cl_credential c) = false ∧
  0 < MaxRequestBytes (cl_limits c) ∧ 0 < MaxResponseBytes (cl_limits c) ∧ cl_retry c = pf_Retry f.
Proof.
  unfold newCore. rewrite !fail_if_ok. intros (_ & Hm & Hc & H1).
  destruct (pf_HTTPClient f); [|done]. apply fail_if_ok in H1 as [Hl [= <-]]. cbn.
  rewrite orb_false_iff, !Z.leb_gt in Hl. apply String.eqb_neq in Hm. naive_solver.
Qed.
End Clients.
