(* ===== verification/Jev.v ===== *)
(** * Package [internal/provider/internal/jevclient]: the Jev Decisions protocol *)
From stdpp Require Import pretty.
From Stdlib Require Import SpecFloat.
From S2P Require Import Prelude GoBase Sha256 Json GoNet JsonParse JsonDecode Provider Retry HttpClient Clients.

Abbreviation Mode := string (only parsing).
Definition ModeTypeSafe : Mode := "typesafe".
Definition ModeOpenRouter : Mode := "openrouter".

(** ** Requests *)

(** [any] with [UseNumber]: number literals are kept. *)
Definition decodeState (raw : string) : result GoError json :=
  match parse_value (parse_fuel raw) 0 raw with
  | None => Err (other_error "provider state must be valid JSON")
  | Some (state, rest) =>
      fail_if! skip_ws rest ≠s? "" with other_error "provider state must contain one JSON value";
      match state with
      | JString _ | JArray _ | JObject _ => Ok (any_json id state)
      | _ => Err (other_error "provider state must be a JSON string, object, or array")
      end
  end.

(** The criteria of a question on the wire; [None] is omitted. *)
Definition wireCriteria (q : Question) : option json :=
  if (q_Type q =s? QuestionTypeNoul) || (q_Type q =s? QuestionTypeChoice) then
    if negb (Nat.eqb (size (q_Criteria q)) 0) then Some (json_map (JString <$> q_Criteria q)) else None
  else if q_Type q =s? QuestionTypeScore then Some (JArray (map JString (q_Levels q)))
  else None.
Definition wireQuestion (q : Question) : json :=
  JObject (string_field "type" (q_Type q) ++ string_field "instructions" (q_Instructions q)
           ++ match wireCriteria q with Some c => field "criteria" c | None => [] end).
Definition wireRequest (model : string) (state : json) (questions : gmap string Question) : json :=
  JObject [("model", JString model); ("state", state);
           ("questions", json_map (wireQuestion <$> questions))].

(** ** Responses *)

Record wireUsage := {
  wu_InputTokens : option Z; wu_OutputTokens : option Z; wu_Cost : option spec_float
}.
Definition wireUsage_decoder : decoder wireUsage := dec_struct true
  [dec_field "input_tokens" wu_InputTokens (λ v u, {| wu_InputTokens := v;
     wu_OutputTokens := wu_OutputTokens u; wu_Cost := wu_Cost u |}) (dec_ptr 0 dec_int);
   dec_field "output_tokens" wu_OutputTokens (λ v u, {| wu_InputTokens := wu_InputTokens u;
     wu_OutputTokens := v; wu_Cost := wu_Cost u |}) (dec_ptr 0 dec_int);
   dec_field "cost" wu_Cost (λ v u, {| wu_InputTokens := wu_InputTokens u;
     wu_OutputTokens := wu_OutputTokens u; wu_Cost := v |}) (dec_ptr f64_0 dec_float)].
Definition zero_usage : wireUsage := {| wu_InputTokens := None; wu_OutputTokens := None; wu_Cost := None |}.

(** The fields of both envelopes. *)
Record envelope := {
  e_ID : string; e_Model : string; e_Provider : string;
  e_Answers : option (gmap string Answer); e_Usage : option wireUsage
}.
Definition zero_envelope : envelope :=
  {| e_ID := ""; e_Model := ""; e_Provider := ""; e_Answers := None; e_Usage := None |}.
Definition envelope_fields : list (string * decoder envelope) :=
  [dec_field "model" e_Model (λ v e, {| e_ID := e_ID e; e_Model := v; e_Provider := e_Provider e;
     e_Answers := e_Answers e; e_Usage := e_Usage e |}) dec_string;
   dec_field "answers" e_Answers (λ v e, {| e_ID := e_ID e; e_Model := e_Model e;
     e_Provider := e_Provider e; e_Answers := v; e_Usage := e_Usage e |}) (answers_decoder true);
   dec_field "usage" e_Usage (λ v e, {| e_ID := e_ID e; e_Model := e_Model e;
     e_Provider := e_Provider e; e_Answers := e_Answers e; e_Usage := v |})
     (dec_ptr zero_usage wireUsage_decoder)].
Definition openrouter_fields : list (string * decoder envelope) :=
  [dec_field "id" e_ID (λ v e, {| e_ID := v; e_Model := e_Model e; e_Provider := e_Provider e;
     e_Answers := e_Answers e; e_Usage := e_Usage e |}) dec_string;
   dec_field "provider" e_Provider (λ v e, {| e_ID := e_ID e; e_Model := e_Model e; e_Provider := v;
     e_Answers := e_Answers e; e_Usage := e_Usage e |}) dec_string] ++ envelope_fields.

Definition parseUsage (usage : option wireUsage) : result GoError Usage :=
  match usage with
  | Some {| wu_InputTokens := Some i; wu_OutputTokens := Some o |} =>
      Ok {| InputTokens := i; OutputTokens := o |}
  | _ => Err (other_error "decode provider response: complete usage is required")
  end.

(** [None] is the panic on an unknown mode. *)
Definition decodeResponse (mode : Mode) (body : string) : option (result GoError parsedResponse) :=
  let with_fields fields :=
    match decode (dec_struct true fields) zero_envelope body with
    | None => Err (other_error "decode provider response")
    | Some e =>
        usage ←! parseUsage (e_Usage e);
        Ok {| p_id := e_ID e; p_model := e_Model e; p_answers := default ∅ (e_Answers e);
              p_usage := usage |}
    end in
  if mode =s? ModeTypeSafe then Some (with_fields envelope_fields)
  else if mode =s? ModeOpenRouter then Some (with_fields openrouter_fields)
  else None.

Section Jev.
Context {W Ctx : Type} `{NetParsers} `{MapRange} (ctx_err : Ctx → W → option GoError)
  (with_timeout : Ctx → duration → W → Ctx) (sleep : Ctx → duration → W → option GoError * W)
  (systemNow : W → time * W) (body_error : Response → GoError).

(** ** Construction *)

Record JevConfig := {
  jc_Mode : Mode; jc_EndpointPath : string; jc_DefaultURL : string; jc_DefaultModel : string;
  jc_Factory : ProviderConfig (W := W) (Ctx := Ctx)
}.
Record Client := { j_core : Core (W := W) (Ctx := Ctx); j_mode : Mode }.

Definition New (config : JevConfig) : result string Client :=
  let model := trim_space (pf_Model (jc_Factory config)) in
  let model := if model =s? "" then jc_DefaultModel config else model in
  core ←! newCore systemNow (jc_Mode config) (jc_DefaultURL config) (jc_EndpointPath config) model
            (jc_Factory config);
  fail_if! (jc_Mode config ≠s? ModeTypeSafe) && (jc_Mode config ≠s? ModeOpenRouter)
    with "unknown Jev provider mode";
  Ok {| j_core := core; j_mode := jc_Mode config |}.

(** ** Evaluation *)

Definition jevHeaders (c : Client) (request : EvaluationRequest) : Header :=
  header_set "X-Request-ID" (req_RequestID request)
    (header_set "Authorization" ("Bearer " +:+ cl_credential (j_core c)) ∅).

(** What is checked before anything is sent: the body of the request. *)
Definition prepare (c : Client) (request : EvaluationRequest) : result GoError string :=
  match ValidateQuestions (req_Questions request) with
  | Err _ => Err (other_error "invalid provider questions")
  | Ok _ =>
      fail_if! blank (req_RequestID request) with other_error "provider request ID is required";
      state ←! decodeState (req_State request);
      Ok (json_print (wireRequest (cl_model (j_core c)) state (req_Questions request)))
  end.

(** What is checked of a response. *)
Definition accept (c : Client) (request : EvaluationRequest) (body : string)
    : option (result GoError parsedResponse) :=
  parsed ← decodeResponse (j_mode c) body;
  Some (parsed ←! parsed;
        match ValidateAnswers (req_Questions request) (p_answers parsed) with
        | Err _ => Err (other_error "validate provider answers")
        | Ok _ =>
            fail_if! p_model parsed =s? "" with other_error "decode provider response: model is required";
            fail_if! (InputTokens (p_usage parsed) <? 0) || (OutputTokens (p_usage parsed) <? 0)
              with other_error "decode provider response: token usage must not be negative";
            Ok parsed
        end).

(** [None] is a panic. *)
Definition Evaluate (c : Client) (ctx : Ctx) (request : EvaluationRequest) (w : W)
    : option (result GoError EvaluationResponse * W) :=
  let '(started, w) := cl_now (j_core c) w in
  match prepare c request with
  | Err e => Some (Err e, w)
  | Ok body =>
      '(sent, w) ← send ctx_err with_timeout sleep systemNow body_error (j_core c) ctx
                     (jevHeaders c request) body w;
      match sent with
      | Err e => Some (Err e, w)
      | Ok (attempts, response) =>
          accepted ← accept c request (hr_Body response);
          match accepted with
          | Err e => Some (Err e, w)
          | Ok parsed =>
              let '(r, w) := evaluated (j_core c) request started attempts response parsed w in
              Some (Ok r, w)
          end
      end
  end.

(** ** Properties *)

Lemma jev_New_ok config c : New config = Ok c →
  cl_name (j_core c) = jc_Mode config ∧ j_mode c = jc_Mode config ∧
  cl_model (j_core c) ≠ "" ∧
  (cl_model (j_core c) = trim_space (pf_Model (jc_Factory config)) ∨
   cl_model (j_core c) = jc_DefaultModel config) ∧
  (j_mode c = ModeTypeSafe ∨ j_mode c = ModeOpenRouter).
Proof.
  unfold New. intros (core & Hc & H1)%rbind_ok. apply fail_if_ok in H1 as [Hm [= <-]]. cbn.
  apply newCore_ok in Hc as (-> & -> & Hne & _). rewrite andb_false_iff, !negb_false_iff, !String.eqb_eq in Hm.
  split_and!; [done|done|done| |done]. destruct (_ =s? ""); auto.
Qed.

Lemma jev_Evaluate_returns c ctx request w :
  j_mode c = ModeTypeSafe ∨ j_mode c = ModeOpenRouter → is_Some (Evaluate c ctx request w).
Proof.
  intros Hm. unfold Evaluate. destruct (cl_now (j_core c) w) as [started w1].
  destruct (prepare c request) as [body|]; [|done].
  destruct (send_returns ctx_err with_timeout sleep systemNow body_error (j_core c) ctx
    (jevHeaders c request) body w1) as ([[n response]|e] & w2 & ->); [|done]. cbn [mbind option_bind].
  unfold accept, decodeResponse.
  destruct Hm as [-> | ->]; cbn [mbind option_bind String.eqb Ascii.eqb Bool.eqb ModeTypeSafe ModeOpenRouter];
    (match goal with |- context [match ?r with Ok _ => _ | Err _ => _ end] => destruct r end;
     [by destruct (evaluated _ _ _ _ _ _ _)|done]).
Qed.

Lemma jev_Evaluate_ok c ctx request w r w' :
  Evaluate c ctx request w = Some (Ok r, w') →
  trusted (j_core c) request r ∧
  ∃ body content parsed, prepare c request = Ok body ∧
    exchanged (j_core c) body (jevHeaders c request) r content ∧
    accept c request content = Some (Ok parsed) ∧ resp_Answers r = p_answers parsed.
Proof.
  unfold Evaluate. destruct (cl_now (j_core c) w) as [started w1].
  destruct (prepare c request) as [body|] eqn:Hp; [|done].
  intros ([sent w2] & Hs & H1)%bind_Some. destruct sent as [[n response]|]; [|done].
  apply bind_Some in H1 as ([parsed|] & Ha & H1); [|done].
  destruct (evaluated (j_core c) request started n response parsed w2) as [r' w3] eqn:He.
  injection H1 as -> ->. pose proof Ha as Hacc. unfold accept in Ha.
  apply bind_Some in Ha as ([parsed'|] & Hd & Ha); [|done]. injection Ha as Ha.
  destruct (ValidateAnswers _ _) as [[]|] eqn:Hv; [|done].
  rewrite !fail_if_ok, orb_false_iff, !Z.ltb_ge in Ha. destruct Ha as (Hm & [Hi Ho] & [= ->]).
  apply String.eqb_neq in Hm.
  destruct (evaluated_trusted _ _ _ _ _ _ _ _ _ _ _ _ _ _ _ _ _ _ Hs He Hv Hm Hi Ho) as [Ht Hx].
  split; [done|]. exists body, (hr_Body response), parsed. split_and!; try done.
  unfold evaluated in He. destruct (cl_now (j_core c) w2). by injection He as <- _.
Qed.
End Jev.
