(* ===== verification/Structured.v ===== *)
(** * Package [internal/provider/internal/structuredclient]: structured outputs *)
From stdpp Require Import pretty.
From S2P Require Import Prelude GoBase Sha256 Json GoNet JsonParse JsonDecode Provider Retry HttpClient Clients Schema.

Definition toolName : string := "submit_answers".

Abbreviation Protocol := string (only parsing).
Definition ProtocolOpenAIJSONSchema : Protocol := "openai_json_schema".
Definition ProtocolOpenAIForcedTool : Protocol := "openai_forced_tool".
Definition ProtocolAnthropicTool : Protocol := "anthropic_forced_tool".

Definition fails {A} (message : string) : result GoError A := Err (other_error message).

(** ** Requests *)

Definition validateState (raw : string) : result GoError unit :=
  match parse_one raw with
  | None => fails "provider state must contain one valid JSON value"
  | Some (JString _ | JArray _ | JObject _) => Ok ()
  | Some _ => fails "provider state must be a JSON string, object, or array"
  end.

(** [json.Marshal(request)] of a request with a valid state. *)
Definition question_json (q : Question) : json :=
  JObject (string_field "type" (q_Type q) ++ string_field "instructions" (q_Instructions q)
           ++ field_if (negb (Nat.eqb (size (q_Criteria q)) 0)) "criteria"
                (json_map (JString <$> q_Criteria q))
           ++ field_if (negb (Nat.eqb (length (q_Levels q)) 0)) "levels"
                (JArray (map JString (q_Levels q)))).
Definition marshalRequest (r : EvaluationRequest) : string :=
  "{" +:+ json_string "state" +:+ ":" +:+ json_compact false false (req_State r) +:+ ","
  +:+ join "," (map json_field
        (field "questions" (json_map (question_json <$> req_Questions r))
         ++ string_field "rubricVersion" (req_RubricVersion r)
         ++ string_field "requestId" (req_RequestID r)
         ++ string_omitempty "requestedModel" (req_RequestedModel r)))
  +:+ "}".

(** [json.Unmarshal] of the schema into [any]: its numbers are small integers,
    which a [float64] holds and prints exactly. *)
Definition schemaValue (text : string) : option json := any_json id <$> parse_one text.

Definition message (role content : string) : json :=
  json_object [("role", JString role); ("content", JString content)].

(** [None] is the panic on an unknown protocol. *)
Definition requestBody (protocol : Protocol) (model prompt : string) (schema : json) : option string :=
  let function fields := json_object [("type", JString "function"); ("function", json_object fields)] in
  if protocol =s? ProtocolOpenAIJSONSchema then
    Some (json_print (json_object
      [("model", JString model);
       ("messages", JArray [message "system" "Return only the requested structured answers.";
                            message "user" prompt]);
       ("response_format", json_object [("type", JString "json_schema");
          ("json_schema", json_object [("name", JString toolName); ("strict", JBool true);
                                       ("schema", schema)])])]))
  else if protocol =s? ProtocolOpenAIForcedTool then
    Some (json_print (json_object
      [("model", JString model);
       ("messages", JArray [message "system" "Submit exactly one structured answer tool call.";
                            message "user" prompt]);
       ("tools", JArray [function [("name", JString toolName);
                                   ("description", JString "Submit all answers.");
                                   ("strict", JBool true); ("parameters", schema)]]);
       ("tool_choice", function [("name", JString toolName)]);
       ("parallel_tool_calls", JBool false)]))
  else if protocol =s? ProtocolAnthropicTool then
    Some (json_print (json_object
      [("model", JString model); ("max_tokens", JInt 4096);
       ("messages", JArray [message "user" prompt]);
       ("tools", JArray [json_object [("name", JString toolName);
                                      ("description", JString "Submit all answers.");
                                      ("input_schema", schema)]]);
       ("tool_choice", json_object [("type", JString "tool"); ("name", JString toolName);
                                    ("disable_parallel_tool_use", JBool true)])]))
  else None.

(** ** Responses *)

Record Function := { fn_Name : string; fn_Arguments : string }.
Record ToolCall := { tc_ID : string; tc_Type : string; tc_Function : Function }.
Record Message := { msg_Role : string; msg_Content : string; msg_ToolCalls : slice (A := ToolCall) }.
Record Choice := { ch_Message : Message; ch_FinishReason : string }.
(** The token counts of either usage. *)
Definition tokens : Type := option Z * option Z.
Record openAIEnvelope := {
  oe_ID : string; oe_Model : string; oe_Choices : slice (A := Choice); oe_Usage : option tokens
}.
Record Block := {
  bl_Type : string; bl_ID : string; bl_Name : string; bl_Input : option json; bl_Text : string
}.
Record anthropicEnvelope := {
  ae_ID : string; ae_Type : string; ae_Role : string; ae_Model : string; ae_StopReason : string;
  ae_Content : slice (A := Block); ae_Usage : option tokens
}.

Definition zero_function : Function := {| fn_Name := ""; fn_Arguments := "" |}.
Definition zero_call : ToolCall := {| tc_ID := ""; tc_Type := ""; tc_Function := zero_function |}.
Definition zero_message : Message := {| msg_Role := ""; msg_Content := ""; msg_ToolCalls := ([], O) |}.
Definition zero_choice : Choice := {| ch_Message := zero_message; ch_FinishReason := "" |}.
Definition zero_block : Block :=
  {| bl_Type := ""; bl_ID := ""; bl_Name := ""; bl_Input := None; bl_Text := "" |}.

Definition tokens_decoder (input output : string) : decoder tokens := dec_struct false
  [dec_field input fst (λ v p, (v, p.2)) (dec_ptr 0 dec_int);
   dec_field output snd (λ v p, (p.1, v)) (dec_ptr 0 dec_int)].
Definition function_decoder : decoder Function := dec_struct false
  [dec_field "name" fn_Name (λ v f, {| fn_Name := v; fn_Arguments := fn_Arguments f |}) dec_string;
   dec_field "arguments" fn_Arguments (λ v f, {| fn_Name := fn_Name f; fn_Arguments := v |}) dec_string].
Definition call_decoder : decoder ToolCall := dec_struct false
  [dec_field "id" tc_ID (λ v c, {| tc_ID := v; tc_Type := tc_Type c; tc_Function := tc_Function c |}) dec_string;
   dec_field "type" tc_Type (λ v c, {| tc_ID := tc_ID c; tc_Type := v; tc_Function := tc_Function c |}) dec_string;
   dec_field "function" tc_Function (λ v c, {| tc_ID := tc_ID c; tc_Type := tc_Type c; tc_Function := v |})
     function_decoder].
Definition message_decoder : decoder Message := dec_struct false
  [dec_field "role" msg_Role (λ v m, {| msg_Role := v; msg_Content := msg_Content m;
     msg_ToolCalls := msg_ToolCalls m |}) dec_string;
   dec_field "content" msg_Content (λ v m, {| msg_Role := msg_Role m; msg_Content := v;
     msg_ToolCalls := msg_ToolCalls m |}) dec_string;
   dec_field "tool_calls" msg_ToolCalls (λ v m, {| msg_Role := msg_Role m; msg_Content := msg_Content m;
     msg_ToolCalls := v |}) (dec_slice zero_call call_decoder)].
Definition choice_decoder : decoder Choice := dec_struct false
  [dec_field "message" ch_Message (λ v c, {| ch_Message := v; ch_FinishReason := ch_FinishReason c |})
     message_decoder;
   dec_field "finish_reason" ch_FinishReason
     (λ v c, {| ch_Message := ch_Message c; ch_FinishReason := v |}) dec_string].
Definition openAI_decoder : decoder openAIEnvelope := dec_struct false
  [dec_field "id" oe_ID (λ v e, {| oe_ID := v; oe_Model := oe_Model e; oe_Choices := oe_Choices e;
     oe_Usage := oe_Usage e |}) dec_string;
   dec_field "model" oe_Model (λ v e, {| oe_ID := oe_ID e; oe_Model := v; oe_Choices := oe_Choices e;
     oe_Usage := oe_Usage e |}) dec_string;
   dec_field "choices" oe_Choices (λ v e, {| oe_ID := oe_ID e; oe_Model := oe_Model e; oe_Choices := v;
     oe_Usage := oe_Usage e |}) (dec_slice zero_choice choice_decoder);
   dec_field "usage" oe_Usage (λ v e, {| oe_ID := oe_ID e; oe_Model := oe_Model e;
     oe_Choices := oe_Choices e; oe_Usage := v |})
     (dec_ptr (None, None) (tokens_decoder "prompt_tokens" "completion_tokens"))].
Definition block_decoder : decoder Block := dec_struct false
  [dec_field "type" bl_Type (λ v b, {| bl_Type := v; bl_ID := bl_ID b; bl_Name := bl_Name b;
     bl_Input := bl_Input b; bl_Text := bl_Text b |}) dec_string;
   dec_field "id" bl_ID (λ v b, {| bl_Type := bl_Type b; bl_ID := v; bl_Name := bl_Name b;
     bl_Input := bl_Input b; bl_Text := bl_Text b |}) dec_string;
   dec_field "name" bl_Name (λ v b, {| bl_Type := bl_Type b; bl_ID := bl_ID b; bl_Name := v;
     bl_Input := bl_Input b; bl_Text := bl_Text b |}) dec_string;
   dec_field "input" bl_Input (λ v b, {| bl_Type := bl_Type b; bl_ID := bl_ID b; bl_Name := bl_Name b;
     bl_Input := v; bl_Text := bl_Text b |}) dec_raw;
   dec_field "text" bl_Text (λ v b, {| bl_Type := bl_Type b; bl_ID := bl_ID b; bl_Name := bl_Name b;
     bl_Input := bl_Input b; bl_Text := v |}) dec_string].
Definition anthropic_decoder : decoder anthropicEnvelope :=
  let set_strings (id type role model stop : string) e := {| ae_ID := id; ae_Type := type; ae_Role := role;
    ae_Model := model; ae_StopReason := stop; ae_Content := ae_Content e; ae_Usage := ae_Usage e |} in
  dec_struct false
  [dec_field "id" ae_ID (λ v e, set_strings v (ae_Type e) (ae_Role e) (ae_Model e) (ae_StopReason e) e) dec_string;
   dec_field "type" ae_Type (λ v e, set_strings (ae_ID e) v (ae_Role e) (ae_Model e) (ae_StopReason e) e) dec_string;
   dec_field "role" ae_Role (λ v e, set_strings (ae_ID e) (ae_Type e) v (ae_Model e) (ae_StopReason e) e) dec_string;
   dec_field "model" ae_Model (λ v e, set_strings (ae_ID e) (ae_Type e) (ae_Role e) v (ae_StopReason e) e) dec_string;
   dec_field "stop_reason" ae_StopReason (λ v e, set_strings (ae_ID e) (ae_Type e) (ae_Role e) (ae_Model e) v e) dec_string;
   dec_field "content" ae_Content (λ v e, {| ae_ID := ae_ID e; ae_Type := ae_Type e; ae_Role := ae_Role e;
     ae_Model := ae_Model e; ae_StopReason := ae_StopReason e; ae_Content := v; ae_Usage := ae_Usage e |})
     (dec_slice zero_block block_decoder);
   dec_field "usage" ae_Usage (λ v e, {| ae_ID := ae_ID e; ae_Type := ae_Type e; ae_Role := ae_Role e;
     ae_Model := ae_Model e; ae_StopReason := ae_StopReason e; ae_Content := ae_Content e; ae_Usage := v |})
     (dec_ptr (None, None) (tokens_decoder "input_tokens" "output_tokens"))].
Definition zero_openAI : openAIEnvelope :=
  {| oe_ID := ""; oe_Model := ""; oe_Choices := ([], O); oe_Usage := None |}.
Definition zero_anthropic : anthropicEnvelope :=
  {| ae_ID := ""; ae_Type := ""; ae_Role := ""; ae_Model := ""; ae_StopReason := "";
     ae_Content := ([], O); ae_Usage := None |}.

(** [openAIUsage] and [anthropicUsage]. *)
Definition usageOf (usage : option tokens) : result GoError Usage :=
  match usage with
  | Some (Some input, Some output) => Ok {| InputTokens := input; OutputTokens := output |}
  | _ => fails "decode provider response usage"
  end.

(** The payload with its one field, strictly. *)
Definition payload_decoder : decoder (option (gmap string Answer)) := dec_struct true
  [dec_field "answers" id (λ v _, v) (answers_decoder true)].
Definition decodeAnswers (raw : option json) : result GoError (gmap string Answer) :=
  match v ← raw; payload_decoder None v with
  | Some (Some answers) => Ok answers
  | _ => fails "decode provider structured answers"
  end.

Definition parseAnthropic (body : string) : result GoError parsedResponse :=
  match decode anthropic_decoder zero_anthropic body with
  | None => fails "decode provider response"
  | Some e =>
      match slice_list (ae_Content e) with
      | [block] =>
          fail_if! (ae_Type e ≠s? "message") || (ae_Role e ≠s? "assistant")
                   || (ae_StopReason e ≠s? "tool_use") with other_error "decode provider response";
          match bl_Input block with
          | None => fails "provider response did not use required answer tool"
          | Some input =>
              fail_if! (bl_Type block ≠s? "tool_use") || (bl_Name block ≠s? toolName)
                with other_error "provider response did not use required answer tool";
              answers ←! decodeAnswers (Some input);
              usage ←! usageOf (ae_Usage e);
              Ok {| p_id := ae_ID e; p_model := ae_Model e; p_answers := answers; p_usage := usage |}
          end
      | _ => fails "decode provider response"
      end
  end.

(** The text of the answers in a message. *)
Definition answerText (protocol : Protocol) (choice : Choice) : result GoError string :=
  let m := ch_Message choice in
  let calls := slice_list (msg_ToolCalls m) in
  if protocol =s? ProtocolOpenAIJSONSchema then
    fail_if! negb (Nat.eqb (length calls) 0) || blank (msg_Content m)
             || (ch_FinishReason choice ≠s? "stop") with other_error "decode provider structured response";
    Ok (msg_Content m)
  else
    fail_if! (msg_Content m ≠s? "") || (ch_FinishReason choice ≠s? "tool_calls")
      with other_error "provider response did not use exactly one required answer tool";
    match calls with
    | [call] =>
        fail_if! (tc_Type call ≠s? "function") || (fn_Name (tc_Function call) ≠s? toolName)
                 || blank (fn_Arguments (tc_Function call))
          with other_error "provider response used wrong answer tool";
        Ok (fn_Arguments (tc_Function call))
    | _ => fails "provider response did not use exactly one required answer tool"
    end.

Definition parseOpenAI (protocol : Protocol) (body : string) : result GoError parsedResponse :=
  match decode openAI_decoder zero_openAI body with
  | None => fails "decode provider response"
  | Some e =>
      match slice_list (oe_Choices e) with
      | [choice] =>
          fail_if! msg_Role (ch_Message choice) ≠s? "assistant" with other_error "decode provider response role";
          raw ←! answerText protocol choice;
          answers ←! decodeAnswers (parse_one raw);
          usage ←! usageOf (oe_Usage e);
          Ok {| p_id := oe_ID e; p_model := oe_Model e; p_answers := answers; p_usage := usage |}
      | _ => fails "decode provider response"
      end
  end.

Definition parseResponse (protocol : Protocol) (body : string) : result GoError parsedResponse :=
  if protocol =s? ProtocolAnthropicTool then parseAnthropic body else parseOpenAI protocol body.

Section Structured.
Context {W Ctx : Type} `{NetParsers} `{MapRange} (ctx_err : Ctx → W → option GoError)
  (with_timeout : Ctx → duration → W → Ctx) (sleep : Ctx → duration → W → option GoError * W)
  (systemNow : W → time * W) (body_error : Response → GoError).

(** ** Construction *)

Record StructuredConfig := {
  sc_Name : string; sc_DefaultURL : string; sc_EndpointPath : string; sc_Protocol : Protocol;
  sc_Factory : ProviderConfig (W := W) (Ctx := Ctx)
}.
Record Client := { s_core : Core (W := W) (Ctx := Ctx); s_protocol : Protocol }.

Definition knownProtocol (p : Protocol) : bool :=
  (p =s? ProtocolOpenAIJSONSchema) || (p =s? ProtocolOpenAIForcedTool) || (p =s? ProtocolAnthropicTool).

Definition New (config : StructuredConfig) : result string Client :=
  core ←! newCore systemNow (sc_Name config) (sc_DefaultURL config) (sc_EndpointPath config)
            (trim_space (pf_Model (sc_Factory config))) (sc_Factory config);
  fail_if! sc_Name config =s? "" with "provider name is required";
  fail_if! negb (knownProtocol (sc_Protocol config)) with "provider strict protocol is unsupported";
  Ok {| s_core := core; s_protocol := sc_Protocol config |}.

(** ** Evaluation *)

Definition structuredHeaders (c : Client) (request : EvaluationRequest) : Header :=
  let headers := header_set "X-Request-ID" (req_RequestID request) ∅ in
  if s_protocol c =s? ProtocolAnthropicTool then
    header_set "Anthropic-Version" "2023-06-01"
      (header_set "X-Api-Key" (cl_credential (s_core c)) headers)
  else header_set "Authorization" ("Bearer " +:+ cl_credential (s_core c)) headers.

(** What is checked before anything is sent: the body of the request.  The
    outer [option] is a panic. *)
Definition prepare (c : Client) (request : EvaluationRequest) : option (result GoError string) :=
  match ValidateQuestions (req_Questions request) with
  | Err _ => Some (fails "invalid provider questions")
  | Ok _ =>
      if blank (req_RequestID request) then Some (fails "provider request ID is required") else
      match validateState (req_State request) with
      | Err e => Some (Err e)
      | Ok _ =>
          schema ← AnswerJSONSchema (req_Questions request);
          match schema with
          | Err _ => Some (fails "build provider answer schema")
          | Ok text =>
              match schemaValue text with
              | None => Some (fails "build provider answer schema")
              | Some schema =>
                  body ← requestBody (s_protocol c) (cl_model (s_core c)) (marshalRequest request) schema;
                  Some (Ok body)
              end
          end
      end
  end.

(** What is checked of a response. *)
Definition accept (c : Client) (request : EvaluationRequest) (body : string)
    : result GoError parsedResponse :=
  parsed ←! parseResponse (s_protocol c) body;
  match ValidateAnswers (req_Questions request) (p_answers parsed) with
  | Err _ => fails "validate provider answers"
  | Ok _ =>
      fail_if! (p_model parsed =s? "") || (InputTokens (p_usage parsed) <? 0)
               || (OutputTokens (p_usage parsed) <? 0) with other_error "decode provider response metadata";
      Ok parsed
  end.

(** [None] is a panic. *)
Definition Evaluate (c : Client) (ctx : Ctx) (request : EvaluationRequest) (w : W)
    : option (result GoError EvaluationResponse * W) :=
  let '(started, w) := cl_now (s_core c) w in
  prepared ← prepare c request;
  match prepared with
  | Err e => Some (Err e, w)
  | Ok body =>
      '(sent, w) ← send ctx_err with_timeout sleep systemNow body_error (s_core c) ctx
                     (structuredHeaders c request) body w;
      match sent with
      | Err e => Some (Err e, w)
      | Ok (attempts, response) =>
          match accept c request (hr_Body response) with
          | Err e => Some (Err e, w)
          | Ok parsed =>
              let '(r, w) := evaluated (s_core c) request started attempts response parsed w in
              Some (Ok r, w)
          end
      end
  end.

(** ** Properties *)

Lemma structured_New_ok config c : New config = Ok c →
  cl_name (s_core c) = sc_Name config ∧ cl_model (s_core c) ≠ "" ∧
  cl_model (s_core c) = trim_space (pf_Model (sc_Factory config)) ∧ knownProtocol (s_protocol c) = true.
Proof.
  unfold New. intros (core & Hc & H1)%rbind_ok. rewrite !fail_if_ok, negb_false_iff in H1.
  destruct H1 as (_ & Hp & [= <-]). cbn. apply newCore_ok in Hc as (-> & -> & Hne & _). done.
Qed.

Lemma requestBody_known protocol model prompt schema :
  knownProtocol protocol = true → is_Some (requestBody protocol model prompt schema).
Proof.
  unfold knownProtocol, requestBody. destruct (protocol =s? ProtocolOpenAIJSONSchema); [done|].
  destruct (protocol =s? ProtocolOpenAIForcedTool); [done|].
  by destruct (protocol =s? ProtocolAnthropicTool).
Qed.

(** Preparing a request does not panic, and fails only for one of three
    reasons: the schema is always built. *)
Lemma prepare_cases c request :
  knownProtocol (s_protocol c) = true →
  (∃ body, prepare c request = Some (Ok body)) ∨
  (∃ e, prepare c request = Some (Err e)) ∧
  (is_ok (ValidateQuestions (req_Questions request)) = false ∨ blank (req_RequestID request) = true ∨
   is_ok (validateState (req_State request)) = false).
Proof.
  intros Hk. unfold prepare. destruct (ValidateQuestions _) as [[]|] eqn:Hv; [|right; eauto].
  destruct (blank (req_RequestID request)); [right; eauto|].
  destruct (validateState (req_State request)); [|right; eauto].
  destruct (schema_built _ Hv) as (text & l & -> & _ & _ & Hp). cbn [mbind option_bind].
  unfold schemaValue. rewrite Hp. cbn [fmap option_fmap option_map].
  destruct (requestBody_known (s_protocol c) (cl_model (s_core c)) (marshalRequest request)
    (any_json id (sanitize (schemaOf (sortedQuestionIDs (req_Questions request)) (list_to_map l)))) Hk)
    as [body ->]. left. by exists body.
Qed.

Lemma structured_Evaluate_returns c ctx request w :
  knownProtocol (s_protocol c) = true → is_Some (Evaluate c ctx request w).
Proof.
  intros Hk. unfold Evaluate. destruct (cl_now (s_core c) w) as [started w1].
  destruct (prepare_cases c request Hk) as [[body ->]|[[e ->] _]]; [|done]. cbn [mbind option_bind].
  destruct (send_returns ctx_err with_timeout sleep systemNow body_error (s_core c) ctx
    (structuredHeaders c request) body w1) as ([[n response]|e] & w2 & ->); [|done]. cbn [mbind option_bind].
  destruct (accept c request (hr_Body response)); [by destruct (evaluated _ _ _ _ _ _ _)|done].
Qed.

Lemma structured_Evaluate_ok c ctx request w r w' :
  Evaluate c ctx request w = Some (Ok r, w') →
  trusted (s_core c) request r ∧
  ∃ body content parsed, prepare c request = Some (Ok body) ∧
    exchanged (s_core c) body (structuredHeaders c request) r content ∧
    accept c request content = Ok parsed ∧ resp_Answers r = p_answers parsed.
Proof.
  unfold Evaluate. destruct (cl_now (s_core c) w) as [started w1].
  intros ([body|] & Hp & H1)%bind_Some; [|done].
  apply bind_Some in H1 as ([sent w2] & Hs & H1). destruct sent as [[n response]|]; [|done].
  destruct (accept c request (hr_Body response)) as [parsed|] eqn:Ha; [|done].
  destruct (evaluated (s_core c) request started n response parsed w2) as [r' w3] eqn:He.
  injection H1 as -> ->. pose proof Ha as Hacc. unfold accept in Ha.
  apply rbind_ok in Ha as (parsed' & Hd & Ha). destruct (ValidateAnswers _ _) as [[]|] eqn:Hv; [|done].
  rewrite !fail_if_ok, !orb_false_iff, !Z.ltb_ge in Ha. destruct Ha as ([[Hm Hi] Ho] & [= ->]).
  apply String.eqb_neq in Hm.
  destruct (evaluated_trusted _ _ _ _ _ _ _ _ _ _ _ _ _ _ _ _ _ _ Hs He Hv Hm Hi Ho) as [Ht Hx].
  split; [done|]. exists body, (hr_Body response), parsed. split_and!; try done.
  unfold evaluated in He. destruct (cl_now (s_core c) w2). by injection He as <- _.
Qed.
End Structured.
