(* ===== verification/Kube.v ===== *)
(** * Package [internal/kube]: resource keys, the event handler, the resolver

    Kubernetes objects and the API client are not part of the repository: the
    class [KubeObject] gives what the code asks of an object, and the client is
    a parameter of the resolver. *)
From S2P Require Import Prelude GoBase Domain.

(** ** [event_handler.go] *)

Record ResourceKey := { rk_Kind : string; rk_Namespace : string; rk_Name : string; rk_UID : string }.
#[export] Instance ResourceKey_eq_dec : EqDecision ResourceKey.
Proof. solve_decision. Defined.
#[export] Instance ResourceKey_countable : Countable ResourceKey.
Proof.
  refine (inj_countable' (λ k, (rk_Kind k, rk_Namespace k, rk_Name k, rk_UID k))
    (λ '(a, b, c, d), {| rk_Kind := a; rk_Namespace := b; rk_Name := c; rk_UID := d |}) _).
  by intros [].
Defined.

Definition key_Source (k : ResourceKey) (clusterID : string) : Source :=
  {| src_ClusterID := clusterID; src_APIVersion := ""; src_Kind := rk_Kind k;
     src_Namespace := rk_Namespace k; src_Name := rk_Name k; src_UID := rk_UID k;
     src_ResourceVersion := ""; src_Generation := 0; src_Owner := None |}.

Definition key_Validate (k : ResourceKey) : bool :=
  negb ((rk_Kind k =s? "") || (rk_Name k =s? "") || (rk_UID k =s? "")).

Record ObjectMeta := { om_Name : string; om_Namespace : string; om_UID : string }.

(** The concrete Go types the code switches on. *)
Variant GoType := TPod | TEvent | TDeployment | TStatefulSet | TDaemonSet | TJob | TOther.

Class KubeObject (Obj : Type) := {
  meta : Obj → option ObjectMeta;       (* [metav1.Object], if it is one *)
  gvk_kind : Obj → option string;       (* the kind of a [runtime.Object] *)
  go_type : Obj → GoType;
  tombstone : Obj → option Obj            (* [cache.DeletedFinalStateUnknown] *)
}.

Definition objectKind `{KubeObject Obj} (object : Obj) : string :=
  let by_type := match go_type object with
                 | TPod => "Pod" | TEvent => "Event" | TDeployment => "Deployment"
                 | TStatefulSet => "StatefulSet" | TDaemonSet => "DaemonSet" | TJob => "Job"
                 | TOther => ""
                 end in
  match gvk_kind object with
  | Some kind => if kind ≠s? "" then kind else by_type
  | None => by_type
  end.

(** The handler with its queue ([None] when it has none); [stopped] once
    [Stop] has closed the channel. *)
Record EventHandler := {
  eh_namespaces : gset string; eh_queue : option (list ResourceKey); eh_stopped : bool
}.

Definition NewEventHandler (namespaces : list string) (queue : option (list ResourceKey))
    : EventHandler :=
  {| eh_namespaces := list_to_set (List.filter (λ v, v ≠s? "") (map trim_space namespaces));
     eh_queue := queue; eh_stopped := false |}.

Definition enqueue_key `{KubeObject Obj} (object : Obj) (h : EventHandler) : EventHandler :=
  if eh_stopped h then h else
  match eh_queue h with
  | None => h
  | Some queue =>
      match meta object with
      | None => h
      | Some m =>
          if (om_Name m =s? "") || (om_UID m =s? "") then h else
          if negb (Nat.eqb (size (eh_namespaces h)) 0)
             && negb (bool_decide (om_Namespace m ∈ eh_namespaces h)) then h else
          let kind := objectKind object in
          if kind =s? "" then h else
          {| eh_namespaces := eh_namespaces h; eh_stopped := eh_stopped h;
             eh_queue := Some (queue ++ [{| rk_Kind := kind; rk_Namespace := om_Namespace m;
                                            rk_Name := om_Name m; rk_UID := om_UID m |}]) |}
      end
  end.

Definition OnAdd `{KubeObject Obj} (object : Obj) (_ : bool) (h : EventHandler) : EventHandler :=
  enqueue_key object h.
Definition OnUpdate `{KubeObject Obj} (_ current : Obj) (h : EventHandler) : EventHandler :=
  enqueue_key current h.
Definition OnDelete `{KubeObject Obj} (object : Obj) (h : EventHandler) : EventHandler :=
  enqueue_key (default object (tombstone object)) h.

Definition Stop (h : EventHandler) : EventHandler :=
  {| eh_namespaces := eh_namespaces h; eh_queue := eh_queue h; eh_stopped := true |}.

(** The callbacks an informer delivers. *)
Inductive handler_event (Obj : Type) :=
  | added (o : Obj) (initial : bool) | updated (old new : Obj) | deleted (o : Obj) | stopped.
Arguments added {Obj}. Arguments updated {Obj}. Arguments deleted {Obj}. Arguments stopped {Obj}.

Definition handle `{KubeObject Obj} (h : EventHandler) (e : handler_event Obj) : EventHandler :=
  match e with
  | added o i => OnAdd o i h | updated a b => OnUpdate a b h | deleted o => OnDelete o h
  | stopped => Stop h
  end.

(** ** [resolver.go] *)

Variant Resource := Pods | Events | Deployments | StatefulSets | DaemonSets | Jobs.
Variant GetError := api_not_found | api_error (what : string).
Variant ResolveError :=
  | resolve_invalid_key | ErrResourceNotFound | unsupported_kind (kind : string)
  | resolve_failed (what : string).

Definition resourceOf (kind : string) : option Resource :=
  if kind =s? "Pod" then Some Pods
  else if kind =s? "Event" then Some Events
  else if kind =s? "Deployment" then Some Deployments
  else if kind =s? "StatefulSet" then Some StatefulSets
  else if kind =s? "DaemonSet" then Some DaemonSets
  else if kind =s? "Job" then Some Jobs
  else None.

Definition Resolve `{KubeObject Obj} {W} (get : Resource → string → string → eff W GetError Obj)
    (key : ResourceKey) : eff W ResolveError Obj :=
  guard! negb (key_Validate key) with resolve_invalid_key;
  match resourceOf (rk_Kind key) with
  | None => efail (unsupported_kind (rk_Kind key))
  | Some resource =>
      object ←~ ewrap (λ e, match e with
                            | api_not_found => ErrResourceNotFound
                            | api_error what => resolve_failed what
                            end) (get resource (rk_Namespace key) (rk_Name key));
      match meta object with
      | Some m => guard! om_UID m ≠s? rk_UID key with ErrResourceNotFound; eret object
      | None => efail ErrResourceNotFound
      end
  end.

(** ** Properties *)

Section KubeProperties.
Context `{KubeObject Obj}.

(** The key of an object that is worth reconciling: one with a name, a UID and
    a known kind, in a watched namespace. *)
Definition watched_key (namespaces : gset string) (o : Obj) : option ResourceKey :=
  m ← meta o;
  if bool_decide (om_Name m ≠ "" ∧ om_UID m ≠ "" ∧ objectKind o ≠ "" ∧
                  (namespaces = ∅ ∨ om_Namespace m ∈ namespaces))
  then Some {| rk_Kind := objectKind o; rk_Namespace := om_Namespace m;
               rk_Name := om_Name m; rk_UID := om_UID m |}
  else None.

(** The objects the callbacks report before the handler is stopped. *)
Fixpoint reported (es : list (handler_event Obj)) : list Obj :=
  match es with
  | [] => []
  | added o _ :: es => o :: reported es
  | updated _ o :: es => o :: reported es
  | deleted o :: es => default o (tombstone o) :: reported es
  | stopped :: _ => []
  end.

Lemma watched_key_valid ns o k : watched_key ns o = Some k →
  key_Validate k = true ∧ (ns = ∅ ∨ rk_Namespace k ∈ ns).
Proof.
  unfold watched_key. intros (m & Hm & Hk)%bind_Some. case_bool_decide as Hc; [|done].
  destruct Hc as (Hn & Hu & Hkind & Hns). injection Hk as <-. split; [|done].
  unfold key_Validate. simpl. apply String.eqb_neq in Hn, Hu, Hkind. by rewrite Hn, Hu, Hkind.
Qed.

Lemma enqueue_key_live o h q :
  eh_stopped h = false → eh_queue h = Some q →
  enqueue_key o h = {| eh_namespaces := eh_namespaces h; eh_stopped := false;
    eh_queue := Some (q ++ option_list (watched_key (eh_namespaces h) o)) |}.
Proof.
  intros Hs Hq. unfold enqueue_key, watched_key. rewrite Hs, Hq.
  assert (Hh : h = {| eh_namespaces := eh_namespaces h; eh_queue := Some (q ++ []); eh_stopped := false |})
    by (rewrite app_nil_r, <- Hs, <- Hq; by destruct h).
  destruct (meta o) as [m|]; simpl; [|done].
  destruct (String.eqb_spec (om_Name m) ""), (String.eqb_spec (om_UID m) "");
    simpl; try (rewrite bool_decide_eq_false_2 by naive_solver; exact Hh).
  destruct (_ && _) eqn:Hn.
  { apply andb_true_iff in Hn as [Hn Hin%negb_true_iff%bool_decide_eq_false].
    apply negb_true_iff, Nat.eqb_neq in Hn.
    rewrite bool_decide_eq_false_2; [exact Hh|]. intros (_ & _ & _ & [He|?]); [|done].
    by rewrite He, size_empty in Hn. }
  destruct (String.eqb_spec (objectKind o) ""); simpl.
  { rewrite bool_decide_eq_false_2 by naive_solver. exact Hh. }
  rewrite bool_decide_eq_true_2; [done|]. split_and!; [done..|].
  apply andb_false_iff in Hn as [Hn|Hn]; apply negb_false_iff in Hn.
  - left. apply Nat.eqb_eq in Hn. by apply size_empty_iff, leibniz_equiv in Hn.
  - right. by apply bool_decide_eq_true in Hn.
Qed.

Lemma handle_stopped es h :
  eh_stopped h = true → eh_queue (fold_left handle es h) = eh_queue h.
Proof.
  revert h. induction es as [|e es IH]; intros h Hs; simpl; [done|].
  assert (He : ∀ o, enqueue_key o h = h) by (intros; unfold enqueue_key; by rewrite Hs).
  destruct e; simpl; unfold OnAdd, OnUpdate, OnDelete; rewrite ?He, IH; done.
Qed.

(** The informer callbacks queue exactly the keys of the objects worth
    reconciling, in the order of the callbacks, up to the moment the handler is
    stopped; every queued key is valid and in a watched namespace. *)
Theorem handler_queue h es q :
  eh_stopped h = false → eh_queue h = Some q →
  let keys := omap (watched_key (eh_namespaces h)) (reported es) in
  eh_queue (fold_left handle es h) = Some (q ++ keys) ∧
  Forall (λ k, key_Validate k = true ∧
               (eh_namespaces h = ∅ ∨ rk_Namespace k ∈ eh_namespaces h)) keys.
Proof.
  cbn zeta. intros Hs Hq. split.
  2:{ apply Forall_forall. intros k (o & _ & Hk)%list_elem_of_omap. by eapply watched_key_valid. }
  revert h q Hs Hq. induction es as [|e es IH]; intros h q Hs Hq; simpl; [by rewrite app_nil_r|].
  assert (Hgo : ∀ o, eh_queue (fold_left handle es (enqueue_key o h)) =
    Some (q ++ omap (watched_key (eh_namespaces h)) (o :: reported es))).
  { intros o. rewrite (enqueue_key_live o h q) by done.
    rewrite (IH _ (q ++ option_list (watched_key (eh_namespaces h) o))) by done. simpl.
    by destruct (watched_key (eh_namespaces h) o); simpl; rewrite <- (assoc_L (++)). }
  destruct e; simpl; [apply Hgo..|]. rewrite handle_stopped by done. simpl. by rewrite app_nil_r.
Qed.

(** The resolver never confuses an object with a namesake: what it returns
    is an object of the supported kind asked for that carries the key's UID,
    and an object recreated under the same name counts as not found. *)
Theorem resolve_identity {W} (get : Resource → string → string → eff W GetError Obj) key w o w' :
  Resolve get key w = (Ok o, w') →
  key_Validate key = true ∧
  (∃ m, meta o = Some m ∧ om_UID m = rk_UID key) ∧
  ∃ r, resourceOf (rk_Kind key) = Some r ∧
       get r (rk_Namespace key) (rk_Name key) w = (Ok o, w').
Proof.
  unfold Resolve. rewrite guard_ok, negb_false_iff. intros [Hv Hr]. split; [done|].
  destruct (resourceOf (rk_Kind key)) as [r|]; [|done].
  apply ebind_ok in Hr as (o1 & w1 & Hg & Hm). rewrite ewrap_ok in Hg.
  destruct (meta o1) as [m|] eqn:Hmeta; [|done]. apply guard_ok in Hm as [Hu [= -> ->]].
  apply negb_false_iff, String.eqb_eq in Hu. split; [by exists m|]. by exists r.
Qed.
End KubeProperties.

(** ** Witnesses *)

Module KubeWitness.
Definition pod_meta : ObjectMeta := {| om_Name := "api-0"; om_Namespace := "shop"; om_UID := "u1" |}.
(** Objects given by their metadata. *)
#[local] Instance objects : KubeObject ObjectMeta :=
  {| meta := Some; gvk_kind _ := None; go_type _ := TPod; tombstone _ := None |}.
Definition key : ResourceKey :=
  {| rk_Kind := "Pod"; rk_Namespace := "shop"; rk_Name := "api-0"; rk_UID := "u1" |}.
Definition get (_ : Resource) (_ _ : string) : eff unit GetError ObjectMeta := eret pod_meta.
End KubeWitness.

Lemma handler_queue_witness :
  eh_queue (fold_left (handle (H := KubeWitness.objects))
    [added KubeWitness.pod_meta true; stopped; deleted KubeWitness.pod_meta]
    (NewEventHandler ["shop"] (Some []))) = Some [KubeWitness.key].
Proof.
  exact (proj1 (handler_queue (H := KubeWitness.objects) (NewEventHandler ["shop"] (Some []))
    [added KubeWitness.pod_meta true; stopped; deleted KubeWitness.pod_meta] [] eq_refl eq_refl)).
Defined.

Lemma resolve_identity_witness :
  key_Validate KubeWitness.key = true.
Proof.
  destruct (resolve_identity (H := KubeWitness.objects) KubeWitness.get KubeWitness.key ()
    KubeWitness.pod_meta ()) as [H _]; [by vm_compute|exact H].
Defined.
