(* ===== verification/Normalizer.v ===== *)
(** * Package [internal/kube], [normalizer.go]: snapshots of Kubernetes objects

    The types of the Kubernetes API are not part of the repository; the records
    below have the fields the normalizer reads, and the free text it leaves out
    (the messages of conditions), so that the theorems can speak of it.  The
    accessors of an unstructured object are fields as well, and
    [unstructured.NestedSlice] is a parameter; the values it returns are the
    [any] of the redactor.

    A time is an instant without a location: the size limit is checked on the
    encoding in UTC. *)
From S2P Require Import Prelude GoBase Domain Sha256 Json JsonDecode Fingerprint Notifier GoTime Redactor Kube.

(** ** The Kubernetes API, as far as it is read *)

Record K8sOwner := {
  ko_APIVersion : string; ko_Kind : string; ko_Name : string; ko_UID : string;
  ko_Controller : option bool
}.
Record K8sMeta := {
  km_Namespace : string; km_Name : string; km_UID : string; km_ResourceVersion : string;
  km_Generation : Z; km_Labels : gmap string string; km_OwnerReferences : list K8sOwner
}.
Record K8sType := { kt_APIVersion : string; kt_Kind : string }.
Record K8sCondition := {
  kc_Type : string; kc_Status : string; kc_Reason : string; kc_Message : string;
  kc_LastTransitionTime : time
}.

Record Deployment := {
  dep_Type : K8sType; dep_Meta : K8sMeta; dep_Spec_Replicas : option Z;
  dep_Replicas : Z; dep_ReadyReplicas : Z; dep_AvailableReplicas : Z; dep_UpdatedReplicas : Z;
  dep_UnavailableReplicas : Z; dep_Conditions : list K8sCondition
}.
Record StatefulSet := {
  sts_Type : K8sType; sts_Meta : K8sMeta; sts_Spec_Replicas : option Z;
  sts_CurrentReplicas : Z; sts_ReadyReplicas : Z; sts_AvailableReplicas : Z;
  sts_UpdatedReplicas : Z; sts_Conditions : list K8sCondition
}.
Record DaemonSet := {
  ds_Type : K8sType; ds_Meta : K8sMeta; ds_DesiredNumberScheduled : Z;
  ds_CurrentNumberScheduled : Z; ds_NumberReady : Z; ds_NumberAvailable : Z;
  ds_UpdatedNumberScheduled : Z; ds_NumberUnavailable : Z; ds_Conditions : list K8sCondition
}.
Record Job := {
  jb_Type : K8sType; jb_Meta : K8sMeta; jb_BackoffLimit : option Z;
  jb_Active : Z; jb_Succeeded : Z; jb_Failed : Z; jb_Conditions : list K8sCondition
}.
Record K8sEvent := {
  kev_TypeMeta : K8sType; kev_Meta : K8sMeta; kev_EventTime : time; kev_LastTimestamp : time;
  kev_Type : string; kev_Reason : string; kev_Message : string; kev_InvolvedUID : string;
  kev_Count : Z
}.
(** The three pointers of a container's state: the reason of [Waiting], the
    reason and exit code of [Terminated], [Running]. *)
Record K8sContainerState := {
  kcs_Waiting : option string; kcs_Terminated : option (string * Z); kcs_Running : bool
}.
Record K8sContainerStatus := {
  kst_Name : string; kst_Ready : bool; kst_RestartCount : Z; kst_State : K8sContainerState
}.
Record Pod := {
  pod_Type : K8sType; pod_Meta : K8sMeta; pod_Conditions : list K8sCondition;
  pod_ContainerStatuses : list K8sContainerStatus
}.
Record Unstructured (O : Type) := {
  un_Type : K8sType; un_Meta : K8sMeta; un_Object : any O
}.
Arguments un_Type {O} u : rename.
Arguments un_Meta {O} u : rename.
Arguments un_Object {O} u : rename.

Inductive K8sObject (O : Type) :=
  | ObjPod (pod : Pod) | ObjDeployment (d : Deployment) | ObjStatefulSet (s : StatefulSet)
  | ObjDaemonSet (d : DaemonSet) | ObjJob (j : Job) | ObjEvent (e : K8sEvent)
  | ObjSecret (t : K8sType) (m : K8sMeta) | ObjUnstructured (u : Unstructured O)
  | ObjOther (goType : string).
Arguments ObjPod {O}. Arguments ObjDeployment {O}. Arguments ObjStatefulSet {O}.
Arguments ObjDaemonSet {O}. Arguments ObjJob {O}. Arguments ObjEvent {O}.
Arguments ObjSecret {O}. Arguments ObjUnstructured {O}. Arguments ObjOther {O}.

(** ** The normalizer *)

Definition ErrSecretResource : string := "Secret resources are not supported".

Record NormalizerOptions := { no_ClusterID : string; no_AllowedLabels : list string; no_MaxBytes : Z }.
Record Normalizer := { nz_clusterID : string; nz_allowedLabels : gset string; nz_maxBytes : Z }.
Definition NewNormalizer (o : NormalizerOptions) : Normalizer :=
  {| nz_clusterID := no_ClusterID o; nz_allowedLabels := list_to_set (no_AllowedLabels o);
     nz_maxBytes := no_MaxBytes o |}.

Definition nonnegativeDifference (left_ right_ : Z) : Z :=
  if left_ <=? right_ then 0 else wrap32 (left_ - right_).
Definition defaultString (value fallback : string) : string :=
  if value =s? "" then fallback else value.
Definition replicas (value : option Z) : Z := default 1 value.

Definition is_controller (o : K8sOwner) : bool := default false (ko_Controller o).
Definition ownerReference (o : K8sOwner) : OwnerReference :=
  {| owner_APIVersion := ko_APIVersion o; owner_Kind := ko_Kind o; owner_Name := ko_Name o;
     owner_UID := ko_UID o |}.
(** The loop over the owner references. *)
Fixpoint selectOwner (selected : option OwnerReference) (owners : list K8sOwner)
    : option OwnerReference :=
  match owners with
  | [] => selected
  | owner :: owners =>
      let selected := match selected with
                      | None => Some (ownerReference owner)
                      | Some o => if is_controller owner then Some (ownerReference owner) else Some o
                      end in
      if is_controller owner then selected else selectOwner selected owners
  end.

Definition stringField {O} (values : list (string * any O)) (key : string) : string :=
  match find (λ kv, kv.1 =s? key) values with
  | Some (_, AString s) => s
  | _ => ""
  end.

Definition condition_order : Condition → Condition → bool :=
  less_then cond_Type (less_then cond_Status (less_by cond_Reason str_ltb)).
Definition sortConditions (l : list Condition) : list Condition := sort_slice condition_order l.

Definition containerState (s : K8sContainerState) : string * string * Z :=
  match kcs_Waiting s, kcs_Terminated s, kcs_Running s with
  | Some reason, _, _ => ("waiting", reason, 0)
  | None, Some (reason, exitCode), _ => ("terminated", reason, exitCode)
  | None, None, true => ("running", "", 0)
  | None, None, false => ("unknown", "", 0)
  end.

(** What the loops of the five functions do with a condition. *)
Definition copyCondition (c : K8sCondition) : Condition :=
  {| cond_Type := kc_Type c; cond_Status := kc_Status c; cond_Reason := kc_Reason c;
     cond_Message := ""; cond_LastTransitionTime := kc_LastTransitionTime c |}.
Definition copyContainer (s : K8sContainerStatus) : ContainerState :=
  let '(state, reason, exitCode) := containerState (kst_State s) in
  {| ct_Name := kst_Name s; ct_Ready := kst_Ready s; ct_RestartCount := kst_RestartCount s;
     ct_State := state; ct_Reason := reason; ct_ExitCode := exitCode |}.

(** The JSON of a snapshot, by its struct tags. *)
Definition event_json (e : EventState) : json :=
  JObject (string_field "type" (ev_Type e) ++ string_field "reason" (ev_Reason e)
           ++ string_omitempty "message" (ev_Message e)
           ++ string_omitempty "regardingUid" (ev_RegardingUID e)
           ++ field "count" (JInt (ev_Count e)) ++ field "lastObserved" (JTime (ev_LastObserved e))).
Definition snapshot_json (s : Snapshot) : json :=
  JObject (field "source" (source_json (sn_Source s)) ++ field "observedAt" (JTime (sn_ObservedAt s))
           ++ field_if (negb (Nat.eqb (size (sn_Labels s)) 0)) "labels" (json_map (JString <$> sn_Labels s))
           ++ list_field "conditions" condition_json (sn_Conditions s)
           ++ list_field "containers" container_json (sn_Containers s)
           ++ opt_field "workload" workload_json (sn_Workload s)
           ++ opt_field "job" job_json (sn_Job s) ++ opt_field "event" event_json (sn_Event s)
           ++ string_omitempty "contentHash" (sn_ContentHash s)).
(** [json.Marshal(snapshot)] fails on a year outside 0 to 9999. *)
Definition snapshot_times (s : Snapshot) : list time :=
  sn_ObservedAt s :: map cond_LastTransitionTime (sn_Conditions s)
  ++ match sn_Event s with Some e => [ev_LastObserved e] | None => [] end.
Definition marshalSnapshot (s : Snapshot) : option string :=
  if forallb time_marshals (snapshot_times s) then Some (json_print (snapshot_json s)) else None.

Section Normalize.
Context {O : Type} (NestedSlice : any O → list string → result string (option (list (any O)))).
Context (n : Normalizer).

Definition labels (values : gmap string string) : gmap string string :=
  filter (λ kv, kv.1 ∈ nz_allowedLabels n ∧ IsSensitiveKey kv.1 = false) values.

Definition source (apiVersion kind : string) (metadata : K8sMeta) : Source :=
  {| src_ClusterID := nz_clusterID n; src_APIVersion := apiVersion; src_Kind := kind;
     src_Namespace := km_Namespace metadata; src_Name := km_Name metadata;
     src_UID := km_UID metadata; src_ResourceVersion := km_ResourceVersion metadata;
     src_Generation := km_Generation metadata;
     src_Owner := selectOwner None (km_OwnerReferences metadata) |}.

Definition typed_source (apiVersion kind : string) (t : K8sType) (m : K8sMeta) : Source :=
  source (defaultString (kt_APIVersion t) apiVersion) (defaultString (kt_Kind t) kind) m.

Definition normalizeDeployment (d : Deployment) (observedAt : time) : Snapshot :=
  {| sn_Source := typed_source "apps/v1" "Deployment" (dep_Type d) (dep_Meta d);
     sn_ObservedAt := observedAt; sn_Labels := labels (km_Labels (dep_Meta d));
     sn_Conditions := sortConditions (map copyCondition (dep_Conditions d)); sn_Containers := [];
     sn_Workload := Some {| wl_Desired := replicas (dep_Spec_Replicas d); wl_Current := dep_Replicas d;
       wl_Ready := dep_ReadyReplicas d; wl_Available := dep_AvailableReplicas d;
       wl_Updated := dep_UpdatedReplicas d; wl_Unavailable := dep_UnavailableReplicas d |};
     sn_Job := None; sn_Event := None; sn_ContentHash := "" |}.

Definition normalizeStatefulSet (s : StatefulSet) (observedAt : time) : Snapshot :=
  let desired := replicas (sts_Spec_Replicas s) in
  {| sn_Source := typed_source "apps/v1" "StatefulSet" (sts_Type s) (sts_Meta s);
     sn_ObservedAt := observedAt; sn_Labels := labels (km_Labels (sts_Meta s));
     sn_Conditions := sortConditions (map copyCondition (sts_Conditions s)); sn_Containers := [];
     sn_Workload := Some {| wl_Desired := desired; wl_Current := sts_CurrentReplicas s;
       wl_Ready := sts_ReadyReplicas s; wl_Available := sts_AvailableReplicas s;
       wl_Updated := sts_UpdatedReplicas s;
       wl_Unavailable := nonnegativeDifference desired (sts_ReadyReplicas s) |};
     sn_Job := None; sn_Event := None; sn_ContentHash := "" |}.

Definition normalizeDaemonSet (d : DaemonSet) (observedAt : time) : Snapshot :=
  {| sn_Source := typed_source "apps/v1" "DaemonSet" (ds_Type d) (ds_Meta d);
     sn_ObservedAt := observedAt; sn_Labels := labels (km_Labels (ds_Meta d));
     sn_Conditions := sortConditions (map copyCondition (ds_Conditions d)); sn_Containers := [];
     sn_Workload := Some {| wl_Desired := ds_DesiredNumberScheduled d;
       wl_Current := ds_CurrentNumberScheduled d; wl_Ready := ds_NumberReady d;
       wl_Available := ds_NumberAvailable d; wl_Updated := ds_UpdatedNumberScheduled d;
       wl_Unavailable := ds_NumberUnavailable d |};
     sn_Job := None; sn_Event := None; sn_ContentHash := "" |}.

Definition normalizeJob (j : Job) (observedAt : time) : Snapshot :=
  let backoffLimit := default 6 (jb_BackoffLimit j) in
  {| sn_Source := typed_source "batch/v1" "Job" (jb_Type j) (jb_Meta j);
     sn_ObservedAt := observedAt; sn_Labels := labels (km_Labels (jb_Meta j));
     sn_Conditions := sortConditions (map copyCondition (jb_Conditions j)); sn_Containers := [];
     sn_Workload := None;
     sn_Job := Some {| job_Active := jb_Active j; job_Succeeded := jb_Succeeded j;
       job_Failed := jb_Failed j; job_BackoffLimit := backoffLimit |};
     sn_Event := None; sn_ContentHash := "" |}.

Definition normalizeEvent (e : K8sEvent) (observedAt : time) : Snapshot :=
  let lastObserved := if is_zero (kev_EventTime e) then kev_LastTimestamp e else kev_EventTime e in
  {| sn_Source := typed_source "v1" "Event" (kev_TypeMeta e) (kev_Meta e);
     sn_ObservedAt := observedAt; sn_Labels := labels (km_Labels (kev_Meta e));
     sn_Conditions := []; sn_Containers := []; sn_Workload := None; sn_Job := None;
     sn_Event := Some {| ev_Type := kev_Type e; ev_Reason := kev_Reason e;
       ev_Message := RedactText (kev_Message e); ev_RegardingUID := kev_InvolvedUID e;
       ev_Count := kev_Count e; ev_LastObserved := lastObserved |};
     sn_ContentHash := "" |}.

Definition normalizePod (p : Pod) (observedAt : time) : Snapshot :=
  {| sn_Source := typed_source "v1" "Pod" (pod_Type p) (pod_Meta p);
     sn_ObservedAt := observedAt; sn_Labels := labels (km_Labels (pod_Meta p));
     sn_Conditions := sortConditions (map copyCondition (pod_Conditions p));
     sn_Containers := sort_slice (less_by ct_Name str_ltb) (map copyContainer (pod_ContainerStatuses p));
     sn_Workload := None; sn_Job := None; sn_Event := None; sn_ContentHash := "" |}.

(** The loop body of [normalizeUnstructured]: what is no map is skipped. *)
Definition rawCondition (raw : any O) : option Condition :=
  match raw with
  | AMap m =>
      let condition := default [] m in
      Some {| cond_Type := stringField condition "type"; cond_Status := stringField condition "status";
              cond_Reason := stringField condition "reason"; cond_Message := "";
              cond_LastTransitionTime :=
                let value := stringField condition "lastTransitionTime" in
                if value =s? "" then zero_time else default zero_time (parse_rfc3339 value) |}
  | _ => None
  end.

Definition normalizeUnstructured (u : Unstructured O) (observedAt : time) : result string Snapshot :=
  match NestedSlice (un_Object u) ["status"; "conditions"] with
  | Err _ => Err "read normalized resource conditions"
  | Ok found =>
      Ok {| sn_Source := source (kt_APIVersion (un_Type u)) (kt_Kind (un_Type u)) (un_Meta u);
            sn_ObservedAt := observedAt; sn_Labels := labels (km_Labels (un_Meta u));
            sn_Conditions := sortConditions (omap rawCondition (default [] found));
            sn_Containers := []; sn_Workload := None; sn_Job := None; sn_Event := None;
            sn_ContentHash := "" |}
  end.

(** The type switch of [Normalize]. *)
Definition normalizeObject (object : K8sObject O) (observedAt : time) : result string Snapshot :=
  match object with
  | ObjPod p => Ok (normalizePod p observedAt)
  | ObjDeployment d => Ok (normalizeDeployment d observedAt)
  | ObjStatefulSet s => Ok (normalizeStatefulSet s observedAt)
  | ObjDaemonSet d => Ok (normalizeDaemonSet d observedAt)
  | ObjJob j => Ok (normalizeJob j observedAt)
  | ObjEvent e => Ok (normalizeEvent e observedAt)
  | ObjSecret _ _ => Err ErrSecretResource
  | ObjUnstructured u =>
      fail_if! equal_fold (kt_Kind (un_Type u)) "Secret" with ErrSecretResource;
      normalizeUnstructured u observedAt
  | ObjOther goType => Err ("unsupported Kubernetes resource type " +:+ goType)
  end.

(** [ContentHash] does not fail (see there). *)
Definition Normalize (object : K8sObject O) (observedAt : time) : result string Snapshot :=
  snapshot ←! normalizeObject object observedAt;
  let snapshot := sn_set_ContentHash (ContentHash snapshot) snapshot in
  match marshalSnapshot snapshot with
  | None => Err "encode normalized resource"
  | Some encoded =>
      fail_if! (nz_maxBytes n <=? 0) || (nz_maxBytes n <? len encoded)
        with "normalized resource exceeds configured size limit";
      Ok snapshot
  end.
End Normalize.

(** ** What the other parts of the package see of an object *)

Definition k8s_meta {O} (object : K8sObject O) : option K8sMeta :=
  match object with
  | ObjPod p => Some (pod_Meta p) | ObjDeployment d => Some (dep_Meta d)
  | ObjStatefulSet s => Some (sts_Meta s) | ObjDaemonSet d => Some (ds_Meta d)
  | ObjJob j => Some (jb_Meta j) | ObjEvent e => Some (kev_Meta e)
  | ObjSecret _ m => Some m | ObjUnstructured u => Some (un_Meta u) | ObjOther _ => None
  end.
Definition k8s_type {O} (object : K8sObject O) : option K8sType :=
  match object with
  | ObjPod p => Some (pod_Type p) | ObjDeployment d => Some (dep_Type d)
  | ObjStatefulSet s => Some (sts_Type s) | ObjDaemonSet d => Some (ds_Type d)
  | ObjJob j => Some (jb_Type j) | ObjEvent e => Some (kev_TypeMeta e)
  | ObjSecret t _ => Some t | ObjUnstructured u => Some (un_Type u) | ObjOther _ => None
  end.
#[export] Instance k8s_objects {O} : KubeObject (K8sObject O) := {
  meta o := (λ m, {| om_Name := km_Name m; om_Namespace := km_Namespace m; om_UID := km_UID m |}) <$> k8s_meta o;
  gvk_kind o := kt_Kind <$> k8s_type o;
  go_type o := match o with
               | ObjPod _ => TPod | ObjDeployment _ => TDeployment | ObjStatefulSet _ => TStatefulSet
               | ObjDaemonSet _ => TDaemonSet | ObjJob _ => TJob | ObjEvent _ => TEvent | _ => TOther
               end;
  tombstone _ := None
}.

(** ** Lemmas *)

(** The owner that [source] selects: the first controller, else the first. *)
Definition owner_of (owners : list K8sOwner) : option K8sOwner :=
  match find is_controller owners with Some o => Some o | None => head owners end.

Lemma selectOwner_some o owners :
  selectOwner (Some o) owners = Some (default o (ownerReference <$> find is_controller owners)).
Proof. induction owners as [|x owners IH]; cbn; [done|]. by destruct (is_controller x). Qed.
Lemma selectOwner_spec owners : selectOwner None owners = ownerReference <$> owner_of owners.
Proof.
  destruct owners as [|x owners]; [done|]. unfold owner_of. cbn. destruct (is_controller x); [done|].
  rewrite selectOwner_some. by destruct (find _ owners).
Qed.

Lemma sorted_no_message l :
  Forall (λ c, cond_Message c = "") l → Forall (λ c, cond_Message c = "") (sortConditions l).
Proof. unfold sortConditions. by rewrite sort_slice_perm. Qed.
Lemma copied_no_message l : Forall (λ c, cond_Message c = "") (map copyCondition l).
Proof. apply Forall_map, Forall_forall. done. Qed.
Lemma raw_no_message {O} (l : list (any O)) : Forall (λ c, cond_Message c = "") (omap rawCondition l).
Proof.
  apply Forall_forall. intros c (raw & _ & Hr)%list_elem_of_omap. destruct raw; by simplify_eq/=.
Qed.

(** What every snapshot of the type switch has in common. *)
Record normalized (n : Normalizer) (m : K8sMeta) (observedAt : time) (s : Snapshot) : Prop := {
  nm_cluster : src_ClusterID (sn_Source s) = nz_clusterID n;
  nm_identity : (src_Namespace (sn_Source s), src_Name (sn_Source s), src_UID (sn_Source s))
                = (km_Namespace m, km_Name m, km_UID m);
  nm_version : (src_ResourceVersion (sn_Source s), src_Generation (sn_Source s))
               = (km_ResourceVersion m, km_Generation m);
  nm_owner : src_Owner (sn_Source s) = ownerReference <$> owner_of (km_OwnerReferences m);
  nm_observed : sn_ObservedAt s = observedAt;
  nm_labels : sn_Labels s = labels n (km_Labels m);
  nm_conditions : Forall (λ c, cond_Message c = "") (sn_Conditions s);
  nm_event : ∀ e, sn_Event s = Some e → ∃ raw, ev_Message e = RedactText raw
}.

Lemma normalizeObject_normalized {O} NestedSlice n (object : K8sObject O) observedAt s :
  normalizeObject NestedSlice n object observedAt = Ok s →
  ∃ m, k8s_meta object = Some m ∧ normalized n m observedAt s.
Proof.
  destruct object as [p|d|t|d|j|e|t m|u|g]; cbn [normalizeObject k8s_meta]; intros Hs; simplify_eq;
    [..|apply fail_if_ok in Hs as [_ Hs]; unfold normalizeUnstructured in Hs;
        destruct (NestedSlice _ _) as [found|]; [|done]; injection Hs as <-];
    (eexists; split; [done|]; split; cbn;
     first [done|apply selectOwner_spec|apply sorted_no_message, copied_no_message
           |apply sorted_no_message, raw_no_message|apply Forall_nil_2|intros ? [= <-]; by eexists]).
Qed.

Lemma marshal_hash h s : ContentHash (sn_set_ContentHash h s) = ContentHash s.
Proof. done. Qed.

Lemma Normalize_ok {O} NestedSlice n (object : K8sObject O) observedAt s :
  Normalize NestedSlice n object observedAt = Ok s ↔
  ∃ s0 encoded, normalizeObject NestedSlice n object observedAt = Ok s0 ∧
    s = sn_set_ContentHash (ContentHash s0) s0 ∧ marshalSnapshot s = Some encoded ∧
    0 < nz_maxBytes n ∧ len encoded ≤ nz_maxBytes n.
Proof.
  unfold Normalize. rewrite rbind_ok. split.
  - intros (s0 & H0 & Hs). destruct (marshalSnapshot _) as [encoded|] eqn:He; [|done].
    apply fail_if_ok in Hs as [Hb Hs]. injection Hs as <-. exists s0, encoded.
    rewrite orb_false_iff, Z.leb_gt, Z.ltb_ge in Hb. by destruct Hb.
  - intros (s0 & encoded & H0 & -> & He & Hb & Hl). exists s0. split; [done|]. rewrite He.
    by rewrite (proj2 (Z.leb_gt _ _)), (proj2 (Z.ltb_ge _ _)) by lia.
Qed.

(** C23: normalization.  A snapshot identifies its object by the configured
    cluster, the namespace, the name and the UID; its owner is the controlling
    owner reference, or the first one when none controls; it carries the hash
    of its own content; and its encoding is within the configured limit. *)
Theorem normalize_sound {O} NestedSlice n (object : K8sObject O) observedAt s :
  Normalize NestedSlice n object observedAt = Ok s →
  ∃ m encoded, k8s_meta object = Some m ∧
    (src_ClusterID (sn_Source s), src_Namespace (sn_Source s), src_Name (sn_Source s), src_UID (sn_Source s))
    = (nz_clusterID n, km_Namespace m, km_Name m, km_UID m) ∧
    src_Owner (sn_Source s) = ownerReference <$> owner_of (km_OwnerReferences m) ∧
    sn_ObservedAt s = observedAt ∧ sn_ContentHash s = ContentHash s ∧
    marshalSnapshot s = Some encoded ∧ len encoded ≤ nz_maxBytes n.
Proof.
  intros (s0 & encoded & H0 & -> & He & _ & Hl)%Normalize_ok.
  apply normalizeObject_normalized in H0 as (m & Hm & []). exists m, encoded.
  rewrite marshal_hash. cbn [sn_set_ContentHash sn_Source sn_ObservedAt sn_ContentHash].
  split_and!; [done| |done..]. congruence.
Qed.

(** The part of an object that a snapshot may depend on: of the labels those
    that are allowed and name no credential, no message of a condition, and the
    redacted message of an event. *)
Section Public.
Context (n : Normalizer).

Definition public_meta (m : K8sMeta) : K8sMeta :=
  {| km_Namespace := km_Namespace m; km_Name := km_Name m; km_UID := km_UID m;
     km_ResourceVersion := km_ResourceVersion m; km_Generation := km_Generation m;
     km_Labels := labels n (km_Labels m); km_OwnerReferences := km_OwnerReferences m |}.
Definition public_condition (c : K8sCondition) : K8sCondition :=
  {| kc_Type := kc_Type c; kc_Status := kc_Status c; kc_Reason := kc_Reason c; kc_Message := "";
     kc_LastTransitionTime := kc_LastTransitionTime c |}.
Definition public_object {O} (object : K8sObject O) : K8sObject O :=
  match object with
  | ObjPod p =>
      ObjPod {| pod_Type := pod_Type p; pod_Meta := public_meta (pod_Meta p);
        pod_Conditions := map public_condition (pod_Conditions p);
        pod_ContainerStatuses := pod_ContainerStatuses p |}
  | ObjDeployment d =>
      ObjDeployment {| dep_Type := dep_Type d; dep_Meta := public_meta (dep_Meta d);
        dep_Spec_Replicas := dep_Spec_Replicas d; dep_Replicas := dep_Replicas d;
        dep_ReadyReplicas := dep_ReadyReplicas d; dep_AvailableReplicas := dep_AvailableReplicas d;
        dep_UpdatedReplicas := dep_UpdatedReplicas d;
        dep_UnavailableReplicas := dep_UnavailableReplicas d;
        dep_Conditions := map public_condition (dep_Conditions d) |}
  | ObjStatefulSet s =>
      ObjStatefulSet {| sts_Type := sts_Type s; sts_Meta := public_meta (sts_Meta s);
        sts_Spec_Replicas := sts_Spec_Replicas s; sts_CurrentReplicas := sts_CurrentReplicas s;
        sts_ReadyReplicas := sts_ReadyReplicas s; sts_AvailableReplicas := sts_AvailableReplicas s;
        sts_UpdatedReplicas := sts_UpdatedReplicas s;
        sts_Conditions := map public_condition (sts_Conditions s) |}
  | ObjDaemonSet d =>
      ObjDaemonSet {| ds_Type := ds_Type d; ds_Meta := public_meta (ds_Meta d);
        ds_DesiredNumberScheduled := ds_DesiredNumberScheduled d;
        ds_CurrentNumberScheduled := ds_CurrentNumberScheduled d; ds_NumberReady := ds_NumberReady d;
        ds_NumberAvailable := ds_NumberAvailable d;
        ds_UpdatedNumberScheduled := ds_UpdatedNumberScheduled d;
        ds_NumberUnavailable := ds_NumberUnavailable d;
        ds_Conditions := map public_condition (ds_Conditions d) |}
  | ObjJob j =>
      ObjJob {| jb_Type := jb_Type j; jb_Meta := public_meta (jb_Meta j);
        jb_BackoffLimit := jb_BackoffLimit j; jb_Active := jb_Active j;
        jb_Succeeded := jb_Succeeded j; jb_Failed := jb_Failed j;
        jb_Conditions := map public_condition (jb_Conditions j) |}
  | ObjEvent e =>
      ObjEvent {| kev_TypeMeta := kev_TypeMeta e; kev_Meta := public_meta (kev_Meta e);
        kev_EventTime := kev_EventTime e; kev_LastTimestamp := kev_LastTimestamp e;
        kev_Type := kev_Type e; kev_Reason := kev_Reason e; kev_Message := RedactText (kev_Message e);
        kev_InvolvedUID := kev_InvolvedUID e; kev_Count := kev_Count e |}
  | ObjSecret _ _ =>
      ObjSecret {| kt_APIVersion := ""; kt_Kind := "" |} {| km_Namespace := ""; km_Name := "";
        km_UID := ""; km_ResourceVersion := ""; km_Generation := 0; km_Labels := ∅;
        km_OwnerReferences := [] |}
  | ObjUnstructured u =>
      ObjUnstructured {| un_Type := un_Type u; un_Meta := public_meta (un_Meta u); un_Object := un_Object u |}
  | ObjOther g => ObjOther g
  end.
End Public.

Lemma public_conditions l l' :
  map public_condition l = map public_condition l' → map copyCondition l = map copyCondition l'.
Proof.
  assert (Hc : ∀ l, map copyCondition l = map copyCondition (map public_condition l))
    by (intros ?; by rewrite map_map).
  intros H. by rewrite Hc, H, <- Hc.
Qed.

Lemma normalizeObject_public {O} NestedSlice n (a b : K8sObject O) observedAt :
  public_object n a = public_object n b →
  normalizeObject NestedSlice n a observedAt = normalizeObject NestedSlice n b observedAt.
Proof.
  destruct a as [p|d|t|d|j|e|t m|u|g], b as [p'|d'|t'|d'|j'|e'|t' m'|u'|g']; cbn [public_object];
    intros [=]; try done; cbn [normalizeObject].
  all: unfold normalizePod, normalizeDeployment, normalizeStatefulSet, normalizeDaemonSet, normalizeJob,
    normalizeEvent, normalizeUnstructured, typed_source, source.
  all: repeat match goal with
    | H : map public_condition _ = map public_condition _ |- _ => apply public_conditions in H
    end; first [congruence|by repeat match goal with H : _ = _ |- _ => try rewrite H; clear H end].
Qed.


(** C24: an object keeps its incident.  Whatever the resolver returns for a key
    and the normalizer accepts carries the UID of the key, so the incident of
    the snapshot is the incident that the deletion of the key resolves; an
    object recreated under the same name is not mistaken for the old one. *)
Theorem observed_identity {O W} NestedSlice n
    (get : Resource → string → string → eff W GetError (K8sObject O)) key w object w' observedAt s :
  Resolve get key w = (Ok object, w') → Normalize NestedSlice n object observedAt = Ok s →
  key_Validate key = true ∧
  (∃ r, resourceOf (rk_Kind key) = Some r ∧
        get r (rk_Namespace key) (rk_Name key) w = (Ok object, w')) ∧
  src_UID (sn_Source s) = rk_UID key ∧
  IncidentKey (sn_Source s) = IncidentKey (key_Source key (nz_clusterID n)).
Proof.
  intros (Hv & (om & Hm & Hu) & Hg)%resolve_identity (s0 & encoded & H0 & -> & _)%Normalize_ok.
  apply normalizeObject_normalized in H0 as (m & Hmeta & []). cbn in Hm. rewrite Hmeta in Hm.
  injection Hm as <-. cbn in Hu. injection nm_identity0 as Hns Hname Huid.
  assert (Hsrc : src_UID (sn_Source s0) = rk_UID key) by congruence.
  split_and!; [done|done|done|]. unfold IncidentKey, incident_seed. cbn. by rewrite nm_cluster0, Hsrc.
Qed.

(** ** Witnesses *)

Module NormalizerWitness.
Definition normalizer : Normalizer :=
  NewNormalizer {| no_ClusterID := "c1"; no_AllowedLabels := ["app"; "token-name"]; no_MaxBytes := 4096 |}.
Definition condition (message : string) : K8sCondition :=
  {| kc_Type := "Ready"; kc_Status := "False"; kc_Reason := "Crash"; kc_Message := message;
     kc_LastTransitionTime := 0 |}.
Definition owner (name : string) (controller : option bool) : K8sOwner :=
  {| ko_APIVersion := "apps/v1"; ko_Kind := "ReplicaSet"; ko_Name := name; ko_UID := name;
     ko_Controller := controller |}.
Definition pod_with (message token : string) : K8sObject unit :=
  ObjPod {| pod_Type := {| kt_APIVersion := ""; kt_Kind := "" |};
    pod_Meta := {| km_Namespace := "shop"; km_Name := "api-0"; km_UID := "u1";
      km_ResourceVersion := "7"; km_Generation := 2;
      km_Labels := {[ "app" := "api"; "token-name" := token; "other" := message ]};
      km_OwnerReferences := [owner "a" None; owner "b" (Some true); owner "c" (Some true)] |};
    pod_Conditions := [condition message];
    pod_ContainerStatuses := [{| kst_Name := "main"; kst_Ready := false; kst_RestartCount := 3;
      kst_State := {| kcs_Waiting := Some "CrashLoopBackOff"; kcs_Terminated := None; kcs_Running := false |} |}] |}.
Definition nested (_ : any unit) (_ : list string) : result string (option (list (any unit))) := Ok None.
Definition snapshot : Snapshot :=
  match Normalize nested normalizer (pod_with "hunter2" "t") 0 with
  | Ok s => s
  | Err _ => normalizePod normalizer {| pod_Type := {| kt_APIVersion := ""; kt_Kind := "" |};
      pod_Meta := {| km_Namespace := ""; km_Name := ""; km_UID := ""; km_ResourceVersion := "";
        km_Generation := 0; km_Labels := ∅; km_OwnerReferences := [] |};
      pod_Conditions := []; pod_ContainerStatuses := [] |} 0
  end.
Definition key : ResourceKey :=
  {| rk_Kind := "Pod"; rk_Namespace := "shop"; rk_Name := "api-0"; rk_UID := "u1" |}.
Definition get (_ : Resource) (_ _ : string) : eff unit GetError (K8sObject unit) :=
  eret (pod_with "hunter2" "t").
Lemma normalizes : Normalize nested normalizer (pod_with "hunter2" "t") 0 = Ok snapshot.
Proof. vm_compute. reflexivity. Qed.
End NormalizerWitness.

Lemma normalize_sound_witness :
  src_Owner (sn_Source NormalizerWitness.snapshot)
  = Some (ownerReference (NormalizerWitness.owner "b" (Some true))).
Proof.
  destruct (normalize_sound NormalizerWitness.nested NormalizerWitness.normalizer
    (NormalizerWitness.pod_with "hunter2" "t") 0 NormalizerWitness.snapshot NormalizerWitness.normalizes)
    as (m & encoded & Hm & _ & Ho & _).
  injection Hm as <-. exact Ho.
Defined.


Lemma observed_identity_witness :
  IncidentKey (sn_Source NormalizerWitness.snapshot) = IncidentKey (key_Source NormalizerWitness.key "c1").
Proof.
  destruct (observed_identity NormalizerWitness.nested NormalizerWitness.normalizer NormalizerWitness.get
    NormalizerWitness.key () (NormalizerWitness.pod_with "hunter2" "t") () 0 NormalizerWitness.snapshot
    eq_refl NormalizerWitness.normalizes) as (_ & _ & _ & H).
  exact H.
Defined.
