(* ===== verification/Manager.v ===== *)
(** * Package [internal/kube], [informer_factory.go] and [manager.go]: what is
    watched, and the work queue

    Informers and the rate-limiting work queue are client-go's.  A shared
    informer factory is the namespace it watches; the queue is a class over its
    states with the documented behaviour the manager relies on: [held] are the
    keys it will hand out (queued, marked dirty or waiting for a delay),
    [processing] those handed out and not yet [Done].  Several workers run
    [runWorker] at once: their calls are interleaved by a step relation.  What they report of
    the depth of the queue is in [ReportsSystem]. *)
From S2P Require Import Prelude GoBase Kube.

(** ** [informer_factory.go] *)

Definition supportedResources : list (string * Resource) :=
  [("pods", Pods); ("events", Events); ("deployments", Deployments);
   ("statefulsets", StatefulSets); ("daemonsets", DaemonSets); ("jobs", Jobs)].
Definition supportedResource (name : string) : option Resource :=
  snd <$> find (λ kv, kv.1 =s? name) supportedResources.

Variant FactoryError :=
  | client_required | handler_required | no_resources | unsupported_resource (name : string)
  | duplicate_resource (name : string) | register_failed (name : string).

Fixpoint selectResources (seen : list string) (resources : list string) : result FactoryError (list string) :=
  match resources with
  | [] => Ok []
  | resource :: resources =>
      let resource := to_lower (trim_space resource) in
      match supportedResource resource with
      | None => Err (unsupported_resource resource)
      | Some _ =>
          fail_if! bool_decide (resource ∈ seen) with duplicate_resource resource;
          selected ←! selectResources (resource :: seen) resources;
          Ok (resource :: selected)
      end
  end.
Definition normalizeResources (resources : list string) : result FactoryError (list string) :=
  fail_if! Nat.eqb (length resources) 0 with no_resources;
  selected ←! selectResources [] resources;
  Ok (sort_strings selected).

Fixpoint selectNamespaces (seen : list string) (namespaces : list string) : list string :=
  match namespaces with
  | [] => []
  | namespace :: namespaces =>
      let namespace := trim_space namespace in
      if namespace =s? "" then selectNamespaces seen namespaces
      else if bool_decide (namespace ∈ seen) then selectNamespaces seen namespaces
      else namespace :: selectNamespaces (namespace :: seen) namespaces
  end.
Definition normalizeNamespaces (namespaces : list string) : list string :=
  sort_strings (selectNamespaces [] namespaces).

(** The watches of a factory list: the namespace ([None] for all) and the
    resource of every registered handler, in order; [add] says whether adding
    the handler to an informer succeeds. *)
Definition factories (namespaces : list string) : list (option string) :=
  match namespaces with [] => [None] | _ => map Some namespaces end.
Fixpoint addHandlers (add : option string → string → bool) (l : list (option string * string))
    : result FactoryError unit :=
  match l with
  | [] => Ok ()
  | (factory, resource) :: l =>
      fail_if! negb (add factory resource) with register_failed resource; addHandlers add l
  end.
Definition NewInformerFactory (add : option string → string → bool) (namespaces resources : list string)
    : result FactoryError (list (option string * string)) :=
  selected ←! normalizeResources resources;
  let watches := flat_map (λ factory, map (pair factory) selected)
                   (factories (normalizeNamespaces namespaces)) in
  _ ←! addHandlers add watches;
  Ok watches.

(** ** The queue *)

Class WorkQueue (Q : Type) := {
  held : Q → gset ResourceKey;
  processing : Q → gset ResourceKey;
  shut : Q → bool;
  QAdd : ResourceKey → Q → Q;
  QGet : Q → option (ResourceKey * Q);  (* [None]: shut down and empty *)
  QDone : ResourceKey → Q → Q;
  QForget : ResourceKey → Q → Q;
  QAddRateLimited : ResourceKey → Q → Q;
  QAddAfter : ResourceKey → duration → Q → Q;

  add_spec k q : shut q = false →
    held (QAdd k q) = {[ k ]} ∪ held q ∧ processing (QAdd k q) = processing q ∧ shut (QAdd k q) = false;
  get_spec q k q' : QGet q = Some (k, q') →
    k ∈ held q ∧ k ∉ processing q ∧ held q ∖ {[ k ]} ⊆ held q' ∧ held q' ⊆ held q ∧
    processing q' = {[ k ]} ∪ processing q ∧ shut q' = shut q;
  done_spec k q : held (QDone k q) = held q ∧ processing (QDone k q) = processing q ∖ {[ k ]} ∧
    shut (QDone k q) = shut q;
  forget_spec k q : held (QForget k q) = held q ∧ processing (QForget k q) = processing q ∧
    shut (QForget k q) = shut q;
  rate_limited_spec k q : shut q = false →
    held (QAddRateLimited k q) = {[ k ]} ∪ held q ∧ processing (QAddRateLimited k q) = processing q ∧
    shut (QAddRateLimited k q) = false;
  add_after_spec k d q : shut q = false →
    held (QAddAfter k d q) = {[ k ]} ∪ held q ∧ processing (QAddAfter k d q) = processing q ∧
    shut (QAddAfter k d q) = false
}.

(** ** [manager.go] *)

Record ReconcileResult := { rr_RequeueAfter : duration }.

Section Manager.
Context {Q : Type} `{WorkQueue Q}.

(** The body of a worker's iteration after [reconcile] has returned [outcome];
    [ended] says whether the context has ended by then.  [Done] is deferred. *)
Definition finishItem (key : ResourceKey) (outcome : result string ReconcileResult) (ended : bool) (q : Q) : Q :=
  QDone key
    match outcome with
    | Err _ => if ended then q else QAddRateLimited key q
    | Ok result =>
        let q := QForget key q in
        if (0 <? rr_RequeueAfter result) && negb ended then QAddAfter key (rr_RequeueAfter result) q else q
    end.

Definition Manager_Add (key : ResourceKey) (q : Q) : Q := QAdd key q.

(** What happens to the queue while the manager runs: the informers and the
    sweeper report keys, workers take keys and finish them, at any time. *)
Variant queue_event :=
  | Reported (k : ResourceKey) | Started (k : ResourceKey)
  | Finished (k : ResourceKey) (outcome : result string ReconcileResult).

Inductive queue_step : Q → queue_event → Q → Prop :=
  | step_report q k : queue_step q (Reported k) (Manager_Add k q)
  | step_start q k q' : QGet q = Some (k, q') → queue_step q (Started k) q'
  | step_finish q k outcome : k ∈ processing q →
      queue_step q (Finished k outcome) (finishItem k outcome false q).

Inductive queue_run (q : Q) : list queue_event → Q → Prop :=
  | run_nil : queue_run q [] q
  | run_snoc l q' e q'' : queue_run q l q' → queue_step q' e q'' → queue_run q (l ++ [e]) q''.

(** Is another reconciliation of [k] owed after these events?  Reporting owes
    one, starting pays for what was reported before, failing or asking for a
    requeue owes one again. *)
Definition owes (k : ResourceKey) (owed : bool) (e : queue_event) : bool :=
  match e with
  | Reported k' => if bool_decide (k' = k) then true else owed
  | Started k' => if bool_decide (k' = k) then false else owed
  | Finished k' (Err _) => if bool_decide (k' = k) then true else owed
  | Finished k' (Ok r) => if bool_decide (k' = k) && (0 <? rr_RequeueAfter r) then true else owed
  end.
Definition owed (l : list queue_event) (k : ResourceKey) : bool := fold_left (owes k) l false.

(** Started and not finished. *)
Definition running (k : ResourceKey) (r : bool) (e : queue_event) : bool :=
  match e with
  | Reported _ => r
  | Started k' => if bool_decide (k' = k) then true else r
  | Finished k' _ => if bool_decide (k' = k) then false else r
  end.
Definition in_flight (l : list queue_event) (k : ResourceKey) : bool := fold_left (running k) l false.

Lemma finish_spec k outcome q : shut q = false →
  processing (finishItem k outcome false q) = processing q ∖ {[ k ]} ∧ shut (finishItem k outcome false q) = false ∧
  held (finishItem k outcome false q) =
    (if match outcome with Err _ => true | Ok r => 0 <? rr_RequeueAfter r end then {[ k ]} ∪ held q else held q).
Proof.
  intros Hs. unfold finishItem. set (q1 := match outcome with Ok _ => _ | Err _ => _ end).
  destruct (done_spec k q1) as (Hh & Hp & Hd). rewrite Hh, Hp, Hd. unfold q1.
  destruct outcome as [r|e].
  - destruct (forget_spec k q) as (Fh & Fp & Fs). rewrite Hs in Fs. cbn [negb]. rewrite andb_true_r.
    destruct (0 <? rr_RequeueAfter r); [|by rewrite Fh, Fp, Fs].
    destruct (add_after_spec k (rr_RequeueAfter r) (QForget k q) Fs) as (-> & -> & ->). by rewrite Fh, Fp.
  - by destruct (rate_limited_spec k q Hs) as (-> & -> & ->).
Qed.

Record tracked (l : list queue_event) (q : Q) : Prop := {
  tr_open : shut q = false;
  tr_held : ∀ k, owed l k = true → k ∈ held q;
  tr_flight : ∀ k, in_flight l k = true ↔ k ∈ processing q
}.

Lemma owed_snoc l e k : owed (l ++ [e]) k = owes k (owed l k) e.
Proof. unfold owed. by rewrite fold_left_app. Qed.
Lemma in_flight_snoc l e k : in_flight (l ++ [e]) k = running k (in_flight l k) e.
Proof. unfold in_flight. by rewrite fold_left_app. Qed.

Lemma tracked_step l q e q' : tracked l q → queue_step q e q' → tracked (l ++ [e]) q'.
Proof.
  intros [Ho Hh Hf] Hstep. destruct Hstep as [q k|q k q' Hg|q k outcome Hk].
  - destruct (add_spec k q Ho) as (Ah & Ap & As). unfold Manager_Add. split; [done|..]; intros k'.
    + rewrite owed_snoc, Ah. cbn. case_bool_decide as E; [set_solver|]. intros ?%Hh. set_solver.
    + rewrite in_flight_snoc, Ap. cbn. apply Hf.
  - destruct (get_spec q k q' Hg) as (Hk & _ & Hsub & _ & Hp & Hs). split; [congruence|..]; intros k'.
    + rewrite owed_snoc. cbn. case_bool_decide as E; [done|]. intros Hk'%Hh. apply Hsub. set_solver.
    + rewrite in_flight_snoc, Hp. cbn. case_bool_decide as E; [set_solver|]. rewrite Hf. set_solver.
  - destruct (finish_spec k outcome q Ho) as (Hp & Hs & Hheld). split; [done|..]; intros k'.
    + rewrite owed_snoc, Hheld. destruct outcome as [r|e]; cbn.
      * destruct (0 <? rr_RequeueAfter r); [rewrite andb_true_r|rewrite andb_false_r; apply Hh].
        case_bool_decide; [set_solver|]. intros ?%Hh. set_solver.
      * case_bool_decide; [set_solver|]. intros ?%Hh. set_solver.
    + rewrite in_flight_snoc, Hp. cbn. case_bool_decide as E; [set_solver|]. rewrite Hf. set_solver.
Qed.

(** C17: no key is dropped and none is reconciled twice at once.  However the
    informers, the sweeper and the workers interleave, a key for which a
    reconciliation is owed (it was reported after its last start, its last
    reconciliation failed, or it asked to be requeued) is held by the queue, and
    a worker never takes a key that another worker is still reconciling. *)
Theorem queue_drops_nothing q l q' :
  shut q = false → processing q = ∅ → queue_run q l q' →
  (∀ k, owed l k = true → k ∈ held q') ∧
  (∀ k q'', QGet q' = Some (k, q'') → in_flight l k = false).
Proof.
  intros Hs Hp Hrun. assert (Ht : tracked l q').
  { induction Hrun as [|l q1 e q2 Hrun IH Hstep]; [|by eapply tracked_step]. split; [done|done|].
    intros k. rewrite Hp. unfold in_flight. cbn. set_solver. }
  destruct Ht as [_ Hh Hf]. split; [done|]. intros k q'' Hg.
  apply get_spec in Hg as (_ & Hn & _). destruct (in_flight l k) eqn:E; [|done]. by apply Hf in E.
Qed.
End Manager.

(** ** What is watched *)

Definition resource_name (r : string) : string := to_lower (trim_space r).

Lemma selectResources_ok seen l selected :
  selectResources seen l = Ok selected ↔
  selected = map resource_name l ∧ NoDup selected ∧ (∀ r, r ∈ selected → r ∉ seen) ∧
  (∀ r, r ∈ selected → is_Some (supportedResource r)).
Proof.
  revert seen selected. induction l as [|r l IH]; intros seen selected; cbn [selectResources map].
  { split; [intros [= <-]|by intros (-> & _)]. split_and!; [done|apply NoDup_nil_2|..]; by intros ? ?%elem_of_nil. }
  fold (resource_name r). destruct (supportedResource (resource_name r)) as [x|] eqn:Hr.
  - rewrite fail_if_ok, bool_decide_eq_false, rbind_ok. split.
    + intros (Hn & sel & (-> & Hnd & Hs & Hsup)%IH & [= <-]). split_and!; [done|..].
      * apply NoDup_cons. split; [|done]. intros Hin. apply (Hs _ Hin), list_elem_of_here.
      * intros r' [->|Hin]%elem_of_cons; [done|]. intros Hseen. by apply (Hs r' Hin), list_elem_of_further.
      * intros r' [->|Hin]%elem_of_cons; [by exists x|by apply Hsup].
    + intros (-> & [Hnin Hnd]%NoDup_cons & Hs & Hsup). split; [by apply Hs, list_elem_of_here|].
      exists (map resource_name l). split; [|done]. apply IH. split_and!; [done|done|..].
      * intros r' Hin [->|Hseen]%elem_of_cons; [done|]. by apply (Hs r'); [apply list_elem_of_further|].
      * intros r' Hin. by apply Hsup, list_elem_of_further.
  - split; [done|]. intros (-> & _ & _ & Hsup).
    destruct (Hsup (resource_name r) (list_elem_of_here _ _)) as [x Hx]. congruence.
Qed.

Lemma sort_strings_NoDup l : NoDup (sort_strings l) ↔ NoDup l.
Proof. apply NoDup_sort_slice. Qed.

Lemma normalizeResources_ok l selected :
  normalizeResources l = Ok selected →
  l ≠ [] ∧ NoDup selected ∧ (∀ r, r ∈ selected ↔ r ∈ map resource_name l) ∧
  (∀ r, r ∈ selected → is_Some (supportedResource r)).
Proof.
  unfold normalizeResources. rewrite fail_if_ok, rbind_ok. intros (Hl & sel & (-> & Hnd & _ & Hs)%selectResources_ok & [= <-]).
  split_and!.
  - by intros ->.
  - by apply sort_strings_NoDup.
  - intros r. apply elem_of_sort_strings.
  - intros r Hr. apply Hs. by rewrite elem_of_sort_strings in Hr.
Qed.

Lemma selectNamespaces_spec seen l :
  NoDup (selectNamespaces seen l) ∧
  ∀ n, n ∈ selectNamespaces seen l ↔ n ≠ "" ∧ n ∉ seen ∧ n ∈ map trim_space l.
Proof.
  revert seen. induction l as [|x l IH]; intros seen; cbn [selectNamespaces map].
  { split; [apply NoDup_nil_2|]. intros n. rewrite elem_of_nil. naive_solver. }
  destruct (String.eqb_spec (trim_space x) "") as [He|He].
  { destruct (IH seen) as [Hnd Hs]. split; [done|]. intros n. rewrite Hs, elem_of_cons. naive_solver congruence. }
  case_bool_decide as Hin.
  { destruct (IH seen) as [Hnd Hs]. split; [done|]. intros n. rewrite Hs, elem_of_cons. naive_solver congruence. }
  destruct (IH (trim_space x :: seen)) as [Hnd Hs]. split.
  - apply NoDup_cons. split; [|done]. rewrite Hs. intros (_ & Hn & _). apply Hn, list_elem_of_here.
  - intros n. rewrite !elem_of_cons, Hs, elem_of_cons. destruct (decide (n = trim_space x)); naive_solver congruence.
Qed.

Lemma NoDup_watches {A B} (l1 : list A) (l2 : list B) :
  NoDup l1 → NoDup l2 → NoDup (flat_map (λ a, map (pair a) l2) l1).
Proof.
  intros H1 H2. induction H1 as [|a l1 Ha _ IH]; cbn [flat_map]; [apply NoDup_nil_2|]. apply NoDup_app. split_and!; [|..|done].
  - change (map (pair a) l2) with (pair a <$> l2). apply NoDup_fmap_2; [|done]. by intros x y [= ->].
  - intros p (b & -> & _)%list_elem_of_fmap Hp. apply list_elem_of_In, in_flat_map in Hp as (a' & Hin & Hp).
    apply list_elem_of_In, list_elem_of_fmap in Hp as (b' & [= -> _] & _). by apply list_elem_of_In in Hin.
Qed.
Lemma elem_of_watches {A B} (l1 : list A) (l2 : list B) a b :
  (a, b) ∈ flat_map (λ a, map (pair a) l2) l1 ↔ a ∈ l1 ∧ b ∈ l2.
Proof.
  rewrite list_elem_of_In, in_flat_map. setoid_rewrite <- list_elem_of_In. split.
  - intros (a' & Ha & (b' & [= -> ->] & Hb)%list_elem_of_fmap). done.
  - intros [Ha Hb]. exists a. split; [done|]. apply list_elem_of_fmap. by exists b.
Qed.
Lemma elem_of_factories l f : f ∈ factories l ↔ match f with None => l = [] | Some n => n ∈ l end.
Proof.
  unfold factories. destruct l as [|x l]; [|]. 
  - rewrite list_elem_of_singleton. destruct f as [n|]; [|done]. split; [done|]. by intros ?%elem_of_nil.
  - change (map Some (x :: l)) with (Some <$> (x :: l)). rewrite list_elem_of_fmap.
    destruct f as [n|]; [|by split; [intros (? & ? & _)|]]. split; [by intros (m & [= ->] & ?)|]. intros ?. by exists n.
Qed.
Lemma NoDup_factories l : NoDup l → NoDup (factories l).
Proof.
  intros Hl. unfold factories. destruct l as [|x l]; [apply NoDup_singleton|].
  change (map Some (x :: l)) with (Some <$> (x :: l)). apply NoDup_fmap_2; [apply _|done].
Qed.

Lemma handler_namespaces namespaces queue n :
  n ∈ eh_namespaces (NewEventHandler namespaces queue) ↔ n ∈ normalizeNamespaces namespaces.
Proof.
  unfold normalizeNamespaces, NewEventHandler. cbn. rewrite elem_of_sort_strings, elem_of_list_to_set.
  rewrite (proj2 (selectNamespaces_spec [] namespaces) n). rewrite !list_elem_of_In, filter_In.
  rewrite <- !list_elem_of_In, negb_true_iff, String.eqb_neq, elem_of_nil. naive_solver.
Qed.

(** The informers and the handler agree.  The factory registers exactly one
    watch for each configured resource and namespace, or one for each resource
    in all namespaces when no namespace is configured, whatever the spelling and
    repetition of the configured names; and what a watch delivers passes the
    namespace filter of the handler built from the same configuration. *)
Theorem watches_exact add namespaces resources queue watches :
  NewInformerFactory add namespaces resources = Ok watches →
  NoDup watches ∧
  (∀ f r, (f, r) ∈ watches ↔
     f ∈ factories (normalizeNamespaces namespaces) ∧ r ∈ map resource_name resources) ∧
  (∀ f r, (f, r) ∈ watches → is_Some (supportedResource r) ∧
     match f with
     | Some n => n ∈ eh_namespaces (NewEventHandler namespaces queue)
     | None => eh_namespaces (NewEventHandler namespaces queue) = ∅
     end).
Proof.
  unfold NewInformerFactory. rewrite rbind_ok. intros (selected & (_ & Hnd & Hsel & Hsup)%normalizeResources_ok & Hw).
  apply rbind_ok in Hw as (_ & _ & [= <-]).
  assert (Hns : NoDup (normalizeNamespaces namespaces)) by (apply sort_strings_NoDup, selectNamespaces_spec).
  split_and!.
  - by apply NoDup_watches; [apply NoDup_factories|].
  - intros f r. by rewrite elem_of_watches, Hsel.
  - intros f r [Hf Hr]%elem_of_watches. split; [by apply Hsup|]. apply elem_of_factories in Hf.
    destruct f as [n|]; [by apply handler_namespaces|]. apply set_eq. intros n.
    rewrite (handler_namespaces namespaces queue n), Hf, elem_of_nil. set_solver.
Qed.

(** ** Starting and stopping the manager *)

Record ManagerConfig := {
  mg_HasClient : bool; mg_HasReconcile : bool; mg_Namespaces : list string;
  mg_Resources : list string; mg_Workers : Z
}.
Variant ManagerError := manager_incomplete | manager_workers | manager_factory (e : FactoryError).
Record Manager := {
  mg_watches : list (option string * string); mg_handler : EventHandler; mg_workers : Z
}.
Definition NewManager (add : option string → string → bool) (c : ManagerConfig) : result ManagerError Manager :=
  fail_if! negb (mg_HasClient c) || negb (mg_HasReconcile c) with manager_incomplete;
  fail_if! mg_Workers c <=? 0 with manager_workers;
  let handler := NewEventHandler (mg_Namespaces c) (Some []) in
  match NewInformerFactory add (mg_Namespaces c) (mg_Resources c) with
  | Err e => Err (manager_factory e)
  | Ok watches => Ok {| mg_watches := watches; mg_handler := handler; mg_workers := mg_Workers c |}
  end.

(** What [Run] does, in order. *)
Variant run_action :=
  | StartInformers | WaitForSync | CacheSynced | StartWorker | WaitForContext | StopHandler
  | ShutDown | ShutDownWithDrain | WaitForWorkers.
(** [WaitForCacheSync]: what each factory reports for each of its informers. *)
Definition WaitForCacheSync (reported : list (list bool)) : bool := forallb (forallb id) reported.
(** [ended]: the context had ended when the caches were not synchronized. *)
Definition Manager_Run (m : Manager) (reported : list (list bool)) (ended : bool)
    : list run_action * option string :=
  if negb (WaitForCacheSync reported) then
    ([StartInformers; WaitForSync; StopHandler; ShutDown],
     if ended then None else Some "Kubernetes informer cache synchronization failed")
  else
    ([StartInformers; WaitForSync; CacheSynced] ++ replicate (Z.to_nat (mg_workers m)) StartWorker
     ++ [WaitForContext; StopHandler; ShutDownWithDrain; WaitForWorkers], None).

(** The readiness mark and the workers come after every informer has
    synchronized, and the handler stops reporting before the queue is shut
    down, so that no key is added to a queue that is gone. *)
Lemma run_order m reported ended :
  let actions := (Manager_Run m reported ended).1 in
  (CacheSynced ∈ actions ↔ Forall (Forall (λ b, b = true)) reported) ∧
  (StartWorker ∈ actions → CacheSynced ∈ actions) ∧
  (∃ pre down post, actions = pre ++ StopHandler :: down :: post ∧
     (down = ShutDown ∨ down = ShutDownWithDrain) ∧ Forall (λ a, a ≠ ShutDown ∧ a ≠ ShutDownWithDrain) pre).
Proof.
  assert (Hsync : WaitForCacheSync reported = true ↔ Forall (Forall (λ b, b = true)) reported).
  { unfold WaitForCacheSync. rewrite forallb_forall, List.Forall_forall. setoid_rewrite forallb_forall.
    setoid_rewrite List.Forall_forall. done. }
  unfold Manager_Run. destruct (WaitForCacheSync reported) eqn:Hw; cbn [negb fst].
  - split_and!.
    + split; [by intros _; apply Hsync|]. intros _. set_solver.
    + intros _. set_solver.
    + exists ([StartInformers; WaitForSync; CacheSynced] ++ replicate (Z.to_nat (mg_workers m)) StartWorker ++ [WaitForContext]),
        ShutDownWithDrain, [WaitForWorkers]. split_and!; [by rewrite <- !(assoc_L (++))|by right|].
      rewrite !Forall_app. split_and!; [by repeat constructor|by apply Forall_replicate|by repeat constructor].
  - split_and!.
    + split; [set_solver|]. intros Hall. apply Hsync in Hall. congruence.
    + set_solver.
    + exists [StartInformers; WaitForSync], ShutDown, []. split_and!; [done|by left|by repeat constructor].
Qed.

(** ** A queue that meets the laws, and witnesses *)

Module QueueMemory.
Record queue := { waiting : list ResourceKey; busy : gset ResourceKey; closed : bool }.
Definition add (k : ResourceKey) (q : queue) : queue :=
  {| waiting := if closed q then waiting q else waiting q ++ [k]; busy := busy q; closed := closed q |}.
Definition next (q : queue) : option (ResourceKey * queue) :=
  k ← find (λ k, negb (bool_decide (k ∈ busy q))) (waiting q);
  Some (k, {| waiting := List.filter (λ k', negb (bool_decide (k' = k))) (waiting q);
              busy := {[ k ]} ∪ busy q; closed := closed q |}).
Definition finish (k : ResourceKey) (q : queue) : queue :=
  {| waiting := waiting q; busy := busy q ∖ {[ k ]}; closed := closed q |}.

Lemma add_law k q : closed q = false →
  list_to_set (waiting (add k q)) = ({[ k ]} ∪ list_to_set (waiting q) : gset ResourceKey) ∧
  busy (add k q) = busy q ∧ closed (add k q) = false.
Proof. intros Hc. unfold add. cbn. rewrite Hc, list_to_set_app_L. cbn. split_and!; [set_solver|done|done]. Qed.

#[local] Obligation Tactic := idtac.
#[global, program] Instance work_queue : WorkQueue queue := {
  held q := list_to_set (waiting q); processing := busy; shut := closed; QAdd := add; QGet := next;
  QDone := finish; QForget _ q := q; QAddRateLimited := add; QAddAfter k _ := add k
}.
Next Obligation. exact add_law. Qed.
Next Obligation.
  intros q k q'. unfold next. intros (k' & [Hin Hb]%find_some & [= -> <-])%bind_Some.
  apply list_elem_of_In in Hin. rewrite negb_true_iff, bool_decide_eq_false in Hb. cbn.
  assert (Hfilter : ∀ x, x ∈ List.filter (λ k', negb (bool_decide (k' = k))) (waiting q) ↔ x ∈ waiting q ∧ x ≠ k).
  { intros x. rewrite !list_elem_of_In, filter_In, negb_true_iff, bool_decide_eq_false. done. }
  split_and!; [by apply elem_of_list_to_set|done|..|done|done].
  - intros x. rewrite elem_of_difference, !elem_of_list_to_set, Hfilter. set_solver.
  - intros x. rewrite !elem_of_list_to_set, Hfilter. naive_solver.
Qed.
Next Obligation. done. Qed.
Next Obligation. done. Qed.
Next Obligation. exact add_law. Qed.
Next Obligation. intros k d. exact (add_law k). Qed.

Definition idle : queue := {| waiting := []; busy := ∅; closed := false |}.
Definition failing : list queue_event :=
  [Reported KubeWitness.key; Started KubeWitness.key; Reported KubeWitness.key;
   Finished KubeWitness.key (Err "unavailable")].
Definition after_failure : queue :=
  finishItem KubeWitness.key (Err "unavailable") false
    (add KubeWitness.key {| waiting := []; busy := {[ KubeWitness.key ]}; closed := false |}).
Lemma runs : queue_run idle failing after_failure.
Proof.
  apply (run_snoc idle [Reported KubeWitness.key; Started KubeWitness.key; Reported KubeWitness.key]
    (add KubeWitness.key {| waiting := []; busy := {[ KubeWitness.key ]}; closed := false |})).
  - apply (run_snoc idle [Reported KubeWitness.key; Started KubeWitness.key]
      {| waiting := []; busy := {[ KubeWitness.key ]}; closed := false |}).
    + apply (run_snoc idle [Reported KubeWitness.key] (add KubeWitness.key idle)).
      * apply (run_snoc idle [] idle); [apply run_nil|exact (step_report idle KubeWitness.key)].
      * apply step_start. by vm_compute.
    + exact (step_report {| waiting := []; busy := {[ KubeWitness.key ]}; closed := false |} KubeWitness.key).
  - apply (step_finish _ KubeWitness.key (Err "unavailable")). change (KubeWitness.key ∈ ({[ KubeWitness.key ]} : gset ResourceKey)). by apply elem_of_singleton_2.
Qed.
End QueueMemory.

Lemma queue_drops_nothing_witness :
  KubeWitness.key ∈ held QueueMemory.after_failure.
Proof.
  apply (proj1 (queue_drops_nothing (H := QueueMemory.work_queue) QueueMemory.idle QueueMemory.failing QueueMemory.after_failure
    ltac:(vm_compute; reflexivity) ltac:(vm_compute; reflexivity) QueueMemory.runs)).
  vm_compute. reflexivity.
Defined.

Lemma watches_exact_witness :
  NewInformerFactory (λ _ _, true) [" shop"; "a"; ""; "shop"] ["Pods "; "jobs"]
  = Ok [(Some "a", "jobs"); (Some "a", "pods"); (Some "shop", "jobs"); (Some "shop", "pods")] ∧
  NoDup [(Some "a", "jobs"); (Some "a", "pods"); (Some "shop", "jobs"); (Some "shop", "pods")].
Proof.
  split; [vm_compute; reflexivity|].
  apply (watches_exact (λ _ _, true) [" shop"; "a"; ""; "shop"] ["Pods "; "jobs"] None).
  vm_compute. reflexivity.
Defined.
