(* ===== verification/Reconciler.v ===== *)
(** * Package [internal/controller]: the reconciler and the resolution sweeper

    A reconciler runs over the outside world [W]: the store of the interface
    [IncidentStore], the resolver, the providers and the clock; the rule engine
    reads its own clock from the world.  The identifier generator and the JSON
    encoding of a snapshot sent to a provider (whose times print in the zone of
    the process) are parameters.  Metrics and logging are added in
    [ReportsReconciler], which shows that they change nothing; a panic of the
    composer would be the error [composer_panic]. *)
From S2P Require Import Prelude GoBase Domain Rules Provider Decision Store Documents Driver.
From S2P Require Import Contract MongoRefinement Outbox Sha256 Json Fingerprint Kube.

Definition eventOpened : string := "io.ruleraven.incident.opened".
Definition eventUpdated : string := "io.ruleraven.incident.updated".
Definition eventResolved : string := "io.ruleraven.incident.resolved".

Record ProviderOf (W : Type) := {
  pv_Name : string;
  pv_Evaluate : EvaluationRequest → eff W string EvaluationResponse
}.
Arguments pv_Name {W}. Arguments pv_Evaluate {W}.

(** The interfaces a reconciler calls, besides the store. *)
Record Services (W Obj : Type) := {
  sv_resolve : ResourceKey → eff W ResolveError Obj;
  sv_normalize : Obj → time → result string Snapshot;
  sv_rules : Snapshot → option Incident → W → Result;
  sv_now : W → time;
  sv_newID : string → string;
  sv_marshal : Snapshot → option string
}.
Arguments sv_resolve {W Obj}. Arguments sv_normalize {W Obj}. Arguments sv_rules {W Obj}.
Arguments sv_now {W Obj}. Arguments sv_newID {W Obj}. Arguments sv_marshal {W Obj}.

(** The configuration; a [nil] interface or function is [None].  The store is
    the world's, so only its presence is configured; [rc_Marshal] is the JSON
    encoder of the standard library. *)
Record ReconcilerConfig (W Obj : Type) := {
  rc_ClusterID : string;
  rc_Resolver : option (ResourceKey → eff W ResolveError Obj);
  rc_Normalizer : option (Obj → time → result string Snapshot);
  rc_Rules : option (Snapshot → option Incident → W → Result);
  rc_HasStore : bool;
  rc_Primary : option (ProviderOf W); rc_Fallback : option (ProviderOf W);
  rc_Composer : Composer; rc_ProviderConfigHash : string; rc_Destinations : list string;
  rc_ReconcileTimeout : duration; rc_EventQuietPeriod : duration;
  rc_Now : option (W → time); rc_NewID : option (string → string);
  rc_Marshal : Snapshot → option string
}.
Arguments rc_ClusterID {W Obj}. Arguments rc_Resolver {W Obj}. Arguments rc_Normalizer {W Obj}.
Arguments rc_Rules {W Obj}. Arguments rc_HasStore {W Obj}. Arguments rc_Primary {W Obj}.
Arguments rc_Fallback {W Obj}. Arguments rc_Composer {W Obj}.
Arguments rc_ProviderConfigHash {W Obj}. Arguments rc_Destinations {W Obj}.
Arguments rc_ReconcileTimeout {W Obj}. Arguments rc_EventQuietPeriod {W Obj}.
Arguments rc_Now {W Obj}. Arguments rc_NewID {W Obj}. Arguments rc_Marshal {W Obj}.

Record Reconciler (W Obj : Type) := {
  r_clusterID : string; r_services : Services W Obj; r_primary : ProviderOf W;
  r_fallback : option (ProviderOf W); r_composer : Composer; r_providerConfigHash : string;
  r_destinations : list string; r_timeout : duration; r_eventQuietPeriod : duration
}.
Arguments r_clusterID {W Obj}. Arguments r_services {W Obj}. Arguments r_primary {W Obj}.
Arguments r_fallback {W Obj}. Arguments r_composer {W Obj}. Arguments r_providerConfigHash {W Obj}.
Arguments r_destinations {W Obj}. Arguments r_timeout {W Obj}. Arguments r_eventQuietPeriod {W Obj}.

Inductive ConfigError :=
  | reconciler_dependencies_required | primary_required | timeouts_required | bad_destinations.

(** The loop over the sorted destinations. *)
Fixpoint checkDestinations (previous : option string) (l : list string) : bool :=
  match l with
  | [] => true
  | x :: rest =>
      negb (blank x || match previous with Some p => x =s? p | None => false end)
      && checkDestinations (Some x) rest
  end.

Definition NewReconciler {W Obj} (c : ReconcilerConfig W Obj)
    : result ConfigError (Reconciler W Obj) :=
  match rc_Resolver c, rc_Normalizer c, rc_Rules c with
  | Some resolve, Some normalize, Some rules =>
      fail_if! blank (rc_ClusterID c) || negb (rc_HasStore c) with reconciler_dependencies_required;
      match rc_Primary c with
      | None => Err primary_required
      | Some primary =>
          match rc_Now c, rc_NewID c with
          | Some now, Some newID =>
              fail_if! (rc_ReconcileTimeout c <=? 0) || (rc_EventQuietPeriod c <=? 0)
                with timeouts_required;
              let destinations := sort_strings (rc_Destinations c) in
              fail_if! negb (checkDestinations None destinations) with bad_destinations;
              Ok {| r_clusterID := rc_ClusterID c;
                    r_services := {| sv_resolve := resolve; sv_normalize := normalize;
                      sv_rules := rules; sv_now := now; sv_newID := newID;
                      sv_marshal := rc_Marshal c |};
                    r_primary := primary; r_fallback := rc_Fallback c;
                    r_composer := rc_Composer c; r_providerConfigHash := rc_ProviderConfigHash c;
                    r_destinations := destinations; r_timeout := rc_ReconcileTimeout c;
                    r_eventQuietPeriod := rc_EventQuietPeriod c |}
          | _, _ => Err timeouts_required
          end
      end
  | _, _, _ => Err reconciler_dependencies_required
  end.

(** ** Pure helpers *)

Definition isRecovery (r : Result) : bool :=
  existsb (λ m, (m_RuleID m =s? "recovered") || (m_RuleID m =s? "resource-deleted")) (res_Matches r).

Definition statusFor (r : Result) : IncidentStatus :=
  if isRecovery r then IncidentResolved
  else if res_Disposition r =s? DispositionSuppress then IncidentSuppressed
  else IncidentOpen.

Definition eventRequeue (s : Snapshot) (now : time) (r : Result) (quietPeriod : duration)
    : duration :=
  match sn_Event s with
  | None => 0
  | Some ev =>
      if (res_Disposition r ≠s? DispositionSemantic) || is_zero (ev_LastObserved ev) then 0 else
      let remaining := time_sub (time_add (ev_LastObserved ev) quietPeriod) now in
      if remaining <=? 0 then millisecond else remaining
  end.

Definition StableID (seed : string) : string := hex_encode (sha256 seed).

Definition auditHash (value : string) : string :=
  if value =s? "" then "" else "sha256:" +:+ hex_encode (sha256 value).

Definition model_char (c : ascii) : bool :=
  in_range c 97 122 || in_range c 65 90 || in_range c 48 57
  || bool_decide (c ∈ ["-"; "."; "_"; ":"; "/"]%char).
Fixpoint all_chars (p : ascii → bool) (s : string) : bool :=
  match s with EmptyString => true | String c r => p c && all_chars p r end.

(** The loop over the runes rejects every rune outside the ASCII set, hence
    every byte outside it. *)
Definition trustedResolvedModel (requested resolved : string) : string :=
  if (resolved =s? "") || (256 <? len resolved) then "" else
  let trusted := (resolved =s? requested)
    || existsb (λ sep, has_prefix resolved (requested +:+ sep)) ["-"; "."; ":"; "/"] in
  if negb trusted then "" else
  if all_chars model_char resolved then resolved else "".

(** The quiet-period condition that is added to a recovered Event. *)
Definition quietCondition : Condition :=
  {| cond_Type := "QuietPeriodElapsed"; cond_Status := "True"; cond_Reason := "EventQuietPeriod";
     cond_Message := ""; cond_LastTransitionTime := zero_time |}.

Definition deletedCondition : Condition :=
  {| cond_Type := "Deleted"; cond_Status := "True"; cond_Reason := "ResourceDeleted";
     cond_Message := ""; cond_LastTransitionTime := zero_time |}.

(** The payload of a notification.  The lists of a decision that is sent are
    never [nil] (which would print as [null]): rule decisions name a rule, and
    merged lists are allocated.  A failing [json.Marshal] (a year outside
    0 to 9999) would leave it empty; the clock is assumed to be in range. *)
Definition payload (incidentID evaluationID : string) (status : IncidentStatus) (d : Decision)
    (s : Snapshot) : string :=
  json_print (JObject
    [("incident_id", JString incidentID); ("evaluation_id", JString evaluationID);
     ("status", JString status); ("severity", JString (dec_Severity d));
     ("action", JString (dec_Action d)); ("summary", JString (dec_Summary d));
     ("resource", source_json (sn_Source s)); ("rule_ids", JArray (map JString (dec_RuleIDs d)));
     ("reason_codes", JArray (map JString (dec_ReasonCodes d)));
     ("observed_at", JTime (sn_ObservedAt s))]).

Inductive ReconcileError :=
  | invalid_key
  | resolve_error (e : ResolveError)
  | normalize_error (what : string)
  | store_error (what : string) (e : StoreError)
  | composer_panic.

Record ReconcileResult := { RequeueAfter : duration }.

Definition join_nul (l : list string) : string := join nul l.

Section Reconcile.
Context {W Obj : Type} `{IncidentOps W} `{MapRange} (r : Reconciler W Obj).

Abbreviation newID := (sv_newID (r_services r)) (only parsing).

(** ** Asking a provider *)

(** A response is accepted when its metadata is consistent and its answers are
    valid. *)
Definition checkResponse (evaluator : ProviderOf W) (request : EvaluationRequest)
    (response : EvaluationResponse) : bool :=
  negb ((resp_Provider response ≠s? pv_Name evaluator) || blank (resp_RequestedModel response))
  && is_ok (ValidateAnswers (req_Questions request) (resp_Answers response)).

Definition evaluateProvider (evaluator : ProviderOf W) (request : EvaluationRequest) (w : W)
    : option EvaluationResponse * W :=
  match pv_Evaluate evaluator request w with
  | (Ok response, w) => (if checkResponse evaluator request response then Some response else None, w)
  | (Err _, w) => (None, w)
  end.

Definition auditOf (response : EvaluationResponse) : ProviderAudit :=
  {| pa_Provider := resp_Provider response; pa_RequestedModel := resp_RequestedModel response;
     pa_ResolvedModel :=
       trustedResolvedModel (resp_RequestedModel response) (resp_ResolvedModel response);
     pa_ResolvedModelHash := auditHash (resp_ResolvedModel response);
     pa_ProviderRequestIDHash := auditHash (resp_ProviderRequestID response);
     pa_Usage := {| pu_InputTokens := InputTokens (resp_Usage response);
                    pu_OutputTokens := OutputTokens (resp_Usage response) |};
     pa_Latency := resp_Latency response; pa_Attempts := resp_Attempts response;
     pa_RawResponseHash := resp_RawResponseHash response |}.

(** The primary provider, then the fallback if there is one. *)
Definition askProviders (request : EvaluationRequest) (w : W) : option EvaluationResponse * W :=
  let '(response, w) := evaluateProvider (r_primary r) request w in
  match response, r_fallback r with
  | None, Some fallback => evaluateProvider fallback request w
  | _, _ => (response, w)
  end.

(** A decision with the answers and the audit record to store. *)
Abbreviation decided := (option (Decision * option (gmap string Answer) * option ProviderAudit))
  (only parsing).

Definition decide (s : Snapshot) (result : Result) (incidentID : string) (w : W) : decided * W :=
  if res_Disposition result ≠s? DispositionSemantic then
    ((λ d, (d, None, None)) <$> Compose (r_composer r) result ∅ false, w)
  else
    match sv_marshal (r_services r) s with
    | None => ((λ d, (d, None, None)) <$> Compose (r_composer r) result ∅ true, w)
    | Some state =>
        let requestID := newID ("request" +:+ nul +:+ incidentID +:+ nul +:+ sn_ContentHash s) in
        let request := {| req_State := state; req_Questions := OperationalTriageV1Questions;
          req_RubricVersion := res_QuestionSet result; req_RequestID := requestID;
          req_RequestedModel := "" |} in
        let '(response, w) := askProviders request w in
        match response with
        | None => ((λ d, (d, None, None)) <$> Compose (r_composer r) result ∅ true, w)
        | Some response =>
            ((λ d, (d, Some (resp_Answers response), Some (auditOf response)))
               <$> Compose (r_composer r) result (resp_Answers response) false, w)
        end
    end.

(** ** Persisting *)

Definition deliveries (incident : Incident) (s : Snapshot) (evaluationID eventType : string)
    (d : Decision) (status : IncidentStatus) (now : time) : list Notification :=
  if (status ≠s? IncidentResolved) && (dec_Action d ≠s? ActionNotify)
     && (dec_Action d ≠s? ActionPage) then []
  else
    map (λ destination,
      {| nt_ID := newID (join_nul ["delivery"; evaluationID; destination; eventType]);
         nt_EvaluationID := evaluationID; nt_DestinationID := destination;
         nt_EventType := eventType; nt_Status := NotificationPending; nt_Attempts := 0;
         nt_NextAttemptAt := now;
         nt_Payload := payload (inc_ID incident) evaluationID status d s |}) (r_destinations r).

(** The incident record after the observation. *)
Definition observed (incident : Incident) (s : Snapshot) (status : IncidentStatus) (now : time)
    : Incident :=
  {| inc_ID := inc_ID incident; inc_Key := inc_Key incident; inc_ClusterID := inc_ClusterID incident;
     inc_Source := sn_Source s; inc_Status := status; inc_OpenedAt := inc_OpenedAt incident;
     inc_UpdatedAt := now;
     inc_ResolvedAt := if status =s? IncidentResolved then Some now else None;
     inc_ContentHash := sn_ContentHash s; inc_Version := inc_Version incident |}.

Definition newIncident (s : Snapshot) (now : time) : Incident :=
  let key := IncidentKey (sn_Source s) in
  {| inc_ID := newID ("incident" +:+ nul +:+ key); inc_Key := key; inc_ClusterID := r_clusterID r;
     inc_Source := sn_Source s; inc_Status := IncidentOpen; inc_OpenedAt := now;
     inc_UpdatedAt := now; inc_ResolvedAt := None; inc_ContentHash := ""; inc_Version := 1 |}.

Definition policyVersion (result : Result) : string :=
  res_PolicyVersion result +:+ "+" +:+ composer_PolicyVersion (r_composer r).

Definition evaluationOf (incident : Incident) (s : Snapshot) (result : Result) (d : Decision)
    (answers : option (gmap string Answer)) (audit : option ProviderAudit) (now : time)
    : StoredEvaluation :=
  {| evl_ID := newID ("evaluation" +:+ nul +:+ join_nul [inc_ID incident; sn_ContentHash s;
       policyVersion result; res_QuestionSet result; r_providerConfigHash r]);
     evl_IncidentID := inc_ID incident; evl_SnapshotHash := sn_ContentHash s;
     evl_PolicyVersion := policyVersion result; evl_RubricVersion := res_QuestionSet result;
     evl_ProviderConfigHash := r_providerConfigHash r; evl_Decision := d; evl_Answers := answers;
     evl_ProviderAudit := audit; evl_CreatedAt := now |}.

Definition eventTypeOf (created : bool) (status : IncidentStatus) : string :=
  if status =s? IncidentResolved then eventResolved
  else if created then eventOpened else eventUpdated.

(** The request that [persist] commits. *)
Definition commitRequest (incident : Incident) (created : bool) (s : Snapshot) (result : Result)
    (d : Decision) (answers : option (gmap string Answer)) (audit : option ProviderAudit)
    (now : time) : CommitRequest :=
  let status := statusFor result in
  let incident := observed incident s status now in
  let evaluation := evaluationOf incident s result d answers audit now in
  {| cr_Incident := incident; cr_ExpectedVersion := inc_Version incident;
     cr_Evaluation := evaluation;
     cr_Deliveries := deliveries incident s (evl_ID evaluation) (eventTypeOf created status) d
                        status now;
     cr_ExpiresAt := None |}.

Definition persist (s : Snapshot) (previous : option Incident) (result : Result) (now : time)
    : eff W ReconcileError unit :=
  ic ←~ match previous with
        | Some incident => eret (incident, false)
        | None => ewrap (store_error "upsert incident") (upsert_incident (newIncident s now) None)
        end;
  let '(incident, created) := ic in
  if negb created && (inc_ContentHash incident =s? sn_ContentHash s) && negb (isRecovery result)
  then eret () else
  _ ←~ ewrap (store_error "upsert snapshot") (upsert_snapshot (inc_ID incident) s None);
  λ w,
    match decide s result (inc_ID incident) w with
    | (None, w) => (Err composer_panic, w)
    | (Some (d, answers, audit), w) =>
        ewrap (store_error "commit incident evaluation and outbox")
          (commit (commitRequest incident created s result d answers audit now)) w
    end.

(** ** Deletion *)

Definition deletionDecision : Decision :=
  {| dec_Severity := SeverityInfo; dec_Action := ActionRecord;
     dec_Summary := "observed resource was deleted"; dec_ReasonCodes := ["resource_deleted"];
     dec_RuleIDs := ["resource-deleted"] |}.
Definition deletionResult : Result :=
  {| res_Matches := [{| m_RuleID := "resource-deleted"; m_Reason := "observed resource was deleted";
                        m_Severity := SeverityInfo |}];
     res_Disposition := DispositionTerminal; res_Decision := Some deletionDecision;
     res_QuestionSet := ""; res_PolicyVersion := PolicyVersion |}.

Definition deletionSnapshot (key : ResourceKey) (now : time) : Snapshot :=
  let s := {| sn_Source := key_Source key (r_clusterID r); sn_ObservedAt := now; sn_Labels := ∅;
              sn_Conditions := [deletedCondition]; sn_Containers := []; sn_Workload := None;
              sn_Job := None; sn_Event := None; sn_ContentHash := "" |} in
  sn_set_ContentHash (ContentHash s) s.

Definition resolveDeletion (key : ResourceKey) : eff W ReconcileError unit := λ w,
  match get_incident (r_clusterID r) (IncidentKey (key_Source key (r_clusterID r))) w with
  | (Err e, w) => if is_ErrNotFound e then (Ok (), w)
                  else (Err (store_error "get deleted resource incident" e), w)
  | (Ok previous, w) =>
      if inc_Status previous =s? IncidentResolved then (Ok (), w) else
      let now := sv_now (r_services r) w in
      persist (deletionSnapshot key now) (Some previous) deletionResult now w
  end.

(** ** Reconcile *)

(** The snapshot whose hash is compared and stored: a recovered Event gets the
    quiet-period condition. *)
Definition finalSnapshot (s : Snapshot) (result : Result) : Snapshot :=
  match sn_Event s with
  | Some _ =>
      if isRecovery result then
        let s := sn_set_Conditions (sn_Conditions s ++ [quietCondition]) s in
        sn_set_ContentHash (ContentHash s) s
      else s
  | None => s
  end.

(** After the previous incident is known. *)
Definition decideAndPersist (s : Snapshot) (now : time) (previous : option Incident)
    : eff W ReconcileError ReconcileResult := λ w,
  let result := sv_rules (r_services r) s previous w in
  let s := finalSnapshot s result in
  let requeue := eventRequeue s now result (r_eventQuietPeriod r) in
  let same := match previous with
              | Some p => inc_ContentHash p =s? sn_ContentHash s
              | None => false
              end in
  let resolved := match previous with
                  | Some p => inc_Status p =s? IncidentResolved
                  | None => false
                  end in
  let noMatch := res_Disposition result =s? DispositionNoMatch in
  if same && negb (isRecovery result) then (Ok {| RequeueAfter := requeue |}, w) else
  if noMatch && negb (isSome previous) then (Ok {| RequeueAfter := requeue |}, w) else
  if resolved && noMatch then (Ok {| RequeueAfter := 0 |}, w) else
  (_ ←~ persist s previous result now; eret {| RequeueAfter := requeue |}) w.

Definition reconcileSnapshot (s : Snapshot) (now : time) : eff W ReconcileError ReconcileResult :=
  λ w,
    match get_incident (r_clusterID r) (IncidentKey (sn_Source s)) w with
    | (Err e, w) =>
        if is_ErrNotFound e then decideAndPersist s now None w
        else (Err (store_error "get incident" e), w)
    | (Ok previous, w) => decideAndPersist s now (Some previous) w
    end.

Definition Reconcile (key : ResourceKey) : eff W ReconcileError ReconcileResult :=
  guard! negb (key_Validate key) with invalid_key;
  λ w,
    match sv_resolve (r_services r) key w with
    | (Err ErrResourceNotFound, w) =>
        (_ ←~ resolveDeletion key; eret {| RequeueAfter := 0 |}) w
    | (Err e, w) => (Err (resolve_error e), w)
    | (Ok object, w) =>
        let now := sv_now (r_services r) w in
        match sv_normalize (r_services r) object now with
        | Err e => (Err (normalize_error e), w)
        | Ok s => reconcileSnapshot s now w
        end
    end.
End Reconcile.

(** ** [resolution_sweeper.go] *)

Record ResolutionSweeper := { rs_clusterID : string; rs_interval : duration }.

Definition NewResolutionSweeper (hasStore hasQueue : bool) (clusterID : string)
    (interval : duration) : option ResolutionSweeper :=
  if negb hasStore || negb hasQueue || blank clusterID || (interval <=? 0) then None
  else Some {| rs_clusterID := clusterID; rs_interval := interval |}.

(** The keys one sweep adds to the queue, in order. *)
Definition sweepKeys (s : ResolutionSweeper) (incidents : list Incident) : list ResourceKey :=
  map (λ i, {| rk_Kind := "Event"; rk_Namespace := src_Namespace (inc_Source i);
               rk_Name := src_Name (inc_Source i); rk_UID := src_UID (inc_Source i) |})
    (List.filter (λ i, negb ((inc_ClusterID i ≠s? rs_clusterID s)
                             || negb (equal_fold (src_Kind (inc_Source i)) "Event"))) incidents).

Definition SweepOnce {W} (listOpen : eff W StoreError (list Incident)) (s : ResolutionSweeper)
    : eff W StoreError (list ResourceKey) :=
  incidents ←~ ewrap (wrapped "list incidents for resolution") listOpen;
  eret (sweepKeys s incidents).

(** ** Lemmas *)

Lemma deliveries_fresh {W Obj} (r : Reconciler W Obj) i s e t d st now :
  Forall fresh_notification (deliveries r i s e t d st now).
Proof.
  unfold deliveries. destruct (_ && _); [constructor|]. apply Forall_fmap, Forall_forall. done.
Qed.

(** Who is notified of what. *)
Lemma deliveries_destinations {W Obj} (r : Reconciler W Obj) i s e t d st now :
  map (λ n, (nt_DestinationID n, nt_EventType n)) (deliveries r i s e t d st now) =
  if (st =s? IncidentResolved) || (dec_Action d =s? ActionNotify) || (dec_Action d =s? ActionPage)
  then map (λ x, (x, t)) (r_destinations r) else [].
Proof.
  unfold deliveries. destruct (st =s? _), (dec_Action d =s? ActionNotify),
    (dec_Action d =s? ActionPage); simpl; rewrite ?map_map; done.
Qed.

Section ReconcileLemmas.
Context {W Obj : Type} `{MapRange} (r : Reconciler W Obj).

(** The world may change while a provider or the API server is asked; [R] says
    how. *)
Section Frame.
Context `{StoreState W} (R : W → W → Prop).
Hypothesis R_refl : ∀ w, store_ok w → R w w.
Hypothesis R_trans : ∀ a b c, R a b → R b c → R a c.
Hypothesis R_ok : ∀ a b, R a b → store_ok b.
Hypothesis provider_frame : ∀ p q w x w', p = r_primary r ∨ r_fallback r = Some p →
  store_ok w → pv_Evaluate p q w = (x, w') → R w w'.

Lemma evaluateProvider_frame p q w x w' :
  p = r_primary r ∨ r_fallback r = Some p → store_ok w →
  evaluateProvider p q w = (x, w') → R w w'.
Proof.
  intros Hp Hok. unfold evaluateProvider. destruct (pv_Evaluate p q w) as [[a|e] w1] eqn:He;
    intros [= <- <-]; by eapply provider_frame.
Qed.

Lemma askProviders_frame q w x w' : store_ok w → askProviders r q w = (x, w') → R w w'.
Proof.
  intros Hok. unfold askProviders. destruct (evaluateProvider (r_primary r) q w) as [a w1] eqn:He.
  apply evaluateProvider_frame in He; [|by left|done].
  destruct a; [by intros [= <- <-]|]. destruct (r_fallback r) as [f|] eqn:Hf in |- *; [|by intros [= <- <-]].
  intros Hf'%evaluateProvider_frame; [|by right|by eapply R_ok]. by eapply R_trans.
Qed.

Lemma decide_frame s result id w x w' :
  store_ok w → decide r s result id w = (x, w') → R w w' ∧ is_Some x.
Proof.
  intros Hok. unfold decide.
  assert (HC : ∀ a b, ∃ d, Compose (r_composer r) result a b = Some d)
    by (intros; apply Compose_defined).
  destruct (_ ≠s? _).
  { intros [= <- <-]. destruct (HC ∅ false) as [d ->]. simpl. eauto. }
  destruct (sv_marshal _ s) as [state|].
  2:{ intros [= <- <-]. destruct (HC ∅ true) as [d ->]. simpl. eauto. }
  destruct (askProviders r _ w) as [[resp|] w1] eqn:Ha; apply askProviders_frame in Ha; try done;
    intros [= <- <-]; (split; [done|]).
  - destruct (HC (resp_Answers resp) false) as [d ->]. simpl. eauto.
  - destruct (HC ∅ true) as [d ->]. simpl. eauto.
Qed.
End Frame.

(** *** Following the outbox protocol *)

Section Protocol.
Context `{StoreState W, !SharedIncidents W}.
Hypothesis provider_env : ∀ p q w x w', p = r_primary r ∨ r_fallback r = Some p →
  store_ok w → pv_Evaluate p q w = (x, w') → env w w'.
Hypothesis resolve_env : ∀ key w x w', store_ok w → sv_resolve (r_services r) key w = (x, w') → env w w'.

Lemma commitDecided_env s result i c now w x w' :
  store_ok w →
  match decide r s result (inc_ID i) w with
  | (None, w) => (Err composer_panic, w)
  | (Some (d, answers, audit), w) =>
      ewrap (store_error "commit incident evaluation and outbox")
        (commit (commitRequest r i c s result d answers audit now)) w
  end = (x, w') → env w w'.
Proof.
  intros Hok. destruct (decide r s result (inc_ID i) w) as [y w1] eqn:Hd.
  apply (decide_frame env) in Hd as [He _]; eauto using env_refl, env_trans; [|by intros ?? []].
  destruct y as [[[d answers] audit]|]; [|by intros [= <- <-]].
  unfold ewrap. destruct (commit _ w1) as [z w2] eqn:Hc.
  apply commit_env in Hc; [|done|apply deliveries_fresh|by destruct He].
  destruct z; intros [= <- <-]; by eapply env_trans.
Qed.

Lemma persist_env s previous result now w x w' :
  store_ok w → persist r s previous result now w = (x, w') → env w w'.
Proof.
  intros Hok. unfold persist, ebind at 1.
  set (first := match previous with Some _ => _ | None => _ end).
  destruct (first w) as [[[i c]|e] w1] eqn:Hf.
  2:{ intros [= <- <-]. unfold first, ewrap, eret in Hf. destruct previous; [done|].
      destruct (upsert_incident _ _ w) as [[]] eqn:Hu; simplify_eq. by eapply upsert_incident_env. }
  assert (He : env w w1).
  { unfold first, ewrap, eret in Hf. destruct previous; [by simplify_eq|].
    destruct (upsert_incident _ _ w) as [[]] eqn:Hu; simplify_eq. by eapply upsert_incident_env. }
  destruct (_ && _ && _); [by intros [= <- <-]|]. unfold ebind, ewrap at 1.
  destruct (upsert_snapshot _ s None w1) as [y w2] eqn:Hs.
  apply upsert_snapshot_env in Hs; [|by destruct He].
  pose proof (env_trans _ _ _ He Hs) as He2.
  destruct y; [|by intros [= <- <-]]. intros Hc.
  apply commitDecided_env in Hc; [|by destruct He2]. by eapply env_trans.
Qed.

Lemma decideAndPersist_env s now previous w x w' :
  store_ok w → decideAndPersist r s now previous w = (x, w') → env w w'.
Proof.
  intros Hok. unfold decideAndPersist.
  destruct (_ && negb _); [intros [= <- <-]; by apply env_refl|].
  destruct (_ && negb _); [intros [= <- <-]; by apply env_refl|].
  destruct (_ && _); [intros [= <- <-]; by apply env_refl|].
  unfold ebind. destruct (persist r _ previous _ now w) as [y w1] eqn:Hp.
  apply persist_env in Hp; [|done]. by destruct y; intros [= <- <-].
Qed.

Lemma resolveDeletion_env key w x w' :
  store_ok w → resolveDeletion r key w = (x, w') → env w w'.
Proof.
  intros Hok. unfold resolveDeletion. destruct (get_incident _ _ w) as [[p|e] w1] eqn:Hg;
    apply get_incident_env in Hg; try done.
  - destruct (_ =s? _); [by intros [= <- <-]|]. intros Hp.
    apply persist_env in Hp; [|by destruct Hg]. by eapply env_trans.
  - by destruct (is_ErrNotFound e); intros [= <- <-].
Qed.

Lemma Reconcile_env key w x w' : store_ok w → Reconcile r key w = (x, w') → env w w'.
Proof.
  intros Hok. unfold Reconcile. destruct (negb _); [by intros [= <- <-]|].
  destruct (sv_resolve (r_services r) key w) as [y w1] eqn:Hr. apply resolve_env in Hr; [|done].
  destruct y as [object|e].
  - destruct (sv_normalize _ object _) as [s|e]; [|by intros [= <- <-]].
    unfold reconcileSnapshot. destruct (get_incident _ _ w1) as [y w2] eqn:Hg.
    apply get_incident_env in Hg; [|by destruct Hr]. pose proof (env_trans _ _ _ Hr Hg) as He.
    destruct y as [p|e]; [|destruct (is_ErrNotFound e); [|by intros [= <- <-]]];
      intros Hp; (apply decideAndPersist_env in Hp; [|by destruct He]); by eapply env_trans.
  - destruct e; try by intros [= <- <-]. unfold ebind.
    destruct (resolveDeletion r key w1) as [y w2] eqn:Hd.
    apply resolveDeletion_env in Hd; [|by destruct Hr].
    destruct y; intros [= <- <-]; by eapply env_trans.
Qed.
End Protocol.

(** *** What a reconciliation does when nothing interferes *)

(** The incident a commit starts from: the stored one, or one just inserted. *)
Inductive starting `{Codec} (s : Snapshot) (now : time) (v : StoreView)
    : option Incident → Incident → bool → StoreView → Prop :=
  | starting_existing p : starting s now v (Some p) p false v
  | starting_new v1 : upserted (newIncident r s now) v v1 →
      starting s now v None (rounded_incident (newIncident r s now)) true v1.

(** Where a decision and its evidence come from: without stored evidence it is
    composed from no answers; stored answers passed validation and come with
    the audit record of their response. *)
Inductive decided (s : Snapshot) (result : Result) (d : Decision)
    : option (gmap string Answer) → option ProviderAudit → Prop :=
  | decided_without err :
      Compose (r_composer r) result ∅ err = Some d → decided s result d None None
  | decided_with (p : ProviderOf W) response request w w' :
      res_Disposition result = DispositionSemantic →
      p = r_primary r ∨ r_fallback r = Some p →
      req_Questions request = OperationalTriageV1Questions →
      pv_Evaluate p request w = (Ok response, w') →
      resp_Provider response = pv_Name p →
      ValidateAnswers OperationalTriageV1Questions (resp_Answers response) = Ok () →
      Compose (r_composer r) result (resp_Answers response) false = Some d →
      decided s result d (Some (resp_Answers response)) (Some (auditOf response)).

Lemma evaluateProvider_ok (p : ProviderOf W) q w response w' :
  evaluateProvider p q w = (Some response, w') →
  ∃ w1, pv_Evaluate p q w = (Ok response, w1) ∧ resp_Provider response = pv_Name p ∧
    ValidateAnswers (req_Questions q) (resp_Answers response) = Ok ().
Proof.
  unfold evaluateProvider, checkResponse. destruct (pv_Evaluate p q w) as [[a|e] w1]; [|done].
  destruct (_ && _) eqn:Hc; [|done]. intros [= -> ->].
  rewrite andb_true_iff, negb_true_iff, orb_false_iff, negb_false_iff, String.eqb_eq in Hc.
  destruct Hc as [[Hp _] Hv%is_ok_unit]. eauto.
Qed.

Lemma askProviders_ok q w response w' :
  askProviders r q w = (Some response, w') →
  ∃ p w1 w2, (p = r_primary r ∨ r_fallback r = Some p) ∧
    pv_Evaluate p q w1 = (Ok response, w2) ∧ resp_Provider response = pv_Name p ∧
    ValidateAnswers (req_Questions q) (resp_Answers response) = Ok ().
Proof.
  unfold askProviders. destruct (evaluateProvider (r_primary r) q w) as [[a|] w1] eqn:He.
  - intros [= -> _]. apply evaluateProvider_ok in He as (? & ?). naive_solver.
  - destruct (r_fallback r) as [f|] eqn:Hf; [|done].
    intros (w2 & ?)%evaluateProvider_ok. exists f, w1, w2. auto.
Qed.

Lemma decide_decided s result id w d answers audit w' :
  decide r s result id w = (Some (d, answers, audit), w') → decided s result d answers audit.
Proof.
  unfold decide. destruct (String.eqb_spec (res_Disposition result) DispositionSemantic) as [Hs|Hs];
    simpl.
  2:{ intros [= Hd _]. apply fmap_Some in Hd as (? & Hc & [= -> -> ->]). by econstructor. }
  destruct (sv_marshal _ s) as [state|].
  2:{ intros [= Hd _]. apply fmap_Some in Hd as (? & Hc & [= -> -> ->]). by econstructor. }
  destruct (askProviders r _ w) as [[resp|] w1] eqn:Ha;
    intros [= Hd _]; apply fmap_Some in Hd as (? & Hc & [= -> -> ->]); [|by econstructor].
  apply askProviders_ok in Ha as (p & w2 & w3 & Hp & He & Hn & Hv).
  eapply (decided_with s result _ p resp); [exact Hs|exact Hp| |exact He|exact Hn|exact Hv|exact Hc].
  reflexivity.
Qed.

Section Alone.
Context `{IncidentStore W}.
Hypothesis provider_quiet : ∀ p q w x w', p = r_primary r ∨ r_fallback r = Some p →
  store_ok w → pv_Evaluate p q w = (x, w') → unchanged w w'.
Hypothesis resolve_quiet : ∀ key w x w', store_ok w →
  sv_resolve (r_services r) key w = (x, w') → unchanged w w'.

Lemma unchanged_refl w : store_ok w → unchanged w w.
Proof. by split. Qed.
Lemma unchanged_trans (a b c : W) : unchanged a b → unchanged b c → unchanged a c.
Proof. unfold unchanged. intros [_ Hab] [? Hbc]. split; [done|congruence]. Qed.

(** A commit from the incident [i]. *)
Definition committed (s : Snapshot) (previous : option Incident) (result : Result) (now : time)
    (v v' : StoreView) : Prop :=
  ∃ i c w1 d answers audit, store_ok w1 ∧ starting s now v previous i c (view w1) ∧
    decided s result d answers audit ∧
    commit_effect (commitRequest r i c s result d answers audit now) (view w1) v'.

Lemma commitDecided_outcome s previous result i c now v w w' :
  store_ok w → starting s now v previous i c (view w) →
  match decide r s result (inc_ID i) w with
  | (None, w) => (Err composer_panic, w)
  | (Some (d, answers, audit), w) =>
      ewrap (store_error "commit incident evaluation and outbox")
        (commit (commitRequest r i c s result d answers audit now)) w
  end = (Ok (), w') →
  store_ok w' ∧ committed s previous result now v (view w').
Proof.
  intros Hok Hst. destruct (decide r s result (inc_ID i) w) as [y w1] eqn:Hd.
  destruct (decide_frame unchanged unchanged_refl unchanged_trans
    ltac:(by intros ?? []) provider_quiet s result (inc_ID i) w y w1 Hok Hd) as [[Hok1 Hv1] _].
  destruct y as [[[d answers] audit]|]; [|done]. rewrite ewrap_ok. intros Hc.
  apply commit_spec in Hc as [? He]; [|done]. split; [done|]. rewrite Hv1 in He.
  exists i, c, w, d, answers, audit. eauto using decide_decided.
Qed.

Lemma persist_outcome s previous result now w w' :
  store_ok w →
  v_incidents (view w) !! (r_clusterID r, IncidentKey (sn_Source s)) = previous →
  persist r s previous result now w = (Ok (), w') →
  store_ok w' ∧
  (view w' = view w ∧ isRecovery result = false ∧
     (∃ p, previous = Some p ∧ inc_ContentHash p = sn_ContentHash s) ∨
   committed s previous result now (view w) (view w')).
Proof.
  intros Hok Hprev. unfold persist. rewrite ebind_ok. intros ([i c] & w1 & Hf & Hrest).
  assert (store_ok w1 ∧ starting s now (view w) previous i c (view w1) ∧
                (c = false → previous = Some i ∧ view w1 = view w)) as (Hok1 & Hst & Hc).
  { destruct previous as [p|].
    - injection Hf as <- <- <-. split_and!; [done|constructor|done].
    - rewrite ewrap_ok in Hf. apply upsert_incident_spec in Hf; [|done]. destruct c.
      + destruct Hf as (? & -> & ?). split_and!; [done|by constructor|done].
      + destruct Hf as [_ Hf]. discriminate (eq_trans (eq_sym Hprev) Hf). }
  destruct (negb c && _ && _) eqn:Hskip.
  { injection Hrest as <-. split; [done|]. left.
    rewrite !andb_true_iff, !negb_true_iff, String.eqb_eq in Hskip.
    destruct Hskip as [[-> ?] ?], (Hc eq_refl). naive_solver. }
  apply ebind_ok in Hrest as (y & w2 & Hs & Hcommit). rewrite ewrap_ok in Hs.
  apply upsert_snapshot_spec in Hs as [Hok2 Hv2]; [|done]. rewrite <- Hv2 in Hst.
  apply (commitDecided_outcome s previous result i c now (view w)) in Hcommit as [? ?]; auto.
Qed.

(** The two outcomes of a successful reconciliation. *)
Definition outcome (s : Snapshot) (now : time) (previous : option Incident) (result : Result)
    (v v' : StoreView) : Prop :=
  (v' = v ∧
     ((∃ p, previous = Some p ∧ inc_ContentHash p = sn_ContentHash s) ∧ isRecovery result = false ∨
      res_Disposition result = DispositionNoMatch ∧
        (∀ p, previous = Some p → inc_Status p = IncidentResolved))) ∨
  committed s previous result now v v'.

Lemma finalSnapshot_source s result : sn_Source (finalSnapshot s result) = sn_Source s.
Proof. unfold finalSnapshot. by destruct (sn_Event s), (isRecovery result). Qed.

Lemma finalSnapshot_same s result : isRecovery result = false → finalSnapshot s result = s.
Proof. unfold finalSnapshot. intros ->. by destruct (sn_Event s). Qed.
Lemma open_event c result :
  isRecovery result = false → eventTypeOf c (statusFor result) = if c then eventOpened else eventUpdated.
Proof. unfold eventTypeOf, statusFor. intros ->. by destruct (_ =s? DispositionSuppress). Qed.

Lemma decideAndPersist_outcome s now previous w x w' :
  store_ok w →
  v_incidents (view w) !! (r_clusterID r, IncidentKey (sn_Source s)) = previous →
  decideAndPersist r s now previous w = (Ok x, w') →
  let result := sv_rules (r_services r) s previous w in
  outcome (finalSnapshot s result) now previous result (view w) (view w').
Proof.
  intros Hok Hprev. unfold decideAndPersist. set (result := sv_rules _ _ _ _). cbn zeta.
  destruct (_ && negb (isRecovery result)) eqn:H1.
  { intros [= _ <-]. left. split; [done|]. left. apply andb_true_iff in H1 as [H1 ?%negb_true_iff].
    destruct previous as [p|]; [|done]. apply String.eqb_eq in H1. eauto. }
  destruct (_ && negb (isSome previous)) eqn:H2.
  { intros [= _ <-]. left. split; [done|]. right.
    apply andb_true_iff in H2 as [?%String.eqb_eq H2]. by destruct previous. }
  match goal with |- (if ?b then _ else _) = _ → _ => destruct b eqn:H3 end.
  { intros [= _ <-]. left. split; [done|]. right. apply andb_true_iff in H3 as [H3 ?%String.eqb_eq].
    split; [done|]. intros p ->. by apply String.eqb_eq in H3. }
  rewrite ebind_ok. intros ([] & w2 & Hp & [= _ <-]).
  apply persist_outcome in Hp as [_ Hp]; [|done|by rewrite finalSnapshot_source].
  destruct Hp as [(? & ? & ?)|?]; [|by right]. left. split; [done|]. by left.
Qed.

Lemma Reconcile_outcome key w obj w0 s x w' :
  store_ok w → sv_resolve (r_services r) key w = (Ok obj, w0) →
  sv_normalize (r_services r) obj (sv_now (r_services r) w0) = Ok s →
  Reconcile r key w = (Ok x, w') →
  let previous := v_incidents (view w) !! (r_clusterID r, IncidentKey (sn_Source s)) in
  ∃ w1, unchanged w w1 ∧
    let result := sv_rules (r_services r) s previous w1 in
    outcome (finalSnapshot s result) (sv_now (r_services r) w0) previous result (view w) (view w').
Proof.
  intros Hok Hres Hnorm. unfold Reconcile. destruct (negb _); [done|]. rewrite Hres, Hnorm.
  apply resolve_quiet in Hres as [Hok0 Hv0]; [|done]. unfold reconcileSnapshot.
  destruct (get_incident _ _ w0) as [y w1] eqn:Hg.
  apply get_incident_spec in Hg as [[Hok1 Hv1] Hg]; [|done].
  assert (Hv : view w1 = view w) by congruence. rewrite Hv0 in Hg.
  intros Hrun. exists w1. split; [by split|]. rewrite <- Hv.
  apply (decideAndPersist_outcome s _ _ w1 x w'); [done|done|]. rewrite Hv.
  destruct y as [p|e]; [by rewrite Hg|]. destruct (is_ErrNotFound e); [|done]. by rewrite Hg.
Qed.


(** *** What a commit leaves in the store *)

Definition notifies (status : IncidentStatus) (d : Decision) : bool :=
  (status =s? IncidentResolved) || (dec_Action d =s? ActionNotify) || (dec_Action d =s? ActionPage).

Lemma commit_at k p c s result d answers audit now w v' :
  store_ok w → v_incidents (view w) !! k = Some p →
  identityOf (evaluationOf r p s result d answers audit now) ∉ v_evaluated (view w) →
  commit_effect (commitRequest r p c s result d answers audit now) (view w) v' →
  v_incidents v' !! k = Some (advanced (observed p s (statusFor result) now) p) ∧
  v_outbox v' = enqueue None
    (deliveries r (observed p s (statusFor result) now) s
       (evl_ID (evaluationOf r p s result d answers audit now))
       (eventTypeOf c (statusFor result)) d (statusFor result) now) (v_outbox (view w)) ∧
  NoDup (map nt_ID (cr_Deliveries (commitRequest r p c s result d answers audit now))) ∧
  Forall (λ n, v_outbox (view w) !! nt_ID n = None)
    (cr_Deliveries (commitRequest r p c s result d answers audit now)).
Proof.
  intros Hok Hk Hnew He. inversion He as [Hin|k' old _ Hl Hid _ Hnd Hfresh]; subst; [done|].
  assert (k' = k) as -> by (by eapply incident_ids). rewrite Hk in Hl. injection Hl as <-.
  simpl. split_and!; [apply lookup_insert_eq|done|done|done].
Qed.

(** Every destination gets its own new pending notification. *)
Lemma enqueued_for_all i s e t d st now m :
  notifies st d = true →
  NoDup (map nt_ID (deliveries r i s e t d st now)) →
  Forall (λ n, m !! nt_ID n = None) (deliveries r i s e t d st now) →
  ∀ x, x ∈ r_destinations r → ∃ id dl,
    m !! id = None ∧ enqueue None (deliveries r i s e t d st now) m !! id = Some dl ∧
    d_status dl = NotificationPending ∧ nt_DestinationID (dl_Notification dl) = x ∧
    nt_EventType (dl_Notification dl) = t.
Proof.
  intros Hn Hnd Hnew x Hx.
  pose proof (deliveries_destinations r i s e t d st now) as Hd. unfold notifies in Hn. rewrite Hn in Hd.
  assert (Hin : (x, t) ∈ map (λ n, (nt_DestinationID n, nt_EventType n)) (deliveries r i s e t d st now))
    by (rewrite Hd; apply list_elem_of_fmap; eauto).
  apply list_elem_of_fmap in Hin as (n & [= Hx' Ht'] & Hn').
  exists (nt_ID n), (enqueued None n). rewrite Forall_forall in Hnew. split_and!.
  - by apply Hnew.
  - apply enqueue_lookup; [done|by apply Forall_forall|]. right. by exists n.
  - pose proof (deliveries_fresh r i s e t d st now) as Hf. rewrite Forall_forall in Hf.
    destruct (Hf n Hn') as [Hs _]. unfold d_status. simpl. by rewrite Hs.
  - done.
  - done.
Qed.

Lemma existing_committed p s result now v v' :
  committed s (Some p) result now v v' →
  ∃ d answers audit, decided s result d answers audit ∧
    commit_effect (commitRequest r p false s result d answers audit now) v v'.
Proof.
  intros (i & c & w1 & d & answers & audit & _ & Hst & Hd & He).
  remember (view w1) as v1. inversion Hst; subst. eauto.
Qed.

(** The identity of the evaluation that a snapshot of an incident leads to. *)
Definition identityFor (p : Incident) (s : Snapshot) (result : Result) : EvaluationIdentity :=
  {| id_IncidentID := inc_ID p; id_SnapshotHash := sn_ContentHash s;
     id_PolicyVersion := policyVersion r result; id_RubricVersion := res_QuestionSet result;
     id_ProviderConfigHash := r_providerConfigHash r |}.



(** A reconciliation whose evaluation is already on record changes nothing
    and reports success: in particular a resolved incident whose earlier
    content recurs stays resolved, and nobody is notified. *)
Theorem known_evaluation_is_silent key w obj w0 s p x w' :
  store_ok w → sv_resolve (r_services r) key w = (Ok obj, w0) →
  sv_normalize (r_services r) obj (sv_now (r_services r) w0) = Ok s →
  v_incidents (view w) !! (r_clusterID r, IncidentKey (sn_Source s)) = Some p →
  (∀ w1, unchanged w w1 →
     let result := sv_rules (r_services r) s (Some p) w1 in
     identityFor p (finalSnapshot s result) result ∈ v_evaluated (view w)) →
  Reconcile r key w = (Ok x, w') → view w' = view w.
Proof.
  intros Hok Hres Hnorm Hp Hknown. unfold Reconcile. destruct (negb _); [done|].
  rewrite Hres, Hnorm. apply resolve_quiet in Hres as [Hok0 Hv0]; [|done].
  unfold reconcileSnapshot. destruct (get_incident _ _ w0) as [y w1] eqn:Hg.
  apply get_incident_spec in Hg as [[Hok1 Hv1] Hg]; [|done].
  assert (Hv : view w1 = view w) by congruence. rewrite Hv0, Hp in Hg.
  destruct y as [p'|e]; [|destruct (is_ErrNotFound e); [by discriminate Hg|done]].
  injection Hg as <-. intros Hrun. specialize (Hknown w1 (conj Hok1 Hv)). rewrite <- Hv in Hp.
  pose proof (decideAndPersist_outcome s _ _ w1 x w' Hok1 Hp Hrun) as [[-> _]|Hc]; [done|].
  apply existing_committed in Hc as (d & answers & audit & Hd & He).
  rewrite Hv in He. by inversion He.
Qed.
End Alone.
End ReconcileLemmas.

(** ** Configuration, models and the sweeper *)

Lemma checkDestinations_ok l prev :
  StronglySorted String.le l → checkDestinations prev l = true →
  NoDup l ∧ Forall (λ x, blank x = false) l ∧
  match prev, l with Some p, x :: _ => x ≠ p | _, _ => True end.
Proof.
  revert prev. induction l as [|x l IH]; intros prev Hs; simpl.
  { intros _. split_and!; [constructor|constructor|by destruct prev]. }
  rewrite andb_true_iff, negb_true_iff, orb_false_iff. intros [[Hb Hp] Hrest].
  apply StronglySorted_inv in Hs as [Hs Hx]. destruct (IH (Some x) Hs Hrest) as (Hnd & Hall & Hne).
  split_and!.
  - constructor; [|done]. intros Hin. destruct l as [|y l]; [by apply elem_of_nil in Hin|].
    apply Hne. apply elem_of_cons in Hin as [->|Hin]; [done|].
    apply StronglySorted_inv in Hs as [_ Hy]. rewrite Forall_forall in Hy, Hx.
    apply (anti_symm String.le); [by apply Hy|]. apply Hx. left.
  - by constructor.
  - destruct prev as [p|]; [|done]. by apply String.eqb_neq in Hp.
Qed.

(** An accepted reconciler notifies each configured destination once: its
    destinations are exactly the configured ones, sorted, none blank and none
    repeated, so every order of the configuration gives the same reconciler. *)
Theorem newReconciler_destinations {W Obj} (c : ReconcilerConfig W Obj) r :
  NewReconciler c = Ok r →
  r_destinations r ≡ₚ rc_Destinations c ∧ StronglySorted String.le (r_destinations r) ∧
  NoDup (r_destinations r) ∧ Forall (λ x, blank x = false) (r_destinations r) ∧
  blank (r_clusterID r) = false ∧ 0 < r_timeout r ∧ 0 < r_eventQuietPeriod r.
Proof.
  unfold NewReconciler. destruct (rc_Resolver c), (rc_Normalizer c), (rc_Rules c); try done.
  rewrite fail_if_ok, orb_false_iff. intros [[Hc _] Hr].
  destruct (rc_Primary c), (rc_Now c), (rc_NewID c); try done.
  rewrite !fail_if_ok, orb_false_iff, negb_false_iff, !Z.leb_gt in Hr.
  destruct Hr as ([? ?] & Hd & [= <-]). simpl.
  pose proof (sort_strings_sorted (rc_Destinations c)) as Hs.
  destruct (checkDestinations_ok _ _ Hs Hd) as (? & ? & _).
  split_and!; [apply sort_slice_perm|done..].
Qed.

(** A provider cannot smuggle text into logs or the database through the
    model it claims to have used: what is kept is empty or exactly the resolved
    name, which then extends the requested name after a separator (or equals
    it), is at most 256 bytes long and consists of letters, digits and the five
    separators only. *)
Theorem trustedResolvedModel_safe requested resolved :
  trustedResolvedModel requested resolved = "" ∨
  trustedResolvedModel requested resolved = resolved ∧ len resolved ≤ 256 ∧
  all_chars model_char resolved = true ∧
  (resolved = requested ∨ ∃ sep, sep ∈ ["-"; "."; ":"; "/"] ∧
     has_prefix resolved (requested +:+ sep) = true).
Proof.
  unfold trustedResolvedModel. destruct (_ || (256 <? len resolved)) eqn:H1; [by left|].
  apply orb_false_iff in H1 as [_ Hl%Z.ltb_ge]. destruct (negb _) eqn:H2; [by left|].
  destruct (all_chars model_char resolved) eqn:H3; [|by left]. right. split_and!; [done..|].
  apply negb_false_iff, orb_true_iff in H2 as [H2%String.eqb_eq|H2]; [by left|]. right.
  apply existsb_exists in H2 as (sep & Hs & Hp). exists sep. by rewrite list_elem_of_In.
Qed.

(** A sweep re-queues exactly the open Event incidents of its own cluster,
    each under the key its resource is reconciled by. *)
Theorem sweep_keys_exact s incidents key :
  key ∈ sweepKeys s incidents ↔
  ∃ i, i ∈ incidents ∧ inc_ClusterID i = rs_clusterID s ∧
    equal_fold (src_Kind (inc_Source i)) "Event" = true ∧
    key = {| rk_Kind := "Event"; rk_Namespace := src_Namespace (inc_Source i);
             rk_Name := src_Name (inc_Source i); rk_UID := src_UID (inc_Source i) |}.
Proof.
  unfold sweepKeys. rewrite list_elem_of_fmap. setoid_rewrite list_elem_of_In.
  setoid_rewrite filter_In.
  setoid_rewrite negb_true_iff. setoid_rewrite orb_false_iff. setoid_rewrite negb_false_iff.
  setoid_rewrite String.eqb_eq. naive_solver.
Qed.

(** ** Scenarios *)

Module Scenario.
#[local] Existing Instance Memory.memory_driver.
#[local] Existing Instance range_in_order.

Definition noon : time := RulesWitness.noon.
Definition key : ResourceKey :=
  {| rk_Kind := "Deployment"; rk_Namespace := "shop"; rk_Name := "api"; rk_UID := "uid-9" |}.

(** A Deployment with [available] of three replicas since [since]. *)
Definition deployment (labels : gmap string string) (available : Z) (since : time) : Snapshot :=
  {| sn_Source := {| src_ClusterID := "c1"; src_APIVersion := "apps/v1"; src_Kind := "Deployment";
       src_Namespace := "shop"; src_Name := "api"; src_UID := "uid-9"; src_ResourceVersion := "1";
       src_Generation := 1; src_Owner := None |};
     sn_ObservedAt := noon; sn_Labels := labels;
     sn_Conditions := [{| cond_Type := "Available";
       cond_Status := if available =? 0 then "False" else "True"; cond_Reason := "";
       cond_Message := ""; cond_LastTransitionTime := since |}];
     sn_Containers := [];
     sn_Workload := Some {| wl_Desired := 3; wl_Current := 3; wl_Ready := available;
       wl_Available := available; wl_Updated := 3; wl_Unavailable := 3 - available |};
     sn_Job := None; sn_Event := None; sn_ContentHash := "" |}.

Definition services (object : option Snapshot) : Services Database Snapshot :=
  {| sv_resolve _ w := (match object with Some o => Ok o | None => Err ErrResourceNotFound end, w);
     sv_normalize s _ := Ok (sn_set_ContentHash (ContentHash s) s);
     sv_rules s previous _ := Evaluate RulesWitness.opts RulesWitness.clock s previous;
     sv_now _ := noon; sv_newID := StableID; sv_marshal _ := None |}.

Definition reconciler (object : option Snapshot) : Reconciler Database Snapshot :=
  {| r_clusterID := "c1"; r_services := services object;
     r_primary := {| pv_Name := "p"; pv_Evaluate _ w := (Err "unavailable", w) |};
     r_fallback := None; r_composer := NewComposer; r_providerConfigHash := "h";
     r_destinations := ["ops"]; r_timeout := second; r_eventQuietPeriod := 600 * second |}.

Definition run (object : option Snapshot) (w : Database) : option Database :=
  match Reconcile (reconciler object) key w with (Ok _, w) => Some w | _ => None end.

Definition empty : Database :=
  {| db_incidents := []; db_snapshots := []; db_evaluations := []; db_outbox := [] |}.

(** The statuses of the incidents and the types of the enqueued events. *)
Definition summary (w : Database) : list IncidentStatus * list string :=
  (map ind_Status (db_incidents w), map obd_EventType (db_outbox w)).

Definition outage (since : time) : option Snapshot := Some (deployment ∅ 0 since).
Definition healthy : option Snapshot := Some (deployment ∅ 3 noon).

Lemma empty_ok : store_ok empty.
Proof. split; constructor. Qed.
End Scenario.

(** An outage opens an incident and notifies, its end resolves it and
    notifies; but when the same outage recurs later, the reconciliation
    succeeds, the rule engine pages, and yet the incident stays resolved and
    nobody is notified: the evaluation of the first outage has the same
    identity, because times are no part of the content hash. *)
Theorem recurring_outage_is_lost :
  ∃ w1 w2 w3,
    Scenario.run (Scenario.outage (Scenario.noon - 500 * second)) Scenario.empty = Some w1 ∧
    Scenario.run Scenario.healthy w1 = Some w2 ∧
    Scenario.run (Scenario.outage (Scenario.noon - 90 * second)) w2 = Some w3 ∧
    Scenario.summary w1 = ([IncidentOpen], [eventOpened]) ∧
    Scenario.summary w2 = ([IncidentResolved], [eventOpened; eventResolved]) ∧
    Scenario.summary w3 = ([IncidentResolved], [eventOpened; eventResolved]) ∧
    ∀ previous, dec_Action <$> res_Decision (Evaluate RulesWitness.opts RulesWitness.clock
      (Scenario.deployment ∅ 0 (Scenario.noon - 90 * second)) previous) = Some ActionPage.
Proof.
  eexists _, _, _. split; [vm_compute; reflexivity|]. split; [vm_compute; reflexivity|].
  split; [vm_compute; reflexivity|]. split_and!; [vm_compute; reflexivity..|].
  intros previous. vm_compute. reflexivity.
Qed.

(** A resource that was ignored and is observed healthy after the operator
    stops ignoring it raises a false alarm: no rule matches, yet the suppressed
    incident becomes open and a notification asks for manual triage. *)
Theorem unsuppressed_healthy_resource_alerts :
  ∃ w1 w2,
    Scenario.run (Some (Scenario.deployment {["raven" := "off"]} 0 (Scenario.noon - 500 * second)))
      Scenario.empty = Some w1 ∧
    Scenario.run Scenario.healthy w1 = Some w2 ∧
    Scenario.summary w1 = ([IncidentSuppressed], []) ∧
    Scenario.summary w2 = ([IncidentOpen], [eventUpdated]) ∧
    allMatches RulesWitness.opts RulesWitness.clock (Scenario.deployment ∅ 3 Scenario.noon) = [].
Proof.
  eexists _, _. split; [vm_compute; reflexivity|]. split; [vm_compute; reflexivity|].
  split_and!; vm_compute; reflexivity.
Qed.

(** *** Witnesses *)

Module ReconcilerWitness.
#[local] Existing Instance Memory.memory_driver.
#[local] Existing Instance range_in_order.

Definition first : option Snapshot := Scenario.outage (Scenario.noon - 500 * second).
Definition again : option Snapshot := Scenario.outage (Scenario.noon - 90 * second).
Definition after (object : option Snapshot) (w : Database) : Database :=
  (Reconcile (Scenario.reconciler object) Scenario.key w).2.
Definition opened : Database := after first Scenario.empty.
Definition afterRecovery : Database := after Scenario.healthy opened.

Lemma provider_is_quiet object p q w x w' :
  p = r_primary (Scenario.reconciler object) ∨ r_fallback (Scenario.reconciler object) = Some p →
  store_ok w → pv_Evaluate p q w = (x, w') → unchanged w w'.
Proof. intros [->|[=]] Hok [= _ <-]. by split. Qed.

Lemma resolver_is_quiet object key w x w' :
  store_ok w → sv_resolve (r_services (Scenario.reconciler object)) key w = (x, w') → unchanged w w'.
Proof. intros Hok [= _ <-]. by split. Qed.

(** Decided by evaluation. *)
Lemma database_ok_decide d :
  bool_decide (NoDup (map ind_ID (db_incidents d))) &&
  bool_decide (NoDup (map incidentDocument_key (db_incidents d))) &&
  bool_decide (NoDup (map obd_ID (db_outbox d))) = true → store_ok d.
Proof. rewrite !andb_true_iff, !bool_decide_eq_true. intros [[? ?] ?]. by split. Qed.

Lemma opened_ok : store_ok opened.
Proof. apply database_ok_decide. vm_compute. reflexivity. Qed.
Lemma recovered_ok : store_ok afterRecovery.
Proof. apply database_ok_decide. vm_compute. reflexivity. Qed.

Definition requeue : ReconcileResult := {| RequeueAfter := 0 |}.
Lemma opens : Reconcile (Scenario.reconciler first) Scenario.key Scenario.empty = (Ok requeue, opened).
Proof. vm_compute. reflexivity. Qed.
Lemma deletes : Reconcile (Scenario.reconciler None) Scenario.key opened = (Ok requeue, after None opened).
Proof. vm_compute. reflexivity. Qed.
Lemma recurs : Reconcile (Scenario.reconciler again) Scenario.key afterRecovery
  = (Ok requeue, after again afterRecovery).
Proof. vm_compute. reflexivity. Qed.

(** The resolved incident, and that the recurring content was evaluated before. *)
Definition snapshot : Snapshot :=
  let s := Scenario.deployment ∅ 0 (Scenario.noon - 90 * second) in
  sn_set_ContentHash (ContentHash s) s.
Definition state : StoreState Database := @incident_state Database mongo_incidents.
Definition place : string * string :=
  (r_clusterID (Scenario.reconciler again), IncidentKey (sn_Source snapshot)).
Definition previous : Incident :=
  default (newIncident (Scenario.reconciler again) snapshot Scenario.noon)
    (v_incidents (@view _ state afterRecovery) !! place).
Lemma previous_stored : v_incidents (@view _ state afterRecovery) !! place = Some previous.
Proof. vm_compute. reflexivity. Qed.
Lemma evaluated_before :
  let result := sv_rules (r_services (Scenario.reconciler again)) snapshot (Some previous) afterRecovery in
  identityFor (Scenario.reconciler again) previous (finalSnapshot snapshot result) result
  ∈ v_evaluated (@view _ state afterRecovery).
Proof. apply (bool_decide_unpack _). vm_compute. exact I. Qed.

Lemma decided_pages (r : Reconciler Database Snapshot) s result d answers audit :
  res_Disposition result = DispositionTerminal →
  dec_Action <$> res_Decision result = Some ActionPage →
  decided r s result d answers audit → dec_Action d = ActionNotify ∨ dec_Action d = ActionPage.
Proof.
  intros Hdisp Hact Hd. apply fmap_Some in Hact as (d' & Hd' & Ha). right.
  destruct Hd as [err Hc|? ? ? ? ? Hs _ _ _ _ _ _]; [|rewrite Hs in Hdisp; discriminate Hdisp].
  unfold Compose in Hc. rewrite Hdisp, Hd' in Hc. cbn in Hc. injection Hc as <-. symmetry. exact Ha.
Qed.

(** The first outage, its matches and its decision. *)
Definition outage : Snapshot :=
  let s := Scenario.deployment ∅ 0 (Scenario.noon - 500 * second) in
  sn_set_ContentHash (ContentHash s) s.
Definition outage_result : Result :=
  Evaluate RulesWitness.opts RulesWitness.clock outage None.
Lemma outage_matches : res_Disposition outage_result ≠ DispositionNoMatch.
Proof. vm_compute. discriminate. Qed.
Lemma outage_is_no_recovery : isRecovery outage_result = false.
Proof. vm_compute. reflexivity. Qed.
Lemma outage_pages d answers audit :
  decided (Scenario.reconciler first) outage outage_result d answers audit →
  dec_Action d = ActionNotify ∨ dec_Action d = ActionPage.
Proof.
  apply decided_pages; vm_compute; reflexivity.
Qed.

Definition config : ReconcilerConfig Database Snapshot :=
  {| rc_ClusterID := "c1"; rc_Resolver := Some (sv_resolve (Scenario.services None));
     rc_Normalizer := Some (sv_normalize (Scenario.services None));
     rc_Rules := Some (sv_rules (Scenario.services None)); rc_HasStore := true;
     rc_Now := Some (λ _, Scenario.noon); rc_NewID := Some StableID; rc_Marshal _ := None;
     rc_Primary := Some (r_primary (Scenario.reconciler None)); rc_Fallback := None;
     rc_Composer := NewComposer; rc_ProviderConfigHash := "h"; rc_Destinations := ["pager"; "ops"];
     rc_ReconcileTimeout := second; rc_EventQuietPeriod := second |}.
End ReconcilerWitness.



Lemma known_evaluation_is_silent_witness :
  let _ := Memory.memory_driver in
  view (ReconcilerWitness.after ReconcilerWitness.again ReconcilerWitness.afterRecovery)
  = view ReconcilerWitness.afterRecovery.
Proof.
  intros D.
  exact (known_evaluation_is_silent (H := range_in_order) (H0 := mongo_incidents)
    (Scenario.reconciler ReconcilerWitness.again)
    (ReconcilerWitness.provider_is_quiet _) (ReconcilerWitness.resolver_is_quiet _)
    Scenario.key ReconcilerWitness.afterRecovery
    (Scenario.deployment ∅ 0 (Scenario.noon - 90 * second)) ReconcilerWitness.afterRecovery
    ReconcilerWitness.snapshot ReconcilerWitness.previous _ _
    ReconcilerWitness.recovered_ok eq_refl eq_refl
    ReconcilerWitness.previous_stored (λ w1 _, ReconcilerWitness.evaluated_before)
    ReconcilerWitness.recurs).
Defined.

Lemma newReconciler_destinations_witness :
  ∃ r, NewReconciler ReconcilerWitness.config = Ok r ∧ r_destinations r ≡ₚ ["pager"; "ops"] ∧
    NoDup (r_destinations r).
Proof.
  assert (Hok : is_ok (NewReconciler ReconcilerWitness.config) = true) by (vm_compute; reflexivity).
  destruct (NewReconciler ReconcilerWitness.config) as [r|e] eqn:Hr; [|discriminate Hok].
  exists r. destruct (newReconciler_destinations ReconcilerWitness.config r Hr) as (? & _ & ? & _).
  auto.
Defined.

