(* ===== verification/System.v ===== *)
(** * The system: reconcilers and dispatchers over one MongoDB store

    The processes of the application share nothing but the database.  Here any
    number of reconcilers and dispatcher workers run over the MongoDB store of
    [Mongo]; before every store operation, and while the API server, a provider,
    a clock or a notifier is asked, the rest of the system may interfere
    ([noise] and the [env] conditions), for instance other replicas of the same
    processes or the expiry of documents.  The guarantees of the outbox protocol
    then hold for what the processes of the program do. *)
From S2P Require Import Prelude GoBase Domain Rules Provider Decision Store.
From S2P Require Import Documents Driver Mongo Contract MongoRefinement Outbox.
From S2P Require Import Fingerprint Kube Dispatcher Reconciler.

Section System.
Context {W Obj : Type} `{Driver W} `{MapRange} (noise : W → W) (ctx_err : W → option string).

(** Some processes: a queued key is reconciled, or a dispatcher worker runs for
    some rounds. *)
Inductive process :=
  | reconciling (r : Reconciler W Obj) (key : ResourceKey)
  | dispatching (d : Dispatcher W) (rounds : nat).

Definition run (w : W) (p : process) : W :=
  match p with
  | reconciling r key => (Reconcile (H := noisy_incidents noise) r key w).2
  | dispatching d rounds => (workerLoop (H := noisy_outbox noise) ctx_err d rounds w).2
  end.

(** The world behaves: whatever changes the outbox while a process waits for
    the API server, a provider, its clock or a notifier, follows the
    protocol. *)
Definition behaves (p : process) : Prop :=
  match p with
  | reconciling r _ =>
      (∀ q request w x w', q = r_primary r ∨ r_fallback r = Some q →
         store_ok w → pv_Evaluate q request w = (x, w') → env w w') ∧
      (∀ key w x w', store_ok w → sv_resolve (r_services r) key w = (x, w') → env w w')
  | dispatching d _ =>
      (∀ w t w', store_ok w → dp_now d w = (t, w') → env w w') ∧
      (∀ name n e w x w', dp_notifiers d !! name = Some n →
         store_ok w → nf_Deliver n e w = (x, w') → env w w')
  end.

Hypothesis noise_env : ∀ w, store_ok w → env w (noise w).

Lemma run_env p w : behaves p → store_ok w → env w (run w p).
Proof.
  intros Hb Hok. destruct p as [r key|d rounds]; destruct Hb as [H1 H2]; simpl.
  - destruct (Reconcile (H := noisy_incidents noise) r key w) as [x w'] eqn:Hr.
    pose (shared_incidents noise noise_env) as Hshared.
    apply (Reconcile_env (SharedIncidents0 := Hshared) r) in Hr; [done..|done].
  - destruct (workerLoop (H := noisy_outbox noise) ctx_err d rounds w) as [x w'] eqn:Hl.
    pose (shared_outbox noise noise_env) as Hshared.
    apply (workerLoop_env (SharedOutbox0 := Hshared) ctx_err d) in Hl; done.
Qed.

Lemma runs_env ps w : Forall behaves ps → store_ok w → env w (fold_left run ps w).
Proof.
  intros Hb. revert w. induction Hb as [|p ps Hp _ IH]; intros w Hok; simpl; [by apply env_refl|].
  pose proof (run_env p w Hp Hok) as He. eapply env_trans; [done|]. apply IH. by destruct He.
Qed.

(** C1: the system never loses or corrupts a notification.  Start from a store
    whose outbox was filled by the program (for instance an empty one), run any
    reconcilers and dispatcher workers in any order, with interference at every
    store operation and outside call.  Then every delivery is well formed; and
    a notification that was in the outbox at an earlier moment is still there
    with the same message, or was delivered or failed for good in between. *)
Theorem system_never_loses before after w id d :
  store_ok w → reachable (v_outbox (view w)) → Forall behaves before → Forall behaves after →
  let w1 := fold_left run before w in
  let w2 := fold_left run after w1 in
  map_Forall (λ _ d, delivery_wf d) (v_outbox (view w2)) ∧
  (v_outbox (view w1) !! id = Some d →
   (∃ d', v_outbox (view w2) !! id = Some d' ∧ same_message d d' ∧ d_attempts d ≤ d_attempts d') ∨
   (∃ m d', rtc outbox_step (v_outbox (view w1)) m ∧ rtc outbox_step m (v_outbox (view w2)) ∧
            m !! id = Some d' ∧ same_message d d' ∧ final d')).
Proof.
  intros Hok Hr Hb1 Hb2 w1 w2.
  destruct (runs_env before w Hb1 Hok) as [Hok1 Hs1]. fold w1 in Hok1, Hs1.
  destruct (runs_env after w1 Hb2 Hok1) as [Hok2 Hs2]. fold w2 in Hok2, Hs2.
  assert (Hr1 : reachable (v_outbox (view w1))) by (unfold reachable in *; by etrans).
  assert (Hr2 : reachable (v_outbox (view w2)))
    by (unfold reachable in *; by etrans).
  split; [by apply reachable_wf|]. intros Hl. by apply outbox_keeps.
Qed.
End System.

(** ** Witness: an outage is reconciled, then a worker dispatches *)

Module SystemWitness.
#[local] Existing Instance Memory.memory_driver.
#[local] Existing Instance range_in_order.

Definition before : list (process (W := Database) (Obj := Snapshot)) :=
  [reconciling (Scenario.reconciler ReconcilerWitness.first) Scenario.key].
Definition after : list (process (W := Database) (Obj := Snapshot)) :=
  [dispatching DispatcherWitness.dispatcher 2].

Lemma before_behaves : Forall behaves before.
Proof.
  apply Forall_singleton. split; intros; apply unchanged_env.
  - by eapply ReconcilerWitness.provider_is_quiet.
  - by eapply ReconcilerWitness.resolver_is_quiet.
Qed.
Lemma after_behaves : Forall behaves after.
Proof.
  apply Forall_singleton. split; intros; apply unchanged_env.
  - by eapply DispatcherWitness.now_quiet.
  - by eapply DispatcherWitness.deliver_quiet.
Qed.
Lemma silence (w : Database) : store_ok w → env w w.
Proof. apply env_refl. Qed.
Lemma empty_reachable : reachable (v_outbox (view Scenario.empty)).
Proof. constructor. Qed.
End SystemWitness.

Lemma system_never_loses_witness :
  let _ := Memory.memory_driver in
  let w1 := fold_left (run (H0 := range_in_order) id DispatcherWitness.no_end)
    SystemWitness.before Scenario.empty in
  let w2 := fold_left (run (H0 := range_in_order) id DispatcherWitness.no_end)
    SystemWitness.after w1 in
  map_Forall (λ _ d, delivery_wf d) (v_outbox (view w2)).
Proof.
  intros D.
  exact (proj1 (system_never_loses (H0 := range_in_order) id DispatcherWitness.no_end
    SystemWitness.silence SystemWitness.before SystemWitness.after Scenario.empty "d1"
    OutboxWitness.pending Scenario.empty_ok SystemWitness.empty_reachable
    SystemWitness.before_behaves SystemWitness.after_behaves)).
Defined.
