(* ===== verification/Notices.v ===== *)
(** * Notifications from the reconciler to the webhook

    The reconciler encodes a payload and stores it in the outbox, the
    dispatcher wraps it in an envelope, the webhook encodes the envelope: the
    three agree on the JSON they exchange. *)
From S2P Require Import Prelude GoBase Domain Sha256 Json JsonParse JsonDecode Schema Fingerprint Notifier Dispatcher Webhook Reconciler.

(** The value a payload encodes. *)
Definition payload_value (incidentID evaluationID : string) (status : IncidentStatus) (d : Decision)
    (s : Snapshot) : json :=
  JObject
    [("incident_id", JString incidentID); ("evaluation_id", JString evaluationID);
     ("status", JString status); ("severity", JString (dec_Severity d));
     ("action", JString (dec_Action d)); ("summary", JString (dec_Summary d));
     ("resource", source_json (sn_Source s)); ("rule_ids", strings (dec_RuleIDs d));
     ("reason_codes", strings (dec_ReasonCodes d)); ("observed_at", JTime (sn_ObservedAt s))].

Lemma bounded_string_field n k v : Forall (λ kv, bounded n kv.2) (string_field k v).
Proof. apply Forall_singleton, bounded_JString. Qed.
Lemma bounded_omitempty n k v : Forall (λ kv, bounded n kv.2) (string_omitempty k v).
Proof. unfold string_omitempty, field_if. destruct (negb _); [apply bounded_string_field|apply Forall_nil_2]. Qed.

Lemma bounded_owner o : bounded 1 (owner_json o).
Proof.
  apply bounded_fields. repeat (apply Forall_app_2);
    auto using bounded_string_field, bounded_omitempty.
Qed.
Lemma bounded_source s : bounded 2 (source_json s).
Proof.
  apply bounded_fields. repeat (apply Forall_app_2);
    try (apply bounded_string_field || apply bounded_omitempty).
  - unfold field_if. destruct (negb _); [apply Forall_singleton, bounded_JInt|apply Forall_nil_2].
  - unfold opt_field. destruct (src_Owner s); [|apply Forall_nil_2]. apply Forall_singleton, bounded_owner.
Qed.
Lemma bounded_payload i e status d s : bounded 3 (payload_value i e status d s).
Proof.
  pose proof (bounded_source (sn_Source s)).
  pose proof (λ l, bounded_mono 1 2 _ (bounded_strings l) ltac:(lia)).
  pose proof (λ v, bounded_JString 2 v).
  apply bounded_fields. repeat (apply Forall_cons_2; [cbn [snd]; first [done|apply H1]|]). apply Forall_nil_2.
Qed.

Lemma payload_valid i e status d s :
  parse_one (payload i e status d s) = Some (sanitize (payload_value i e status d s)) ∧
  json_valid (payload i e status d s) = true ∧ 0 < len (payload i e status d s).
Proof.
  destruct (bounded_payload i e status d s) as [Hw Hn].
  assert (Hp : parse_one (payload i e status d s) = Some (sanitize (payload_value i e status d s)))
    by (apply parse_print; [done|unfold max_nesting; lia]).
  split_and!; [done|by eapply parse_valid|]. unfold len.
  assert (Hempty : parse_one "" = None) by done.
  destruct (payload i e status d s) eqn:He; [congruence|simpl; lia].
Qed.

Lemma StableID_not_blank seed : blank (StableID seed) = false.
Proof.
  unfold StableID. pose proof (length_hex_encode (sha256 seed)) as Hl.
  assert (Hne : String.length (sha256 seed) ≠ 0%nat) by (by rewrite length_sha256).
  destruct (sha256 seed) as [|c r]; [done|]. cbn [hex_encode]. apply visible_not_blank.
  clear. destruct c as [[] [] [] [] [] [] [] []]; vm_compute; split; congruence.
Qed.

Section Notices.
Context {W Obj : Type} (r : Reconciler W Obj).

(** What the reconciler enqueues, the dispatcher and the webhook can send.
    The payload of every notification it creates is valid JSON that reads back
    as the decision it reports; with the identifiers of production the
    dispatcher builds an envelope around it unchanged, and the webhook encodes
    that envelope, so no notification is dropped as malformed. *)
Theorem notices_deliverable incident s evaluationID eventType d status now n clusterID at_ :
  sv_newID (r_services r) = StableID → eventType ∈ [eventOpened; eventUpdated; eventResolved] →
  blank clusterID = false → is_zero at_ = false → time_marshals at_ = true →
  n ∈ deliveries r incident s evaluationID eventType d status now →
  parse_one (nt_Payload n) = Some (sanitize (payload_value (inc_ID incident) evaluationID status d s)) ∧
  ∃ e body, NewEnvelope (nt_ID n) (nt_EventType n) clusterID at_ (nt_Payload n) = Ok e ∧
    env_Data e = nt_Payload n ∧ env_ID e = nt_ID n ∧ marshalEnvelope e = Some body.
Proof.
  intros Hid Het Hc Hz Ht. unfold deliveries. destruct (_ && _); [by intros ?%elem_of_nil|].
  rewrite list_elem_of_fmap. intros (destination & -> & _). cbn [nt_Payload nt_ID nt_EventType].
  destruct (payload_valid (inc_ID incident) evaluationID status d s) as (Hp & Hv & Hl).
  split; [done|]. unfold NewEnvelope.
  assert (Hb : blank eventType = false).
  { rewrite !elem_of_cons, elem_of_nil in Het. destruct Het as [->|[->|[->|[]]]]; by vm_compute. }
  rewrite Hid, StableID_not_blank, Hb, Hc, Hz, Hv. rewrite (proj2 (Z.eqb_neq _ 0)) by lia.
  eexists _, _. split; [done|]. split_and!; [done|done|]. unfold marshalEnvelope. cbn [env_Time env_Data].
  by rewrite Ht, Hv.
Qed.
End Notices.

(** ** Witness: the notification of the first outage of the scenario *)

Module NoticesWitness.
Definition snapshot : Snapshot := Scenario.deployment ∅ 0 (Scenario.noon - 500 * second).
Definition decision : Decision :=
  {| dec_Severity := SeverityCritical; dec_Action := ActionPage; dec_Summary := "<down>";
     dec_RuleIDs := ["workload-unavailable"]; dec_ReasonCodes := ["Unavailable"] |}.
Definition incident : Incident := newIncident (Scenario.reconciler None) snapshot Scenario.noon.
Definition notices : list Notification :=
  deliveries (Scenario.reconciler None) incident snapshot "e1" eventOpened decision IncidentOpen Scenario.noon.
Definition notice : Notification := {|
  nt_ID := StableID (join_nul ["delivery"; "e1"; "ops"; eventOpened]); nt_EvaluationID := "e1";
  nt_DestinationID := "ops"; nt_EventType := eventOpened; nt_Status := NotificationPending;
  nt_Attempts := 0; nt_NextAttemptAt := Scenario.noon;
  nt_Payload := payload (inc_ID incident) "e1" IncidentOpen decision snapshot |}.
End NoticesWitness.

Lemma notices_deliverable_witness :
  NoticesWitness.notice ∈ NoticesWitness.notices ∧
  ∃ e body, NewEnvelope (nt_ID NoticesWitness.notice) eventOpened "c1" Scenario.noon
      (nt_Payload NoticesWitness.notice) = Ok e ∧ marshalEnvelope e = Some body.
Proof.
  assert (Hin : NoticesWitness.notice ∈ NoticesWitness.notices) by apply list_elem_of_here.
  split; [exact Hin|].
  destruct (notices_deliverable (Scenario.reconciler None) NoticesWitness.incident NoticesWitness.snapshot "e1"
    eventOpened NoticesWitness.decision IncidentOpen Scenario.noon NoticesWitness.notice "c1" Scenario.noon
    eq_refl (list_elem_of_here _ _) ltac:(vm_compute; reflexivity) ltac:(vm_compute; reflexivity)
    ltac:(vm_compute; reflexivity) Hin) as [_ (e & body & He & _ & _ & Hm)].
  exists e, body. split; [exact He|exact Hm].
Defined.
