(* ===== verification/Receiver.v ===== *)
(** * [cmd/smoke-webhook]: the webhook receiver

    The receiver checks what the webhook notifier sends: this is the other end
    of a delivery.  [mime.ParseMediaType] is a parameter; [readFails] says
    whether reading the body of a request ends with an error. *)
From stdpp Require Import pretty.
From S2P Require Import Prelude GoBase Sha256 Json GoNet JsonParse JsonDecode JsonCompact Schema Domain Fingerprint Signing Notifier Dispatcher Webhook Reconciler Notices.

Definition maxRequestBytes : Z := 2 ^ 20.

Record receiver := { rv_secret : string; rv_window : duration; rv_seen : gset string }.
Definition newReceiver (secret : string) (window : duration) : receiver :=
  {| rv_secret := secret; rv_window := window; rv_seen := ∅ |}.

(** [time.Unix(seconds, 0)]: the addition of the epoch wraps around. *)
Definition time_unix (seconds : Z) : time := wrap64 (seconds + 62135596800) * second.

Definition validTimestamp (r : receiver) (now : time) (raw : string) : option time :=
  match parse_int raw with
  | None => None
  | Some seconds =>
      if rv_window r <=? 0 then None else
      let timestamp := time_unix seconds in
      let delta := time_sub now timestamp in
      let delta := if delta <? 0 then wrap64 (- delta) else delta in
      if delta <=? rv_window r then Some timestamp else None
  end.

(** [io.ReadAll(io.LimitReader(body, n))]. *)
Definition readBody (n : Z) (body : string) (readFails : bool) : option string :=
  if n <=? len body then Some (str_take (Z.to_nat n) body)
  else if readFails then None else Some body.

(** The two fields of the envelope that are decoded. *)
Definition envelopeDecoder : decoder (string * string) :=
  dec_struct false [dec_field "specversion" fst (λ v p, (v, p.2)) dec_string;
                    dec_field "id" snd (λ v p, (p.1, v)) dec_string].

Record reply := { rp_Status : Z; rp_Message : string }.
Definition http_error (message : string) (status : Z) : reply := {| rp_Status := status; rp_Message := message |}.
Definition write_header (status : Z) : reply := {| rp_Status := status; rp_Message := "" |}.

Section ServeHTTP.
Context (parse_media_type : string → option string).

(** The checks of [ServeHTTP], in their order: the ID of the event, or the
    answer that refuses the request. *)
Definition checkRequest (r : receiver) (now : time) (request : Request) (readFails : bool)
    : result reply string :=
  fail_if! rq_Method request ≠s? "POST" with http_error "method not allowed" 405;
  fail_if! negb (bool_decide (parse_media_type (header_get "Content-Type" (rq_Header request))
                              = Some "application/cloudevents+json"))
    with http_error "unsupported content type" 415;
  match validTimestamp r now (header_get headerTimestamp (rq_Header request)) with
  | None => Err (http_error "invalid webhook authentication" 401)
  | Some timestamp =>
      match readBody (maxRequestBytes + 1) (rq_Body request) readFails with
      | None => Err (http_error "invalid request body" 400)
      | Some body =>
          fail_if! maxRequestBytes <? len body with http_error "invalid request body" 400;
          let signature := header_get headerSignature (rq_Header request) in
          fail_if! negb (has_prefix signature "v1=")
                   || negb (Verify (rv_secret r) timestamp body (str_drop 3 signature))
            with http_error "invalid webhook authentication" 401;
          match decode envelopeDecoder ("", "") body with
          | None => Err (http_error "invalid CloudEvent" 400)
          | Some (specVersion, id) =>
              fail_if! (specVersion ≠s? CloudEventsSpecVersion) || blank id
                with http_error "invalid CloudEvent" 400;
              let eventID := header_get headerEventID (rq_Header request) in
              fail_if! (eventID =s? "") || (eventID ≠s? id) with http_error "event ID mismatch" 400;
              Ok id
          end
      end
  end.

Definition ServeHTTP (r : receiver) (now : time) (request : Request) (readFails : bool)
    : reply * receiver :=
  match checkRequest r now request readFails with
  | Err refused => (refused, r)
  | Ok id =>
      if bool_decide (id ∈ rv_seen r) then (write_header 208, r)
      else (write_header 204,
            {| rv_secret := rv_secret r; rv_window := rv_window r; rv_seen := {[ id ]} ∪ rv_seen r |})
  end.
End ServeHTTP.

(** ** Numbers *)

Lemma digit_char x : (x < 10)%N → is_digit (pretty_N_char x) = true ∧ code (pretty_N_char x) - 48 = Z.of_N x.
Proof.
  intros Hx. assert (Hin : x ∈ [0; 1; 2; 3; 4; 5; 6; 7; 8; 9]%N) by (rewrite !elem_of_cons; lia).
  rewrite !elem_of_cons, elem_of_nil in Hin. by destruct Hin as [->|[->|[->|[->|[->|[->|[->|[->|[->|[->|[]]]]]]]]]]].
Qed.
Lemma decimal_pretty_go x s : decimal 0 (pretty_N_go x s) = decimal (Z.of_N x) s.
Proof.
  revert s. induction (N.lt_wf_0 x) as [x _ IH]. intros s. destruct (N.eq_dec x 0) as [->|Hx].
  { by rewrite pretty_N_go_0. }
  rewrite pretty_N_go_step by lia. rewrite IH by (apply N.div_lt; lia).
  destruct (digit_char (x `mod` 10)) as [Hd Hc]; [apply N.mod_lt; lia|]. cbn [decimal]. rewrite Hd, Hc.
  f_equal. pose proof (N.div_mod x 10 ltac:(lia)). lia.
Qed.
Lemma parse_uint_pretty n : parse_uint (pretty n) = Some (Z.of_N n).
Proof.
  assert (Hd : decimal 0 (pretty n) = Some (Z.of_N n)).
  { unfold pretty, pretty_N. case_decide as Hn; [by rewrite Hn|]. by rewrite decimal_pretty_go. }
  unfold parse_uint. destruct (pretty n =s? "") eqn:He; [|done]. apply String.eqb_eq in He.
  unfold pretty, pretty_N in He. case_decide as Hn; [done|].
  destruct (pretty_N_go_digits n "" eq_refl ltac:(lia)) as (c & r & Hc & _). congruence.
Qed.
Lemma parse_int_format z : is_int64 z → parse_int (format_int z) = Some z.
Proof.
  intros [Hlo Hhi]. unfold format_int.
  assert (Hz : (int64_min <=? z) && (z <=? int64_max) = true) by (rewrite andb_true_iff, !Z.leb_le; lia).
  destruct z as [|p|p]; [done|..].
  - change (pretty (Z.pos p)) with (pretty (N.pos p)). unfold parse_int.
    assert (Hp : parse_uint (pretty (N.pos p)) = Some (Z.pos p)) by apply parse_uint_pretty.
    unfold pretty, pretty_N in *. case_decide as Hn; [done|].
    destruct (pretty_N_go_digits (N.pos p) "" eq_refl ltac:(lia)) as (c & r & Hc & Hr & _).
    rewrite Hc in *. rewrite !(proj2 (Z.eqb_neq (code c) _)) by lia. rewrite Hp. cbn [mbind option_bind]. by rewrite Hz.
  - change (pretty (Z.neg p)) with ("-" +:+ pretty (N.pos p)). unfold parse_int.
    change ("-" +:+ ?s) with (String "-"%char s). cbv beta iota.
    change (code "-" =? 43) with false. change (code "-" =? 45) with true. cbv iota.
    rewrite parse_uint_pretty. cbn [mbind option_bind]. change (- Z.of_N (N.pos p)) with (Z.neg p). by rewrite Hz.
Qed.

(** ** The encoded envelope *)

Definition envelope_value (e : Envelope) (data : json) : json :=
  JObject [("specversion", JString (env_SpecVersion e)); ("id", JString (env_ID e));
           ("source", JString (env_Source e)); ("type", JString (env_Type e));
           ("time", JTime (env_Time e)); ("datacontenttype", JString (env_DataContentType e));
           ("ruleravenschema", JString (env_SchemaVersion e)); ("data", data)].

Lemma marshal_envelope_value e data body :
  env_Data e = json_print data → json_wf data = true → marshalEnvelope e = Some body →
  body = json_print (envelope_value e data).
Proof.
  intros Hd Hw. unfold marshalEnvelope. destruct (_ && _); [|done]. intros [= <-].
  rewrite Hd, compact_printed by done. unfold envelope_value. cbn [json_print map join fst snd].
  unfold json_field. cbn [fst snd]. by rewrite !str_app_assoc.
Qed.

Lemma envelope_decodes e data n :
  bounded n data → Z.of_nat n < max_nesting → to_valid (env_SpecVersion e) = env_SpecVersion e →
  to_valid (env_ID e) = env_ID e →
  decode envelopeDecoder ("", "") (json_print (envelope_value e data)) = Some (env_SpecVersion e, env_ID e).
Proof.
  intros Hb Hn Hs Hi. unfold decode.
  assert (He : bounded (S n) (envelope_value e data)).
  { apply bounded_fields. repeat (apply Forall_cons_2; [cbn [snd]; first [done|apply bounded_JString]|]).
    apply Forall_nil_2. }
  destruct He as [Hw Hne]. rewrite parse_print by (done || lia).
  cbn [mbind option_bind envelope_value sanitize map fst snd]. rewrite Hs, Hi. reflexivity.
Qed.

(** ** What the notifier sends is accepted *)

(** The instant a time stamp header stands for. *)
Definition whole_second (t : time) : time := unix_epoch + unix t * second.

Lemma time_unix_unix t : 0 ≤ t < 2 ^ 62 * second → time_unix (unix t) = whole_second t ∧ is_int64 (unix t).
Proof.
  intros Ht. unfold time_unix, whole_second, unix_epoch, second in *. unfold unix, unix_epoch.
  pose proof (Z.div_pos t (10 ^ 9) ltac:(lia) ltac:(lia)) as H0.
  pose proof (Z.div_lt_upper_bound t (10 ^ 9) (2 ^ 62) ltac:(lia) ltac:(lia)) as H1.
  replace (t - 62135596800 * 10 ^ 9) with (t + (-62135596800) * 10 ^ 9) by lia.
  rewrite Z.div_add by lia. rewrite wrap64_id by (unfold is_int64, int64_min, int64_max; lia).
  split; [lia|unfold is_int64, int64_min, int64_max; lia].
Qed.
Lemma unix_whole_second t : unix (whole_second t) = unix t.
Proof.
  unfold whole_second, second. set (u := unix t). unfold unix.
  replace (unix_epoch + u * 10 ^ 9 - unix_epoch) with (u * 10 ^ 9) by lia. apply Z.div_mul. lia.
Qed.

Lemma validTimestamp_ok r now t :
  0 ≤ t < 2 ^ 62 * second → 0 < rv_window r ≤ int64_max → Z.abs (now - whole_second t) ≤ rv_window r →
  validTimestamp r now (format_int (unix t)) = Some (whole_second t).
Proof.
  intros Ht Hw Hd. destruct (time_unix_unix t Ht) as [Hu Hi]. unfold validTimestamp.
  rewrite parse_int_format, Hu by done. rewrite (proj2 (Z.leb_gt _ _)) by lia.
  assert (Hs : time_sub now (whole_second t) = now - whole_second t)
    by (unfold time_sub, int64_min, int64_max in *; lia).
  rewrite Hs. set (d := now - whole_second t) in *.
  assert (Hx : (if d <? 0 then wrap64 (- d) else d) = Z.abs d).
  { destruct (Z.ltb_spec d 0); [|lia]. rewrite wrap64_id; [lia|].
    unfold is_int64, int64_min, int64_max in *. lia. }
  by rewrite Hx, (proj2 (Z.leb_le _ _)).
Qed.

Lemma versioned s : has_prefix ("v1=" +:+ s) "v1=" = true.
Proof. unfold has_prefix. apply prefix_spec. by exists s. Qed.
Lemma str_drop_versioned s : str_drop 3 ("v1=" +:+ s) = s.
Proof. done. Qed.

Section Accepts.
Context {W : Type} `{NetParsers} (parse_media_type : string → option string).
Hypothesis media_type : parse_media_type "application/cloudevents+json" = Some "application/cloudevents+json".

Lemma hookRequest_headers (h : Hook (W := W)) event body timestamp :
  let r := rq_Header (hookRequest h event body timestamp) in
  header_get "Content-Type" r = "application/cloudevents+json" ∧
  header_get headerTimestamp r = format_int (unix timestamp) ∧
  header_get headerSignature r = "v1=" +:+ Sign (wh_secret h) timestamp body ∧
  header_get headerEventID r = env_ID event.
Proof.
  unfold hookRequest. cbn [rq_Header].
  rewrite !(header_get_set_ne "Content-Type") by (vm_compute; discriminate).
  rewrite !(header_get_set_ne headerTimestamp) by (vm_compute; discriminate).
  rewrite !(header_get_set_ne headerSignature) by (vm_compute; discriminate).
  rewrite !(header_get_set_ne headerEventID) by (vm_compute; discriminate).
  by rewrite !header_get_set.
Qed.

Lemma receiver_checks r now (h : Hook (W := W)) event data n body timestamp :
  env_Data event = json_print data → bounded n data → Z.of_nat n < max_nesting →
  env_SpecVersion event = CloudEventsSpecVersion →
  to_valid (env_ID event) = env_ID event → blank (env_ID event) = false →
  marshalEnvelope event = Some body → len body ≤ maxRequestBytes →
  rv_secret r = wh_secret h → 0 ≤ timestamp < 2 ^ 62 * second → 0 < rv_window r ≤ int64_max →
  Z.abs (now - whole_second timestamp) ≤ rv_window r →
  checkRequest parse_media_type r now (hookRequest h event body timestamp) false = Ok (env_ID event).
Proof.
  intros Hdata Hb Hn Hspec Hid Hblank Hm Hlen Hsecret Ht Hw Hnow.
  pose proof (marshal_envelope_value event data body Hdata (proj1 Hb) Hm) as Hbody.
  destruct (hookRequest_headers h event body timestamp) as (H1 & H2 & H3 & H4).
  unfold checkRequest. rewrite H1, H2, H3, H4, media_type, bool_decide_eq_true_2 by done.
  cbn [rq_Method rq_Body hookRequest]. change ("POST" ≠s? "POST") with false. cbn [negb]. cbv iota.
  rewrite validTimestamp_ok by done. unfold readBody.
  rewrite (proj2 (Z.leb_gt _ _)) by lia. rewrite (proj2 (Z.ltb_ge _ _)) by lia.
  rewrite versioned, str_drop_versioned.
  assert (Hsign : Sign (wh_secret h) timestamp body = Sign (rv_secret r) (whole_second timestamp) body).
  { unfold Sign, signed_bytes. by rewrite unix_whole_second, Hsecret. }
  rewrite Hsign, Verify_Sign. cbn [negb orb]. cbv iota.
  rewrite Hbody, (envelope_decodes event data n) by (done || by rewrite Hspec).
  rewrite Hspec, Hblank, !String.eqb_refl. cbn [negb orb]. cbv iota.
  destruct (env_ID event =s? "") eqn:He; [|done]. apply String.eqb_eq in He. by rewrite He in Hblank.
Qed.
End Accepts.

(** ** What is accepted was sent *)

Lemma checkRequest_ok parse_media_type r now request readFails id :
  checkRequest parse_media_type r now request readFails = Ok id →
  ∃ timestamp, validTimestamp r now (header_get headerTimestamp (rq_Header request)) = Some timestamp ∧
    header_get headerSignature (rq_Header request) = "v1=" +:+ Sign (rv_secret r) timestamp (rq_Body request) ∧
    header_get headerEventID (rq_Header request) = id ∧ rq_Method request = "POST" ∧
    len (rq_Body request) ≤ maxRequestBytes.
Proof.
  unfold checkRequest. rewrite fail_if_ok. intros [Hm H]. apply fail_if_ok in H as [_ H].
  destruct (validTimestamp _ _ _) as [timestamp|]; [|done]. exists timestamp. split; [done|].
  destruct (readBody _ _ _) as [body|] eqn:Hbody; [|done]. apply fail_if_ok in H as [Hlen H].
  apply Z.ltb_ge in Hlen.
  assert (Hfull : rq_Body request = body).
  { unfold readBody in Hbody. destruct (Z.leb_spec (maxRequestBytes + 1) (len (rq_Body request))).
    - injection Hbody as <-. unfold len in Hlen. rewrite length_str_take in Hlen by (unfold len in *; lia).
      unfold maxRequestBytes in *. lia.
    - destruct readFails; [done|]. by injection Hbody. }
  apply fail_if_ok in H as [Hsig H]. rewrite orb_false_iff, !negb_false_iff in Hsig. destruct Hsig as [Hp Hv].
  destruct (decode _ _ _) as [[specVersion id']|]; [|done]. apply fail_if_ok in H as [_ H].
  apply fail_if_ok in H as [Hid H]. injection H as ->. rewrite orb_false_iff, negb_false_iff, !String.eqb_eq in Hid.
  apply negb_false_iff, String.eqb_eq in Hm. rewrite Hfull. split_and!; [|by destruct Hid|done|done].
  apply prefix_spec in Hp as [t Ht]. rewrite Ht in Hv |- *. rewrite str_drop_versioned in Hv.
  f_equal. by apply verify_exact.
Qed.

(** A receiver that is sent one request after the other; the accepted ones with
    the time they came at. *)
Fixpoint accepted parse_media_type (r : receiver) (l : list (time * Request * bool))
    : list (time * Request) :=
  match l with
  | [] => []
  | (now, request, readFails) :: l =>
      let '(answer, r) := ServeHTTP parse_media_type r now request readFails in
      if rp_Status answer =? 204 then (now, request) :: accepted parse_media_type r l
      else accepted parse_media_type r l
  end.

Definition event_id (request : Request) : string := header_get headerEventID (rq_Header request).

Lemma checkRequest_refuses parse_media_type r now request readFails refused :
  checkRequest parse_media_type r now request readFails = Err refused → rp_Status refused ≠ 204.
Proof.
  unfold checkRequest.
  repeat (match goal with
    | |- context [if ?c then Err _ else _] => destruct c
    | |- context [match validTimestamp ?a ?b ?c with _ => _ end] => destruct (validTimestamp a b c)
    | |- context [match readBody ?a ?b ?c with _ => _ end] => destruct (readBody a b c)
    | |- context [match decode ?a ?b ?c with _ => _ end] => destruct (decode a b c) as [[? ?]|]
    end; try (by intros [= <-])).
Qed.

Lemma ServeHTTP_cases parse_media_type r now request readFails answer r' :
  ServeHTTP parse_media_type r now request readFails = (answer, r') →
  (rv_secret r', rv_window r') = (rv_secret r, rv_window r) ∧
  ((rp_Status answer ≠ 204 ∧ r' = r) ∨
   (checkRequest parse_media_type r now request readFails = Ok (event_id request) ∧
    event_id request ∉ rv_seen r ∧ rv_seen r' = {[ event_id request ]} ∪ rv_seen r)).
Proof.
  unfold ServeHTTP. destruct (checkRequest _ _ _ _ _) as [id|refused] eqn:Hc.
  - destruct (checkRequest_ok _ _ _ _ _ _ Hc) as (_ & _ & _ & <- & _ & _). fold (event_id request).
    case_bool_decide as Hin; intros [= <- <-]; (split; [done|]); [by left|by right].
  - intros [= <- <-]. split; [done|]. left. split; [|done]. by eapply checkRequest_refuses.
Qed.

(** The replay window: a time stamp is not older than the window. *)
Lemma validTimestamp_recent r now raw t :
  validTimestamp r now raw = Some t → rv_window r < int64_max → now - t ≤ rv_window r.
Proof.
  unfold validTimestamp. destruct (parse_int raw) as [seconds|]; [|done]. destruct (_ <=? 0) eqn:Hw; [done|].
  apply Z.leb_gt in Hw. destruct (_ <=? _) eqn:Hd; [|done]. intros [= <-] Hmax. apply Z.leb_le in Hd. revert Hd.
  unfold time_sub, int64_min, int64_max in *.
  destruct (Z.ltb_spec (Z.max (- 2 ^ 63) (Z.min (2 ^ 63 - 1) (now - time_unix seconds))) 0); lia.
Qed.

(** C16: the receiver accepts an event once, and only from a holder of the
    secret.  Whatever requests arrive in whatever order, no two that are
    answered with 204 name the same event; each of them carries the signature
    that the secret yields for exactly its body and its time stamp, which is not
    older than the window. *)
Theorem receiver_exactly_once parse_media_type r l :
  rv_window r < int64_max →
  NoDup (map (λ x, event_id x.2) (accepted parse_media_type r l)) ∧
  Forall (λ x, event_id x.2 ∉ rv_seen r ∧ ∃ timestamp,
    header_get headerSignature (rq_Header x.2) = "v1=" +:+ Sign (rv_secret r) timestamp (rq_Body x.2) ∧
    x.1 - timestamp ≤ rv_window r) (accepted parse_media_type r l).
Proof.
  revert r. induction l as [|[[now request] readFails] l IH]; intros r Hw; cbn [accepted];
    [split; [apply NoDup_nil_2|apply Forall_nil_2]|].
  destruct (ServeHTTP _ _ _ _ _) as [answer r'] eqn:Hs.
  destruct (ServeHTTP_cases _ _ _ _ _ _ _ Hs) as ([= Hsec Hwin] & [[Hno ->]|(Hc & Hnew & Hseen)]).
  - rewrite (proj2 (Z.eqb_neq _ _)) by done. by apply IH.
  - assert (Hans : rp_Status answer = 204).
    { unfold ServeHTTP in Hs. rewrite Hc, bool_decide_eq_false_2 in Hs by done. by injection Hs as <- <-. }
    rewrite Hans. cbn [Z.eqb Pos.eqb]. destruct (IH r') as [Hnd Hall]; [by rewrite Hwin|].
    rewrite Hsec, Hwin, Hseen in Hall. split.
    + cbn [map snd]. apply NoDup_cons. split; [|done]. intros (x & Hx & Hin)%list_elem_of_fmap.
      rewrite Forall_forall in Hall. destruct (Hall x Hin) as [Hx' _].
      apply Hx'. rewrite <- Hx. by apply elem_of_union_l, elem_of_singleton_2.
    + apply Forall_cons. split.
      * split; [done|]. destruct (checkRequest_ok _ _ _ _ _ _ Hc) as (timestamp & Ht & Hsig & _).
        exists timestamp. split; [done|]. by eapply validTimestamp_recent.
      * eapply Forall_impl; [exact Hall|]. intros x [Hx ?]. split; [|done].
        by apply not_elem_of_union in Hx as [_ ?].
Qed.

Lemma to_valid_ascii s : all_chars (λ c, code c <? 0x80) s = true → to_valid s = s.
Proof.
  induction s as [|c s IH]; [done|]. cbn [all_chars to_valid]. rewrite andb_true_iff. intros [-> Hs].
  by rewrite IH.
Qed.
Lemma hex_ascii s : all_chars (λ c, code c <? 0x80) (hex_encode s) = true.
Proof.
  induction s as [|c s IH]; [done|]. cbn [hex_encode all_chars]. rewrite IH.
  clear. by destruct c as [[] [] [] [] [] [] [] []].
Qed.

Section EndToEnd.
Context {W Obj W' : Type} (rec : Reconciler W Obj) `{NetParsers} (parse_media_type : string → option string).
Hypothesis media_type : parse_media_type "application/cloudevents+json" = Some "application/cloudevents+json".

(** C10: from the decision to the receiver.  A notification that the reconciler
    creates is turned by the dispatcher into an envelope and by the webhook into
    a request that a receiver with the same secret accepts with 204, within its
    window and size limit; delivered again it is answered with 208, which the
    webhook counts as a success too. *)
Theorem notification_received incident s evaluationID eventType d status now0 n clusterID at_ :
  sv_newID (r_services rec) = StableID → eventType ∈ [eventOpened; eventUpdated; eventResolved] →
  blank clusterID = false → is_zero at_ = false → time_marshals at_ = true →
  n ∈ deliveries rec incident s evaluationID eventType d status now0 →
  ∃ e body, NewEnvelope (nt_ID n) (nt_EventType n) clusterID at_ (nt_Payload n) = Ok e ∧
    marshalEnvelope e = Some body ∧
    ∀ (h : Hook (W := W')) r now timestamp,
      len body ≤ maxRequestBytes → rv_secret r = wh_secret h →
      0 ≤ timestamp < 2 ^ 62 * second → 0 < rv_window r ≤ int64_max →
      Z.abs (now - whole_second timestamp) ≤ rv_window r →
      let '(answer, r') := ServeHTTP parse_media_type r now (hookRequest h e body timestamp) false in
      rp_Status answer = (if bool_decide (nt_ID n ∈ rv_seen r) then 208 else 204) ∧
      success (rp_Status answer) = true ∧ rv_seen r' = {[ nt_ID n ]} ∪ rv_seen r.
Proof.
  intros Hid Het Hc Hz Ht Hin.
  destruct (notices_deliverable rec incident s evaluationID eventType d status now0 n clusterID at_
    Hid Het Hc Hz Ht Hin) as (_ & e & body & He & Hdata & Heid & Hm).
  exists e, body. split_and!; [done|done|]. intros h r now timestamp Hlen Hsec Hts Hw Hnow.
  assert (Hp : nt_Payload n = json_print (payload_value (inc_ID incident) evaluationID status d s) ∧
               ∃ seed, nt_ID n = StableID seed).
  { unfold deliveries in Hin. destruct (_ && _) in Hin; [by apply elem_of_nil in Hin|].
    apply list_elem_of_fmap in Hin as (destination & -> & _). cbn. rewrite Hid. by eauto. }
  destruct Hp as [Hp [seed Hseed]].
  assert (Hspec : env_SpecVersion e = CloudEventsSpecVersion).
  { unfold NewEnvelope in He. apply fail_if_ok in He as [_ He]. apply fail_if_ok in He as [_ He].
    by injection He as <-. }
  assert (Hcheck : checkRequest parse_media_type r now (hookRequest h e body timestamp) false = Ok (env_ID e)).
  { eapply (receiver_checks parse_media_type media_type r now h e
      (payload_value (inc_ID incident) evaluationID status d s) 3 body timestamp); try done.
    - by rewrite Hdata.
    - apply bounded_payload.
    - rewrite Heid, Hseed. apply to_valid_ascii, hex_ascii.
    - rewrite Heid, Hseed. apply StableID_not_blank. }
  rewrite Heid in Hcheck. unfold ServeHTTP. rewrite Hcheck.
  case_bool_decide; cbn; (split_and!; [done|done|]); [set_solver|done].
Qed.
End EndToEnd.

(** A time stamp more than 292 years ahead passes the window: the difference
    saturates at the least duration, which is its own negation. *)
Lemma future_timestamp_accepted :
  let r := newReceiver "s" (300 * second) in
  let now := time_unix 1700000000 in
  validTimestamp r now "1700000300" = Some (time_unix 1700000300) ∧
  validTimestamp r now "1700000301" = None ∧
  validTimestamp r now "100000000000" = Some (time_unix 100000000000).
Proof. by vm_compute. Qed.

(** ** Witnesses *)

Module ReceiverWitness.
Definition media (s : string) : option string := Some s.
Definition hook : Hook (W := unit) := {|
  wh_name := "ops"; wh_secret := "s3cret"; wh_timeout := second; wh_maxResponseBytes := 64;
  wh_maxRetryAfter := second; wh_allowPrivate := false;
  wh_endpoint := {| u_Scheme := "https"; u_HasUser := false; u_Host := "hooks.example";
                    u_RawQuery := ""; u_Fragment := "" |};
  wh_client _ w := (None, w); wh_lookupIP _ w := (None, w); wh_now w := (Scenario.noon, w) |}.
Definition target : receiver := newReceiver "s3cret" (300 * second).
Definition small_event : Envelope := {|
  env_SpecVersion := CloudEventsSpecVersion; env_ID := "e1"; env_Source := "urn"; env_Type := "t";
  env_Time := Scenario.noon; env_DataContentType := "application/json";
  env_SchemaVersion := EnvelopeSchemaVersion; env_Data := "{}" |}.
Definition small_body : string := default "" (marshalEnvelope small_event).
Definition request : Request :=
  let _ := NetExample.plain_parsers in hookRequest hook small_event small_body Scenario.noon.
End ReceiverWitness.

Lemma receiver_exactly_once_witness :
  map (λ x, event_id x.2) (accepted ReceiverWitness.media ReceiverWitness.target
    [(Scenario.noon, ReceiverWitness.request, false); (Scenario.noon, ReceiverWitness.request, false)]) = ["e1"] ∧
  NoDup (map (λ x, event_id x.2) (accepted ReceiverWitness.media ReceiverWitness.target
    [(Scenario.noon, ReceiverWitness.request, false); (Scenario.noon, ReceiverWitness.request, false)])).
Proof.
  split; [vm_compute; reflexivity|].
  apply (receiver_exactly_once ReceiverWitness.media ReceiverWitness.target). vm_compute. reflexivity.
Defined.

Lemma notification_received_witness :
  ∃ e body, marshalEnvelope e = Some body ∧
    (len body ≤ maxRequestBytes →
     let _ := NetExample.plain_parsers in
     rp_Status (ServeHTTP ReceiverWitness.media ReceiverWitness.target Scenario.noon
       (hookRequest ReceiverWitness.hook e body Scenario.noon) false).1 = 204).
Proof.
  destruct (notification_received (W' := unit) (Scenario.reconciler None) (H := NetExample.plain_parsers)
    ReceiverWitness.media eq_refl NoticesWitness.incident NoticesWitness.snapshot "e1" eventOpened
    NoticesWitness.decision IncidentOpen Scenario.noon NoticesWitness.notice "c1" Scenario.noon
    eq_refl (list_elem_of_here _ _) ltac:(vm_compute; reflexivity) ltac:(vm_compute; reflexivity)
    ltac:(vm_compute; reflexivity) (list_elem_of_here _ _)) as (e & body & _ & Hm & H).
  exists e, body. split; [exact Hm|]. intros Hlen. cbv zeta.
  specialize (H ReceiverWitness.hook ReceiverWitness.target Scenario.noon Scenario.noon Hlen eq_refl
    ltac:(vm_compute; split; congruence) ltac:(vm_compute; split; congruence) ltac:(vm_compute; congruence)).
  destruct (ServeHTTP _ _ _ _ _) as [answer r']. destruct H as (H & _ & _). cbn [fst]. rewrite H.
  rewrite bool_decide_eq_false_2; [reflexivity|]. apply not_elem_of_empty.
Defined.
