(* ===== verification/Registry.v ===== *)
(** * Registries of factories

    [internal/provider/registry.go] and [internal/notify/registry.go] are the
    same program over different factories; [F] is the type of a factory.  Every
    operation holds the lock of the registry while it touches the map, so the
    operations are atomic. *)
From S2P Require Import Prelude GoBase Provider.

Section Registry.
Context {F : Type}.

Abbreviation Registry := (gmap string F) (only parsing).

Variant RegistryError :=
  | registry_required
  | type_required
  | registry_factory_required
  | already_registered (type : string)
  | not_registered (type : string).

Definition NewRegistry : Registry := ∅.

Definition Register (type : string) (factory : option F) (r : Registry) : result RegistryError Registry :=
  let type := trim_space type in
  fail_if! type =s? "" with type_required;
  match factory with
  | None => Err registry_factory_required
  | Some factory =>
      fail_if! hasKey type r with already_registered type;
      Ok (<[type := factory]> r)
  end.

(** The factory [Create] calls. *)
Definition Factory (type : string) (r : Registry) : result RegistryError F :=
  match r !! type with Some factory => Ok factory | None => Err (not_registered type) end.

Definition Types (r : Registry) : list string := sortedKeys r.

(** Registering one after the other, stopping at the first error. *)
Fixpoint registerAll (l : list (string * F)) (r : Registry) : result RegistryError Registry :=
  match l with
  | [] => Ok r
  | (type, factory) :: l => r ←! Register type (Some factory) r; registerAll l r
  end.

(** The [Register] function of an adapter, on a registry that may be [nil]. *)
Definition adapterRegister (type : string) (factory : F) (registry : option Registry) : result RegistryError Registry :=
  match registry with
  | None => Err registry_required
  | Some r => Register type (Some factory) r
  end.
(** Calling such functions one after the other. *)
Fixpoint registerEach (l : list (option Registry → result RegistryError Registry)) (r : Registry)
    : result RegistryError Registry :=
  match l with
  | [] => Ok r
  | register :: l => r ←! register (Some r); registerEach l r
  end.
Lemma registerEach_all l r : registerEach (map (λ p, adapterRegister p.1 p.2) l) r = registerAll l r.
Proof.
  revert r. induction l as [|[type factory] l IH]; intros r; cbn; [done|].
  destruct (Register type (Some factory) r); cbn; [apply IH|done].
Qed.

(** Registering succeeds exactly for a new type, under its trimmed name; it
    changes nothing else. *)
Lemma Register_ok type factory r r' :
  Register type factory r = Ok r' ↔
  ∃ f, factory = Some f ∧ trim_space type ≠ "" ∧ r !! trim_space type = None ∧
       r' = <[trim_space type := f]> r.
Proof.
  unfold Register, hasKey. rewrite fail_if_ok, String.eqb_neq. destruct factory as [f|].
  - rewrite fail_if_ok. destruct (r !! trim_space type) as [g|]; split.
    + by intros (_ & ? & _).
    + by intros (g' & _ & _ & ? & _).
    + intros (Hn & _ & Hr). injection Hr as <-. by exists f.
    + by intros (g & [= <-] & Hn & _ & ->).
  - split; [by intros [_ ?]|by intros (g & ? & _)].
Qed.

(** The types of a registry are trimmed and not empty, whatever was
    registered. *)
Definition registry_wf (r : Registry) : Prop :=
  ∀ type, type ∈ Types r → type ≠ "" ∧ trim_space type = type.
Lemma NewRegistry_wf : registry_wf NewRegistry.
Proof. intros type [f Hf]%elem_of_sortedKeys. done. Qed.
Lemma Register_wf type factory r r' :
  registry_wf r → Register type factory r = Ok r' → registry_wf r'.
Proof.
  intros Hr (f & -> & Hn & _ & ->)%Register_ok t Ht. apply elem_of_sortedKeys in Ht.
  destruct (decide (t = trim_space type)) as [->|Hne]; [by rewrite trim_space_idemp|].
  rewrite lookup_insert_ne in Ht by done. apply Hr. by apply elem_of_sortedKeys.
Qed.

(** What is registered is found, and everything else is as before. *)
Lemma Register_Factory type factory r r' t :
  Register type factory r = Ok r' →
  Factory t r' = match factory with
                 | Some f => if trim_space type =s? t then Ok f else Factory t r
                 | None => Factory t r
                 end.
Proof.
  intros (f & -> & _ & _ & ->)%Register_ok. unfold Factory.
  destruct (String.eqb_spec (trim_space type) t) as [->|Hne];
    [by rewrite lookup_insert_eq|by rewrite lookup_insert_ne].
Qed.

Lemma registerAll_found l r r' t f :
  registerAll l r = Ok r' → Factory t r' = Ok f →
  Factory t r = Ok f ∨ ∃ type, (type, f) ∈ l ∧ trim_space type = t.
Proof.
  revert r. induction l as [|[type g] l IH]; intros r; cbn [registerAll]; [by intros [= <-]; left|].
  rewrite rbind_ok. intros (r1 & Hreg & Hall) Hf. destruct (IH _ Hall Hf) as [Hr1|(ty & Hin & Ht)].
  - rewrite (Register_Factory _ _ _ _ t Hreg) in Hr1.
    destruct (String.eqb_spec (trim_space type) t); [|by left].
    injection Hr1 as <-. right. exists type. split; [left|done].
  - right. exists ty. split; [by right|done].
Qed.
End Registry.
