(* ===== verification/Providers.v ===== *)
(** * The provider adapters and their registry

    [internal/provider/{openai,openaicompat,anthropic,openrouter,typesafe}], and
    [NewProviderRegistry] of [internal/app/production.go].
    The last theorem joins the clients with the reconciler: whatever a
    registered provider returns passes the reconciler's own check. *)
From stdpp Require Import pretty.
From S2P Require Import Prelude GoBase Sha256 Json GoNet JsonParse JsonDecode Provider Retry HttpClient Clients Schema Registry Reconciler.
From S2P Require Jev Structured.

Module openai.
Definition Type_ : string := "openai".
Definition defaultURL : string := "https://api.openai.com".
End openai.
Module openaicompat.
Definition Type_ : string := "openai-compatible".
Definition ModeJSONSchema : string := "json_schema".
Definition ModeForcedTool : string := "forced_tool".
End openaicompat.
Module anthropic.
Definition Type_ : string := "anthropic".
Definition defaultURL : string := "https://api.anthropic.com".
End anthropic.
Module openrouter.
Definition Type_ : string := "openrouter".
Definition DefaultModel : string := "typesafe/jev-1.13".
Definition defaultURL : string := "https://openrouter.ai".
End openrouter.
Module typesafe.
Definition Type_ : string := "typesafe".
Definition DefaultModel : string := "jev-latest".
Definition defaultURL : string := "https://api.typesafe.ai".
End typesafe.

Section Providers.
Context {W Ctx : Type} `{NetParsers} `{MapRange} (ctx_err : Ctx → W → option GoError)
  (with_timeout : Ctx → duration → W → Ctx) (sleep : Ctx → duration → W → option GoError * W)
  (systemNow : W → time * W) (body_error : Response → GoError).

Abbreviation Config := (ProviderConfig (W := W) (Ctx := Ctx)) (only parsing).

(** A provider of either protocol. *)
Inductive client :=
  | jev (c : Jev.Client (W := W) (Ctx := Ctx))
  | structured (c : Structured.Client (W := W) (Ctx := Ctx)).

Definition client_core (c : client) : Core (W := W) (Ctx := Ctx) :=
  match c with jev c => Jev.j_core c | structured c => Structured.s_core c end.
(** [Name()]. *)
Definition client_name (c : client) : string := cl_name (client_core c).
Definition client_Evaluate (c : client) (ctx : Ctx) (request : EvaluationRequest) (w : W)
    : option (result GoError EvaluationResponse * W) :=
  match c with
  | jev c => Jev.Evaluate ctx_err with_timeout sleep systemNow body_error c ctx request w
  | structured c => Structured.Evaluate ctx_err with_timeout sleep systemNow body_error c ctx request w
  end.

Definition rmap {E A B} (f : A → B) (r : result E A) : result E B :=
  match r with Ok a => Ok (f a) | Err e => Err e end.

(** ** The adapters *)

Definition newOpenAI (config : Config) : result string client :=
  rmap structured (Structured.New systemNow
    {| Structured.sc_Name := openai.Type_; Structured.sc_DefaultURL := openai.defaultURL;
       Structured.sc_EndpointPath := "/v1/chat/completions";
       Structured.sc_Protocol := Structured.ProtocolOpenAIJSONSchema; Structured.sc_Factory := config |}).

Definition newOpenAICompat (config : Config) : result string client :=
  let mode := pf_StrictMode config in
  fail_if! (mode ≠s? openaicompat.ModeJSONSchema) && (mode ≠s? openaicompat.ModeForcedTool)
    with "openai-compatible strict mode must be explicitly set to json_schema or forced_tool";
  let protocol := if mode =s? openaicompat.ModeJSONSchema then Structured.ProtocolOpenAIJSONSchema
                  else Structured.ProtocolOpenAIForcedTool in
  rmap structured (Structured.New systemNow
    {| Structured.sc_Name := openaicompat.Type_; Structured.sc_DefaultURL := "";
       Structured.sc_EndpointPath := "/v1/chat/completions";
       Structured.sc_Protocol := protocol; Structured.sc_Factory := config |}).

Definition newAnthropic (config : Config) : result string client :=
  rmap structured (Structured.New systemNow
    {| Structured.sc_Name := anthropic.Type_; Structured.sc_DefaultURL := anthropic.defaultURL;
       Structured.sc_EndpointPath := "/v1/messages";
       Structured.sc_Protocol := Structured.ProtocolAnthropicTool; Structured.sc_Factory := config |}).

Definition newOpenRouter (config : Config) : result string client :=
  rmap jev (Jev.New systemNow
    {| Jev.jc_Mode := Jev.ModeOpenRouter; Jev.jc_EndpointPath := "/api/alpha/decisions";
       Jev.jc_DefaultURL := openrouter.defaultURL; Jev.jc_DefaultModel := openrouter.DefaultModel;
       Jev.jc_Factory := config |}).

Definition newTypeSafe (config : Config) : result string client :=
  rmap jev (Jev.New systemNow
    {| Jev.jc_Mode := Jev.ModeTypeSafe; Jev.jc_EndpointPath := "/v1/systemone";
       Jev.jc_DefaultURL := typesafe.defaultURL; Jev.jc_DefaultModel := typesafe.DefaultModel;
       Jev.jc_Factory := config |}).

Definition factory : Type := Config → result string client.

(** ** The registry of the application *)

(** The [Register] functions of the adapters. *)
Definition registerOpenAI : option (gmap string factory) → result RegistryError (gmap string factory) :=
  adapterRegister openai.Type_ newOpenAI.
Definition registerOpenAICompat : option (gmap string factory) → result RegistryError (gmap string factory) :=
  adapterRegister openaicompat.Type_ newOpenAICompat.
Definition registerAnthropic : option (gmap string factory) → result RegistryError (gmap string factory) :=
  adapterRegister anthropic.Type_ newAnthropic.
Definition registerOpenRouter : option (gmap string factory) → result RegistryError (gmap string factory) :=
  adapterRegister openrouter.Type_ newOpenRouter.
Definition registerTypeSafe : option (gmap string factory) → result RegistryError (gmap string factory) :=
  adapterRegister typesafe.Type_ newTypeSafe.

Definition NewProviderRegistry : result RegistryError (gmap string factory) :=
  registerEach [registerOpenAI; registerOpenAICompat; registerAnthropic; registerOpenRouter; registerTypeSafe]
    NewRegistry.

(** What they register. *)
Definition registrations : list (string * factory) :=
  [(openai.Type_, newOpenAI); (openaicompat.Type_, newOpenAICompat); (anthropic.Type_, newAnthropic);
   (openrouter.Type_, newOpenRouter); (typesafe.Type_, newTypeSafe)].
Lemma NewProviderRegistry_all : NewProviderRegistry = registerAll registrations NewRegistry.
Proof. exact (registerEach_all registrations NewRegistry). Qed.

Variant CreateError := registry_error (e : RegistryError) | factory_error (e : string).

(** [registry.Create]. *)
Definition Create (registry : gmap string factory) (type : string) (config : Config)
    : result CreateError client :=
  match Factory type registry with
  | Err e => Err (registry_error e)
  | Ok f => match f config with Ok c => Ok c | Err e => Err (factory_error e) end
  end.

(** A client as the reconciler calls it. *)
Definition error_message (e : GoError) : string :=
  match e with
  | other_error m => m
  | http_error e => he_Kind e
  | context_canceled => "context canceled"
  | context_deadline_exceeded => "context deadline exceeded"
  end.
Definition provider_of (c : client) (ctx : Ctx) : ProviderOf W := {|
  pv_Name := client_name c;
  pv_Evaluate request w :=
    match client_Evaluate c ctx request w with
    | Some (Ok r, w) => (Ok r, w)
    | Some (Err e, w) => (Err (error_message e), w)
    | None => (Err "panic", w)
    end |}.

(** ** Properties *)

(** What every adapter guarantees of the client it makes. *)
Definition client_wf (type : string) (c : client) : Prop :=
  client_name c = type ∧ blank (cl_model (client_core c)) = false ∧
  match c with
  | jev c => Jev.j_mode c = Jev.ModeTypeSafe ∨ Jev.j_mode c = Jev.ModeOpenRouter
  | structured c => Structured.knownProtocol (Structured.s_protocol c) = true
  end.

Lemma rmap_ok {E A B} (f : A → B) (r : result E A) b : rmap f r = Ok b ↔ ∃ a, r = Ok a ∧ b = f a.
Proof. destruct r; cbn; naive_solver. Qed.

Lemma structured_wf config c : Structured.New systemNow config = Ok c →
  client_wf (Structured.sc_Name config) (structured c).
Proof.
  intros (Hn & Hne & Hm & Hp)%Structured.structured_New_ok. split_and!; [done| |done].
  cbn. rewrite Hm in *. by apply blank_trimmed.
Qed.
Lemma jev_wf config c : blank (Jev.jc_DefaultModel config) = false → Jev.New systemNow config = Ok c →
  client_wf (Jev.jc_Mode config) (jev c).
Proof.
  intros Hd (Hn & _ & Hne & Hm & Hmode)%Jev.jev_New_ok. split_and!; [done| |done].
  cbn. destruct Hm as [Hm|Hm]; rewrite Hm in *; [by apply blank_trimmed|done].
Qed.

Lemma registrations_wf type f config c :
  (type, f) ∈ registrations → f config = Ok c → client_wf (trim_space type) c.
Proof.
  unfold registrations. rewrite !elem_of_cons, elem_of_nil.
  intros [[= -> ->]|[[= -> ->]|[[= -> ->]|[[= -> ->]|[[= -> ->]|[]]]]]] Hf.
  - apply rmap_ok in Hf as (s & Hs & ->). exact (structured_wf _ _ Hs).
  - unfold newOpenAICompat in Hf. apply fail_if_ok in Hf as [_ Hf].
    apply rmap_ok in Hf as (s & Hs & ->). exact (structured_wf _ _ Hs).
  - apply rmap_ok in Hf as (s & Hs & ->). exact (structured_wf _ _ Hs).
  - apply rmap_ok in Hf as (s & Hs & ->). refine (jev_wf _ _ _ Hs). by vm_compute.
  - apply rmap_ok in Hf as (s & Hs & ->). refine (jev_wf _ _ _ Hs). by vm_compute.
Qed.

Lemma created_wf registry type config c :
  NewProviderRegistry = Ok registry → Create registry type config = Ok c → client_wf type c.
Proof.
  intros Hr. unfold Create. destruct (Factory type registry) as [f|] eqn:Hf; [|done].
  destruct (f config) as [c'|] eqn:Hc; [|done]. intros [= ->].
  rewrite NewProviderRegistry_all in Hr.
  destruct (registerAll_found _ _ _ _ _ Hr Hf) as [Hn|(ty & Hin & <-)].
  - unfold Factory, NewRegistry in Hn. by rewrite lookup_empty in Hn.
  - by eapply registrations_wf.
Qed.

Lemma client_Evaluate_spec type c ctx request w : client_wf type c →
  ∃ o w', client_Evaluate c ctx request w = Some (o, w') ∧
    ∀ r, o = Ok r → trusted (client_core c) request r.
Proof.
  intros (_ & _ & Hc). destruct c as [c|c]; cbn in *.
  - destruct (Jev.jev_Evaluate_returns ctx_err with_timeout sleep systemNow body_error c ctx request w Hc)
      as [[o w'] Ho]. exists o, w'. split; [done|]. intros r ->. by apply Jev.jev_Evaluate_ok in Ho as [? _].
  - destruct (Structured.structured_Evaluate_returns ctx_err with_timeout sleep systemNow body_error c ctx request w Hc)
      as [[o w'] Ho]. exists o, w'. split; [done|]. intros r ->. by apply Structured.structured_Evaluate_ok in Ho as [? _].
Qed.

End Providers.

(** ** Witness: one exchange with a provider *)

Module ProvidersWitness.
Export NetExample.
#[export] Existing Instance range_in_order.

Definition answers : json := JObject [("answers", JObject
  [("q1", JObject [("type", JString "noul"); ("NOUL", JNumber "2.5e-1")])])].
Definition body : string := json_print (JObject
  [("id", JString "r-1"); ("model", JString "gpt-x"); ("created", JInt 1);
   ("choices", JArray [JObject
     [("message", JObject [("role", JString "assistant"); ("content", JString (json_print answers));
                           ("tool_calls", JNull)]);
      ("finish_reason", JString "stop")]]);
   ("usage", JObject [("prompt_tokens", JInt 10); ("completion_tokens", JInt 3)])]).

(** The world counts the requests: the first one is answered with 503. *)
Definition client_do (_ : unit) (_ : Request) (w : Z) : result GoError Response * Z :=
  (Ok {| rs_StatusCode := if w =? 0 then 503 else 200; rs_Header := ∅; rs_ContentLength := -1;
         rs_Body := body; rs_ReadFails := false |}, w + 1).
Definition ctx_err (_ : unit) (_ : Z) : option GoError := None.
Definition with_timeout (c : unit) (_ : duration) (_ : Z) : unit := c.
Definition sleep (_ : unit) (_ : duration) (w : Z) : option GoError * Z := (None, w).
Definition now (w : Z) : time * Z := (0, w).
Definition body_error (_ : Response) : GoError := other_error "read".

Definition config : ProviderConfig (W := Z) (Ctx := unit) := {|
  pf_Endpoint := ""; pf_Model := " gpt "; pf_StrictMode := ""; pf_Credential := "key";
  pf_HTTPClient := Some client_do;
  pf_Retry := {| MaxAttempts := 3; InitialBackoff := 1; MaxBackoff := 2; MaxRetryAfter := 5;
                 TotalTimeout := 100; HasSleep := true; Jitter := None |};
  pf_MaxRequestBytes := 4096; pf_MaxResponseBytes := 4096; pf_Now := None |}.
Definition registry : gmap string (factory (W := Z) (Ctx := unit)) :=
  match NewProviderRegistry now with Ok r => r | Err _ => ∅ end.
Definition client : client (W := Z) (Ctx := unit) :=
  match Create registry "openai" config with
  | Ok c => c | Err _ => structured {| Structured.s_core :=
      {| cl_name := ""; cl_endpoint := ""; cl_model := ""; cl_credential := ""; cl_httpClient := client_do;
         cl_retry := pf_Retry config; cl_limits := {| MaxRequestBytes := 0; MaxResponseBytes := 0;
         lim_MaxRetryAfter := 0; lim_Now := None |}; cl_now := now |}; Structured.s_protocol := "" |}
  end.
Definition request : EvaluationRequest := {|
  req_State := "{}"; req_Questions := {[ "q1" := {| q_Type := "noul"; q_Instructions := "Is it bad?";
    q_Criteria := ∅; q_Levels := [] |} ]};
  req_RubricVersion := "v1"; req_RequestID := "id-1"; req_RequestedModel := "" |}.
Definition outcome := client_Evaluate ctx_err with_timeout sleep now body_error client () request 0.
End ProvidersWitness.

(** The second attempt succeeds, and its answer is decoded. *)
Example evaluation_ex :
  match ProvidersWitness.outcome with
  | Some (Ok r, w) =>
      (resp_Provider r, resp_RequestedModel r, resp_ResolvedModel r, resp_ProviderRequestID r,
       resp_Attempts r, w, a_Noul <$> resp_Answers r !! "q1")
      = ("openai", "gpt", "gpt-x", "r-1", 2, 2,
         Some (Some (SpecFloat.S754_finite false 4503599627370496 (-54))))
  | _ => False
  end.
Proof. vm_compute. reflexivity. Qed.

