(* ===== verification/Config.v ===== *)
(** * Package [internal/config]: the configuration

    A [Duration] is its [time.Duration] (its text is that of [GoDuration]);
    decoding the rest of YAML is a parameter of
    [Load].  The two checks of the Kubernetes validation library and
    [url.ParseRequestURI] are parameters of [Validate]; the environment is a
    function. *)
From S2P Require Import Prelude GoBase GoNet.

Definition VersionV1Alpha1 : string := "v1alpha1".

Record ClusterConfig := {
  cc_ID : string; cc_ClusterWide : bool; cc_NamespaceOnly : bool;
  cc_WatchNamespaces : list string; cc_Resources : list string
}.
Record ControllerConfig := {
  cn_Workers : Z; cn_ReconcileTimeout : duration; cn_MaxNormalizedStateBytes : Z
}.
Record MongoConfig := { mg_URIEnv : string; mg_Database : string; mg_Timeout : duration }.
Record RulesConfig := {
  rl_CrashLoopRestartThreshold : Z; rl_CrashLoopCriticalThreshold : Z; rl_MinimumAge : duration;
  rl_EventQuietPeriod : duration; rl_IgnoredNamespaces : list string; rl_IgnoredLabels : list string
}.
Record ProviderSettings := {
  ps_Type : string; ps_Model : string; ps_CredentialEnv : string; ps_Endpoint : string;
  ps_StrictMode : string
}.
Record DecisionConfig := {
  dn_Primary : ProviderSettings; dn_Fallback : option ProviderSettings; dn_Timeout : duration
}.
Record DestinationConfig := {
  de_ID : string; de_Type : string; de_URL : string; de_CredentialEnv : string;
  de_AllowInsecureHTTP : bool; de_Timeout : duration; de_MaxResponseBytes : Z;
  de_MaxRetryAfter : duration
}.
Record RetryConfig := { rt_MaxAttempts : Z; rt_InitialBackoff : duration; rt_MaxBackoff : duration }.
Record NotificationsConfig := { no_Destinations : list DestinationConfig; no_Retry : RetryConfig }.
Record HTTPConfig := {
  ht_Address : string; ht_ReadTimeout : duration; ht_WriteTimeout : duration; ht_IdleTimeout : duration
}.
Record Config := {
  cf_Version : string; cf_Cluster : ClusterConfig; cf_Controller : ControllerConfig;
  cf_Mongo : MongoConfig; cf_Rules : RulesConfig; cf_Decision : DecisionConfig;
  cf_Notifications : NotificationsConfig; cf_HTTP : HTTPConfig; cf_LoggingLevel : string
}.
Record ConfigOptions_ := {
  op_LookupEnv : option (string → option string);
  op_ProviderTypes : list string; op_NotifierTypes : list string
}.

Definition administrativeDatabases : list string := ["admin"; "local"; "config"].
Definition supportedKubernetesResources : list string :=
  ["pods"; "events"; "deployments"; "statefulsets"; "daemonsets"; "jobs"].

Definition str_in (x : string) (l : list string) : bool := existsb (String.eqb x) l.

(** ** Validation *)

Abbreviation verdict := (result string unit) (only parsing).

Definition requireEnvironment (name : string) (o : ConfigOptions_) : verdict :=
  fail_if! blank name with "is required";
  match op_LookupEnv o with
  | None => Err "environment lookup is required"
  | Some lookup =>
      match lookup name with
      | Some value => if value =s? "" then Err "referenced environment variable is not set" else Ok ()
      | None => Err "referenced environment variable is not set"
      end
  end.

(** The loops over the namespaces and the resources, with what was seen. *)
Fixpoint checkNamespaces (seen l : list string) : verdict :=
  match l with
  | [] => Ok ()
  | namespace :: l =>
      let namespace := trim_space namespace in
      fail_if! namespace =s? "" with "cluster.watchNamespaces must not contain empty values";
      fail_if! str_in namespace seen with "duplicate watch namespace";
      checkNamespaces (namespace :: seen) l
  end.
Fixpoint checkResources (seen l : list string) : verdict :=
  match l with
  | [] => Ok ()
  | resource :: l =>
      let resource := to_lower (trim_space resource) in
      fail_if! (resource =s? "secret") || (resource =s? "secrets")
        with "watching Secret resources is forbidden";
      fail_if! negb (str_in resource supportedKubernetesResources) with "unsupported Kubernetes resource";
      fail_if! str_in resource seen with "duplicate Kubernetes resource";
      checkResources (resource :: seen) l
  end.
Fixpoint checkIDs (seen : list string) (l : list DestinationConfig) : verdict :=
  match l with
  | [] => Ok ()
  | d :: l =>
      fail_if! de_ID d =s? "" with "notification destination id is required";
      fail_if! str_in (de_ID d) seen with "duplicate destination id";
      checkIDs (de_ID d :: seen) l
  end.
Fixpoint checkEach {A} (f : A → verdict) (l : list A) : verdict :=
  match l with [] => Ok () | x :: l => _ ←! f x; checkEach f l end.

Section Validate.
Context `{NetParsers} (parse_request_uri : string → option URL)
  (isQualifiedName isValidLabelValue : string → bool).

Definition validateProvider (p : ProviderSettings) (o : ConfigOptions_) : verdict :=
  fail_if! negb (str_in (ps_Type p) (op_ProviderTypes o)) with "provider type is not registered";
  fail_if! blank (ps_Model p) with "provider model is required";
  _ ←! (if ps_Type p =s? "openai-compatible" then
          fail_if! match url_parse (trim_space (ps_Endpoint p)) with
                   | None => true
                   | Some endpoint =>
                       (u_Scheme endpoint ≠s? "https") || (u_Host endpoint =s? "") || u_HasUser endpoint
                       || (u_RawQuery endpoint ≠s? "") || (u_Fragment endpoint ≠s? "")
                   end with "openai-compatible provider endpoint must be an absolute HTTPS URL without credentials, query, or fragment";
          fail_if! (ps_StrictMode p ≠s? "json_schema") && (ps_StrictMode p ≠s? "forced_tool")
            with "openai-compatible provider strictMode must be json_schema or forced_tool";
          Ok ()
        else
          fail_if! negb (blank (ps_Endpoint p)) || negb (blank (ps_StrictMode p))
            with "native provider must not override endpoint or strictMode";
          Ok ());
  requireEnvironment (ps_CredentialEnv p) o.

Definition checkSelector (selector : string) : verdict :=
  fail_if! selector ≠s? trim_space selector with "rules.ignoredLabels contains whitespace-padded selector";
  let '(key, value, hasValue) := cut "=" selector in
  fail_if! negb (isQualifiedName key) with "rules.ignoredLabels contains invalid selector";
  fail_if! hasValue && negb (isValidLabelValue value) with "rules.ignoredLabels contains invalid selector";
  Ok ().

Definition checkDestination (o : ConfigOptions_) (d : DestinationConfig) : verdict :=
  fail_if! negb (str_in (de_Type d) (op_NotifierTypes o)) with "notifier type is not registered";
  match parse_request_uri (de_URL d) with
  | None => Err "destination has invalid URL"
  | Some parsed =>
      fail_if! u_Host parsed =s? "" with "destination has invalid URL";
      fail_if! (u_Scheme parsed =s? "http") && negb (de_AllowInsecureHTTP d)
        with "destination requires allowInsecureHTTP: true";
      fail_if! (u_Scheme parsed ≠s? "https") && (u_Scheme parsed ≠s? "http")
        with "destination URL must use HTTP or HTTPS";
      _ ←! requireEnvironment (de_CredentialEnv d) o;
      fail_if! de_Timeout d <=? 0 with "destination timeout must be positive";
      fail_if! de_MaxResponseBytes d <=? 0 with "destination maxResponseBytes must be positive";
      fail_if! de_MaxRetryAfter d <=? 0 with "destination maxRetryAfter must be positive";
      Ok ()
  end.

Definition checkCluster (c : ClusterConfig) : verdict :=
  fail_if! blank (cc_ID c) with "cluster.id is required";
  fail_if! cc_ClusterWide c && cc_NamespaceOnly c with "cluster.namespaceOnly cannot be true with clusterWide";
  fail_if! negb (cc_ClusterWide c) && Nat.eqb (length (cc_WatchNamespaces c)) 0
    with "cluster.watchNamespaces is required unless clusterWide is true";
  _ ←! checkNamespaces [] (cc_WatchNamespaces c);
  fail_if! Nat.eqb (length (cc_Resources c)) 0
    with "cluster.resources must contain at least one supported resource";
  checkResources [] (cc_Resources c).

Definition checkController (c : ControllerConfig) : verdict :=
  fail_if! cn_Workers c <=? 0 with "controller.workers must be positive";
  fail_if! cn_ReconcileTimeout c <=? 0 with "controller.reconcileTimeout must be positive";
  fail_if! cn_MaxNormalizedStateBytes c <=? 0 with "controller.maxNormalizedStateBytes must be positive";
  Ok ().

Definition checkMongo (m : MongoConfig) (o : ConfigOptions_) : verdict :=
  fail_if! blank (mg_Database m) with "mongo.database is required and cannot be empty";
  fail_if! str_in (to_lower (mg_Database m)) administrativeDatabases with "mongo.database is administrative";
  fail_if! mg_Timeout m <=? 0 with "mongo.timeout must be positive";
  requireEnvironment (mg_URIEnv m) o.

Definition checkDecision (d : DecisionConfig) (o : ConfigOptions_) : verdict :=
  _ ←! validateProvider (dn_Primary d) o;
  _ ←! match dn_Fallback d with
       | None => Ok ()
       | Some fallback =>
           fail_if! ps_Type fallback =s? ps_Type (dn_Primary d)
             with "decision fallback provider must differ from primary";
           validateProvider fallback o
       end;
  fail_if! dn_Timeout d <=? 0 with "decision.timeout must be positive";
  Ok ().

Definition checkRules (r : RulesConfig) : verdict :=
  fail_if! (rl_CrashLoopRestartThreshold r <=? 0)
           || (rl_CrashLoopCriticalThreshold r <? rl_CrashLoopRestartThreshold r)
    with "rules crash-loop thresholds are invalid";
  fail_if! (rl_MinimumAge r <=? 0) || (rl_EventQuietPeriod r <=? 0) with "rules durations must be positive";
  checkEach checkSelector (rl_IgnoredLabels r).

Definition checkNotifications (n : NotificationsConfig) (o : ConfigOptions_) : verdict :=
  _ ←! checkIDs [] (no_Destinations n);
  _ ←! checkEach (checkDestination o) (no_Destinations n);
  fail_if! rt_MaxAttempts (no_Retry n) <=? 0 with "notifications.retry.maxAttempts must be positive";
  fail_if! rt_InitialBackoff (no_Retry n) <=? 0 with "notifications.retry.initialBackoff must be positive";
  fail_if! rt_MaxBackoff (no_Retry n) <? rt_InitialBackoff (no_Retry n)
    with "notifications.retry.maxBackoff must be at least initialBackoff";
  Ok ().

Definition Validate (c : Config) (o : ConfigOptions_) : verdict :=
  fail_if! cf_Version c ≠s? VersionV1Alpha1 with "unsupported config version";
  fail_if! negb (str_in (to_lower (trim_space (cf_LoggingLevel c))) ["debug"; "info"; "warn"; "error"])
    with "logging.level must be one of debug, info, warn, or error";
  _ ←! checkCluster (cf_Cluster c);
  _ ←! checkController (cf_Controller c);
  _ ←! checkMongo (cf_Mongo c) o;
  _ ←! checkDecision (cf_Decision c) o;
  _ ←! checkRules (cf_Rules c);
  _ ←! checkNotifications (cf_Notifications c) o;
  fail_if! (ht_ReadTimeout (cf_HTTP c) <=? 0) || (ht_WriteTimeout (cf_HTTP c) <=? 0)
           || (ht_IdleTimeout (cf_HTTP c) <=? 0) with "http timeouts must be positive";
  Ok ().

(** ** Loading *)

Definition applyDefaults (c : Config) : Config :=
  {| cf_Version := cf_Version c; cf_Cluster := cf_Cluster c;
     cf_Controller := {| cn_Workers := if cn_Workers (cf_Controller c) =? 0 then 2
                                       else cn_Workers (cf_Controller c);
                         cn_ReconcileTimeout := cn_ReconcileTimeout (cf_Controller c);
                         cn_MaxNormalizedStateBytes := cn_MaxNormalizedStateBytes (cf_Controller c) |};
     cf_Mongo := cf_Mongo c; cf_Rules := cf_Rules c; cf_Decision := cf_Decision c;
     cf_Notifications := cf_Notifications c;
     cf_HTTP := {| ht_Address := if ht_Address (cf_HTTP c) =s? "" then ":8080" else ht_Address (cf_HTTP c);
                   ht_ReadTimeout := ht_ReadTimeout (cf_HTTP c);
                   ht_WriteTimeout := ht_WriteTimeout (cf_HTTP c);
                   ht_IdleTimeout := ht_IdleTimeout (cf_HTTP c) |};
     cf_LoggingLevel := if cf_LoggingLevel c =s? "" then "info" else cf_LoggingLevel c |}.

(** Decoding the next YAML document of a stream: the document and the rest, or
    [None] at the end of the stream. *)
Context {Stream : Type} (yaml_config : Stream → result string (option (Config * Stream)))
  (yaml_any : Stream → result string bool).

Definition Load (input : Stream) (o : ConfigOptions_) : result string Config :=
  match yaml_config input with
  | Err _ | Ok None => Err "decode config"
  | Ok (Some (config, rest)) =>
      match yaml_any rest with
      | Err _ => Err "decode config"
      | Ok true => Err "decode config: multiple YAML documents are not allowed"
      | Ok false =>
          let config := applyDefaults config in
          _ ←! Validate config o;
          Ok config
      end
  end.
End Validate.

(** ** What a valid configuration guarantees *)

Lemma unit_bind {E A} (r : result E unit) (k : result E A) a :
  (_ ←! r; k) = Ok a ↔ r = Ok () ∧ k = Ok a.
Proof. rewrite rbind_ok. split; [intros ([] & ? & ?); done|intros [? ?]; by exists ()]. Qed.

Lemma str_in_elem x l : str_in x l = true ↔ x ∈ l.
Proof.
  unfold str_in. rewrite existsb_exists. split.
  - intros (y & Hy & ->%String.eqb_eq). by apply list_elem_of_In.
  - intros Hx. exists x. split; [by apply list_elem_of_In|apply String.eqb_refl].
Qed.
Lemma str_in_false x l : str_in x l = false ↔ x ∉ l.
Proof. by rewrite <- str_in_elem, not_true_iff_false. Qed.

Lemma checkEach_ok {A} (f : A → verdict) l : checkEach f l = Ok () ↔ Forall (λ x, f x = Ok ()) l.
Proof.
  induction l as [|x l IH]; cbn [checkEach]; [split; [by constructor|done]|].
  rewrite unit_bind, IH, Forall_cons. done.
Qed.
Lemma checkIDs_ok seen l : checkIDs seen l = Ok () →
  NoDup (map de_ID l) ∧ Forall (λ d, de_ID d ≠ "" ∧ de_ID d ∉ seen) l.
Proof.
  revert seen. induction l as [|d l IH]; intros seen; cbn [checkIDs]; [split; constructor|].
  rewrite !fail_if_ok, String.eqb_neq, str_in_false. intros (Hne & Hs & Hl).
  destruct (IH _ Hl) as [Hnd Hall]. split.
  - cbn. constructor; [|done]. intros (d' & Hd & Hin)%list_elem_of_fmap.
    rewrite Forall_forall in Hall. destruct (Hall d' Hin) as [_ Hn]. apply Hn. rewrite <- Hd. left.
  - constructor; [done|]. eapply Forall_impl; [exact Hall|]. intros d' [? Hn]. split; [done|].
    intros Hin. apply Hn. by right.
Qed.
Lemma checkNamespaces_ok seen l : checkNamespaces seen l = Ok () →
  NoDup (map trim_space l) ∧ Forall (λ n, blank n = false ∧ trim_space n ∉ seen) l.
Proof.
  revert seen. induction l as [|n l IH]; intros seen; cbn [checkNamespaces]; [split; constructor|].
  rewrite !fail_if_ok, str_in_false. intros (Hne & Hs & Hl).
  destruct (IH _ Hl) as [Hnd Hall]. split.
  - cbn. constructor; [|done]. intros (n' & Hn & Hin)%list_elem_of_fmap.
    rewrite Forall_forall in Hall. destruct (Hall n' Hin) as [_ Hno]. apply Hno. rewrite <- Hn. left.
  - constructor; [done|]. eapply Forall_impl; [exact Hall|]. intros n' [? Hn]. split; [done|].
    intros Hin. apply Hn. by right.
Qed.
Lemma checkResources_ok seen l : checkResources seen l = Ok () →
  Forall (λ r, to_lower (trim_space r) ∈ supportedKubernetesResources) l.
Proof.
  revert seen. induction l as [|r l IH]; intros seen; cbn [checkResources]; [constructor|].
  rewrite !fail_if_ok, negb_false_iff, str_in_elem. intros (_ & Hs & _ & Hl). constructor; [done|]. by eapply IH.
Qed.

(** What passes validation passed each of its parts. *)
Lemma Validate_parts `{NetParsers} uri qualified labelValue c o :
  Validate uri qualified labelValue c o = Ok () →
  to_lower (trim_space (cf_LoggingLevel c)) ∈ ["debug"; "info"; "warn"; "error"] ∧
  checkCluster (cf_Cluster c) = Ok () ∧ checkController (cf_Controller c) = Ok () ∧
  checkMongo (cf_Mongo c) o = Ok () ∧ checkDecision (cf_Decision c) o = Ok () ∧
  checkRules qualified labelValue (cf_Rules c) = Ok () ∧
  checkNotifications uri (cf_Notifications c) o = Ok ().
Proof.
  unfold Validate. rewrite !fail_if_ok, !unit_bind, !negb_false_iff, str_in_elem. naive_solver.
Qed.
