(* ===== verification/Health.v ===== *)
(** * Package [internal/health]: readiness and the health endpoints

    [mark] is a loop around an atomic compare-and-swap that several goroutines
    may run at once; their interleavings are the steps of a relation.  The
    handlers are functions of the request and the checks that are set; the
    multiplexer of the standard library and the HTTP server are not modelled,
    [Run] gets the outcomes of the server's calls. *)
From S2P Require Import Prelude GoBase GoNet.

Definition configValidated : Z := 1.
Definition mongoReady : Z := 2.
Definition informersSynced : Z := 4.
Definition allStartupChecks : Z := Z.lor (Z.lor configValidated mongoReady) informersSynced.

(** [Ready] on the value of the atomic word. *)
Definition Ready (checks : Z) : bool := Z.land checks allStartupChecks =? allStartupChecks.

(** ** [mark], interleaved *)

(** A goroutine that runs [mark(check)]: about to load the word, about to swap
    with the value it loaded, done. *)
Variant marker := Loading (check : Z) | Swapping (check current : Z) | Marked (check : Z).
Definition marker_check (m : marker) : Z :=
  match m with Loading c | Swapping c _ | Marked c => c end.

Record readiness := { checks : Z; markers : list marker }.

(** [NewReadiness], and the goroutines that will mark the given checks. *)
Definition starting (l : list Z) : readiness := {| checks := 0; markers := map Loading l |}.

Inductive mark_step : readiness → readiness → Prop :=
  | mark_load s i check :
      markers s !! i = Some (Loading check) →
      mark_step s {| checks := checks s; markers := <[i := Swapping check (checks s)]> (markers s) |}
  | mark_swap s i check current :
      markers s !! i = Some (Swapping check current) → checks s = current →
      mark_step s {| checks := Z.lor current check; markers := <[i := Marked check]> (markers s) |}
  | mark_retry s i check current :
      markers s !! i = Some (Swapping check current) → checks s ≠ current →
      mark_step s {| checks := checks s; markers := <[i := Loading check]> (markers s) |}.

(** ** The handlers *)

Record http_reply := { hr_Status : Z; hr_Allow : string; hr_Body : string }.
Definition method_not_allowed : http_reply :=
  {| hr_Status := 405; hr_Allow := "GET"; hr_Body := "Method Not Allowed" +:+ String "010" "" |}.
Definition ok_reply : http_reply := {| hr_Status := 200; hr_Allow := ""; hr_Body := "ok" +:+ String "010" "" |}.

Definition healthz (request : Request) : http_reply :=
  if rq_Method request ≠s? "GET" then method_not_allowed else ok_reply.

(** The readiness tracker may be missing. *)
Definition readyz (tracker : option Z) (request : Request) : http_reply :=
  if rq_Method request ≠s? "GET" then method_not_allowed else
  match tracker with
  | None => {| hr_Status := 503; hr_Allow := ""; hr_Body := "not ready" +:+ String "010" "" |}
  | Some word =>
      if negb (Ready word) then {| hr_Status := 503; hr_Allow := ""; hr_Body := "not ready" +:+ String "010" "" |}
      else ok_reply
  end.

Record handlerOptions := { ho_readiness : option Z; ho_metrics : option (Request → http_reply) }.
Definition HandlerOption : Type := option (handlerOptions → handlerOptions).
Definition WithReadiness (word : option Z) : HandlerOption :=
  Some (λ o, {| ho_readiness := word; ho_metrics := ho_metrics o |}).
Definition WithMetrics (handler : option (Request → http_reply)) : HandlerOption :=
  Some (λ o, {| ho_readiness := ho_readiness o; ho_metrics := handler |}).

(** The patterns registered with the multiplexer. *)
Definition NewHandler (options : list HandlerOption) : list (string * (Request → http_reply)) :=
  let configuration := fold_left (λ c option, match option with Some f => f c | None => c end) options
                         {| ho_readiness := None; ho_metrics := None |} in
  [("/healthz", healthz); ("/readyz", readyz (ho_readiness configuration))]
  ++ match ho_metrics configuration with Some handler => [("/metrics", handler)] | None => [] end.

(** [Server.Run]: either serving ends by itself, or the context ends and the
    server is shut down. *)
Variant ServeError := ErrServerClosed | serve_error (what : string).
Variant server_run :=
  | serving_ended (err : ServeError)
  | context_done (shutdown : option string) (served : ServeError).
Definition served_result (err : ServeError) : option string :=
  match err with ErrServerClosed => None | serve_error what => Some what end.
Definition Server_Run (r : server_run) : option string :=
  match r with
  | serving_ended err => served_result err
  | context_done (Some err) _ => Some err
  | context_done None err => served_result err
  end.

(** ** The invariant of the interleavings *)

Definition startup_check (c : Z) : Prop := c = configValidated ∨ c = mongoReady ∨ c = informersSynced.

(** The bits of the word are those of the checks that are marked. *)
Record marking (s : readiness) : Prop := {
  mk_checks : Forall (λ m, startup_check (marker_check m)) (markers s);
  mk_word : ∀ i, Z.testbit (checks s) i = true ↔
    ∃ c, Marked c ∈ markers s ∧ Z.testbit c i = true
}.

Lemma marked_insert (l : list marker) (i : nat) m c d :
  l !! i = Some m → (∀ d, m ≠ Marked d) → Marked d ∈ <[i := Marked c]> l ↔ d = c ∨ Marked d ∈ l.
Proof.
  intros Hi Hm. rewrite !list_elem_of_lookup. split.
  - intros [j Hj]. destruct (decide (i = j)) as [<-|Hne].
    + rewrite list_lookup_insert_eq in Hj by (by eapply lookup_lt_Some). left. congruence.
    + rewrite list_lookup_insert_ne in Hj by done. right. eauto.
  - intros [->|[j Hj]].
    + exists i. apply list_lookup_insert_eq. by eapply lookup_lt_Some.
    + exists j. rewrite list_lookup_insert_ne; [done|]. intros <-. rewrite Hi in Hj. injection Hj as ->. by eapply Hm.
Qed.
Lemma marked_unmarked (l : list marker) (i : nat) m m' d :
  l !! i = Some m → (∀ d, m ≠ Marked d) → (∀ d, m' ≠ Marked d) → Marked d ∈ <[i := m']> l ↔ Marked d ∈ l.
Proof.
  intros Hi Hm Hm'. rewrite !list_elem_of_lookup. split; intros [j Hj]; exists j.
  - destruct (decide (i = j)) as [<-|Hne]; [|by rewrite list_lookup_insert_ne in Hj].
    rewrite list_lookup_insert_eq in Hj by (by eapply lookup_lt_Some). injection Hj as ->. by destruct (Hm' d).
  - rewrite list_lookup_insert_ne; [done|]. intros <-. rewrite Hi in Hj. injection Hj as ->. by destruct (Hm d).
Qed.

Lemma marking_step s s' : mark_step s s' → marking s → marking s'.
Proof.
  intros Hstep [Hc Hw]. assert (Hk : ∀ i m, markers s !! i = Some m → startup_check (marker_check m))
    by (intros i m Hi; rewrite Forall_lookup in Hc; by eapply Hc).
  destruct Hstep as [s i check Hi|s i check current Hi <-|s i check current Hi Hne]; split; cbn.
  - by apply Forall_insert; [|apply (Hk i _ Hi)].
  - intros b. rewrite Hw. apply exist_proper. intros c.
    by rewrite (marked_unmarked (markers s) i (Loading check)).
  - by apply Forall_insert; [|apply (Hk i _ Hi)].
  - intros b. rewrite Z.lor_spec, orb_true_iff, Hw. split.
    + intros [(c & Hin & Hb)|Hb].
      * exists c. rewrite (marked_insert _ _ _ _ _ Hi) by done. auto.
      * exists check. rewrite (marked_insert _ _ _ _ _ Hi) by done. auto.
    + intros (c & Hin & Hb). rewrite (marked_insert _ _ _ _ _ Hi) in Hin by done.
      destruct Hin as [->|Hin]; [by right|left; by exists c].
  - by apply Forall_insert; [|apply (Hk i _ Hi)].
  - intros b. rewrite Hw. apply exist_proper. intros c.
    by rewrite (marked_unmarked (markers s) i (Swapping check current)).
Qed.

Lemma marking_start l : Forall startup_check l → marking (starting l).
Proof.
  intros Hl. split; cbn; [by apply Forall_map|]. intros i. rewrite Z.testbit_0_l. split; [done|].
  intros (c & Hin & _). apply list_elem_of_fmap in Hin as (? & ? & _). done.
Qed.
Lemma marking_reachable l s : Forall startup_check l → rtc mark_step (starting l) s → marking s.
Proof.
  intros Hl Hr. remember (starting l) as s0 eqn:Hs. assert (H0 : marking s0) by (subst; by apply marking_start).
  clear Hs. induction Hr as [|x y z Hxy Hyz IH]; [done|]. apply IH. by eapply marking_step.
Qed.

Lemma Ready_bits w : Ready w = true ↔ Z.testbit w 0 = true ∧ Z.testbit w 1 = true ∧ Z.testbit w 2 = true.
Proof.
  unfold Ready. rewrite Z.eqb_eq. change allStartupChecks with 7. split.
  - intros Hw. assert (Hb : ∀ i, Z.testbit (Z.land w 7) i = Z.testbit 7 i) by (intros; by rewrite Hw).
    pose proof (Hb 0) as H0. pose proof (Hb 1) as H1. pose proof (Hb 2) as H2.
    rewrite Z.land_spec in H0, H1, H2. cbn in H0, H1, H2. rewrite !andb_true_r in *. done.
  - intros (H0 & H1 & H2). apply Z.bits_inj'. intros i Hi. rewrite Z.land_spec.
    destruct (decide (i = 0)) as [->|]; [by rewrite H0|]. destruct (decide (i = 1)) as [->|]; [by rewrite H1|].
    destruct (decide (i = 2)) as [->|]; [by rewrite H2|].
    assert (Hz : Z.testbit 7 i = false) by (apply Z.bits_above_log2; cbn; lia). by rewrite Hz, andb_false_r.
Qed.

(** C40: readiness is exact under every interleaving.  Whatever goroutines mark
    the three startup checks, concurrently and repeatedly, the probe [/readyz]
    answers 200 to a GET exactly when each of the three checks was marked by a
    call that has completed; no completed mark is ever lost to another. *)
Theorem readiness_exact l s request :
  Forall startup_check l → rtc mark_step (starting l) s → rq_Method request = "GET" →
  hr_Status (readyz (Some (checks s)) request) = 200 ↔
  Marked configValidated ∈ markers s ∧ Marked mongoReady ∈ markers s ∧ Marked informersSynced ∈ markers s.
Proof.
  intros Hl Hr Hm. destruct (marking_reachable l s Hl Hr) as [Hc Hw].
  assert (Hbit : ∀ i check, startup_check check → Z.testbit check i = true →
    (∀ c, startup_check c → Z.testbit c i = true → c = check) →
    Z.testbit (checks s) i = true ↔ Marked check ∈ markers s).
  { intros i check _ Hi Honly. rewrite Hw. split; [|eauto]. intros (c & Hin & Hb).
    rewrite Forall_forall in Hc. pose proof (Hc _ Hin) as Hk. cbn in Hk. by rewrite <- (Honly c Hk Hb). }
  unfold readyz. rewrite Hm. cbn [String.eqb Ascii.eqb Bool.eqb negb].
  assert (Hready : Ready (checks s) = true ↔ Marked configValidated ∈ markers s ∧
    Marked mongoReady ∈ markers s ∧ Marked informersSynced ∈ markers s).
  { rewrite Ready_bits. rewrite (Hbit 0 configValidated), (Hbit 1 mongoReady), (Hbit 2 informersSynced);
      first [done|by left|by right; left|by right; right|idtac].
    all: by intros c [-> | [-> | ->]]. }
  rewrite <- Hready. destruct (Ready (checks s)); cbn; split; congruence.
Qed.

(** ** Progress *)

Definition undone (m : marker) : nat := match m with Marked _ => 0 | _ => 1 end.
(** The steps a goroutine needs while the word stays as it is. *)
Definition pending (word : Z) (m : marker) : nat :=
  match m with
  | Marked _ => 0
  | Loading _ => 2
  | Swapping _ current => if word =? current then 1 else 3
  end.
Definition total (f : marker → nat) (l : list marker) : nat := sum_list (map f l).
Definition remaining_steps (s : readiness) : nat :=
  total undone (markers s) * (3 * length (markers s) + 1) + total (pending (checks s)) (markers s).

Lemma total_insert f l i m m' :
  l !! i = Some m → (total f (<[i := m']> l) + f m = total f l + f m')%nat.
Proof.
  unfold total. revert i. induction l as [|x l IH]; intros [|i] Hi; [done|done| |].
  - injection Hi as ->. change (<[O := m']> (m :: l)) with (m' :: l). simpl. lia.
  - specialize (IH i Hi). change (<[S i := m']> (x :: l)) with (x :: <[i := m']> l). simpl in *. lia.
Qed.
Lemma pending_bound w l : (total (pending w) l ≤ 3 * length l)%nat.
Proof.
  unfold total. induction l as [|[c|c d|c] l IH]; cbn; try lia. destruct (w =? d); lia.
Qed.

Lemma step_decreases s s' : mark_step s s' → (remaining_steps s' < remaining_steps s)%nat.
Proof.
  intros Hstep. unfold remaining_steps.
  destruct Hstep as [s i check Hi|s i check current Hi Hc|s i check current Hi Hc]; cbn [checks markers];
    rewrite length_insert.
  - pose proof (total_insert undone _ _ _ (Swapping check (checks s)) Hi) as Hu.
    pose proof (total_insert (pending (checks s)) _ _ _ (Swapping check (checks s)) Hi) as Hp.
    cbn in Hu, Hp. rewrite Z.eqb_refl in Hp. assert (Heq : ∀ n : nat, (total undone (<[i:=Swapping check (checks s)]> (markers s)) * n
      = total undone (markers s) * n)%nat) by (intros; f_equal; lia). rewrite Heq. lia.
  - pose proof (total_insert undone _ _ _ (Marked check) Hi) as Hu. cbn in Hu.
    pose proof (pending_bound (Z.lor current check) (<[i:=Marked check]> (markers s))) as Hb.
    rewrite length_insert in Hb. nia.
  - pose proof (total_insert undone _ _ _ (Loading check) Hi) as Hu.
    pose proof (total_insert (pending (checks s)) _ _ _ (Loading check) Hi) as Hp.
    cbn in Hu, Hp. rewrite (proj2 (Z.eqb_neq _ _)) in Hp by done.
    assert (Heq : ∀ n : nat, (total undone (<[i:=Loading check]> (markers s)) * n
      = total undone (markers s) * n)%nat) by (intros; f_equal; lia). rewrite Heq. lia.
Qed.

(** Goroutines keep their checks. *)
Lemma markers_kept l s : rtc mark_step (starting l) s → map marker_check (markers s) = l.
Proof.
  assert (Hstep : ∀ s s', mark_step s s' → map marker_check (markers s') = map marker_check (markers s)).
  { intros ? ? Hst. assert (Hins : ∀ (ms : list marker) i m m', ms !! i = Some m → marker_check m' = marker_check m →
      map marker_check (<[i := m']> ms) = map marker_check ms).
    { intros ms i m m' Hi He. rewrite <- (list_insert_id ms i m Hi) at 2. 
      change (map marker_check ?l) with (marker_check <$> l). by rewrite !list_fmap_insert, He. }
    destruct Hst; cbn; by eapply Hins. }
  intros Hr. remember (starting l) as s0 eqn:Hs.
  assert (H0 : map marker_check (markers s0) = l) by (subst; cbn; rewrite map_map; apply map_id).
  clear Hs. induction Hr as [|x y z Hxy Hyz IH]; [done|]. apply IH. by rewrite (Hstep _ _ Hxy).
Qed.

(** Marking always completes.  However the goroutines are scheduled, no
    sequence of steps is longer than the bound, whoever loses a compare-and-swap
    loads again; and when no step is left every [mark] has returned, so with
    all three checks among them the process is ready. *)
Theorem marking_completes l s :
  Forall startup_check l → rtc mark_step (starting l) s →
  (∀ n s', nsteps mark_step n s s' → (n ≤ remaining_steps s)%nat) ∧
  ((∀ s', ¬ mark_step s s') →
   Forall (λ m, ∃ c, m = Marked c) (markers s) ∧
   (configValidated ∈ l → mongoReady ∈ l → informersSynced ∈ l → Ready (checks s) = true)).
Proof.
  intros Hl Hr. split.
  - clear Hr. intros n s' Hn. induction Hn as [|n x y z Hxy Hyz IH]; [lia|].
    apply step_decreases in Hxy. lia.
  - intros Hstuck. assert (Hdone : Forall (λ m, ∃ c, m = Marked c) (markers s)).
    { apply Forall_lookup. intros i [c|c current|c] Hi; [| |by exists c].
      - by destruct (Hstuck _ (mark_load s i c Hi)).
      - destruct (decide (checks s = current)) as [He|He];
          [by destruct (Hstuck _ (mark_swap s i c current Hi He))|by destruct (Hstuck _ (mark_retry s i c current Hi He))]. }
    split; [done|]. intros H1 H2 H3. destruct (marking_reachable l s Hl Hr) as [_ Hw].
    assert (Hkeep : map marker_check (markers s) = l) by (by apply markers_kept).
    assert (Hin : ∀ c, c ∈ l → Marked c ∈ markers s).
    { intros c Hc. rewrite <- Hkeep in Hc. apply list_elem_of_fmap in Hc as (m & -> & Hm).
      rewrite Forall_forall in Hdone. by destruct (Hdone m Hm) as [d ->]. }
    apply Ready_bits. rewrite !Hw. split_and!;
      [exists configValidated|exists mongoReady|exists informersSynced]; (split; [by apply Hin|done]).
Qed.

(** ** Witnesses *)

Module HealthWitness.
Definition all : list Z := [configValidated; mongoReady; informersSynced].
Definition get : Request := {| rq_Method := "GET"; rq_URL := "/readyz"; rq_Header := ∅; rq_Body := "" |}.
(** Two goroutines load the word at once; the slower one has to try again. *)
Definition done_all : readiness :=
  {| checks := 7; markers := [Marked configValidated; Marked mongoReady; Marked informersSynced] |}.
Lemma run : rtc mark_step (starting all) done_all.
Proof.
  eapply rtc_l; [by apply (mark_load _ 0 configValidated)|].
  eapply rtc_l; [by apply (mark_load _ 1 mongoReady)|].
  eapply rtc_l; [by apply (mark_swap _ 1 mongoReady 0)|].
  eapply rtc_l; [by apply (mark_retry _ 0 configValidated 0)|].
  eapply rtc_l; [by apply (mark_load _ 0 configValidated)|].
  eapply rtc_l; [by apply (mark_swap _ 0 configValidated 2)|].
  eapply rtc_l; [by apply (mark_load _ 2 informersSynced)|].
  eapply rtc_l; [by apply (mark_swap _ 2 informersSynced 3)|]. apply rtc_refl.
Qed.
Lemma all_checks : Forall startup_check all.
Proof.
  apply Forall_forall. intros c. unfold all, startup_check. rewrite !elem_of_cons, elem_of_nil. naive_solver.
Qed.
End HealthWitness.

Lemma readiness_exact_witness : hr_Status (readyz (Some 7) HealthWitness.get) = 200.
Proof.
  apply (readiness_exact HealthWitness.all HealthWitness.done_all HealthWitness.get
    HealthWitness.all_checks HealthWitness.run eq_refl).
  split; [|split]; repeat constructor.
Defined.

Lemma marking_completes_witness : (8 ≤ remaining_steps (starting HealthWitness.all))%nat.
Proof.
  apply (proj1 (marking_completes HealthWitness.all (starting HealthWitness.all)
    HealthWitness.all_checks (rtc_refl _ _)) 8%nat HealthWitness.done_all).
  eapply nsteps_l; [by apply (mark_load _ 0 configValidated)|].
  eapply nsteps_l; [by apply (mark_load _ 1 mongoReady)|].
  eapply nsteps_l; [by apply (mark_swap _ 1 mongoReady 0)|].
  eapply nsteps_l; [by apply (mark_retry _ 0 configValidated 0)|].
  eapply nsteps_l; [by apply (mark_load _ 0 configValidated)|].
  eapply nsteps_l; [by apply (mark_swap _ 0 configValidated 2)|].
  eapply nsteps_l; [by apply (mark_load _ 2 informersSynced)|].
  eapply nsteps_l; [by apply (mark_swap _ 2 informersSynced 3)|]. apply nsteps_O.
Defined.
