(* ===== verification/Lifecycle.v ===== *)
(** * Package [internal/app], [app.go], and the loop of [resolution_sweeper.go]:
    starting, stopping and repeating

    Goroutines, channels, contexts and timers are seen through what they
    deliver: [Run] consumes the events its [select] statements receive, in the
    order in which it receives them. *)
From S2P Require Import Prelude GoBase GoNet.

(** ** Errors *)

(** An error tree: [errors.Is] looks for the context errors in it. *)
Inductive app_error :=
  | ErrContext (e : CtxError)
  | ErrText (what : string)
  | ErrWrap (what : string) (err : app_error)
  | ErrJoin (errs : list app_error).

Definition ctx_eqb (a b : CtxError) : bool :=
  match a, b with
  | Canceled, Canceled | DeadlineExceeded, DeadlineExceeded => true
  | _, _ => false
  end.
Fixpoint errors_Is (err : app_error) (target : CtxError) : bool :=
  match err with
  | ErrContext e => ctx_eqb e target
  | ErrText _ => false
  | ErrWrap _ err => errors_Is err target
  | ErrJoin errs => existsb (λ err, errors_Is err target) errs
  end.
(** [errors.Join(a, b)] for a non-nil [b]. *)
Definition errors_Join (a : option app_error) (b : app_error) : app_error :=
  ErrJoin (option_list a ++ [b]).

(** [parent] is the error of the parent context, if it has ended. *)
Definition normalizeRunnerError (parent : option CtxError) (err : option app_error) : option app_error :=
  match err with
  | None => None
  | Some e =>
      if match parent with Some p => errors_Is e p | None => false end || errors_Is e Canceled
      then None else Some e
  end.

(** ** The application *)

(** Runners and closers may be nil. *)
Record AppConfig (W : Type) := {
  ac_Runners : list (option (eff W app_error unit)); ac_Closers : list (option (eff W app_error unit));
  ac_ShutdownTimeout : duration
}.
Arguments ac_Runners {W}. Arguments ac_Closers {W}. Arguments ac_ShutdownTimeout {W}.
Record App (W : Type) := {
  app_runners : list (eff W app_error unit); app_closers : list (eff W app_error unit);
  app_shutdownTimeout : duration
}.
Arguments app_runners {W}. Arguments app_closers {W}. Arguments app_shutdownTimeout {W}.

Definition NewApp {W} (c : AppConfig W) : result string (App W) :=
  fail_if! ac_ShutdownTimeout c <=? 0 with "application shutdown timeout must be positive";
  match mapM id (ac_Runners c) with
  | None => Err "application runner must not be nil"
  | Some runners =>
      match mapM id (ac_Closers c) with
      | None => Err "application closer must not be nil"
      | Some closers => Ok {| app_runners := runners; app_closers := closers;
                              app_shutdownTimeout := ac_ShutdownTimeout c |}
      end
  end.

(** What [Run] receives: the result of a runner, with the state of the parent
    context at that time; the end of the parent context; the shutdown timer. *)
Variant app_event :=
  | RunnerDone (err : option app_error) (parent : option CtxError)
  | ParentDone
  | TimerFired.

(** [ar_stopping]: the runners' context has been cancelled. *)
Record app_run := { ar_stopping : bool; ar_remaining : nat; ar_runErr : option app_error }.

Definition app_start (runners : nat) : app_run :=
  {| ar_stopping := Nat.eqb runners 0; ar_remaining := runners; ar_runErr := None |}.

Definition timeout_error : app_error := ErrText "application runners did not stop in time".

(** The two [select] statements; [None] where an event is not received. *)
Definition app_receive (s : app_run) (e : app_event) : option app_run :=
  match ar_stopping s, ar_remaining s, e with
  | false, S remaining, RunnerDone err parent =>
      Some {| ar_stopping := true; ar_remaining := remaining; ar_runErr := normalizeRunnerError parent err |}
  | false, _, ParentDone =>
      Some {| ar_stopping := true; ar_remaining := ar_remaining s; ar_runErr := ar_runErr s |}
  | true, S remaining, RunnerDone err parent =>
      Some {| ar_stopping := true; ar_remaining := remaining;
              ar_runErr := match ar_runErr s with
                           | None => normalizeRunnerError parent err
                           | Some e => Some e
                           end |}
  | true, S _, TimerFired =>
      Some {| ar_stopping := true; ar_remaining := 0;
              ar_runErr := Some (errors_Join (ar_runErr s) timeout_error) |}
  | _, _, _ => None
  end.
Fixpoint app_receives (s : app_run) (l : list app_event) : option app_run :=
  match l with
  | [] => Some s
  | e :: l => s' ← app_receive s e; app_receives s' l
  end.
Definition runners_gone (s : app_run) : bool := ar_stopping s && Nat.eqb (ar_remaining s) 0.

(** The closers run in reverse order, all of them. *)
Fixpoint app_close {W} (closers : list (eff W app_error unit)) (runErr : option app_error) (w : W)
    : option app_error * W :=
  match closers with
  | [] => (runErr, w)
  | closer :: closers =>
      match closer w with
      | (Ok _, w) => app_close closers runErr w
      | (Err e, w) =>
          app_close closers (Some (errors_Join runErr (ErrWrap "close application resource" e))) w
      end
  end.
(** [Run] once the events have stopped or outlasted the runners. *)
Definition App_Run {W} (a : App W) (events : list app_event) (w : W) : option (option app_error * W) :=
  s ← app_receives (app_start (length (app_runners a))) events;
  if runners_gone s then Some (app_close (rev (app_closers a)) (ar_runErr s) w) else None.

(** ** [PeriodicRunner] *)

(** A round: what the runner returns, whether the context has ended by then, and
    whether it ends before the timer of the interval. *)
Record round := { rd_result : option app_error; rd_ended : bool; rd_ends_waiting : bool }.

(** [Some result] when [Run] has returned, [None] while it is running. *)
Fixpoint periodicLoop (rounds : list round) : option (option app_error) :=
  match rounds with
  | [] => None
  | r :: rounds =>
      match rd_result r with
      | Some e => Some (if rd_ended r then None else Some e)
      | None => if rd_ends_waiting r then Some None else periodicLoop rounds
      end
  end.
Definition PeriodicRunner_Run (has_runner : bool) (interval : duration) (rounds : list round)
    : option (option app_error) :=
  if negb has_runner || (interval <=? 0)
  then Some (Some (ErrText "periodic runner and positive interval are required"))
  else periodicLoop rounds.

(** ** [ResolutionSweeper.Run] *)

(** The result of the first sweep and whether the context has ended by then,
    then the ticks with the result of their sweeps, until the context ends. *)
Fixpoint sweepLoop (ticks : list (option app_error)) (ends : bool) : option (option app_error) :=
  match ticks with
  | [] => if ends then Some None else None
  | Some e :: _ => Some (Some e)
  | None :: ticks => sweepLoop ticks ends
  end.
Definition Sweeper_Run (first : option app_error) (ended : bool) (ticks : list (option app_error))
    (ends : bool) : option (option app_error) :=
  match first with
  | Some e => if ended then sweepLoop ticks ends else Some (Some e)
  | None => sweepLoop ticks ends
  end.

(** ** Properties *)

(** The first error of a runner that is not the end of a context. *)
Definition event_error (e : app_event) : option app_error :=
  match e with RunnerDone err parent => normalizeRunnerError parent err | _ => None end.
Fixpoint first_error (l : list app_event) : option app_error :=
  match l with
  | [] => None
  | e :: l => match event_error e with Some x => Some x | None => first_error l end
  end.
Definition timed_out (l : list app_event) : bool :=
  existsb (λ e, match e with TimerFired => true | _ => false end) l.
Definition finished (l : list app_event) : nat :=
  length (List.filter (λ e, match e with RunnerDone _ _ => true | _ => false end) l).

Lemma receive_stopping s e s' : app_receive s e = Some s' → ar_stopping s' = true.
Proof. unfold app_receive. destruct s as [[] [|n] x], e; by intros [= <-]. Qed.

(** While stopping, the runners that are left are counted down, and the error
    is the first one, with the timeout joined to it. *)
Lemma receives_stopping l s s' :
  ar_stopping s = true → app_receives s l = Some s' → ar_remaining s' = 0%nat →
  ar_runErr s' =
    (let e := match ar_runErr s with Some x => Some x | None => first_error l end in
     if timed_out l then Some (errors_Join e timeout_error) else e) ∧
  (if timed_out l then finished l < ar_remaining s else finished l = ar_remaining s)%nat.
Proof.
  revert s. induction l as [|e l IH]; intros s Hs; cbn [app_receives].
  { intros [= <-] Hz. cbn. by destruct (ar_runErr s). }
  intros (s1 & He & Hl)%bind_Some Hz. pose proof (receive_stopping s e s1 He) as Hs1.
  destruct (IH s1 Hs1 Hl Hz) as [Herr Hcount]. unfold app_receive in He. rewrite Hs in He.
  destruct (ar_remaining s) as [|n] eqn:Hn; [by destruct e|]. destruct e as [err parent| |]; [| done |].
  - injection He as <-. unfold timed_out, finished in *. cbn in *. split; [|destruct (existsb _ l); lia].
    rewrite Herr. destruct (ar_runErr s); [done|]. by destruct (normalizeRunnerError parent err).
  - injection He as <-. cbn in *. destruct l as [|e l].
    + cbn in *. split; [|lia]. rewrite Herr. by destruct (ar_runErr s).
    + cbn in Hl. by destruct e.
Qed.

Lemma app_close_spec {W} (closers : list (eff W app_error unit)) runErr w :
  (app_close closers runErr w).2 = fold_left (λ w c, (c w).2) closers w ∧
  ((app_close closers runErr w).1 = None → runErr = None ∧
   ∀ pre c post, closers = pre ++ c :: post → ∃ w', c (fold_left (λ w c, (c w).2) pre w) = (Ok (), w')).
Proof.
  revert runErr w. induction closers as [|c closers IH]; intros runErr w; cbn [app_close fold_left].
  { split; [done|]. cbn. intros ->. split; [done|]. by intros [|] ? ? ?. }
  destruct (c w) as [[[]|e] w1] eqn:Hc; cbn [snd].
  - destruct (IH runErr w1) as [Hw He]. split; [done|]. intros H. destruct (He H) as [Hr Hall]. split; [done|].
    intros [|x pre] c' post [= <- ->]; cbn; [by eexists|]. rewrite Hc. by eapply Hall.
  - destruct (IH (Some (errors_Join runErr (ErrWrap "close application resource" e))) w1) as [Hw He].
    split; [done|]. intros H. by destruct (He H).
Qed.

(** C38: the application stops in order and reports the first failure.  When [Run]
    returns, every runner has returned or the shutdown timer has fired; every
    closer was called once, the last one first, whatever the runners or the
    other closers returned; and [Run] reports success only if no runner failed
    other than by the end of the context, the timer did not fire and every
    closer succeeded. *)
Theorem app_stops_in_order {W} (a : App W) events w err w' :
  App_Run a events w = Some (err, w') →
  (timed_out events = false → finished events = length (app_runners a)) ∧
  w' = fold_left (λ w c, (c w).2) (rev (app_closers a)) w ∧
  (err = None → timed_out events = false ∧ first_error events = None ∧
   ∀ pre c post, rev (app_closers a) = pre ++ c :: post →
     ∃ w1, c (fold_left (λ w c, (c w).2) pre w) = (Ok (), w1)) ∧
  (Forall (λ c : eff W app_error unit, ∀ w, ∃ w1, c w = (Ok (), w1)) (app_closers a) →
   timed_out events = false → err = first_error events).
Proof.
  unfold App_Run. intros (s & Hs & Hg)%bind_Some. destruct (runners_gone s) eqn:Hgone; [|done].
  unfold runners_gone in Hgone. rewrite andb_true_iff, Nat.eqb_eq in Hgone. destruct Hgone as [Hstop Hz].
  assert (Hmain : ar_runErr s = (if timed_out events then Some (errors_Join (first_error events) timeout_error)
      else first_error events) ∧ (timed_out events = false → finished events = length (app_runners a))).
  { destruct (length (app_runners a)) as [|n] eqn:Hn.
    - destruct (receives_stopping events (app_start 0) s eq_refl Hs Hz) as [He Hc]. cbn in He, Hc. split; [done|].
      intros Ht. by rewrite Ht in Hc.
    - destruct events as [|e l]; [cbn in Hs; injection Hs as <-; done|].
      cbn [app_receives] in Hs. apply bind_Some in Hs as (s1 & He & Hl).
      destruct (receives_stopping l s1 s (receive_stopping _ _ _ He) Hl Hz) as [Herr Hcount].
      destruct e as [x parent| |]; [..|done]; injection He as <-; unfold timed_out, finished in *; cbn in *.
      + rewrite Herr. split; [by destruct (normalizeRunnerError parent x)|]. intros Ht. rewrite Ht in Hcount. lia.
      + split; [done|]. intros Ht. by rewrite Ht in Hcount. }
  destruct Hmain as [Herr Hfin]. injection Hg as Hg.
  destruct (app_close_spec (rev (app_closers a)) (ar_runErr s) w) as [Hw He]. rewrite Hg in Hw, He. cbn in Hw, He.
  split_and!; [done|done|..].
  - intros Hnone. destruct (He Hnone) as [Hr Hall]. rewrite Herr in Hr.
    destruct (timed_out events); [done|]. by split_and!.
  - intros Hok Ht. rewrite Ht in Herr. rewrite <- Herr.
    assert (Hrev : Forall (λ c : eff W app_error unit, ∀ w, ∃ w1, c w = (Ok (), w1)) (rev (app_closers a)))
      by (by rewrite <- Permutation_rev).
    clear -Hg Hrev. revert w Hg. induction Hrev as [|c l Hc _ IH]; intros w; cbn [app_close]; [by intros [= <- _]|].
    destruct (Hc w) as [w1 ->]. apply IH.
Qed.

(** C39: shutdown is bounded.  Once [Run] is stopping, it takes at most as many
    events as there are runners left until it closes the resources, and the
    shutdown timer alone suffices; the end of the parent context, or of any
    runner, is what starts the stopping. *)
Theorem app_shutdown_bounded s :
  (ar_stopping s = true →
   ∀ l, (ar_remaining s ≤ length l)%nat → Forall (λ e, e ≠ ParentDone) l →
   ∃ n s', (n ≤ ar_remaining s)%nat ∧ app_receives s (take n l) = Some s' ∧ runners_gone s' = true) ∧
  (ar_stopping s = true → ar_remaining s ≠ 0%nat →
   ∃ s', app_receive s TimerFired = Some s' ∧ runners_gone s' = true) ∧
  (ar_stopping s = false → ar_remaining s ≠ 0%nat → ∀ e, e ≠ TimerFired →
   ∃ s', app_receive s e = Some s' ∧ ar_stopping s' = true).
Proof.
  split_and!.
  - remember (ar_remaining s) as n eqn:Hn. revert s Hn. induction n as [|n IH]; intros s Hn Hs l Hl Hp.
    { exists 0%nat, s. rewrite take_0. split_and!; [done|done|]. unfold runners_gone. by rewrite Hs, <- Hn. }
    destruct l as [|e l]; [cbn in Hl; lia|]. apply Forall_cons in Hp as [He Hp]. cbn in Hl.
    destruct e as [err parent| |]; [|done|].
    + destruct (IH {| ar_stopping := true; ar_remaining := n;
          ar_runErr := match ar_runErr s with None => normalizeRunnerError parent err | Some e => Some e end |}
          eq_refl eq_refl l ltac:(lia) Hp) as (m & s' & Hm & Hr & Hg).
      exists (S m), s'. split_and!; [lia| |done]. cbn [take app_receives]. unfold app_receive.
      by rewrite Hs, <- Hn.
    + exists 1%nat, {| ar_stopping := true; ar_remaining := 0; ar_runErr := Some (errors_Join (ar_runErr s) timeout_error) |}.
      split_and!; [lia| |done]. cbn. unfold app_receive. by rewrite Hs, <- Hn, take_0.
  - intros Hs Hr. unfold app_receive. rewrite Hs. destruct (ar_remaining s); [done|]. by eexists.
  - intros Hs Hr e He. unfold app_receive. rewrite Hs. destruct (ar_remaining s); [done|].
    destruct e; [by eexists|by eexists|done].
Qed.

Lemma periodic_runs rounds result :
  periodicLoop rounds = Some result →
  (result = None ↔ ∃ pre r post, rounds = pre ++ r :: post ∧
     Forall (λ r, rd_result r = None ∧ rd_ends_waiting r = false) pre ∧
     match rd_result r with Some _ => rd_ended r = true | None => rd_ends_waiting r = true end).
Proof.
  induction rounds as [|r rounds IH]; cbn; [done|].
  destruct (rd_result r) as [e|] eqn:Hr; [|destruct (rd_ends_waiting r) eqn:Hw].
  - intros [= <-]. split.
    + destruct (rd_ended r) eqn:He; [|done]. intros _. exists [], r, rounds. rewrite Hr. split_and!; [done|apply Forall_nil_2|done].
    + intros ([|x pre] & r' & post & [= -> ->] & Hpre & Hend); [rewrite Hr in Hend; by rewrite Hend|].
      apply Forall_cons in Hpre as [[Hx _] _]. congruence.
  - intros [= <-]. split; [|done]. intros _. exists [], r, rounds. rewrite Hr, Hw. split_and!; [done|apply Forall_nil_2|done].
  - intros H. rewrite (IH H). split.
    + intros (pre & r' & post & -> & Hpre & Hend). exists (r :: pre), r', post. split_and!; [done|by apply Forall_cons|done].
    + intros ([|x pre] & r' & post & [= -> ->] & Hpre & Hend); [rewrite Hr in Hend; congruence|].
      apply Forall_cons in Hpre as [_ Hpre]. by exists pre, r', post.
Qed.

(** ** Witnesses *)

Module LifecycleWitness.
Definition closer (name : string) (fails : bool) : eff (list string) app_error unit :=
  λ log, (if fails then Err (ErrText name) else Ok (), log ++ [name]).
Definition application : App (list string) := {|
  app_runners := [eret (); eret ()]; app_closers := [closer "store" false; closer "cache" true];
  app_shutdownTimeout := 30 * second |}.
Definition events : list app_event :=
  [RunnerDone (Some (ErrText "watch failed")) None; RunnerDone (Some (ErrWrap "run" (ErrContext Canceled))) None].
End LifecycleWitness.

Lemma app_stops_in_order_witness :
  ∃ err, App_Run LifecycleWitness.application LifecycleWitness.events [] = Some (err, ["cache"; "store"]) ∧
  finished LifecycleWitness.events = 2%nat.
Proof.
  eexists. split; [vm_compute; reflexivity|].
  apply (proj1 (app_stops_in_order LifecycleWitness.application LifecycleWitness.events []
    (Some (errors_Join (Some (ErrText "watch failed")) (ErrWrap "close application resource" (ErrText "cache"))))
    ["cache"; "store"] ltac:(vm_compute; reflexivity))).
  reflexivity.
Defined.

Lemma app_shutdown_bounded_witness :
  ∃ s', app_receive (app_start 2) ParentDone = Some s' ∧ ar_stopping s' = true.
Proof.
  apply (app_shutdown_bounded (app_start 2)); [reflexivity|discriminate|discriminate].
Defined.
