(* ===== verification/Telemetry.v ===== *)
(** * Package [internal/telemetry]: metrics and logging

    The collector's maps are [gmap]s; a mutex guards every method, so the
    methods run one after the other.  Counters are 64-bit and wrap around.
    The text of a float and of a quoted string are those of [strconv], given by
    parameters; a log record is the level, the message and the attributes that
    are handed to the logger. *)
From Stdlib Require Import SpecFloat.
From S2P Require Import Prelude GoBase Signing Provider GoNet Lifecycle.
#[local] Open Scope Z_scope.

(** ** Labels with a bounded range *)

Definition allowedOutcomes : list string :=
  ["success"; "error"; "retryable"; "permanent"; "not_found"; "conflict"; "canceled"; "timeout"; "unknown"].
Definition allowedIncidentStatuses : list string := ["open"; "resolved"; "suppressed"; "unknown"].
Definition allowedSeverities : list string := ["info"; "warning"; "critical"; "unknown"].
Definition allowedRules : list string :=
  ["ignored"; "job-failed"; "pod-crash-loop"; "pod-unschedulable"; "image-pull-failure";
   "workload-unavailable"; "warning-event"; "recovered"; "resource-deleted"; "none"; "other"].
Definition allowedMongoOperations : list string :=
  ["ready"; "get_incident"; "list_open_incidents"; "upsert_snapshot"; "upsert_incident";
   "update_incident"; "commit"; "claim_delivery"; "complete_delivery"; "reschedule_delivery";
   "count_pending"; "close"; "unknown"].

Definition normalize (value : string) (allowed : list string) (fallback : string) : string :=
  let value := to_lower (trim_space value) in
  if bool_decide (value ∈ allowed) then value else fallback.
Definition normalizeOutcome (v : string) : string := normalize v allowedOutcomes "unknown".
Definition normalizeIncidentStatus (v : string) : string := normalize v allowedIncidentStatuses "unknown".
Definition normalizeSeverity (v : string) : string := normalize v allowedSeverities "unknown".
Definition normalizeRule (v : string) : string := normalize v allowedRules "other".
Definition normalizeMongoOperation (v : string) : string := normalize v allowedMongoOperations "unknown".
Definition normalizeConfigured (value : string) : string :=
  let value := trim_space value in
  if (value =s? "") || (128 <? len value) then "unknown" else value.

(** ** The collector *)

(** [d.Seconds()]. *)
Definition duration_seconds (d : duration) : spec_float :=
  f64_add (f64_of_Z (Z.quot d second))
    (SFdiv 53 1024 (f64_of_Z (Z.rem d second)) (f64_of_Z second)).

Record durationValues := { dv_Count : Z; dv_Sum : spec_float }.
Definition no_duration : durationValues := {| dv_Count := 0; dv_Sum := S754_zero false |}.
Definition observe_duration (d : duration) (v : durationValues) : durationValues :=
  {| dv_Count := (dv_Count v + 1) `mod` 2 ^ 64; dv_Sum := f64_add (dv_Sum v) (duration_seconds d) |}.

Abbreviation counters K := (gmap K Z) (only parsing).
Definition add_count `{Countable K} (k : K) (n : Z) (m : gmap K Z) : gmap K Z :=
  <[k := (default 0 (m !! k) + n) `mod` 2 ^ 64]> m.
Definition add_duration `{Countable K} (k : K) (d : duration) (m : gmap K durationValues)
    : gmap K durationValues :=
  <[k := observe_duration d (default no_duration (m !! k))]> m.

(** The label structs are tuples: status, severity, rule; provider, model;
    provider, model, outcome; operation, outcome; destination, outcome. *)
Record Metrics := {
  mt_reconciles : gmap string Z; mt_reconcileDuration : durationValues; mt_queueDepth : Z;
  mt_incidentTransitions : gmap (string * string * string) Z;
  mt_providerRequests : gmap (string * string * string) Z;
  mt_providerRetries : gmap (string * string) Z;
  mt_providerDuration : gmap (string * string * string) durationValues;
  mt_mongoOperations : gmap (string * string) Z;
  mt_mongoDuration : gmap (string * string) durationValues;
  mt_outboxPending : Z;
  mt_deliveryAttempts : gmap (string * string) Z
}.
Definition NewMetrics : Metrics :=
  {| mt_reconciles := ∅; mt_reconcileDuration := no_duration; mt_queueDepth := 0;
     mt_incidentTransitions := ∅; mt_providerRequests := ∅; mt_providerRetries := ∅;
     mt_providerDuration := ∅; mt_mongoOperations := ∅; mt_mongoDuration := ∅; mt_outboxPending := 0;
     mt_deliveryAttempts := ∅ |}.

Definition ObserveReconcile (outcome : string) (d : duration) (m : Metrics) : Metrics :=
  {| mt_reconciles := add_count (normalizeOutcome outcome) 1 (mt_reconciles m);
     mt_reconcileDuration := observe_duration d (mt_reconcileDuration m);
     mt_queueDepth := mt_queueDepth m; mt_incidentTransitions := mt_incidentTransitions m;
     mt_providerRequests := mt_providerRequests m; mt_providerRetries := mt_providerRetries m;
     mt_providerDuration := mt_providerDuration m; mt_mongoOperations := mt_mongoOperations m;
     mt_mongoDuration := mt_mongoDuration m; mt_outboxPending := mt_outboxPending m;
     mt_deliveryAttempts := mt_deliveryAttempts m |}.
Definition SetQueueDepth (depth : Z) (m : Metrics) : Metrics :=
  {| mt_reconciles := mt_reconciles m; mt_reconcileDuration := mt_reconcileDuration m;
     mt_queueDepth := if depth <? 0 then 0 else depth;
     mt_incidentTransitions := mt_incidentTransitions m;
     mt_providerRequests := mt_providerRequests m; mt_providerRetries := mt_providerRetries m;
     mt_providerDuration := mt_providerDuration m; mt_mongoOperations := mt_mongoOperations m;
     mt_mongoDuration := mt_mongoDuration m; mt_outboxPending := mt_outboxPending m;
     mt_deliveryAttempts := mt_deliveryAttempts m |}.
Definition ObserveIncidentTransition (status severity rule : string) (m : Metrics) : Metrics :=
  {| mt_reconciles := mt_reconciles m; mt_reconcileDuration := mt_reconcileDuration m;
     mt_queueDepth := mt_queueDepth m;
     mt_incidentTransitions :=
       add_count (normalizeIncidentStatus status, normalizeSeverity severity, normalizeRule rule) 1
         (mt_incidentTransitions m);
     mt_providerRequests := mt_providerRequests m; mt_providerRetries := mt_providerRetries m;
     mt_providerDuration := mt_providerDuration m; mt_mongoOperations := mt_mongoOperations m;
     mt_mongoDuration := mt_mongoDuration m; mt_outboxPending := mt_outboxPending m;
     mt_deliveryAttempts := mt_deliveryAttempts m |}.
Definition ObserveProviderRequest (provider model outcome : string) (d : duration) (attempts : Z)
    (m : Metrics) : Metrics :=
  let identity := (normalizeConfigured provider, normalizeConfigured model) in
  let labels := (identity, normalizeOutcome outcome) in
  {| mt_reconciles := mt_reconciles m; mt_reconcileDuration := mt_reconcileDuration m;
     mt_queueDepth := mt_queueDepth m; mt_incidentTransitions := mt_incidentTransitions m;
     mt_providerRequests := add_count labels 1 (mt_providerRequests m);
     mt_providerRetries := if 1 <? attempts then add_count identity (attempts - 1) (mt_providerRetries m)
                           else mt_providerRetries m;
     mt_providerDuration := add_duration labels d (mt_providerDuration m);
     mt_mongoOperations := mt_mongoOperations m; mt_mongoDuration := mt_mongoDuration m;
     mt_outboxPending := mt_outboxPending m; mt_deliveryAttempts := mt_deliveryAttempts m |}.
Definition ObserveMongoOperation (operation outcome : string) (d : duration) (m : Metrics) : Metrics :=
  let labels := (normalizeMongoOperation operation, normalizeOutcome outcome) in
  {| mt_reconciles := mt_reconciles m; mt_reconcileDuration := mt_reconcileDuration m;
     mt_queueDepth := mt_queueDepth m; mt_incidentTransitions := mt_incidentTransitions m;
     mt_providerRequests := mt_providerRequests m; mt_providerRetries := mt_providerRetries m;
     mt_providerDuration := mt_providerDuration m;
     mt_mongoOperations := add_count labels 1 (mt_mongoOperations m);
     mt_mongoDuration := add_duration labels d (mt_mongoDuration m);
     mt_outboxPending := mt_outboxPending m; mt_deliveryAttempts := mt_deliveryAttempts m |}.
Definition SetOutboxPending (pending : Z) (m : Metrics) : Metrics :=
  {| mt_reconciles := mt_reconciles m; mt_reconcileDuration := mt_reconcileDuration m;
     mt_queueDepth := mt_queueDepth m; mt_incidentTransitions := mt_incidentTransitions m;
     mt_providerRequests := mt_providerRequests m; mt_providerRetries := mt_providerRetries m;
     mt_providerDuration := mt_providerDuration m; mt_mongoOperations := mt_mongoOperations m;
     mt_mongoDuration := mt_mongoDuration m; mt_outboxPending := if pending <? 0 then 0 else pending;
     mt_deliveryAttempts := mt_deliveryAttempts m |}.
Definition ObserveDeliveryAttempt (destination outcome : string) (m : Metrics) : Metrics :=
  {| mt_reconciles := mt_reconciles m; mt_reconcileDuration := mt_reconcileDuration m;
     mt_queueDepth := mt_queueDepth m; mt_incidentTransitions := mt_incidentTransitions m;
     mt_providerRequests := mt_providerRequests m; mt_providerRetries := mt_providerRetries m;
     mt_providerDuration := mt_providerDuration m; mt_mongoOperations := mt_mongoOperations m;
     mt_mongoDuration := mt_mongoDuration m; mt_outboxPending := mt_outboxPending m;
     mt_deliveryAttempts :=
       add_count (normalizeConfigured destination, normalizeOutcome outcome) 1 (mt_deliveryAttempts m) |}.

(** ** The scrape *)

Section Scrape.
Context (quote : string → string) (format_float : spec_float → string).

Definition labels (values : list (string * string)) : string :=
  "{" +:+ String.concat "," (map (λ kv, kv.1 +:+ "=" +:+ quote kv.2) values) +:+ "}".
Definition metric (name labelSet : string) (value : Z) : string :=
  name +:+ labelSet +:+ " " +:+ format_int value.
Definition metricFloat (name labelSet : string) (value : spec_float) : string :=
  name +:+ labelSet +:+ " " +:+ format_float value.

Definition lines_of `{Countable K} {A} (m : gmap K A) (f : K → A → list string) : list string :=
  flat_map (λ kv, f kv.1 kv.2) (map_to_list m).

Definition metric_lines (m : Metrics) : list string :=
  lines_of (mt_reconciles m) (λ outcome v,
    [metric "ruleraven_reconciliations_total" (labels [("outcome", outcome)]) v])
  ++ [metricFloat "ruleraven_reconcile_duration_seconds_sum" "" (dv_Sum (mt_reconcileDuration m));
      metric "ruleraven_reconcile_duration_seconds_count" "" (dv_Count (mt_reconcileDuration m));
      metric "ruleraven_queue_depth" "" (mt_queueDepth m);
      metric "ruleraven_outbox_pending" "" (mt_outboxPending m)]
  ++ lines_of (mt_incidentTransitions m) (λ '(status, severity, rule) v,
       [metric "ruleraven_incident_transitions_total"
          (labels [("rule", rule); ("severity", severity); ("status", status)]) v])
  ++ lines_of (mt_providerRequests m) (λ '(provider, model, outcome) v,
       [metric "ruleraven_provider_requests_total"
          (labels [("model", model); ("outcome", outcome); ("provider", provider)]) v])
  ++ lines_of (mt_providerRetries m) (λ '(provider, model) v,
       [metric "ruleraven_provider_retries_total" (labels [("model", model); ("provider", provider)]) v])
  ++ lines_of (mt_providerDuration m) (λ '(provider, model, outcome) v,
       let labelSet := labels [("model", model); ("outcome", outcome); ("provider", provider)] in
       [metricFloat "ruleraven_provider_request_duration_seconds_sum" labelSet (dv_Sum v);
        metric "ruleraven_provider_request_duration_seconds_count" labelSet (dv_Count v)])
  ++ lines_of (mt_mongoOperations m) (λ '(operation, outcome) v,
       [metric "ruleraven_mongodb_operations_total" (labels [("operation", operation); ("outcome", outcome)]) v])
  ++ lines_of (mt_mongoDuration m) (λ '(operation, outcome) v,
       let labelSet := labels [("operation", operation); ("outcome", outcome)] in
       [metricFloat "ruleraven_mongodb_operation_duration_seconds_sum" labelSet (dv_Sum v);
        metric "ruleraven_mongodb_operation_duration_seconds_count" labelSet (dv_Count v)])
  ++ lines_of (mt_deliveryAttempts m) (λ '(destination, outcome) v,
       [metric "ruleraven_delivery_attempts_total"
          (labels [("destination", destination); ("outcome", outcome)]) v]).

(** The status and the lines that are written; [None] for a method that is not
    allowed. *)
Definition serveHTTP (m : Metrics) (request : Request) : option (list string) :=
  if rq_Method request ≠s? "GET" then None else Some (sort_strings (metric_lines m)).
End Scrape.

(** ** Logging *)

Variant log_level := LevelDebug | LevelInfo | LevelWarn | LevelError.
Definition parseLevel (level : string) : option log_level :=
  let level := to_lower (trim_space level) in
  if level =s? "debug" then Some LevelDebug
  else if (level =s? "info") || (level =s? "") then Some LevelInfo
  else if level =s? "warn" then Some LevelWarn
  else if level =s? "error" then Some LevelError
  else None.

Variant attribute := AttrString (s : string) | AttrInt (z : Z) | AttrFloat (f : spec_float).
Record log_record := { lr_Level : log_level; lr_Message : string; lr_Attrs : list (string * attribute) }.

Definition safeErrorClass (err : app_error) : string :=
  if errors_Is err Canceled then "canceled"
  else if errors_Is err DeadlineExceeded then "timeout" else "internal".
(** [float64(d) / float64(time.Millisecond)]. *)
Definition milliseconds (d : duration) : spec_float :=
  if d <? 0 then S754_zero false else SFdiv 53 1024 (f64_of_Z d) (f64_of_Z 1000000).
Definition logWithSafeError (message : string) (err : option app_error) (attrs : list (string * attribute))
    : log_record :=
  match err with
  | None => {| lr_Level := LevelInfo; lr_Message := message; lr_Attrs := attrs |}
  | Some e => {| lr_Level := LevelError; lr_Message := message;
                 lr_Attrs := attrs ++ [("error_class", AttrString (safeErrorClass e))] |}
  end.

Record ReconcileLog := {
  rl_ClusterID : string; rl_IncidentID : string; rl_ResourceKind : string; rl_Namespace : string;
  rl_ResourceName : string; rl_RuleID : string; rl_Outcome : string; rl_Duration : duration;
  rl_Err : option app_error
}.
Definition LogReconcile (e : ReconcileLog) : log_record :=
  logWithSafeError "reconciliation completed" (rl_Err e)
    [("cluster_id", AttrString (rl_ClusterID e)); ("incident_id", AttrString (rl_IncidentID e));
     ("resource_kind", AttrString (rl_ResourceKind e)); ("namespace", AttrString (rl_Namespace e));
     ("resource_name", AttrString (rl_ResourceName e)); ("rule_id", AttrString (rl_RuleID e));
     ("outcome", AttrString (normalizeOutcome (rl_Outcome e)));
     ("latency_ms", AttrFloat (milliseconds (rl_Duration e)))].
Record ProviderLog := {
  pl_Provider : string; pl_Model : string; pl_RequestID : string; pl_Outcome : string;
  pl_Attempts : Z; pl_Duration : duration; pl_Err : option app_error
}.
Definition LogProvider (e : ProviderLog) : log_record :=
  logWithSafeError "provider request completed" (pl_Err e)
    [("provider", AttrString (normalizeConfigured (pl_Provider e)));
     ("model", AttrString (normalizeConfigured (pl_Model e)));
     ("request_id", AttrString (pl_RequestID e));
     ("outcome", AttrString (normalizeOutcome (pl_Outcome e))); ("attempts", AttrInt (pl_Attempts e));
     ("latency_ms", AttrFloat (milliseconds (pl_Duration e)))].
Record DeliveryLog := {
  dl_Destination : string; dl_DeliveryID : string; dl_Outcome : string; dl_Attempts : Z;
  dl_Duration : duration; dl_Err : option app_error
}.
Definition LogDelivery (e : DeliveryLog) : log_record :=
  logWithSafeError "notification delivery completed" (dl_Err e)
    [("destination", AttrString (normalizeConfigured (dl_Destination e)));
     ("delivery_id", AttrString (dl_DeliveryID e));
     ("outcome", AttrString (normalizeOutcome (dl_Outcome e))); ("attempts", AttrInt (dl_Attempts e));
     ("latency_ms", AttrFloat (milliseconds (dl_Duration e)))].

(** ** Properties *)

Variant observation :=
  | OReconcile (outcome : string) (d : duration) | OQueueDepth (depth : Z)
  | OTransition (status severity rule : string)
  | OProvider (provider model outcome : string) (d : duration) (attempts : Z)
  | OMongo (operation outcome : string) (d : duration) | OPending (pending : Z)
  | ODelivery (destination outcome : string).
Definition observe (m : Metrics) (o : observation) : Metrics :=
  match o with
  | OReconcile outcome d => ObserveReconcile outcome d m
  | OQueueDepth depth => SetQueueDepth depth m
  | OTransition status severity rule => ObserveIncidentTransition status severity rule m
  | OProvider provider model outcome d attempts => ObserveProviderRequest provider model outcome d attempts m
  | OMongo operation outcome d => ObserveMongoOperation operation outcome d m
  | OPending pending => SetOutboxPending pending m
  | ODelivery destination outcome => ObserveDeliveryAttempt destination outcome m
  end.
Definition collected (l : list observation) : Metrics := fold_left observe l NewMetrics.

(** The label an observation counts under, for each of the counters. *)
Definition reconcile_key (o : observation) : option string :=
  match o with OReconcile outcome _ => Some (normalizeOutcome outcome) | _ => None end.
Definition transition_key (o : observation) : option (string * string * string) :=
  match o with
  | OTransition s v r => Some (normalizeIncidentStatus s, normalizeSeverity v, normalizeRule r)
  | _ => None
  end.
Definition provider_key (o : observation) : option (string * string * string) :=
  match o with
  | OProvider p m x _ _ => Some (normalizeConfigured p, normalizeConfigured m, normalizeOutcome x)
  | _ => None
  end.
Definition mongo_key (o : observation) : option (string * string) :=
  match o with OMongo p x _ => Some (normalizeMongoOperation p, normalizeOutcome x) | _ => None end.
Definition delivery_key (o : observation) : option (string * string) :=
  match o with ODelivery d x => Some (normalizeConfigured d, normalizeOutcome x) | _ => None end.

Section Counting.
Context `{Countable K} (counter : Metrics → gmap K Z) (key : observation → option K).
Hypothesis counter_observe : ∀ m o, counter (observe m o) =
  match key o with Some k => add_count k 1 (counter m) | None => counter m end.
Hypothesis counter_new : counter NewMetrics = ∅.

Definition occurrences (k : K) (l : list observation) : nat :=
  length (List.filter (λ o, bool_decide (key o = Some k)) l).

Lemma occurrences_snoc k l o :
  occurrences k (l ++ [o]) = (occurrences k l + if bool_decide (key o = Some k) then 1 else 0)%nat.
Proof. unfold occurrences. rewrite List.filter_app, length_app. cbn. by destruct (bool_decide _). Qed.

Lemma counter_exact l k :
  counter (collected l) !! k =
    (if Nat.eqb (occurrences k l) 0 then None else Some (Z.of_nat (occurrences k l) `mod` 2 ^ 64)).
Proof.
  unfold collected. induction l as [|o l IH] using rev_ind; [cbn; by rewrite counter_new, lookup_empty|].
  rewrite fold_left_app, occurrences_snoc. cbn [fold_left]. rewrite counter_observe.
  destruct (key o) as [k'|]; [|by rewrite bool_decide_eq_false_2, Nat.add_0_r].
  unfold add_count. destruct (decide (k' = k)) as [->|Hne].
  - rewrite lookup_insert_eq, bool_decide_eq_true_2, IH by done.
    rewrite (proj2 (Nat.eqb_neq (occurrences k l + 1) 0)) by lia. f_equal.
    destruct (occurrences k l) as [|n]; cbn [Nat.eqb default]; [done|].
    unfold default, from_option, id. rewrite Zplus_mod_idemp_l. f_equal. lia.
  - rewrite lookup_insert_ne, bool_decide_eq_false_2, Nat.add_0_r by (done || congruence). done.
Qed.

Lemma counter_keys l k v : counter (collected l) !! k = Some v → ∃ o, o ∈ l ∧ key o = Some k.
Proof.
  rewrite counter_exact. destruct (Nat.eqb_spec (occurrences k l) 0) as [|Hn]; [done|]. intros _.
  unfold occurrences in Hn. destruct (List.filter _ l) as [|o r] eqn:Hf; [done|].
  assert (Ho : List.In o (List.filter (λ o, bool_decide (key o = Some k)) l)) by (rewrite Hf; by left).
  apply filter_In in Ho as [Hin Hk%bool_decide_eq_true]. exists o. by rewrite list_elem_of_In.
Qed.
End Counting.

Lemma normalize_allowed v allowed fallback : fallback ∈ allowed → normalize v allowed fallback ∈ allowed.
Proof. intros Hf. unfold normalize. by case_bool_decide. Qed.
Lemma normalizeConfigured_bounded v : 0 < len (normalizeConfigured v) ≤ 128.
Proof.
  unfold normalizeConfigured. destruct (_ || _) eqn:Hb; [by vm_compute|].
  rewrite orb_false_iff, Z.ltb_ge, String.eqb_neq in Hb. destruct Hb as [Hne Hl]. split; [|done].
  unfold len in *. destruct (trim_space v); [done|cbn; lia].
Qed.

(** The metrics count what happened under bounded labels.  After any
    sequence of observations each of the five counters is the number of
    observations with its label, modulo 2^64, and has no entry for a label that
    was not observed; every label is one of the listed values, or a configured
    name of at most 128 bytes, whatever strings were observed. *)
Theorem metrics_exact l :
  let m := collected l in
  let count {K} `{Countable K} (key : observation → option K) (k : K) :=
    let n := occurrences key k l in if Nat.eqb n 0 then None else Some (Z.of_nat n `mod` 2 ^ 64) in
  ((∀ k, mt_reconciles m !! k = count reconcile_key k) ∧
   (∀ k, mt_incidentTransitions m !! k = count transition_key k) ∧
   (∀ k, mt_providerRequests m !! k = count provider_key k) ∧
   (∀ k, mt_mongoOperations m !! k = count mongo_key k) ∧
   (∀ k, mt_deliveryAttempts m !! k = count delivery_key k)) ∧
  ((∀ k v, mt_reconciles m !! k = Some v → k ∈ allowedOutcomes) ∧
   (∀ s v r n, mt_incidentTransitions m !! (s, v, r) = Some n →
      s ∈ allowedIncidentStatuses ∧ v ∈ allowedSeverities ∧ r ∈ allowedRules) ∧
   (∀ p d x n, mt_providerRequests m !! (p, d, x) = Some n → len p ≤ 128 ∧ len d ≤ 128 ∧ x ∈ allowedOutcomes) ∧
   (∀ p x n, mt_mongoOperations m !! (p, x) = Some n → p ∈ allowedMongoOperations ∧ x ∈ allowedOutcomes) ∧
   (∀ d x n, mt_deliveryAttempts m !! (d, x) = Some n → len d ≤ 128 ∧ x ∈ allowedOutcomes)).
Proof.
  assert (Hu : ∀ v, normalizeOutcome v ∈ allowedOutcomes)
    by (intros; apply normalize_allowed; by apply (bool_decide_unpack _)).
  pose proof normalizeConfigured_bounded as Hc.
  assert (H1 : ∀ m o, mt_reconciles (observe m o) = match reconcile_key o with
    | Some k => add_count k 1 (mt_reconciles m) | None => mt_reconciles m end) by (by intros ? []).
  assert (H2 : ∀ m o, mt_incidentTransitions (observe m o) = match transition_key o with
    | Some k => add_count k 1 (mt_incidentTransitions m) | None => mt_incidentTransitions m end) by (by intros ? []).
  assert (H3 : ∀ m o, mt_providerRequests (observe m o) = match provider_key o with
    | Some k => add_count k 1 (mt_providerRequests m) | None => mt_providerRequests m end) by (by intros ? []).
  assert (H4 : ∀ m o, mt_mongoOperations (observe m o) = match mongo_key o with
    | Some k => add_count k 1 (mt_mongoOperations m) | None => mt_mongoOperations m end) by (by intros ? []).
  assert (H5 : ∀ m o, mt_deliveryAttempts (observe m o) = match delivery_key o with
    | Some k => add_count k 1 (mt_deliveryAttempts m) | None => mt_deliveryAttempts m end) by (by intros ? []).
  cbv zeta. split; split_and!; intros; try (by apply counter_exact).
  - eapply (counter_keys _ _ H1 eq_refl) in H as ([] & _ & Hk); simplify_eq/=. apply Hu.
  - eapply (counter_keys _ _ H2 eq_refl) in H as ([] & _ & Hk); simplify_eq/=.
    split_and!; apply normalize_allowed; by apply (bool_decide_unpack _).
  - eapply (counter_keys _ _ H3 eq_refl) in H as ([] & _ & Hk); simplify_eq/=. split_and!; [apply Hc..|apply Hu].
  - eapply (counter_keys _ _ H4 eq_refl) in H as ([] & _ & Hk); simplify_eq/=.
    split; [apply normalize_allowed; by apply (bool_decide_unpack _)|apply Hu].
  - eapply (counter_keys _ _ H5 eq_refl) in H as ([] & _ & Hk); simplify_eq/=. split; [apply Hc|apply Hu].
Qed.

(** What is logged of an error is one of three words: two errors of a class
    cannot be told apart in the log. *)
Lemma log_hides_errors message attrs e e' :
  safeErrorClass e ∈ ["canceled"; "timeout"; "internal"] ∧
  (safeErrorClass e = safeErrorClass e' →
   logWithSafeError message (Some e) attrs = logWithSafeError message (Some e') attrs).
Proof.
  split; [|by intros H; unfold logWithSafeError; rewrite H].
  unfold safeErrorClass. destruct (errors_Is e Canceled); [apply list_elem_of_here|].
  destruct (errors_Is e DeadlineExceeded); [by apply list_elem_of_further, list_elem_of_here|].
  by do 2 apply list_elem_of_further; apply list_elem_of_here.
Qed.

(** The scrape writes every line once, in order. *)
Lemma scrape_complete quote format_float m request :
  rq_Method request = "GET" →
  ∃ lines, serveHTTP quote format_float m request = Some lines ∧
    lines ≡ₚ metric_lines quote format_float m ∧
    StronglySorted String.le lines.
Proof.
  intros Hm. unfold serveHTTP. rewrite Hm. eexists. split; [done|].
  split; [apply sort_slice_perm|apply sort_strings_sorted].
Qed.
