(* ===== verification/Reports.v ===== *)
(** * What the programs report: metrics and log records

    [Dispatcher], [Reconciler] and [Manager] leave the calls of the metrics and
    of the logger out.  Here a program that reports is a function on the world
    which also returns what it told the collector and the logger, in order; its
    first component is the program without its reports.  A duration is measured
    with the clock of the process, a reading of the world. *)
From S2P Require Import Prelude GoBase Telemetry.

(** ** Programs that report *)

Variant report := Observed (o : observation) | Logged (r : log_record).

Definition observation_of (r : report) : option observation :=
  match r with Observed o => Some o | Logged _ => None end.
Definition record_of (r : report) : option log_record :=
  match r with Logged r => Some r | Observed _ => None end.
Definition observations (l : list report) : list observation := omap observation_of l.
Definition records (l : list report) : list log_record := omap record_of l.

Definition told (W A : Type) : Type := W → (A * W) * list report.

Section Told.
Context {W : Type}.
Definition tret {A} (a : A) : told W A := λ w, ((a, w), []).
Definition tbind {A B} (m : told W A) (k : A → told W B) : told W B := λ w,
  let '((a, w), l) := m w in let '(b, l') := k a w in (b, l ++ l').
(** A step that reports nothing, a reading of the world, and a report. *)
Definition silently {A} (f : W → A * W) : told W A := λ w, (f w, []).
Definition reading {A} (f : W → A) : told W A := λ w, ((f w, w), []).
Definition tell (l : list report) : told W unit := λ w, (((), w), l).
End Told.

Notation "x '←t' m ; k" := (tbind m (λ x, k))
  (at level 20, m at level 100, k at level 200, only parsing) : go_scope.

(** [nil] metrics and loggers are [false]; [tl_clock] is [time.Now]. *)
Record TelemetryOptions (W : Type) := { tl_metrics : bool; tl_logger : bool; tl_clock : W → time }.
Arguments tl_metrics {W}. Arguments tl_logger {W}. Arguments tl_clock {W}.

Definition observeIf {W} (o : TelemetryOptions W) (x : observation) : told W unit :=
  tell (if tl_metrics o then [Observed x] else []).
Definition logIf {W} (o : TelemetryOptions W) (r : log_record) : told W unit :=
  tell (if tl_logger o then [Logged r] else []).
(** [time.Since(started)]. *)
Definition since {W} (o : TelemetryOptions W) (started : time) : told W duration :=
  reading (λ w, time_sub (tl_clock o w) started).

(** ** Lemmas *)

Lemma tbind_run {W A B} (m : told W A) (k : A → told W B) w b w' l :
  tbind m k w = ((b, w'), l) ↔
  ∃ a w1 l1 l2, m w = ((a, w1), l1) ∧ k a w1 = ((b, w'), l2) ∧ l = l1 ++ l2.
Proof.
  unfold tbind. destruct (m w) as [[a w1] l1]. destruct (k a w1) as [[b' w2] l2] eqn:Hk. split.
  - intros [= <- <- <-]. by exists a, w1, l1, l2.
  - intros (a' & w1' & l1' & l2' & [= <- <- <-] & Hk' & ->). congruence.
Qed.

(** The program without its reports. *)
Lemma tbind_erase {W A B} (m : told W A) (k : A → told W B) w :
  (tbind m k w).1 = (k (m w).1.1 (m w).1.2).1.
Proof. unfold tbind. destruct (m w) as [[a w1] l1]. cbn. by destruct (k a w1) as [[b w2] l2]. Qed.
Lemma tbind_reports {W A B} (m : told W A) (k : A → told W B) w :
  (tbind m k w).2 = (m w).2 ++ (k (m w).1.1 (m w).1.2).2.
Proof. unfold tbind. destruct (m w) as [[a w1] l1]. cbn. by destruct (k a w1) as [[b w2] l2]. Qed.

Lemma observations_app l l' : observations (l ++ l') = observations l ++ observations l'.
Proof. apply omap_app. Qed.
Lemma records_app l l' : records (l ++ l') = records l ++ records l'.
Proof. apply omap_app. Qed.
#[export] Hint Rewrite @tbind_erase @tbind_reports observations_app records_app : reports.

(** ** The gauges of the store *)

(** Reports that leave the pending gauge and the database metrics alone. *)
Definition store_silent (r : report) : bool :=
  match r with Observed (OPending _ | OMongo _ _ _) => false | _ => true end.

Lemma silent_gauges l :
  forallb store_silent l = true →
  mt_outboxPending (collected (observations l)) = 0 ∧ mt_mongoOperations (collected (observations l)) = ∅ ∧
  mt_mongoDuration (collected (observations l)) = ∅.
Proof.
  unfold collected. induction l as [|r l IH] using rev_ind; [done|].
  rewrite forallb_app, andb_true_iff. intros [Hl Hr]. cbn in Hr. rewrite andb_true_r in Hr.
  rewrite observations_app, fold_left_app. destruct (IH Hl) as (H1 & H2 & H3).
  destruct r as [[]|]; cbn in *; try discriminate; by rewrite ?H1, ?H2, ?H3.
Qed.
