(* ===== verification/ReportsDispatcher.v ===== *)
(** * Package [internal/notify], [dispatcher.go], with its metrics and log records

    [DispatchOne] as in [Dispatcher], with the calls that report.  A store may
    also count pending deliveries: the optional interface [pendingCounter] is
    [counter].  [chain] gives the error tree of a delivery error, in which the
    logger looks for the end of a context.  The reports of [Run] are shown to
    account for what the store holds afterwards. *)
From S2P Require Import Prelude GoBase Lifecycle Telemetry Reports Domain Provider Store Documents Driver Contract.
From S2P Require Import MongoRefinement Outbox Notifier Dispatcher DispatcherRun.

Section Dispatch.
Context {W : Type} `{OutboxOps W} (ctx_err : W → option string) (d : Dispatcher W).
Context (o : TelemetryOptions W) (counter : option (time → eff W StoreError Z)) (chain : DeliverError → app_error).

Definition updatePending (now : time) : told W unit :=
  if negb (tl_metrics o) then tret () else
  match counter with
  | None => tret ()
  | Some count =>
      pending ←t silently (count now);
      match pending with Ok n => observeIf o (OPending n) | Err _ => tret () end
  end.

(** The reports after a delivery was finalised in the store. *)
Definition reportDelivery (delivery : Delivery) (outcome : string) (err : option DeliverError)
    (at_ started : time) : told W unit :=
  let n := dl_Notification delivery in
  _ ←t (if tl_metrics o then
          _ ←t observeIf o (ODelivery (nt_DestinationID n) outcome); updatePending at_
        else tret ());
  elapsed ←t since o started;
  logIf o (LogDelivery {| dl_Destination := nt_DestinationID n; dl_DeliveryID := nt_ID n;
    dl_Outcome := outcome; dl_Attempts := nt_Attempts n; dl_Duration := elapsed; dl_Err := chain <$> err |}).

Definition finalizeSuccess_reported (delivery : Delivery) (started : time)
    : told W (bool * option DispatchError) :=
  completedAt ←t silently (dp_now d);
  completed ←t silently (complete_delivery {| cp_ID := nt_ID (dl_Notification delivery);
    cp_WorkerID := dp_workerID d; cp_CompletedAt := completedAt;
    cp_ExpiresAt := expiry completedAt (dp_deliveredExpiry d) |});
  match completed with
  | Err e => tret (true, Some (complete_failed e))
  | Ok _ => _ ←t reportDelivery delivery "success" None completedAt started; tret (true, None)
  end.

Definition finalizeFailure_reported (delivery : Delivery) (err : DeliverError) (started : time)
    : told W (bool * option DispatchError) :=
  let n := dl_Notification delivery in
  let '(failure, delay) := classify d (nt_Attempts n) err in
  requestNow ←t silently (dp_now d);
  rescheduled ←t silently (reschedule_delivery {| rr_ID := nt_ID n; rr_WorkerID := dp_workerID d;
    rr_Now := requestNow; rr_NextAttemptAt := time_add requestNow delay; rr_Failure := failure;
    rr_ExpiresAt := if failure =s? FailurePermanent then expiry requestNow (dp_failedExpiry d)
                    else None |});
  match rescheduled with
  | Err e => tret (true, Some (finalize_failed e))
  | Ok _ =>
      let outcome := if failure =s? FailureRetryable then "retryable" else "permanent" in
      _ ←t reportDelivery delivery outcome (Some err) requestNow started; tret (true, None)
  end.

Definition DispatchOne_reported : told W (bool * option DispatchError) :=
  ended ←t reading ctx_err;
  match ended with
  | Some e => tret (false, Some (context_ended e))
  | None =>
      now ←t silently (dp_now d);
      claim ←t silently (claim_delivery {| cl_WorkerID := dp_workerID d; cl_Now := now;
                                           cl_LeaseDuration := dp_leaseDuration d |});
      match claim with
      | Err e =>
          if is_ErrNotFound e then _ ←t updatePending now; tret (false, None)
          else tret (false, Some (claim_failed e))
      | Ok delivery =>
          started ←t reading (tl_clock o);
          deliveryErr ←t silently (attempt d delivery now);
          match deliveryErr with
          | None => finalizeSuccess_reported delivery started
          | Some err =>
              ended ←t reading ctx_err;
              match ended with
              | Some e => tret (true, Some (context_ended e))
              | None => finalizeFailure_reported delivery err started
              end
          end
      end
  end.

(** A round of a worker of [Run], with what has been reported so far. *)
Definition worker_round_reported (s : run_state (W := W) * list report) (i : nat)
    : run_state (W := W) * list report :=
  let '(s, told) := s in
  match rs_running s !! i with
  | Some true =>
      match DispatchOne_reported (rs_world s) with
      | (((_, Some e), w), l) =>
          ({| rs_running := <[i := false]> (rs_running s); rs_errorsOut := rs_errorsOut s ++ [e]; rs_world := w |},
           told ++ l)
      | (((false, None), w), l) =>
          ({| rs_running := <[i := false]> (rs_running s); rs_errorsOut := rs_errorsOut s; rs_world := w |}, told ++ l)
      | (((true, None), w), l) =>
          ({| rs_running := rs_running s; rs_errorsOut := rs_errorsOut s; rs_world := w |}, told ++ l)
      end
  | _ => (s, told)
  end.
Definition Run_reported (schedule : list nat) (w : W) : run_state (W := W) * list report :=
  fold_left worker_round_reported schedule (run_start d w, []).

(** ** The program without its reports *)

Lemma finalizeFailure_true dl err w r w' : finalizeFailure d dl err w = (r, w') → r.1 = true.
Proof.
  unfold finalizeFailure. destruct (classify d _ err), (dp_now d w) as [? w1]. by destruct (reschedule_delivery _ w1) as [[] ?]; intros [= <- _].
Qed.
Lemma finalizeSuccess_true dl w r w' : finalizeSuccess d dl w = (r, w') → r.1 = true.
Proof.
  unfold finalizeSuccess. destruct (dp_now d w) as [? w1]. by destruct (complete_delivery _ w1) as [[] ?]; intros [= <- _].
Qed.

(** The world after the store was asked to count, or not. *)
Definition counted (w w' : W) : Prop := w' = w ∨ ∃ count t, counter = Some count ∧ w' = (count t w).2.

(** What was reported of deliveries. *)
Definition delivery_told (r : report) : option (string * string) :=
  match r with Observed (ODelivery destination outcome) => Some (destination, outcome) | _ => None end.
Definition deliveries_told (l : list report) : list (string * string) := omap delivery_told l.
Lemma deliveries_told_app l l' : deliveries_told (l ++ l') = deliveries_told l ++ deliveries_told l'.
Proof. apply omap_app. Qed.
Definition no_deliveries (l : list report) : Prop := deliveries_told l = [] ∧ records l = [].

Lemma updatePending_run now w w' l :
  updatePending now w = (((), w'), l) → counted w w' ∧ no_deliveries l ∧ (counter = None → l = []).
Proof.
  unfold updatePending. destruct (tl_metrics o) eqn:Hm; cbn [negb]; [|intros [= <- <-]; split; [by left|done]].
  destruct counter as [count|] eqn:Hc; [|intros [= <- <-]; split; [by left|done]].
  unfold tbind, silently, observeIf. rewrite Hm. destruct (count now w) as [[n|e] w1] eqn:Hn; intros [= <- <-];
    (split; [right; exists count, now; by rewrite Hn|done]).
Qed.

Lemma reportDelivery_run dl outcome err t started w w' l :
  reportDelivery dl outcome err t started w = (((), w'), l) →
  counted w w' ∧
  deliveries_told l = (if tl_metrics o then [(nt_DestinationID (dl_Notification dl), outcome)] else []) ∧
  (counter = None → forallb store_silent l = true) ∧
  ∃ elapsed, records l = if tl_logger o then
    [LogDelivery {| dl_Destination := nt_DestinationID (dl_Notification dl); dl_DeliveryID := nt_ID (dl_Notification dl);
       dl_Outcome := outcome; dl_Attempts := nt_Attempts (dl_Notification dl); dl_Duration := elapsed;
       dl_Err := chain <$> err |}] else [].
Proof.
  unfold reportDelivery. intros ([] & w1 & l1 & l2 & H1 & H2 & ->)%tbind_run.
  apply tbind_run in H2 as (elapsed & w2 & l3 & l4 & [= <- <- <-] & [= <- <-] & ->). cbn [app].
  assert (counted w w1 ∧ records l1 = [] ∧ (counter = None → forallb store_silent l1 = true) ∧
    deliveries_told l1 = if tl_metrics o then [(nt_DestinationID (dl_Notification dl), outcome)] else [])
    as (Hc & Hr & Hs & Hd).
  { unfold observeIf in H1. destruct (tl_metrics o); [|injection H1 as <- <-; split; [by left|done]].
    apply tbind_run in H1 as ([] & w2 & l5 & l6 & [= <- <-] & Hu & ->). apply updatePending_run in Hu as (Hc & [Hd Hr] & Hn).
    split; [done|]. rewrite records_app, deliveries_told_app, Hr, Hd. split; [done|]. split; [by intros ->%Hn|done]. }
  split; [done|]. rewrite deliveries_told_app, Hd, records_app, Hr.
  split; [destruct (tl_metrics o), (tl_logger o); done|]. split.
  - intros Hn. rewrite forallb_app, (Hs Hn). by destruct (tl_logger o).
  - eexists. by destruct (tl_logger o).
Qed.

(** A round does what it does without its reports, but for the counting; and
    rounds that finalise nothing report nothing of a delivery. *)
Lemma finalizeSuccess_run dl started w r w' l :
  finalizeSuccess_reported dl started w = ((r, w'), l) →
  ∃ w0, finalizeSuccess d dl w = (r, w0) ∧ counted w0 w' ∧
    match r.2 with
    | Some _ => l = []
    | None => ∃ t w1, reportDelivery dl "success" None t started w1 = (((), w'), l)
    end.
Proof.
  unfold finalizeSuccess_reported, finalizeSuccess. cbv [tbind silently tret].
  destruct (dp_now d w) as [t w1]. destruct (complete_delivery _ w1) as [[[]|e] w2].
  - destruct (reportDelivery dl "success" None t started w2) as [[[] w3] l3] eqn:Hr.
    intros [= <- <- <-]. exists w2. split; [done|]. cbn [app]. rewrite app_nil_r. split; [|by exists t, w2].
    by apply reportDelivery_run in Hr as [? _].
  - intros [= <- <- <-]. exists w2. split; [done|]. by split; [left|].
Qed.

Lemma finalizeFailure_run dl err started w r w' l :
  finalizeFailure_reported dl err started w = ((r, w'), l) →
  ∃ w0, finalizeFailure d dl err w = (r, w0) ∧ counted w0 w' ∧
    match r.2 with
    | Some _ => l = []
    | None => ∃ t w1, reportDelivery dl
        (if (classify d (nt_Attempts (dl_Notification dl)) err).1 =s? FailureRetryable then "retryable" else "permanent")
        (Some err) t started w1 = (((), w'), l)
    end.
Proof.
  unfold finalizeFailure_reported, finalizeFailure. destruct (classify d _ err) as [failure delay]. cbv [tbind silently tret fst].
  destruct (dp_now d w) as [t w1]. destruct (reschedule_delivery _ w1) as [[[]|e] w2].
  - destruct (reportDelivery dl _ (Some err) t started w2) as [[[] w3] l3] eqn:Hr.
    intros [= <- <- <-]. exists w2. split; [done|]. cbn [app]. rewrite app_nil_r. split; [|by exists t, w2].
    by apply reportDelivery_run in Hr as [? _].
  - intros [= <- <- <-]. exists w2. split; [done|]. by split; [left|].
Qed.

Lemma DispatchOne_run w r w' l :
  DispatchOne_reported w = ((r, w'), l) →
  ∃ w0, DispatchOne ctx_err d w = (r, w0) ∧ counted w0 w' ∧ (r ≠ (true, None) → no_deliveries l) ∧
    (counter = None → forallb store_silent l = true).
Proof.
  unfold DispatchOne_reported, DispatchOne. cbv [tbind silently reading].
  destruct (ctx_err w) as [e|]; [intros [= <- <- <-]; exists w; split; [done|]; by split; [left|]|].
  destruct (dp_now d w) as [now w1]. destruct (claim_delivery _ w1) as [[dl|e] w2].
  2:{ destruct (is_ErrNotFound e); [|intros [= <- <- <-]; exists w2; split; [done|]; by split; [left|]].
      destruct (updatePending now w2) as [[[] w3] l3] eqn:Hu. intros [= <- <- <-]. exists w2. split; [done|].
      cbn [app]. rewrite app_nil_r. apply updatePending_run in Hu as (Hc & Hn & Hs). split; [done|]. split; [done|]. by intros ->%Hs. }
  destruct (attempt d dl now w2) as [[err|] w3].
  - destruct (ctx_err w3) as [e|]; [intros [= <- <- <-]; exists w3; split; [done|]; by split; [left|]|].
    destruct (finalizeFailure_reported dl err _ w3) as [[r1 w4] l4] eqn:Hf. intros [= <- <- <-]. cbn [app].
    apply finalizeFailure_run in Hf as (w0 & Hf & Hc & Hr). exists w0. split; [done|]. split; [done|].
    destruct r1 as [b [e|]]; cbn in Hr; [by subst|]. destruct Hr as (t & w5 & (_ & _ & Hs & _)%reportDelivery_run).
    split; [|done]. apply finalizeFailure_true in Hf as Hb. cbn in Hb. by rewrite Hb.
  - destruct (finalizeSuccess_reported dl _ w3) as [[r1 w4] l4] eqn:Hf. intros [= <- <- <-]. cbn [app].
    apply finalizeSuccess_run in Hf as (w0 & Hf & Hc & Hr). exists w0. split; [done|]. split; [done|].
    destruct r1 as [b [e|]]; cbn in Hr; [by subst|]. destruct Hr as (t & w5 & (_ & _ & Hs & _)%reportDelivery_run).
    split; [|done]. apply finalizeSuccess_true in Hf as Hb. cbn in Hb. by rewrite Hb.
Qed.
End Dispatch.

(** ** The reports and the store *)

(** How a delivery stands after an attempt, in the words of the reports. *)
Definition outcome_word (status : NotificationStatus) : string :=
  if status =s? NotificationDelivered then "success"
  else if status =s? NotificationPending then "retryable" else "permanent".
Definition destination_label (dl : Delivery) : string := normalizeConfigured (nt_DestinationID (dl_Notification dl)).

(** The deliveries under a label that have a status. *)
Definition stands (label : string) (status : NotificationStatus) (dl : Delivery) : Prop :=
  destination_label dl = label ∧ d_status dl = status.
#[export] Instance stands_dec label status dl : base.Decision (stands label status dl).
Proof. unfold stands. apply _. Defined.
Definition tally (label : string) (status : NotificationStatus) (m : gmap string Delivery) : nat :=
  size (filter (λ kd : string * Delivery, stands label status kd.2) m).

Lemma tally_insert label status id old new m :
  m !! id = Some old → d_status old ≠ status →
  tally label status (<[id := new]> m) =
    (tally label status m + if decide (stands label status new) then 1 else 0)%nat.
Proof.
  intros Hl Ho. unfold tally.
  assert (Hnone : filter (λ kd : string * Delivery, stands label status kd.2) m !! id = None).
  { apply map_lookup_filter_None_2. right. intros x Hx. rewrite Hl in Hx. injection Hx as <-. cbn. by intros [_ ?]. }
  destruct (decide (stands label status new)) as [Hn|Hn].
  - rewrite map_filter_insert_True, map_size_insert_None by done. lia.
  - rewrite map_filter_insert_False, map_filter_delete, delete_id by done. lia.
Qed.

Definition unfinished (dl : Delivery) : Prop := d_status dl ≠ NotificationDelivered ∧ d_status dl ≠ NotificationFailed.
Lemma eligible_unfinished `{Codec} t dl : eligible t dl = true → unfinished dl.
Proof.
  intros [Hel|Hel]%orb_true_iff; apply andb_true_iff in Hel as [Hs%String.eqb_eq _]; unfold unfinished; by rewrite Hs.
Qed.

(** Nothing that is delivered or failed for good is taken back. *)
Definition advances (m m' : gmap string Delivery) : Prop :=
  ∀ label status, status = NotificationDelivered ∨ status = NotificationFailed →
    (tally label status m ≤ tally label status m')%nat.
Lemma put_advances id old new m : m !! id = Some old → unfinished old → advances m (<[id := new]> m).
Proof. intros Hl [H1 H2] label status Hs. rewrite (tally_insert _ _ _ old) by (done || by destruct Hs; subst). lia. Qed.

Section Accounts.
Context {W : Type} (ctx_err : W → option string) (d : Dispatcher W) `{OutboxStore W}.
Context (o : TelemetryOptions W) (counter : option (time → eff W StoreError Z)) (chain : DeliverError → app_error).
Hypothesis now_quiet : ∀ w t w', store_ok w → dp_now d w = (t, w') → unchanged w w'.
Hypothesis deliver_quiet : ∀ name n e w r w', dp_notifiers d !! name = Some n →
  store_ok w → nf_Deliver n e w = (r, w') → unchanged w w'.
Hypothesis count_quiet : ∀ count t w, counter = Some count → store_ok w → unchanged w (count t w).2.
Hypothesis Hlim : limits_ok d.
Hypothesis Hmax : is_int64 (dp_maxBackoff d).

Abbreviation dispatch := (DispatchOne_reported ctx_err d o counter chain) (only parsing).

Lemma counted_unchanged w w' : counted counter w w' → store_ok w → unchanged w w'.
Proof. intros [->|(count & t & Hc & ->)] Hok; [done|by apply (count_quiet _ t)]. Qed.

Lemma DispatchOne_advances w r w' : store_ok w → DispatchOne ctx_err d w = (r, w') →
  store_ok w' ∧ advances (v_outbox (view w)) (v_outbox (view w')).
Proof.
  apply (DispatchOne_relates ctx_err d (λ w w', store_ok w' ∧ advances (v_outbox (view w)) (v_outbox (view w'))) now_quiet deliver_quiet).
  - by intros ? ? [? _].
  - intros w1 w2 [Hok Hv]. split; [done|]. rewrite Hv. by intros ? ? _.
  - intros w1 w2 w3 [_ H1] [H2 H3]. split; [done|]. intros label status Hs. etrans; [by apply H1|by apply H3].
  - intros w1 w2 id old new Hok Hl Hh Hv. split; [done|]. rewrite Hv. apply (put_advances _ old); [done|].
    destruct Hh as [Hh|(t & _ & Hel)]; [by unfold unfinished; rewrite Hh|by eapply eligible_unfinished].
Qed.

Lemma DispatchOne_none w w' : store_ok w → DispatchOne ctx_err d w = ((false, None), w') → view w' = view w.
Proof.
  intros Hok. unfold DispatchOne. destruct (ctx_err w); [done|]. destruct (dp_now d w) as [t w1] eqn:Hn.
  apply now_quiet in Hn as [Hok1 Hv1]; [|done]. destruct (claim_delivery _ w1) as [[dl|e] w2] eqn:Hc.
  - destruct (attempt d dl t w2) as [[err|] w3]; [destruct (ctx_err w3); [done|]|]; intros Hf;
      [apply finalizeFailure_true in Hf|apply finalizeSuccess_true in Hf]; done.
  - apply claim_delivery_spec in Hc; [|done]. destruct (is_ErrNotFound e); [|done].
    intros [= <-]. destruct Hc as [[_ Hv] _]. congruence.
Qed.

(** The attempt that took a delivery from [old] to [new], and what was reported
    of it: what the store holds now. *)
Definition accounted (w w' : W) (l : list report) : Prop :=
  store_ok w' ∧ ∃ id old new elapsed err,
    v_outbox (view w) !! id = Some old ∧ unfinished old ∧
    v_outbox (view w') = <[id := new]> (v_outbox (view w)) ∧
    nt_DestinationID (dl_Notification new) = nt_DestinationID (dl_Notification old) ∧
    d_attempts new = d_attempts old + 1 ∧
    d_status new ∈ [NotificationDelivered; NotificationPending; NotificationFailed] ∧
    (err = None ↔ d_status new = NotificationDelivered) ∧
    deliveries_told l = (if tl_metrics o then [(nt_DestinationID (dl_Notification old), outcome_word (d_status new))] else []) ∧
    records l = (if tl_logger o then
      [LogDelivery {| dl_Destination := nt_DestinationID (dl_Notification old); dl_DeliveryID := id;
         dl_Outcome := outcome_word (d_status new); dl_Attempts := d_attempts new; dl_Duration := elapsed;
         dl_Err := chain <$> err |}] else []).

Lemma report_accounted q id old w w3 w0 w' l started t w4 outcome err new :
  v_outbox (view w) !! id = Some old → nt_ID (dl_Notification old) = id → unfinished old →
  v_outbox (view w3) = <[id := claimed q old]> (v_outbox (view w)) →
  counted counter w0 w' → store_ok w0 → v_outbox (view w0) = <[id := new]> (v_outbox (view w3)) →
  reportDelivery o counter chain (claimed q old) outcome err t started w4 = (((), w'), l) →
  outcome = outcome_word (d_status new) → (err = None ↔ d_status new = NotificationDelivered) →
  dl_Notification new = with_status (d_status new) (d_attempts old + 1) (d_next new) (dl_Notification old) →
  d_status new ∈ [NotificationDelivered; NotificationPending; NotificationFailed] →
  accounted w w' l.
Proof.
  intros Hl Hid Hun Hb3 Hcnt Hok0 Hv0 Hrep -> Herr Hnew Hin.
  destruct (counted_unchanged _ _ Hcnt Hok0) as [Hok5 Hv5]. split; [done|].
  apply reportDelivery_run in Hrep as (_ & Hd & _ & elapsed & Hr).
  assert (Hatt : d_attempts new = d_attempts old + 1) by (unfold d_attempts at 1; by rewrite Hnew).
  exists id, old, new, elapsed, err. split_and!; [done|done|by rewrite Hv5, Hv0, Hb3, insert_insert_eq| |done|done|done|done|].
  - by rewrite Hnew.
  - rewrite Hr, Hatt. cbn. by rewrite Hid.
Qed.

Lemma dispatch_told w w' l :
  store_ok w → dispatch w = (((true, None), w'), l) → accounted w w' l.
Proof.
  intros Hok. unfold DispatchOne_reported. cbv [tbind silently reading].
  destruct (ctx_err w); [done|]. destruct (dp_now d w) as [t w1] eqn:Hn.
  apply now_quiet in Hn as [Hok1 Hv1]; [|done]. set (q := {| cl_WorkerID := _ |}).
  destruct (claim_delivery q w1) as [[dl|e] w2] eqn:Hc.
  2:{ destruct (is_ErrNotFound e); [|done]. by destruct (updatePending _ _ _ _) as [[[] ?] ?]. }
  apply claim_delivery_spec in Hc as [Hok2 He]; [|done]. inversion He as [id old _ _ Hl Hel _ Hdl Hv2]. subst dl.
  pose proof (outbox_keys _ Hok1 id old Hl) as Hid. rewrite Hv1 in Hl, Hv2.
  assert (Hb2 : v_outbox (view w2) = <[id := claimed q old]> (v_outbox (view w))) by (by rewrite <- Hv2).
  pose proof (eligible_unfinished _ _ Hel) as Hun. clear Hv2 He Hel.
  destruct (attempt d (claimed q old) t w2) as [err w3] eqn:Ha.
  assert (v_outbox (view w3) = <[id := claimed q old]> (v_outbox (view w)) ∧ store_ok w3) as [Hb3 Hok3]
    by (apply (attempt_quiet d deliver_quiet) in Ha as [? ->]; done).
  assert (Hkey : nt_ID (dl_Notification (claimed q old)) = id) by done.
  destruct err as [err|].
  - destruct (ctx_err w3); [done|].
    destruct (finalizeFailure_reported _ _ _ _ _ _ _ w3) as [[r1 w4] l4] eqn:Hf. intros [= -> -> <-]. cbn [app].
    apply finalizeFailure_run in Hf as (w0 & Hf & Hcnt & t' & w5 & Hrep).
    pose proof (classify_spec d (nt_Attempts (dl_Notification (claimed q old))) err Hlim Hmax) as (Hcl & _).
    apply (finalizeFailure_outcome d now_quiet) in Hf as (r & old' & Hl' & Hok0 & Hv' & (Hfr & _) & _); [|done..].
    rewrite Hkey in Hl', Hv'. rewrite Hb3, lookup_insert_eq in Hl'. injection Hl' as <-.
    unfold d_attempts in Hfr. rewrite <- Hcl in Hfr. rewrite <- Hfr in Hrep.
    eapply (report_accounted _ _ _ _ _ _ _ _ _ _ _ _ _ (rescheduled r (claimed q old)) Hl Hid Hun Hb3 Hcnt Hok0 Hv' Hrep);
      unfold rescheduled, d_status; cbn; destruct (rr_Failure r =s? FailureRetryable); try done.
    + by apply list_elem_of_further, list_elem_of_here.
    + by do 2 apply list_elem_of_further; apply list_elem_of_here.
  - destruct (finalizeSuccess_reported _ _ _ _ _ _ w3) as [[r1 w4] l4] eqn:Hf. intros [= -> -> <-]. cbn [app].
    apply finalizeSuccess_run in Hf as (w0 & Hf & Hcnt & t' & w5 & Hrep).
    apply (finalizeSuccess_outcome d now_quiet) in Hf as (c & old' & Hl' & Hok0 & Hv'); [|done].
    rewrite Hkey in Hl', Hv'. rewrite Hb3, lookup_insert_eq in Hl'. injection Hl' as <-.
    eapply (report_accounted _ _ _ _ _ _ _ _ _ _ _ _ _ (completed c (claimed q old)) Hl Hid Hun Hb3 Hcnt Hok0 Hv' Hrep); try done.
    by apply list_elem_of_here.
Qed.
(** *** Counting *)

Definition finished_as (status : NotificationStatus) (word : string) : Prop :=
  status = NotificationDelivered ∧ word = "success" ∨ status = NotificationFailed ∧ word = "permanent".

(** The observations of deliveries under a label with an outcome. *)
Definition told_of (label word : string) (l : list report) : nat :=
  occurrences delivery_key (label, word) (observations l).
Lemma told_of_app label word l l' : told_of label word (l ++ l') = (told_of label word l + told_of label word l')%nat.
Proof. unfold told_of, occurrences. by rewrite observations_app, List.filter_app, length_app. Qed.
Lemma told_of_deliveries label word l :
  told_of label word l = length (List.filter
    (λ p, bool_decide ((normalizeConfigured p.1, normalizeOutcome p.2) = (label, word))) (deliveries_told l)).
Proof.
  induction l as [|r l IH]; [done|]. change (r :: l) with ([r] ++ l). rewrite told_of_app, IH, deliveries_told_app.
  rewrite List.filter_app, length_app. f_equal. destruct r as [[]|]; try done. unfold told_of, occurrences. cbn.
  repeat case_bool_decide; simplify_eq; try done; by destruct (_ : False).
Qed.

Lemma outcome_word_finished status word status' :
  finished_as status word → status' ∈ [NotificationDelivered; NotificationPending; NotificationFailed] →
  (normalizeOutcome (outcome_word status') = word ↔ status' = status) ∧ word = outcome_word status.
Proof.
  rewrite !elem_of_cons, elem_of_nil. intros [[-> ->]|[-> ->]] [->|[->|[->|[]]]]; by vm_compute.
Qed.

(** A round counts what it finishes; one that fails may finish more than it counts. *)
Lemma dispatch_accounts label status word w r w' l :
  tl_metrics o = true → finished_as status word → store_ok w → dispatch w = ((r, w'), l) →
  store_ok w' ∧
  (tally label status (v_outbox (view w)) + told_of label word l ≤ tally label status (v_outbox (view w')))%nat ∧
  (r.2 = None →
   tally label status (v_outbox (view w')) = (tally label status (v_outbox (view w)) + told_of label word l)%nat).
Proof.
  intros Hm Hfin Hok Hd.
  destruct (DispatchOne_run _ _ _ _ _ _ _ _ _ Hd) as (w0 & H0 & Hcnt & Hno & _).
  destruct (DispatchOne_advances _ _ _ Hok H0) as [Hok0 Hadv].
  destruct (counted_unchanged _ _ Hcnt Hok0) as [Hok' Hv']. split; [done|].
  assert (Hst : status = NotificationDelivered ∨ status = NotificationFailed) by (destruct Hfin as [[-> _]|[-> _]]; auto).
  assert (r = (true, None) ∨ r ≠ (true, None)) as [->|Hne] by (destruct r as [[] []]; auto).
  - apply dispatch_told in Hd as (_ & id & old & new & elapsed & err & Hl & [Hu1 Hu2] & Hv & Hdest & _ & Hin & _ & Htold & _); [|done].
    assert (Heq : tally label status (v_outbox (view w')) = (tally label status (v_outbox (view w)) + told_of label word l)%nat).
    { rewrite Hv, (tally_insert _ _ _ old) by (done || by destruct Hst; subst). f_equal.
      rewrite told_of_deliveries, Htold, Hm. cbn. destruct (outcome_word_finished _ _ _ Hfin Hin) as [Hw _].
      case_bool_decide as Hb; case_decide as Hc; try done; exfalso; unfold stands, destination_label in Hc; rewrite Hdest in Hc.
      - apply Hc. injection Hb as <- Hb. split; [done|by apply Hw].
      - apply Hb. destruct Hc as [<- ->%Hw]. done. }
    split; [lia|done].
  - destruct (Hno Hne) as [Hnil _]. assert (H1 : told_of label word l = 0%nat) by (by rewrite told_of_deliveries, Hnil).
    rewrite H1, Hv'. pose proof (Hadv label status Hst). split; [lia|]. intros Hr. destruct r as [b e]. cbn in Hr. subst e.
    destruct b; [done|]. by rewrite (DispatchOne_none _ _ Hok H0), Nat.add_0_r.
Qed.

(** *** The workers *)

Abbreviation round := (worker_round_reported ctx_err d o counter chain) (only parsing).

(** A store that cannot count: the workers do what they do without reports. *)
Lemma round_erase s l i : counter = None → (round (s, l) i).1 = worker_round ctx_err d s i.
Proof.
  intros Hc. unfold worker_round_reported, worker_round. destruct (rs_running s !! i) as [[]|]; [|done..].
  destruct (dispatch (rs_world s)) as [[r w'] l'] eqn:Hd.
  apply DispatchOne_run in Hd as (w0 & -> & [->|(? & ? & ? & _)] & _); [|congruence]. by destruct r as [[] []].
Qed.
Lemma Run_erase schedule s l : counter = None →
  (fold_left round schedule (s, l)).1 = fold_left (worker_round ctx_err d) schedule s.
Proof.
  intros Hc. revert s l. induction schedule as [|i schedule IH]; intros s l; cbn [fold_left]; [done|].
  rewrite <- (round_erase s l i Hc). destruct (round (s, l) i) as [s' l']. by rewrite IH.
Qed.

Definition accounts (label : string) (status : NotificationStatus) (word : string) (before : nat)
    (s : run_state (W := W) * list report) : Prop :=
  store_ok (rs_world s.1) ∧
  (before + told_of label word s.2 ≤ tally label status (v_outbox (view (rs_world s.1))))%nat ∧
  (rs_errorsOut s.1 = [] →
   tally label status (v_outbox (view (rs_world s.1))) = (before + told_of label word s.2)%nat).

Lemma round_accounts label status word before s i :
  tl_metrics o = true → finished_as status word →
  accounts label status word before s → accounts label status word before (round s i).
Proof.
  intros Hm Hfin. destruct s as [s l]. intros (Hok & Hle & Heq). unfold worker_round_reported.
  destruct (rs_running s !! i) as [[]|]; [|by split..]. cbn [fst snd] in Hok, Hle, Heq.
  destruct (dispatch (rs_world s)) as [[r w'] l'] eqn:Hd.
  destruct (dispatch_accounts label status word _ _ _ _ Hm Hfin Hok Hd) as (Hok' & Hle' & Heq').
  destruct r as [[] [e|]]; (split; [done|]); cbn [fst snd rs_world rs_errorsOut] in *; rewrite told_of_app;
    (split; [lia|]); try (intros Ha; by apply app_eq_nil in Ha as [_ ?]); intros Hn; rewrite Heq', Heq by done; lia.
Qed.

(** C28: the metrics account for the outbox.  Whatever the order in which the
    workers of [Run] take their turns and whatever fails, for every destination
    label the counter of successful attempts is at most the number of
    deliveries that became delivered meanwhile, and the counter of permanent
    failures at most the number that failed for good; without an error both are
    exact (modulo 2^64).  With a store that cannot count pending deliveries,
    reporting changes nothing of what the workers do. *)
Theorem run_accounts schedule w s l :
  tl_metrics o = true → store_ok w → Run_reported ctx_err d o counter chain schedule w = (s, l) →
  (∀ label status word, finished_as status word →
    let before := tally label status (v_outbox (view w)) in
    let after := tally label status (v_outbox (view (rs_world s))) in
    ∃ n, (before + n ≤ after)%nat ∧ (rs_errorsOut s = [] → after = (before + n)%nat) ∧
      mt_deliveryAttempts (collected (observations l)) !! (label, word) =
        if Nat.eqb n 0 then None else Some (Z.of_nat n `mod` 2 ^ 64)) ∧
  (counter = None → s = fold_left (worker_round ctx_err d) schedule (run_start d w)).
Proof.
  intros Hm Hok Hrun. unfold Run_reported in Hrun. split.
  - intros label status word Hfin before after.
    assert (Hacc : accounts label status word before (s, l)).
    { rewrite <- Hrun. assert (H0 : accounts label status word before (run_start d w, [])).
      { split; [done|]. cbn. unfold told_of, occurrences, before. cbn. split; [lia|intros _; lia]. }
      clear Hrun. revert H0. generalize (run_start d w, @nil report).
      induction schedule as [|i schedule IH]; intros s0 H0; cbn [fold_left]; [done|]. by apply IH, round_accounts. }
    destruct Hacc as (_ & Hle & Heq). exists (told_of label word l). split; [done|]. split; [done|].
    unfold told_of. by apply counter_exact; [intros ? []|].
  - intros Hc. by rewrite <- (Run_erase schedule _ [] Hc), Hrun.
Qed.
End Accounts.

(** ** Witness: two workers, one accepting and one busy destination *)

Module ReportsWitness.
#[local] Existing Instance Memory.memory_driver.
Definition telemetry : TelemetryOptions Database := {| tl_metrics := true; tl_logger := true; tl_clock _ := 0 |}.
Definition chain (e : DeliverError) : app_error :=
  match e with deadline_exceeded => ErrContext GoNet.DeadlineExceeded | _ => ErrText "delivery failed" end.
Definition run : run_state (W := Database) * list report :=
  Run_reported DispatcherWitness.no_end RunWitness.dispatcher telemetry None chain RunWitness.schedule
    StoreWitness.database.
End ReportsWitness.

Lemma run_accounts_witness :
  let _ := Memory.memory_driver in
  mt_deliveryAttempts (collected (observations ReportsWitness.run.2)) !! ("d1", "success") = Some 1 ∧
  tally "d1" NotificationDelivered (v_outbox (view (rs_world ReportsWitness.run.1))) =
    S (tally "d1" NotificationDelivered (v_outbox (view StoreWitness.database))).
Proof.
  intros D.
  destruct (run_accounts (H := mongo_outbox) DispatcherWitness.no_end RunWitness.dispatcher ReportsWitness.telemetry
    None ReportsWitness.chain DispatcherWitness.now_quiet DispatcherWitness.deliver_quiet
    ltac:(discriminate) RunWitness.limits ltac:(by vm_compute) RunWitness.schedule StoreWitness.database
    _ _ eq_refl StoreWitness.database_is_ok (surjective_pairing ReportsWitness.run)) as [Hacc _].
  destruct (Hacc "d1" NotificationDelivered "success" (or_introl (conj eq_refl eq_refl))) as (n & _ & Heq & Hn).
  assert (Hm : mt_deliveryAttempts (collected (observations ReportsWitness.run.2)) !! ("d1", "success") = Some 1)
    by (clear; vm_compute; reflexivity).
  assert (He : rs_errorsOut ReportsWitness.run.1 = []) by (clear; vm_compute; reflexivity).
  assert (Hb : tally "d1" NotificationDelivered (v_outbox (view (rs_world ReportsWitness.run.1))) = 1%nat)
    by (clear; vm_compute; reflexivity).
  assert (H0 : tally "d1" NotificationDelivered (v_outbox (view StoreWitness.database)) = 0%nat)
    by (clear; vm_compute; reflexivity).
  assert (H1 : 1%nat = (0 + n)%nat)
    by exact (eq_trans (eq_sym Hb) (eq_trans (Heq He) (f_equal (λ x, x + n)%nat H0))).
  split; [exact Hm|]. etransitivity; [exact (Heq He)|]. etransitivity; [exact (f_equal (λ x, x + n)%nat H0)|].
  etransitivity; [exact (eq_sym H1)|]. exact (f_equal S (eq_sym H0)).
Defined.
