(* ===== verification/ReportsReconciler.v ===== *)
(** * Package [internal/controller], [reconciler.go], with its metrics and log records

    The reconciler as in [Reconciler], with the calls that report.  A provider
    that fails returns no response, as the clients do, so that the reports of a
    failed request carry no model and no attempts.  [provider_chain] and
    [reconcile_chain] give the error trees in which the logger looks for the
    end of a context. *)
From S2P Require Import Prelude GoBase Lifecycle Telemetry Reports Domain Rules Provider Decision Store Documents Driver.
From S2P Require Import Contract MongoRefinement Outbox Sha256 Json Fingerprint Kube Reconciler.

(** Programs that report and may fail. *)
Definition tebind {W E A B} (m : told W (result E A)) (k : A → told W (result E B)) : told W (result E B) :=
  tbind m (λ r, match r with Ok a => k a | Err e => tret (Err e) end).
Notation "x '←te' m ; k" := (tebind m (λ x, k))
  (at level 20, m at level 100, k at level 200, only parsing) : go_scope.

Section Reconcile.
Context {W Obj : Type} `{IncidentOps W} `{MapRange} (r : Reconciler W Obj) (o : TelemetryOptions W).
Context (provider_chain : string → app_error) (reconcile_chain : ReconcileError → app_error).

Definition outcomeOf (failed : bool) : string := if failed then "error" else "success".

(** The model a request is reported under: the resolved one if it can be
    trusted. *)
Definition reportedModel (response : option EvaluationResponse) : string :=
  match response with
  | None => ""
  | Some response =>
      let resolved := trustedResolvedModel (resp_RequestedModel response) (resp_ResolvedModel response) in
      if resolved ≠s? "" then resolved else resp_RequestedModel response
  end.
Definition reportedAttempts (response : option EvaluationResponse) : Z :=
  match response with Some response => resp_Attempts response | None => 0 end.

Definition evaluateProvider_reported (evaluator : ProviderOf W) (request : EvaluationRequest)
    : told W (option EvaluationResponse) :=
  started ←t reading (tl_clock o);
  answer ←t silently (pv_Evaluate evaluator request);
  let response := match answer with Ok response => Some response | Err _ => None end in
  let err := match answer with
             | Ok response => if checkResponse evaluator request response then None
                              else Some (ErrText "provider response is invalid")
             | Err e => Some (provider_chain e)
             end in
  let outcome := outcomeOf (isSome err) in
  elapsed ←t since o started;
  _ ←t logIf o (LogProvider {| pl_Provider := pv_Name evaluator; pl_Model := reportedModel response;
         pl_RequestID := req_RequestID request; pl_Outcome := outcome;
         pl_Attempts := reportedAttempts response; pl_Duration := elapsed; pl_Err := err |});
  elapsed ←t since o started;
  _ ←t observeIf o (OProvider (pv_Name evaluator) (reportedModel response) outcome elapsed
                      (reportedAttempts response));
  tret (if isSome err then None else response).

Definition askProviders_reported (request : EvaluationRequest) : told W (option EvaluationResponse) :=
  response ←t evaluateProvider_reported (r_primary r) request;
  match response, r_fallback r with
  | None, Some fallback => evaluateProvider_reported fallback request
  | _, _ => tret response
  end.

Definition decide_reported (s : Snapshot) (result : Result) (incidentID : string)
    : told W (option (Decision * option (gmap string Answer) * option ProviderAudit)) :=
  if res_Disposition result ≠s? DispositionSemantic then
    tret ((λ d, (d, None, None)) <$> Compose (r_composer r) result ∅ false)
  else
    match sv_marshal (r_services r) s with
    | None => tret ((λ d, (d, None, None)) <$> Compose (r_composer r) result ∅ true)
    | Some state =>
        let requestID := sv_newID (r_services r) ("request" +:+ nul +:+ incidentID +:+ nul +:+ sn_ContentHash s) in
        response ←t askProviders_reported {| req_State := state; req_Questions := OperationalTriageV1Questions;
          req_RubricVersion := res_QuestionSet result; req_RequestID := requestID; req_RequestedModel := "" |};
        match response with
        | None => tret ((λ d, (d, None, None)) <$> Compose (r_composer r) result ∅ true)
        | Some response =>
            tret ((λ d, (d, Some (resp_Answers response), Some (auditOf response)))
                    <$> Compose (r_composer r) result (resp_Answers response) false)
        end
    end.

(** One transition per rule of the decision, or one for none. *)
Definition transitionRules (d : Decision) : list string :=
  match dec_RuleIDs d with [] => ["none"] | ruleIDs => ruleIDs end.
Definition transitions (status : IncidentStatus) (d : Decision) : list report :=
  map (λ ruleID, Observed (OTransition status (dec_Severity d) ruleID)) (transitionRules d).

Definition persist_reported (s : Snapshot) (previous : option Incident) (result : Result) (now : time)
    : told W (Prelude.result ReconcileError unit) :=
  ic ←te match previous with
         | Some incident => silently (eret (incident, false))
         | None => silently (ewrap (store_error "upsert incident") (upsert_incident (newIncident r s now) None))
         end;
  let '(incident, created) := ic in
  if negb created && (inc_ContentHash incident =s? sn_ContentHash s) && negb (isRecovery result)
  then tret (Ok ()) else
  _ ←te silently (ewrap (store_error "upsert snapshot") (upsert_snapshot (inc_ID incident) s None));
  decided ←t decide_reported s result (inc_ID incident);
  match decided with
  | None => tret (Err composer_panic)
  | Some (d, answers, audit) =>
      _ ←te silently (ewrap (store_error "commit incident evaluation and outbox")
              (commit (commitRequest r incident created s result d answers audit now)));
      _ ←t tell (if tl_metrics o then transitions (statusFor result) d else []);
      tret (Ok ())
  end.

Definition resolveDeletion_reported (key : ResourceKey) : told W (Prelude.result ReconcileError unit) :=
  found ←t silently (get_incident (r_clusterID r) (IncidentKey (key_Source key (r_clusterID r))));
  match found with
  | Err e => tret (if is_ErrNotFound e then Ok () else Err (store_error "get deleted resource incident" e))
  | Ok previous =>
      if inc_Status previous =s? IncidentResolved then tret (Ok ()) else
      now ←t reading (sv_now (r_services r));
      persist_reported (deletionSnapshot r key now) (Some previous) deletionResult now
  end.

Definition decideAndPersist_reported (s : Snapshot) (now : time) (previous : option Incident)
    : told W (Prelude.result ReconcileError ReconcileResult) :=
  result ←t reading (sv_rules (r_services r) s previous);
  let s := finalSnapshot s result in
  let requeue := eventRequeue s now result (r_eventQuietPeriod r) in
  let same := match previous with Some p => inc_ContentHash p =s? sn_ContentHash s | None => false end in
  let resolved := match previous with Some p => inc_Status p =s? IncidentResolved | None => false end in
  let noMatch := res_Disposition result =s? DispositionNoMatch in
  if same && negb (isRecovery result) then tret (Ok {| RequeueAfter := requeue |}) else
  if noMatch && negb (isSome previous) then tret (Ok {| RequeueAfter := requeue |}) else
  if resolved && noMatch then tret (Ok {| RequeueAfter := 0 |}) else
  _ ←te persist_reported s previous result now;
  tret (Ok {| RequeueAfter := requeue |}).

Definition reconcileSnapshot_reported (s : Snapshot) (now : time)
    : told W (Prelude.result ReconcileError ReconcileResult) :=
  found ←t silently (get_incident (r_clusterID r) (IncidentKey (sn_Source s)));
  match found with
  | Err e => if is_ErrNotFound e then decideAndPersist_reported s now None
             else tret (Err (store_error "get incident" e))
  | Ok previous => decideAndPersist_reported s now (Some previous)
  end.

(** The body of [Reconcile], before its deferred functions. *)
Definition reconcileBody_reported (key : ResourceKey) : told W (Prelude.result ReconcileError ReconcileResult) :=
  if negb (key_Validate key) then tret (Err invalid_key) else
  resolved ←t silently (sv_resolve (r_services r) key);
  match resolved with
  | Err ErrResourceNotFound => _ ←te resolveDeletion_reported key; tret (Ok {| RequeueAfter := 0 |})
  | Err e => tret (Err (resolve_error e))
  | Ok object =>
      now ←t reading (sv_now (r_services r));
      match sv_normalize (r_services r) object now with
      | Err e => tret (Err (normalize_error e))
      | Ok s => reconcileSnapshot_reported s now
      end
  end.

(** The deferred functions run in the reverse of their order: first the metrics,
    then the logger. *)
Definition Reconcile_reported (key : ResourceKey) : told W (Prelude.result ReconcileError ReconcileResult) :=
  started ←t reading (tl_clock o);
  result ←t reconcileBody_reported key;
  let err := match result with Err e => Some e | Ok _ => None end in
  let outcome := outcomeOf (isSome err) in
  elapsed ←t since o started;
  _ ←t observeIf o (OReconcile outcome elapsed);
  elapsed ←t since o started;
  _ ←t logIf o (LogReconcile {| rl_ClusterID := r_clusterID r; rl_IncidentID := ""; rl_ResourceKind := rk_Kind key;
         rl_Namespace := rk_Namespace key; rl_ResourceName := rk_Name key; rl_RuleID := "";
         rl_Outcome := outcome; rl_Duration := elapsed; rl_Err := reconcile_chain <$> err |});
  tret result.
(** ** The program without its reports *)

Lemma evaluateProvider_erase p q w : (evaluateProvider_reported p q w).1 = evaluateProvider p q w.
Proof.
  unfold evaluateProvider_reported, evaluateProvider. rewrite !tbind_erase. cbn.
  destruct (pv_Evaluate p q w) as [[response|e] w1]; cbn; [|done]. by destruct (checkResponse p q response).
Qed.
Lemma askProviders_erase q w : (askProviders_reported q w).1 = askProviders r q w.
Proof.
  unfold askProviders_reported, askProviders. rewrite tbind_erase, evaluateProvider_erase.
  destruct (evaluateProvider (r_primary r) q w) as [[response|] w1]; cbn; [done|].
  destruct (r_fallback r); [apply evaluateProvider_erase|done].
Qed.
Lemma decide_erase s result id w : (decide_reported s result id w).1 = decide r s result id w.
Proof.
  unfold decide_reported, decide. destruct (_ ≠s? _); [done|]. destruct (sv_marshal _ s); [|done].
  rewrite tbind_erase, askProviders_erase. by destruct (askProviders r _ w) as [[response|] w1].
Qed.

Lemma tebind_erase {E A B} (m : told W (Prelude.result E A)) (k : A → told W (Prelude.result E B))
    (m' : eff W E A) (k' : A → eff W E B) w :
  (m w).1 = m' w → (∀ a w, (k a w).1 = k' a w) → (tebind m k w).1 = ebind m' k' w.
Proof.
  intros Hm Hk. unfold tebind, ebind. rewrite tbind_erase, Hm. by destruct (m' w) as [[a|e] w1]; cbn.
Qed.
#[local] Hint Resolve tebind_erase : core.

Lemma persist_erase s previous result now w : (persist_reported s previous result now w).1 = persist r s previous result now w.
Proof.
  unfold persist_reported, persist. apply tebind_erase; [by destruct previous|]. intros [incident created] w1.
  destruct (_ && _); [done|]. apply tebind_erase; [done|]. intros _ w2. rewrite tbind_erase, decide_erase.
  destruct (decide r s result (inc_ID incident) w2) as [[[[d answers] audit]|] w3]; [|done].
  cbv [tebind tbind silently tell tret fst snd]. by destruct (ewrap _ _ w3) as [[[]|e] w4].
Qed.
Lemma resolveDeletion_erase key w : (resolveDeletion_reported key w).1 = resolveDeletion r key w.
Proof.
  unfold resolveDeletion_reported, resolveDeletion. rewrite tbind_erase. cbn.
  destruct (get_incident _ _ w) as [[p|e] w1]; cbn; [|by destruct (is_ErrNotFound e)].
  destruct (_ =s? _); [done|]. rewrite tbind_erase. apply persist_erase.
Qed.
Lemma decideAndPersist_erase s now previous w :
  (decideAndPersist_reported s now previous w).1 = decideAndPersist r s now previous w.
Proof.
  unfold decideAndPersist_reported, decideAndPersist. rewrite tbind_erase. cbn.
  do 3 (match goal with |- (if ?b then _ else _) _.1 = _ => destruct b; [done|] | |- context [(if ?b then _ else _)] => destruct b; [done|] end).
  apply tebind_erase; [apply persist_erase|done].
Qed.
Lemma Reconcile_erase key w : (Reconcile_reported key w).1 = Reconcile r key w.
Proof.
  unfold Reconcile_reported. rewrite !tbind_erase. cbn. rewrite <- (surjective_pairing (reconcileBody_reported key w).1).
  unfold reconcileBody_reported, Reconcile. destruct (negb _); [done|]. rewrite tbind_erase. cbn [silently reading fst snd].
  destruct (sv_resolve _ key w) as [[obj|e] w1]; cbn [fst snd].
  - rewrite tbind_erase. cbn [silently reading fst snd]. destruct (sv_normalize _ obj _) as [s|e]; [|done].
    unfold reconcileSnapshot_reported, reconcileSnapshot. rewrite tbind_erase. cbn [silently reading fst snd].
    destruct (get_incident _ _ w1) as [[p|e] w2]; cbn [fst snd]; [apply decideAndPersist_erase|].
    destruct (is_ErrNotFound e); [apply decideAndPersist_erase|done].
  - destruct e; try done. apply tebind_erase; [apply resolveDeletion_erase|done].
Qed.
(** ** What is reported *)

Definition provider_report (x : report) : Prop :=
  match x with Observed (OProvider _ _ _ _ _) => True | Logged rec => ∃ e, rec = LogProvider e | _ => False end.
Definition transition_told (x : report) : option (string * string * string) :=
  match x with Observed (OTransition status severity rule) => Some (status, severity, rule) | _ => None end.
Definition transitions_told (l : list report) : list (string * string * string) := omap transition_told l.

Lemma transitions_told_app l l' : transitions_told (l ++ l') = transitions_told l ++ transitions_told l'.
Proof. apply omap_app. Qed.
Lemma provider_no_transitions l : Forall provider_report l → transitions_told l = [].
Proof. induction 1 as [|[[]|] l Hx _ IH]; try done. Qed.
Lemma transitions_told_all status d :
  transitions_told (transitions status d) = map (λ rule, (status, dec_Severity d, rule)) (transitionRules d).
Proof. unfold transitions. by induction (transitionRules d) as [|x l IH]; [|cbn; f_equal]. Qed.

Lemma evaluateProvider_reports p q w : Forall provider_report (evaluateProvider_reported p q w).2.
Proof.
  unfold evaluateProvider_reported. rewrite !tbind_reports. cbn [reading silently fst snd app].
  destruct (tl_metrics o) eqn:Hm, (tl_logger o) eqn:Hl; unfold since, logIf, observeIf; rewrite Hm, Hl; cbn;
    repeat (apply Forall_cons; split; [by try eexists|]); apply Forall_nil; done.
Qed.
Lemma askProviders_reports q w : Forall provider_report (askProviders_reported q w).2.
Proof.
  unfold askProviders_reported. rewrite tbind_reports. apply Forall_app. split; [apply evaluateProvider_reports|].
  destruct (evaluateProvider_reported (r_primary r) q w).1 as [[response|] w1]; cbn [fst snd]; [by apply Forall_nil|].
  destruct (r_fallback r); [apply evaluateProvider_reports|by apply Forall_nil].
Qed.
Lemma decide_reports s result id w : Forall provider_report (decide_reported s result id w).2.
Proof.
  unfold decide_reported. destruct (_ ≠s? _); [by apply Forall_nil|]. destruct (sv_marshal _ s); [|by apply Forall_nil].
  rewrite tbind_reports. apply Forall_app. split; [apply askProviders_reports|].
  destruct (askProviders_reported _ w).1 as [[response|] w1]; by apply Forall_nil.
Qed.
End Reconcile.

(** ** Labels *)

(** The labels of a transition are counted as they are: none of them is folded
    into [unknown] or [other]. *)
Definition known_rule (rule : string) : bool := normalizeRule rule =s? rule.
Definition known_severity (severity : string) : bool := normalizeSeverity severity =s? severity.
Definition known_match (m : Match) : bool := known_rule (m_RuleID m) && known_severity (m_Severity m).
Definition known_decision (d : Decision) : bool :=
  known_severity (dec_Severity d) && forallb known_rule (dec_RuleIDs d).
Definition known_result (result : Result) : bool :=
  forallb known_match (res_Matches result) &&
  match res_Decision result with Some d => known_decision d | None => true end.

Ltac known_shape := repeat (first [done | match goal with |- context [if ?b then _ else _] => destruct b
  | |- context [match ?x with Some _ => _ | None => _ end] => destruct x end]).
Section KnownRules.
Context (e : Options) (now : ClockSite → time) (s : Snapshot).
Lemma podCrashLoop_known : forallb known_match (podCrashLoop e now s) = true.
Proof.
  unfold podCrashLoop. destruct (negb _); [done|]. destruct (conditionTransition _ _ _ _); [|done].
  destruct (_ <? _); [done|]. cbv zeta. rewrite crash_fold by auto. cbn [String.eqb orb].
  change ("" =s? SeverityCritical) with false. change ("" =s? SeverityWarning) with false. cbn [orb].
  by destruct (existsb (crashCritical e) _), (existsb (crashLooping e) _).
Qed.
Lemma allMatches_known : forallb known_match (allMatches e now s) = true.
Proof.
  unfold allMatches. rewrite !forallb_app, podCrashLoop_known. cbn [andb]. rewrite !andb_true_iff. split_and!.
  - unfold podUnschedulable. known_shape.
  - unfold imagePullFailure. known_shape.
  - unfold failedJob. known_shape.
  - unfold workloadUnavailable. known_shape.
  - unfold warningEvent. known_shape.
Qed.
End KnownRules.

Lemma known_sorted l : forallb known_match l = true → forallb known_match (sort_slice match_ltb l) = true.
Proof.
  rewrite !forallb_forall. intros Hl m Hm. apply Hl. apply list_elem_of_In. apply list_elem_of_In in Hm.
  by rewrite (sort_slice_perm match_ltb l) in Hm.
Qed.
Lemma known_rules l : forallb known_match l = true → forallb known_rule (map m_RuleID l) = true.
Proof. induction l as [|m l IH]; [done|]. cbn. unfold known_match at 1. rewrite !andb_true_iff. naive_solver. Qed.
Lemma decisionFor_known first rest :
  forallb known_match (first :: rest) = true → known_decision (decisionFor first rest) = true.
Proof.
  intros Hk. unfold known_decision, decisionFor. cbn [dec_Severity dec_RuleIDs]. rewrite (known_rules _ Hk), andb_true_r.
  rewrite forallb_forall in Hk. specialize (Hk (highestSeverity first rest)). unfold known_match in Hk.
  rewrite <- list_elem_of_In in Hk. specialize (Hk (highestSeverity_elem first rest)).
  by apply andb_true_iff in Hk as [_ ?].
Qed.
Lemma Evaluate_known e now s previous : known_result (Evaluate e now s previous) = true.
Proof.
  unfold Evaluate. destruct (ignoredReason e s); [done|].
  pose proof (known_sorted _ (allMatches_known e now s)) as Hk.
  destruct (sort_slice match_ltb (allMatches e now s)) as [|first rest].
  - unfold recovered. destruct previous as [i|]; [|done]. by destruct (_ ≠s? _).
  - destruct (_ && _); unfold known_result; cbn [res_Matches res_Decision]; rewrite Hk; [done|].
    by rewrite decisionFor_known.
Qed.

Lemma known_merged left right :
  forallb known_rule left = true → forallb known_rule right = true → forallb known_rule (mergeRuleIDs left right) = true.
Proof.
  rewrite !forallb_forall. intros Hl Hr x Hx. apply list_elem_of_In, elem_of_mergeStrings in Hx as [[?|?] _].
  - by apply Hl, list_elem_of_In.
  - by apply Hr, list_elem_of_In.
Qed.
Lemma triage_known th family impact immediate transient : known_decision (triage th family impact immediate transient) = true.
Proof. unfold triage. cbv zeta. destruct (_ || _); [done|]. by destruct (_ || _). Qed.
Lemma composeEvidence_known `{MapRange} c result answers err d :
  known_decision (fallback c) = true → composeEvidence c result answers err = Some d → known_decision d = true.
Proof.
  intros Hf. unfold composeEvidence. destruct (_ || _); [by intros [= <-]|]. destruct (negb _); [by intros [= <-]|].
  unfold composeOperationalTriage. intros Hd. apply bind_Some in Hd as (? & _ & Hd).
  apply bind_Some in Hd as (? & _ & Hd). apply bind_Some in Hd as (? & _ & [= <-]). apply triage_known.
Qed.
Lemma Compose_known `{MapRange} c result answers err d :
  known_decision (fallback c) = true → known_result result = true →
  Compose c result answers err = Some d → known_decision d = true.
Proof.
  intros Hf [Hm Hd]%andb_true_iff. unfold Compose. destruct (_ && isSome _).
  { intros Hr. by rewrite Hr in Hd. }
  intros (composed & Hc & Hd')%bind_Some. apply composeEvidence_known in Hc as Hk; [|done].
  apply andb_true_iff in Hk as [Hs Hr]. injection Hd' as <-.
  pose proof (known_merged _ _ Hr (known_rules _ Hm)) as Hmerged.
  destruct (res_Decision result) as [floor|]; unfold known_decision; cbn.
  - apply andb_true_iff in Hd as [Hs' Hr']. rewrite known_merged by done. rewrite andb_true_r. by destruct (_ <? _).
  - by rewrite Hs.
Qed.

(** ** The reports and the store *)

Section Alone.
Context {W Obj : Type} `{MapRange} (r : Reconciler W Obj) (o : TelemetryOptions W).
Context (provider_chain : string → app_error) (reconcile_chain : ReconcileError → app_error).
Context `{IncidentStore W}.
Hypothesis provider_quiet : ∀ p q w x w', p = r_primary r ∨ r_fallback r = Some p →
  store_ok w → pv_Evaluate p q w = (x, w') → unchanged w w'.
Hypothesis resolve_quiet : ∀ key w x w', store_ok w →
  sv_resolve (r_services r) key w = (x, w') → unchanged w w'.

(** The transitions that are reported are those of the decision that was
    committed, and a success without one left the store as it was. *)
Definition commit_told (s : Snapshot) (now : time) (previous : option Incident) (result : Result)
    (v v' : StoreView) (told : list (string * string * string)) : Prop :=
  ∃ i c w1 d answers audit, store_ok w1 ∧ starting r s now v previous i c (view w1) ∧
    decided r s result d answers audit ∧
    commit_effect (commitRequest r i c s result d answers audit now) (view w1) v' ∧
    told = (if tl_metrics o then map (λ rule, (statusFor result, dec_Severity d, rule)) (transitionRules d) else []).

(** The reports of the body of [Reconcile]. *)
Definition body_report (x : report) : Prop :=
  provider_report x ∨ is_Some (transition_told x).
Definition body_told {A} (s : Snapshot) (now : time) (previous : option Incident) (result : Result)
    (w : W) (x : Prelude.result ReconcileError A) (w' : W) (l : list report) : Prop :=
  Forall body_report l ∧
  match x with
  | Err _ => transitions_told l = []
  | Ok _ => transitions_told l = [] ∧ view w' = view w ∨
            commit_told s now previous result (view w) (view w') (transitions_told l)
  end.

Lemma provider_body l : Forall provider_report l → Forall body_report l.
Proof. intros. eapply Forall_impl; [done|]. by left. Qed.

Lemma transitions_body status d : Forall body_report (if tl_metrics o then transitions status d else []).
Proof.
  destruct (tl_metrics o); [|by apply Forall_nil]. unfold transitions. apply Forall_forall.
  intros x (rule & -> & _)%list_elem_of_fmap. right. by eexists.
Qed.

Lemma tebind_run {E A B} (m : told W (Prelude.result E A)) (k : A → told W (Prelude.result E B)) w x w' l :
  tebind m k w = ((x, w'), l) →
  (∃ e, x = Err e ∧ m w = ((Err e, w'), l)) ∨
  ∃ a w1 l1 l2, m w = ((Ok a, w1), l1) ∧ k a w1 = ((x, w'), l2) ∧ l = l1 ++ l2.
Proof.
  intros ([a|e] & w1 & l1 & l2 & Hm & Hk & ->)%tbind_run; [by right; exists a, w1, l1, l2|].
  injection Hk as <- <- <-. left. exists e. by rewrite app_nil_r.
Qed.

Lemma commitDecided_told s previous result i c now v w x w' l :
  store_ok w → starting r s now v previous i c (view w) →
  (decided ←t decide_reported r o provider_chain s result (inc_ID i);
   match decided with
   | None => tret (Err composer_panic)
   | Some (d, answers, audit) =>
       _ ←te silently (ewrap (store_error "commit incident evaluation and outbox")
               (commit (commitRequest r i c s result d answers audit now)));
       _ ←t tell (if tl_metrics o then transitions (statusFor result) d else []);
       tret (Ok ())
   end) w = ((x, w'), l) →
  Forall body_report l ∧
  match x with
  | Err _ => transitions_told l = []
  | Ok _ => commit_told s now previous result v (view w') (transitions_told l)
  end.
Proof.
  intros Hok Hst (y & w1 & l1 & l2 & Hd & Hrest & ->)%tbind_run.
  pose proof (decide_reports r o provider_chain s result (inc_ID i) w) as Hp. rewrite Hd in Hp. cbn [snd] in Hp.
  pose proof (decide_erase r o provider_chain s result (inc_ID i) w) as He. rewrite Hd in He. cbn [fst] in He.
  destruct (decide_frame r unchanged unchanged_refl unchanged_trans ltac:(by intros ?? []) provider_quiet
    s result (inc_ID i) w y w1 Hok (eq_sym He)) as [[Hok1 Hv1] _].
  destruct y as [[[d answers] audit]|].
  2:{ injection Hrest as <- <- <-. rewrite app_nil_r. split; [by apply provider_body|by apply provider_no_transitions]. }
  apply tebind_run in Hrest as [(e & -> & [= _ <-])|([] & w2 & l3 & l4 & Hc & Hrest & ->)].
  { rewrite app_nil_r. split; [by apply provider_body|by apply provider_no_transitions]. }
  apply tbind_run in Hrest as ([] & w3 & l5 & l6 & [= <- <-] & [= <- <- <-] & ->).
  injection Hc as Hc <-. rewrite ewrap_ok in Hc. apply commit_spec in Hc as [Hok2 Heff]; [|done].
  rewrite app_nil_l, app_nil_r. split; [apply Forall_app; split; [by apply provider_body|apply transitions_body]|].
  rewrite Hv1 in Heff. exists i, c, w, d, answers, audit. split_and!; [done|done| |done|].
  - eapply decide_decided. by symmetry.
  - rewrite transitions_told_app, (provider_no_transitions _ Hp). cbn [app].
    destruct (tl_metrics o); [apply transitions_told_all|done].
Qed.

Lemma persist_told s previous result now w x w' l :
  store_ok w → v_incidents (view w) !! (r_clusterID r, IncidentKey (sn_Source s)) = previous →
  persist_reported r o provider_chain s previous result now w = ((x, w'), l) →
  body_told s now previous result w x w' l.
Proof.
  intros Hok Hprev. unfold persist_reported, body_told.
  intros [(e & -> & Hf)|([i c] & w1 & l1 & l2 & Hf & Hrest & ->)]%tebind_run.
  { assert (l = []) as -> by (destruct previous; by injection Hf). split; [by apply Forall_nil|done]. }
  assert (l1 = []) as -> by (destruct previous; by injection Hf). cbn [app].
  assert (store_ok w1 ∧ starting r s now (view w) previous i c (view w1) ∧
                (c = false → previous = Some i ∧ view w1 = view w)) as (Hok1 & Hst & Hc).
  { destruct previous as [p|].
    - injection Hf as <- <- <-. split_and!; [done|constructor|done].
    - injection Hf as Hf. rewrite ewrap_ok in Hf. apply upsert_incident_spec in Hf; [|done]. destruct c.
      + destruct Hf as (? & -> & ?). split_and!; [done|by constructor|done].
      + destruct Hf as [_ Hf]. discriminate (eq_trans (eq_sym Hprev) Hf). }
  destruct (negb c && _ && _) eqn:Hskip.
  { injection Hrest as <- <- <-. split; [by apply Forall_nil|]. left. split; [done|].
    rewrite !andb_true_iff, !negb_true_iff in Hskip. destruct Hskip as [[-> _] _]. by destruct (Hc eq_refl). }
  apply tebind_run in Hrest as [(e & -> & [= _ <-])|(y & w2 & l3 & l4 & Hs & Hrest & ->)].
  { split; [by apply Forall_nil|done]. }
  injection Hs as Hs <-. rewrite ewrap_ok in Hs. apply upsert_snapshot_spec in Hs as [Hok2 Hv2]; [|done].
  rewrite <- Hv2 in Hst. cbn [app].
  destruct (commitDecided_told s previous result i c now (view w) w2 x w' l4 Hok2 Hst Hrest) as [Hb Hx].
  split; [done|]. destruct x; [by right|done].
Qed.

(** The transitions of a reconciliation: none, and the store is as it was; or
    those of a commit for what the rules made of the snapshot, or for the
    deletion of the resource. *)
Definition reconcile_told {A} (v : StoreView) (x : Prelude.result ReconcileError A) (v' : StoreView)
    (told : list (string * string * string)) : Prop :=
  match x with
  | Err _ => told = []
  | Ok _ => told = [] ∧ v' = v ∨
      ∃ s now previous result,
        (result = deletionResult ∨ ∃ s0 w0, result = sv_rules (r_services r) s0 previous w0) ∧
        commit_told s now previous result v v' told
  end.

Lemma nothing_told {A} v (x : Prelude.result ReconcileError A) : reconcile_told v x v [].
Proof. destruct x; [by left|done]. Qed.
Lemma body_reconcile {A B} s now previous result w (x : Prelude.result ReconcileError A) w' l (y : B) :
  result = deletionResult ∨ (∃ s0 w0, result = sv_rules (r_services r) s0 previous w0) →
  body_told s now previous result w x w' l →
  Forall body_report l ∧
  reconcile_told (view w) (match x with Ok _ => Ok y | Err e => Err e end) (view w') (transitions_told l).
Proof.
  intros Hres [Hb Hx]. split; [done|]. destruct x; [|done]. destruct Hx as [?|?]; [by left|right].
  by exists s, now, previous, result.
Qed.

Lemma decideAndPersist_told s now previous w x w' l :
  store_ok w → v_incidents (view w) !! (r_clusterID r, IncidentKey (sn_Source s)) = previous →
  decideAndPersist_reported r o provider_chain s now previous w = ((x, w'), l) →
  Forall body_report l ∧ reconcile_told (view w) x (view w') (transitions_told l).
Proof.
  intros Hok Hprev. unfold decideAndPersist_reported.
  intros (result & w1 & l1 & l2 & [= <- <- <-] & Hrest & ->)%tbind_run. cbn [app].
  set (result := sv_rules _ _ _ _) in *. cbv zeta in Hrest.
  destruct (_ && negb (isRecovery result)) in Hrest; [injection Hrest as <- <- <-; split; [by apply Forall_nil|by left]|].
  destruct (_ && negb (isSome previous)) in Hrest; [injection Hrest as <- <- <-; split; [by apply Forall_nil|by left]|].
  match type of Hrest with (if ?b then _ else _) _ = _ => destruct b end;
    [injection Hrest as <- <- <-; split; [by apply Forall_nil|by left]|].
  assert (Hres : result = deletionResult ∨ ∃ s0 w0, result = sv_rules (r_services r) s0 previous w0)
    by (right; by exists s, w).
  apply tebind_run in Hrest as [(e & -> & Hp)|([] & w2 & l3 & l4 & Hp & [= <- <- <-] & ->)];
    rewrite ?app_nil_r; apply persist_told in Hp; try done; try by rewrite finalSnapshot_source.
  by apply (body_reconcile _ _ _ _ _ _ _ _ {| RequeueAfter := eventRequeue (finalSnapshot s result) now result (r_eventQuietPeriod r) |} Hres Hp).
Qed.

Lemma resolveDeletion_told key w x w' l :
  store_ok w → resolveDeletion_reported r o provider_chain key w = ((x, w'), l) →
  Forall body_report l ∧ reconcile_told (view w) x (view w') (transitions_told l).
Proof.
  intros Hok. unfold resolveDeletion_reported. intros (found & w1 & l1 & l2 & [= Hg <-] & Hrest & ->)%tbind_run. cbn [app].
  apply get_incident_spec in Hg as [[Hok1 Hv1] Hg]; [|done]. rewrite <- Hv1.
  destruct found as [p|e].
  2:{ injection Hrest as <- <- <-. split; [by apply Forall_nil|]. apply nothing_told. }
  destruct (_ =s? _); [injection Hrest as <- <- <-; split; [by apply Forall_nil|]; apply nothing_told|].
  apply tbind_run in Hrest as (now & w2 & l3 & l4 & [= <- <- <-] & Hp & ->). cbn [app].
  apply persist_told in Hp; [|done|by rewrite Hv1].
  pose proof (body_reconcile _ _ _ _ _ _ _ _ () (or_introl eq_refl) Hp) as Hb. by destruct x as [[]|].
Qed.

Lemma reconcileBody_told key w x w' l :
  store_ok w → reconcileBody_reported r o provider_chain key w = ((x, w'), l) →
  Forall body_report l ∧ reconcile_told (view w) x (view w') (transitions_told l).
Proof.
  intros Hok. unfold reconcileBody_reported.
  destruct (negb _); [intros [= <- <- <-]; split; [by apply Forall_nil|done]|].
  intros (res & w1 & l1 & l2 & [= Hr <-] & Hrest & ->)%tbind_run. cbn [app].
  apply resolve_quiet in Hr as [Hok1 Hv1]; [|done]. rewrite <- Hv1. destruct res as [obj|e].
  - apply tbind_run in Hrest as (now & w2 & l3 & l4 & [= <- <- <-] & Hrest & ->). cbn [app].
    destruct (sv_normalize _ obj _) as [s|e]; [|injection Hrest as <- <- <-; split; [by apply Forall_nil|done]].
    unfold reconcileSnapshot_reported in Hrest.
    apply tbind_run in Hrest as (found & w2 & l5 & l6 & [= Hg <-] & Hrest & ->). cbn [app].
    apply get_incident_spec in Hg as [[Hok2 Hv2] Hg]; [|done]. rewrite <- Hv2. rewrite <- Hv2 in Hg.
    destruct found as [p|e]; [by apply decideAndPersist_told in Hrest|].
    destruct (is_ErrNotFound e); [by apply decideAndPersist_told in Hrest; [|done|apply Hg]|].
    injection Hrest as <- <- <-. split; [by apply Forall_nil|done].
  - destruct e; try (injection Hrest as <- <- <-; split; [by apply Forall_nil|done]).
    apply tebind_run in Hrest as [(e & -> & Hd)|([] & w2 & l3 & l4 & Hd & [= <- <- <-] & ->)];
      rewrite ?app_nil_r; by apply resolveDeletion_told in Hd.
Qed.

(** The reports around the body. *)
Definition reconcile_end (key : ResourceKey) (x : Prelude.result ReconcileError ReconcileResult)
    (elapsed elapsed' : duration) : list report :=
  (if tl_metrics o then [Observed (OReconcile (outcomeOf (negb (is_ok x))) elapsed)] else []) ++
  (if tl_logger o then
     [Logged (LogReconcile {| rl_ClusterID := r_clusterID r; rl_IncidentID := ""; rl_ResourceKind := rk_Kind key;
        rl_Namespace := rk_Namespace key; rl_ResourceName := rk_Name key; rl_RuleID := "";
        rl_Outcome := outcomeOf (negb (is_ok x)); rl_Duration := elapsed';
        rl_Err := match x with Ok _ => None | Err e => Some (reconcile_chain e) end |})] else []).

Lemma Reconcile_run key w x w' l :
  store_ok w → Reconcile_reported r o provider_chain reconcile_chain key w = ((x, w'), l) →
  ∃ body elapsed elapsed', l = body ++ reconcile_end key x elapsed elapsed' ∧
    Forall body_report body ∧ reconcile_told (view w) x (view w') (transitions_told l).
Proof.
  intros Hok Hrun. unfold Reconcile_reported in Hrun.
  apply tbind_run in Hrun as (started & w1 & l1 & l2 & [= <- <- <-] & Hrun & ->).
  apply tbind_run in Hrun as (y & w1 & body & l3 & Hbody & Hrun & ->).
  apply tbind_run in Hrun as (elapsed & w2 & l4 & l5 & [= <- <- <-] & Hrun & ->).
  apply tbind_run in Hrun as ([] & w2 & l6 & l7 & [= <- <-] & Hrun & ->).
  apply tbind_run in Hrun as (elapsed' & w2 & l8 & l9 & [= <- <- <-] & Hrun & ->).
  apply tbind_run in Hrun as ([] & w2 & l10 & l11 & [= <- <-] & [= <- <- <-] & ->).
  apply reconcileBody_told in Hbody as [Hb Ht]; [|done]. cbn [app]. rewrite !app_nil_r.
  eexists body, _, _. split; [by destruct y|]. split; [done|].
  rewrite !transitions_told_app. destruct (tl_metrics o), (tl_logger o); cbn; by rewrite app_nil_r.
Qed.


(** *** Exact labels *)

Definition known_transition (t : string * string * string) : bool :=
  let '(status, severity, rule) := t in
  (normalizeIncidentStatus status =s? status) && known_severity severity && known_rule rule.

Lemma statusFor_known result : normalizeIncidentStatus (statusFor result) = statusFor result.
Proof. unfold statusFor. destruct (isRecovery result); [done|]. by destruct (_ =s? _). Qed.

Lemma commit_told_known s now previous result v v' told :
  known_decision (fallback (r_composer r)) = true → known_result result = true →
  commit_told s now previous result v v' told → forallb known_transition told = true.
Proof.
  intros Hf Hk (i & c & w1 & d & answers & audit & _ & _ & Hd & _ & ->).
  assert (∃ a err, Compose (r_composer r) result a err = Some d) as (a & err & Hc)
    by (destruct Hd; eauto).
  apply Compose_known in Hc; [|done..]. apply andb_true_iff in Hc as [Hs Hr].
  destruct (tl_metrics o); [|done]. assert (Hall : forallb known_rule (transitionRules d) = true).
  { unfold transitionRules. by destruct (dec_RuleIDs d). }
  clear Hr. induction (transitionRules d) as [|x l IH]; [done|]. cbn in *. apply andb_true_iff in Hall as [Hx Hall].
  by rewrite statusFor_known, String.eqb_refl, Hs, Hx, (IH Hall).
Qed.

Lemma transition_occurrences t l :
  forallb known_transition (transitions_told l) = true →
  occurrences transition_key t (observations l) =
    length (List.filter (λ u, bool_decide (u = t)) (transitions_told l)).
Proof.
  induction l as [|x l IH]; [done|]. change (x :: l) with ([x] ++ l).
  rewrite transitions_told_app, observations_app, forallb_app, andb_true_iff. intros [Hx Hl].
  unfold occurrences. rewrite !List.filter_app, !length_app. f_equal; [|by apply IH].
  destruct x as [[]|]; try done. cbn in Hx |- *. rewrite !andb_true_iff, !String.eqb_eq in Hx.
  destruct Hx as [[[-> Hv] Hr] _]. apply String.eqb_eq in Hv as ->, Hr as ->.
  repeat case_bool_decide; simplify_eq; try done; congruence.
Qed.

(** C37: transitions are counted under exact labels.  With the rule engine and the
    composer of the program, whatever the providers answer, every transition a
    reconciliation reports has a status, a severity and a rule that the metrics
    know, and the counter of each label grows by exactly the number of
    transitions reported with it: none is folded into [unknown] or [other]. *)
Theorem transition_labels_exact engine reads key w x w' l t :
  store_ok w → r_composer r = NewComposer →
  (∀ s previous w, sv_rules (r_services r) s previous w = Evaluate engine (reads w) s previous) →
  Reconcile_reported r o provider_chain reconcile_chain key w = ((x, w'), l) →
  let n := length (List.filter (λ u, bool_decide (u = t)) (transitions_told l)) in
  forallb known_transition (transitions_told l) = true ∧
  mt_incidentTransitions (collected (observations l)) !! t =
    if Nat.eqb n 0 then None else Some (Z.of_nat n `mod` 2 ^ 64).
Proof.
  intros Hok Hc Hrules Hrun. assert (Hk : forallb known_transition (transitions_told l) = true).
  { apply Reconcile_run in Hrun as (body & ? & ? & _ & _ & Ht); [|done].
    unfold reconcile_told in Ht. destruct x as [x|e]; [|by rewrite Ht].
    destruct Ht as [[-> _]|(s & now & previous & result & Hres & Ht)]; [done|].
    eapply commit_told_known; [by rewrite Hc| |exact Ht].
    destruct Hres as [->|(s0 & w0 & ->)]; [done|]. rewrite Hrules. apply Evaluate_known. }
  split; [done|]. rewrite <- (transition_occurrences t l Hk). by apply counter_exact; [intros ? []|].
Qed.
End Alone.

(** ** Witness: an outage that opens an incident *)

Module ReconcileReportsWitness.
#[local] Existing Instance Memory.memory_driver.
#[local] Existing Instance range_in_order.
Definition telemetry : TelemetryOptions Database := {| tl_metrics := true; tl_logger := true; tl_clock _ := 0 |}.
Definition chain (_ : string) : app_error := ErrText "provider failed".
Definition reconcile_chain (_ : ReconcileError) : app_error := ErrText "reconciliation failed".
Definition run :=
  Reconcile_reported (H := @incident_ops _ mongo_incidents) (Scenario.reconciler ReconcilerWitness.first)
    telemetry chain reconcile_chain Scenario.key Scenario.empty.
Definition reports : list report := run.2.
Lemma run_eq : run = ((Ok ReconcilerWitness.requeue, ReconcilerWitness.opened), reports).
Proof. vm_compute. reflexivity. Qed.
Lemma told_eq : transitions_told reports = [("open", "critical", "workload-unavailable")].
Proof. vm_compute. reflexivity. Qed.
End ReconcileReportsWitness.


Lemma transition_labels_exact_witness :
  let _ := Memory.memory_driver in
  mt_incidentTransitions (collected (observations ReconcileReportsWitness.reports))
    !! ("open", "critical", "workload-unavailable") = Some 1.
Proof.
  intros D.
  destruct (transition_labels_exact (H := range_in_order) (H0 := mongo_incidents)
    (Scenario.reconciler ReconcilerWitness.first) ReconcileReportsWitness.telemetry ReconcileReportsWitness.chain
    ReconcileReportsWitness.reconcile_chain
    (ReconcilerWitness.provider_is_quiet _) (ReconcilerWitness.resolver_is_quiet _)
    RulesWitness.opts (λ _, RulesWitness.clock) Scenario.key Scenario.empty _ _ _
    ("open", "critical", "workload-unavailable") Scenario.empty_ok eq_refl (λ _ _ _, eq_refl)
    ReconcileReportsWitness.run_eq) as [_ Ht].
  rewrite Ht. clear Ht. rewrite ReconcileReportsWitness.told_eq. vm_compute. reflexivity.
Defined.
