(* ===== verification/ReportsSystem.v ===== *)
(** * What the running program reports

    The reports of the work queue ([manager.go]), and what all components
    together tell one collector.  The MongoDB store has no method
    [CountPendingDeliveries] and calls no metrics. *)
From S2P Require Import Prelude GoBase Lifecycle Telemetry Reports Kube Manager.
From S2P Require Import Domain Rules Provider Decision Store Documents Driver Contract Notifier Dispatcher ReportsDispatcher Reconciler ReportsReconciler.

(** ** [manager.go] *)

Section Queue.
Context {Q : Type} `{WorkQueue Q} (QLen : Q → Z) (o : TelemetryOptions Q).

Definition observeQueue : told Q unit :=
  if tl_metrics o then depth ←t reading QLen; observeIf o (OQueueDepth depth) else tret ().

(** [queueAdapter.Add] and [Manager.Add]. *)
Definition Add_reported (key : ResourceKey) : told Q unit :=
  _ ←t silently (λ q, ((), QAdd key q)); observeQueue.

(** Taking a key, and the rest of the iteration of [runWorker] for it. *)
Definition takeItem_reported : told Q (option ResourceKey) :=
  item ←t silently (λ q, match QGet q with Some (k, q) => (Some k, q) | None => (None, q) end);
  match item with None => tret None | Some k => _ ←t observeQueue; tret (Some k) end.
Definition finishItem_reported (key : ResourceKey) (outcome : result string Manager.ReconcileResult) (ended : bool)
    : told Q unit :=
  _ ←t match outcome with
       | Err _ => if ended then tret () else _ ←t silently (λ q, ((), QAddRateLimited key q)); observeQueue
       | Ok result =>
           _ ←t silently (λ q, ((), QForget key q));
           if (0 <? rr_RequeueAfter result) && negb ended then
             _ ←t silently (λ q, ((), QAddAfter key (rr_RequeueAfter result) q)); observeQueue
           else tret ()
       end;
  silently (λ q, ((), QDone key q)).

Lemma observeQueue_run q : observeQueue q = (((), q), if tl_metrics o then [Observed (OQueueDepth (QLen q))] else []).
Proof. unfold observeQueue, observeIf. by destruct (tl_metrics o) eqn:E; unfold tbind, reading, tell; rewrite ?E. Qed.

(** Reporting changes nothing of what the workers do to the queue; every key that
    is added or taken sets the gauge to the length of the queue then. *)
Lemma manager_reports key outcome ended q :
  let depth q := if tl_metrics o then [Observed (OQueueDepth (QLen q))] else [] in
  Add_reported key q = (((), Manager_Add key q), depth (Manager_Add key q)) ∧
  takeItem_reported q = match QGet q with
                        | Some (k, q') => ((Some k, q'), depth q')
                        | None => ((None, q), [])
                        end ∧
  (finishItem_reported key outcome ended q).1 = ((), finishItem key outcome ended q).
Proof.
  intros depth. split_and!.
  - unfold Add_reported, tbind, silently. by rewrite observeQueue_run.
  - unfold takeItem_reported, tbind, silently. destruct (QGet q) as [[k q']|]; [|done].
    rewrite observeQueue_run. cbn. by rewrite app_nil_r.
  - unfold finishItem_reported, finishItem, tbind, silently.
    destruct outcome as [result|e]; [|by destruct ended; [|rewrite observeQueue_run]].
    by destruct (_ && _); [rewrite observeQueue_run|].
Qed.
End Queue.

(** ** All reports of a process *)

Section Silent.
Context {W : Type} (P : report → Prop).
Lemma tbind_forall {A B} (m : told W A) (k : A → told W B) w :
  (∀ w, Forall P (m w).2) → (∀ a w, Forall P (k a w).2) → Forall P (tbind m k w).2.
Proof. intros Hm Hk. rewrite tbind_reports. by apply Forall_app. Qed.
Lemma tebind_forall {E A B} (m : told W (result E A)) (k : A → told W (result E B)) w :
  (∀ w, Forall P (m w).2) → (∀ a w, Forall P (k a w).2) → Forall P (tebind m k w).2.
Proof. intros Hm Hk. apply tbind_forall; [done|]. intros [a|e] w'; [done|apply Forall_nil_2]. Qed.
Lemma silently_forall {A} (f : W → A * W) w : Forall P (silently f w).2.
Proof. apply Forall_nil_2. Qed.
Lemma reading_forall {A} (f : W → A) w : Forall P (reading f w).2.
Proof. apply Forall_nil_2. Qed.
Lemma tret_forall {A} (a : A) (w : W) : Forall P (tret a w).2.
Proof. apply Forall_nil_2. Qed.
Lemma observeIf_forall (o : TelemetryOptions W) x w : P (Observed x) → Forall P (observeIf o x w).2.
Proof. intros. unfold observeIf. destruct (tl_metrics o); [by repeat constructor|apply Forall_nil_2]. Qed.
Lemma logIf_forall (o : TelemetryOptions W) x w : P (Logged x) → Forall P (logIf o x w).2.
Proof. intros. unfold logIf. destruct (tl_logger o); [by repeat constructor|apply Forall_nil_2]. Qed.
End Silent.

Definition silent (x : report) : Prop := store_silent x = true.
Ltac told_silent :=
  repeat (intros; cbv zeta;
    lazymatch goal with
    | |- Forall _ (tbind _ _ _).2 => apply tbind_forall
    | |- Forall _ (tebind _ _ _).2 => apply tebind_forall
    | |- Forall _ (silently _ _).2 => apply silently_forall
    | |- Forall _ (since _ _ _).2 => apply reading_forall
    | |- Forall _ (reading _ _).2 => apply reading_forall
    | |- Forall _ (tret _ _).2 => apply tret_forall
    | |- Forall _ (observeIf _ _ _).2 => apply observeIf_forall; reflexivity
    | |- Forall _ (logIf _ _ _).2 => apply logIf_forall; reflexivity
    | |- Forall _ ((if ?b then _ else _) _).2 => destruct b
    | |- Forall _ ((match ?x with _ => _ end) _).2 => destruct x
    end); intros.

Section ReconcilerSilent.
Context {W Obj : Type} `{IncidentOps W} `{MapRange} (r : Reconciler W Obj) (o : TelemetryOptions W).
Context (provider_chain : string → app_error) (reconcile_chain : ReconcileError → app_error).

Lemma evaluateProvider_silent p q w : Forall silent (evaluateProvider_reported o provider_chain p q w).2.
Proof. unfold evaluateProvider_reported. told_silent. Qed.
Lemma decide_silent s result id w : Forall silent (decide_reported r o provider_chain s result id w).2.
Proof.
  unfold decide_reported, askProviders_reported. told_silent; apply evaluateProvider_silent.
Qed.
Lemma persist_silent s previous result now w : Forall silent (persist_reported r o provider_chain s previous result now w).2.
Proof.
  unfold persist_reported. told_silent; [apply decide_silent|]. unfold tell, transitions. cbn [snd].
  destruct (tl_metrics o); [|by apply Forall_nil]. apply Forall_forall. by intros x (rule & -> & _)%list_elem_of_fmap.
Qed.
Lemma decideAndPersist_silent s now previous w :
  Forall silent (decideAndPersist_reported r o provider_chain s now previous w).2.
Proof. unfold decideAndPersist_reported. told_silent; apply persist_silent. Qed.
Lemma Reconcile_silent key w : Forall silent (Reconcile_reported r o provider_chain reconcile_chain key w).2.
Proof.
  unfold Reconcile_reported, reconcileBody_reported, reconcileSnapshot_reported, resolveDeletion_reported.
  told_silent; first [apply decideAndPersist_silent|apply persist_silent].
Qed.
End ReconcilerSilent.

(** A report of some round of a dispatcher whose store cannot count, of some
    reconciliation, or of a worker of the queue. *)
Inductive emitted `{MapRange} : report → Prop :=
  | emitted_dispatch W `{OutboxOps W} ctx_err (d : Dispatcher W) o chain w x :
      x ∈ (DispatchOne_reported ctx_err d o None chain w).2 → emitted x
  | emitted_reconcile W Obj `{IncidentOps W} (r : Reconciler W Obj) o provider_chain reconcile_chain key w x :
      x ∈ (Reconcile_reported r o provider_chain reconcile_chain key w).2 → emitted x
  | emitted_add Q `{WorkQueue Q} len (o : TelemetryOptions Q) key q x :
      x ∈ (Add_reported len o key q).2 → emitted x
  | emitted_take Q `{WorkQueue Q} len (o : TelemetryOptions Q) q x :
      x ∈ (takeItem_reported len o q).2 → emitted x
  | emitted_finish Q `{WorkQueue Q} len (o : TelemetryOptions Q) key outcome ended q x :
      x ∈ (finishItem_reported len o key outcome ended q).2 → emitted x.

Lemma emitted_silent `{MapRange} x : emitted x → silent x.
Proof.
  assert (Hin : ∀ l, Forall silent l → x ∈ l → silent x) by (intros l Hl Hx; by eapply Forall_forall in Hl).
  intros He. destruct He as [W ops ctx_err d o chain w x Hx|W Obj ops r o pc rc key w x Hx
    |Q Hq len o key q x Hx|Q Hq len o q x Hx|Q Hq len o key outcome ended q x Hx].
  - destruct (DispatchOne_reported ctx_err d o None chain w) as [[res w'] l] eqn:Hd.
    apply DispatchOne_run in Hd as (_ & _ & _ & _ & Hs). specialize (Hs eq_refl). rewrite forallb_forall in Hs.
    by apply Hs, list_elem_of_In.
  - eapply Hin; [|exact Hx]. apply Reconcile_silent.
  - eapply Hin; [|exact Hx]. unfold Add_reported, observeQueue. told_silent.
  - eapply Hin; [|exact Hx]. unfold takeItem_reported, observeQueue. told_silent.
  - eapply Hin; [|exact Hx]. unfold finishItem_reported, observeQueue. told_silent.
Qed.

(** Whatever the components of the process report, in any order and of any runs:
    with the MongoDB store the exported gauge of pending deliveries stays zero
    and the metrics of database operations stay empty. *)
Lemma store_metrics_dead `{MapRange} l :
  Forall emitted l →
  mt_outboxPending (collected (observations l)) = 0 ∧ mt_mongoOperations (collected (observations l)) = ∅ ∧
  mt_mongoDuration (collected (observations l)) = ∅.
Proof.
  intros Hl. apply silent_gauges, forallb_forall. intros x Hx%list_elem_of_In.
  eapply Forall_forall in Hl; [|exact Hx]. by apply emitted_silent.
Qed.
