(* ===== verification/Wiring.v ===== *)
(** * Package [internal/app], [production.go]: the parts of the application

    What [NewProduction] builds its components from: the registries, the options
    of the configuration, the providers with the hash of their configuration,
    the notifiers, and the normalizer.

    [Platform] collects what the application is given by the Go runtime, by
    client-go and by the MongoDB driver.  Nothing is assumed about it here. *)
From S2P Require Import Prelude GoBase Domain Rules Provider Sha256 Json GoNet Retry HttpClient Clients Registry Notifier Webhook Kube Redactor Normalizer Providers.
From S2P Require Config.

Class Platform (W Ctx Rest Kube Handle Conn O : Type) := {
  (* contexts, clocks and the environment *)
  pl_ctx_err : Ctx → W → option GoError;
  pl_with_timeout : Ctx → duration → W → Ctx;
  pl_sleep : Ctx → duration → W → option GoError * W;
  pl_deliver_err : W → option CtxError;
  pl_request_err : W → option CtxError;
  pl_Background : Ctx;
  pl_time_Now : W → time * W;
  pl_reads : (W → time * W) → W → ClockSite → time; (* of a clock, during one evaluation *)
  pl_LookupEnv : string → option string;
  pl_Hostname : eff W string string;
  pl_Getpid : Z;
  pl_Quote : string → string;
  pl_FormatFloat : SpecFloat.spec_float → string;
  (* net/http: an [http.Client] with a time limit that returns redirects *)
  pl_http_client : duration → HTTPClient (W := W) (Ctx := Ctx);
  pl_body_error : Response → GoError;
  pl_split_host_port : string → option (string * string);
  pl_dial : IP → string → W → option Conn * W;
  pl_transport : (string → W → option (IP * Conn) * W) → bool → Do W;
  pl_LookupIP : LookupIP (W := W);
  (* client-go *)
  pl_InClusterConfig : eff W string Rest;
  pl_ClientConfig : option string → eff W string Rest;
  pl_NewForConfig : Rest → result string Kube;
  pl_get : Kube → Resource → string → string → eff W GetError (K8sObject O);
  pl_NestedSlice : any O → list string → result string (option (list (any O)));
  pl_AddEventHandler : Kube → option string → string → bool;
  (* the MongoDB driver *)
  pl_Connect : string → duration → eff W string Handle;
  pl_Disconnect : Handle → eff W string unit
}.

Definition providerMaxRequestBytes : Z := 256 * 1024.
Definition providerMaxResponseBytes : Z := 256 * 1024.
Definition dispatchPollInterval : duration := second.
Definition dispatchLeaseDuration : duration := 30 * second.
Definition shutdownTimeout : duration := 30 * second.

Section Wiring.
Context {W Ctx Rest Kube Handle Conn O : Type} `{Platform W Ctx Rest Kube Handle Conn O} `{NetParsers}.

Abbreviation Environment := (string → option string) (only parsing).
Abbreviation Clock := (W → time * W) (only parsing).
Abbreviation ProviderRegistry := (gmap string (Providers.factory (W := W) (Ctx := Ctx))) (only parsing).

(** ** Registries *)

Definition notifier_factory : Type := FactoryConfig (W := W) → eff W HookError (Hook (W := W)).
Definition webhookNew : notifier_factory :=
  NewWebhook pl_split_host_port pl_dial pl_transport pl_LookupIP pl_time_Now.
(** The registry of [internal/notify], over its own factories. *)
Definition notify_NewRegistry : gmap string notifier_factory := NewRegistry.
Definition notify_Register (type : string) (factory : option notifier_factory)
    (registry : gmap string notifier_factory) : result RegistryError (gmap string notifier_factory) :=
  Register type factory registry.
Definition notify_Types (registry : gmap string notifier_factory) : list string := Types registry.
(** [webhook.Register]. *)
Definition registerWebhook (registry : option (gmap string notifier_factory))
    : result RegistryError (gmap string notifier_factory) :=
  match registry with
  | None => Err registry_required
  | Some registry => notify_Register "webhook" (Some webhookNew) registry
  end.
Definition NewNotifierRegistry : result RegistryError (gmap string notifier_factory) :=
  registerWebhook (Some notify_NewRegistry).

Definition ConfigOptions (providerRegistry : option ProviderRegistry)
    (notifierRegistry : option (gmap string notifier_factory)) (lookupEnv : option Environment)
    : Config.ConfigOptions_ :=
  {| Config.op_LookupEnv := lookupEnv;
     Config.op_ProviderTypes := match providerRegistry with Some r => Types r | None => [] end;
     Config.op_NotifierTypes := match notifierRegistry with Some r => notify_Types r | None => [] end |}.

(** ** Providers *)

Definition retryPolicy (timeout : duration) : RetryPolicy :=
  {| MaxAttempts := 3; InitialBackoff := 250 * millisecond; MaxBackoff := 2 * second;
     MaxRetryAfter := 5 * second; TotalTimeout := timeout; HasSleep := true; Jitter := None |}.

Definition providerConfig (cfg : Config.ProviderSettings) (timeout : duration) (lookupEnv : Environment)
    (now : Clock) : ProviderConfig (W := W) (Ctx := Ctx) :=
  {| pf_Endpoint := Config.ps_Endpoint cfg; pf_Model := Config.ps_Model cfg;
     pf_StrictMode := Config.ps_StrictMode cfg;
     pf_Credential := default "" (lookupEnv (Config.ps_CredentialEnv cfg));
     pf_HTTPClient := Some (pl_http_client timeout); pf_Retry := retryPolicy timeout;
     pf_MaxRequestBytes := providerMaxRequestBytes; pf_MaxResponseBytes := providerMaxResponseBytes;
     pf_Now := Some now |}.
Definition createProvider (cfg : Config.ProviderSettings) (timeout : duration)
    (registry : ProviderRegistry) (lookupEnv : Environment) (now : Clock)
    : result CreateError (client (W := W) (Ctx := Ctx)) :=
  Create registry (Config.ps_Type cfg) (providerConfig cfg timeout lookupEnv now).

(** The struct has no JSON tags, so its fields keep their Go names. *)
Definition provider_json (p : Config.ProviderSettings) : json :=
  JObject [("Type", JString (Config.ps_Type p)); ("Model", JString (Config.ps_Model p));
           ("CredentialEnv", JString (Config.ps_CredentialEnv p));
           ("Endpoint", JString (Config.ps_Endpoint p));
           ("StrictMode", JString (Config.ps_StrictMode p))].
Definition providerConfigHash (cfg : Config.DecisionConfig) : string :=
  let encoded := json_print (JObject
    (("primary", provider_json (Config.dn_Primary cfg))
     :: match Config.dn_Fallback cfg with
        | Some fallback => [("fallback", provider_json fallback)]
        | None => []
        end)) in
  "sha256:" +:+ hex_encode (sha256 encoded).

Variant ProviderRole := Primary | Fallback.
Variant BuildError :=
  | provider_failed (role : ProviderRole) (e : CreateError)
  | destination_failed (id : string) (e : RegistryError + HookError).

Definition buildProviders (cfg : Config.DecisionConfig) (registry : ProviderRegistry)
    (lookupEnv : Environment) (now : Clock)
    : result BuildError (client (W := W) (Ctx := Ctx) * option (client (W := W) (Ctx := Ctx)) * string) :=
  let create role cfg' :=
    match createProvider cfg' (Config.dn_Timeout cfg) registry lookupEnv now with
    | Ok c => Ok c | Err e => Err (provider_failed role e)
    end in
  primary ←! create Primary (Config.dn_Primary cfg);
  fallback ←! match Config.dn_Fallback cfg with
              | None => Ok None
              | Some cfg' => c ←! create Fallback cfg'; Ok (Some c)
              end;
  Ok (primary, fallback, providerConfigHash cfg).

(** ** Notifiers *)

(** [registry.Create]. *)
Definition CreateNotifier (registry : gmap string notifier_factory) (type : string)
    (config : FactoryConfig (W := W)) : eff W (RegistryError + HookError) (Hook (W := W)) :=
  match Factory type registry with
  | Err e => efail (inl e)
  | Ok f => ewrap inr (f config)
  end.

Definition factoryConfig (destination : Config.DestinationConfig) (lookupEnv : Environment) (now : Clock)
    : FactoryConfig (W := W) :=
  {| fc_DestinationID := Config.de_ID destination; fc_Endpoint := Config.de_URL destination;
     fc_Secret := default "" (lookupEnv (Config.de_CredentialEnv destination));
     fc_Timeout := Config.de_Timeout destination;
     fc_MaxResponseBytes := Config.de_MaxResponseBytes destination;
     fc_MaxRetryAfter := Config.de_MaxRetryAfter destination;
     fc_AllowInsecureHTTP := Config.de_AllowInsecureHTTP destination; fc_AllowPrivateNetwork := false;
     fc_HTTPClient := None; fc_LookupIP := None; fc_Now := Some now |}.

(** The loop over the destinations. *)
Fixpoint createNotifiers (configs : list Config.DestinationConfig)
    (registry : gmap string notifier_factory) (lookupEnv : Environment) (now : Clock)
    : eff W BuildError (list (Hook (W := W))) :=
  match configs with
  | [] => eret []
  | destination :: configs =>
      notifier ←~ ewrap (destination_failed (Config.de_ID destination))
        (CreateNotifier registry (Config.de_Type destination) (factoryConfig destination lookupEnv now));
      notifiers ←~ createNotifiers configs registry lookupEnv now;
      eret (notifier :: notifiers)
  end.
Definition buildNotifiers (configs : list Config.DestinationConfig)
    (registry : gmap string notifier_factory) (lookupEnv : Environment) (now : Clock)
    : eff W BuildError (list (Hook (W := W)) * list string) :=
  notifiers ←~ createNotifiers configs registry lookupEnv now;
  eret (notifiers, sort_strings (map Config.de_ID configs)).

(** ** The normalizer *)

Fixpoint labelKeys (seen : list string) (selectors : list string) : list string :=
  match selectors with
  | [] => []
  | selector :: selectors =>
      let '(key, _, _) := cut "=" selector in
      if bool_decide (key ∈ seen) then labelKeys seen selectors
      else key :: labelKeys (key :: seen) selectors
  end.
Definition buildNormalizer (cfg : Config.Config) : Normalizer :=
  NewNormalizer
    {| no_ClusterID := Config.cc_ID (Config.cf_Cluster cfg);
       no_AllowedLabels := sort_strings (labelKeys [] (Config.rl_IgnoredLabels (Config.cf_Rules cfg)));
       no_MaxBytes := Config.cn_MaxNormalizedStateBytes (Config.cf_Controller cfg) |}.

(** ** The Kubernetes configuration *)

Definition loadRESTConfig : eff W string Rest := λ w,
  match pl_InClusterConfig w with
  | (Ok cfg, w) => (Ok cfg, w)
  | (Err _, w) =>
      let path := trim_space (default "" (pl_LookupEnv "KUBECONFIG")) in
      pl_ClientConfig (if path =s? "" then None else Some path) w
  end.

(** ** What validation leaves to fail *)

(** An absolute HTTPS URL for the parser. *)
Definition absolute_https (u : string) : Prop :=
  ∃ p, url_parse u = Some p ∧ u_Scheme p = "https" ∧ u_Host p ≠ "".
Definition default_urls : list string :=
  [openai.defaultURL; anthropic.defaultURL; openrouter.defaultURL; typesafe.defaultURL].

Definition effective_endpoint (f : ProviderConfig (W := W) (Ctx := Ctx)) (defaultURL : string) : string :=
  if trim_space (pf_Endpoint f) =s? "" then defaultURL else trim_space (pf_Endpoint f).
Definition credential_error : string := "provider credential is required".

(** With an endpoint, a model, a client and limits, the constructors of the
    clients refuse only a blank credential. *)
Lemma newCore_err now name defaultURL path model f m :
  absolute_https (effective_endpoint f defaultURL) → model ≠ "" → is_Some (pf_HTTPClient f) →
  0 < pf_MaxRequestBytes f → 0 < pf_MaxResponseBytes f →
  newCore now name defaultURL path model f = Err m →
  m = credential_error ∧ blank (pf_Credential f) = true.
Proof.
  intros (p & Hp & Hs & Hh) Hm [c Hc] Hrq Hrs. unfold newCore. fold (effective_endpoint f defaultURL).
  rewrite Hp, Hs, Hc. apply String.eqb_neq in Hh, Hm. rewrite Hh, Hm. cbn.
  destruct (blank (pf_Credential f)) eqn:Hb; [by intros [= <-]|].
  destruct (Z.leb_spec (pf_MaxRequestBytes f) 0); [lia|]. by destruct (Z.leb_spec (pf_MaxResponseBytes f) 0); [lia|].
Qed.
Lemma rmap_err {E A B} (f : A → B) (r : result E A) e : Providers.rmap f r = Err e ↔ r = Err e.
Proof. destruct r; cbn; naive_solver. Qed.

Section Validated.
Context (f : ProviderConfig (W := W) (Ctx := Ctx)).
Hypothesis Hmodel : blank (pf_Model f) = false.
Hypothesis Hclient : is_Some (pf_HTTPClient f).
Hypothesis Hrq : 0 < pf_MaxRequestBytes f.
Hypothesis Hrs : 0 < pf_MaxResponseBytes f.

Lemma structured_err now name defaultURL path protocol m :
  absolute_https (effective_endpoint f defaultURL) → name ≠ "" → Structured.knownProtocol protocol = true →
  Structured.New now {| Structured.sc_Name := name; Structured.sc_DefaultURL := defaultURL;
    Structured.sc_EndpointPath := path; Structured.sc_Protocol := protocol; Structured.sc_Factory := f |} = Err m →
  m = credential_error ∧ blank (pf_Credential f) = true.
Proof.
  intros Hu Hn Hp. unfold Structured.New. cbn. destruct (newCore _ _ _ _ _ _) as [core|e] eqn:He; cbn.
  - apply String.eqb_neq in Hn. by rewrite Hn, Hp.
  - intros [= <-]. eapply newCore_err; [exact Hu|..|exact He]; [|done..].
    intros Ht. unfold blank in Hmodel. by rewrite Ht in Hmodel.
Qed.
Lemma jev_err now mode defaultURL path model m :
  absolute_https (effective_endpoint f defaultURL) → model ≠ "" →
  (mode = Jev.ModeTypeSafe ∨ mode = Jev.ModeOpenRouter) →
  Jev.New now {| Jev.jc_Mode := mode; Jev.jc_EndpointPath := path; Jev.jc_DefaultURL := defaultURL;
    Jev.jc_DefaultModel := model; Jev.jc_Factory := f |} = Err m →
  m = credential_error ∧ blank (pf_Credential f) = true.
Proof.
  intros Hu Hn Hp. unfold Jev.New. cbn. destruct (newCore _ _ _ _ _ _) as [core|e] eqn:He; cbn.
  - by destruct Hp as [-> | ->].
  - intros [= <-]. eapply newCore_err; [exact Hu|..|exact He]; [|done..].
    by destruct (String.eqb_spec (trim_space (pf_Model f)) "").
Qed.
End Validated.

Lemma trimmed_type s t : (trim_space s =s? s) = true → trim_space s = t ↔ s = t.
Proof. intros ->%String.eqb_eq. done. Qed.
(** A provider type that passed validation is registered, and its adapter
    refuses at most the credential. *)
Lemma createProvider_err (registry : ProviderRegistry) notifiers cfg timeout lookupEnv now e :
  Forall absolute_https default_urls →
  NewProviderRegistry pl_time_Now = Ok registry →
  Config.validateProvider cfg (ConfigOptions (Some registry) notifiers (Some lookupEnv)) = Ok () →
  createProvider cfg timeout registry lookupEnv now = Err e →
  e = factory_error credential_error ∧ blank (default "" (lookupEnv (Config.ps_CredentialEnv cfg))) = true.
Proof.
  intros Hurls Hreg. unfold Config.validateProvider.
  rewrite !fail_if_ok, negb_false_iff, Config.str_in_elem, Config.unit_bind. intros (Hty & Hm & Hmode & _).
  apply elem_of_sortedKeys in Hty as [f Hf]. unfold createProvider, Create, Factory. rewrite Hf.
  destruct (f _) as [c|m] eqn:Hc; [done|]. intros [= <-]. set (config := providerConfig cfg timeout lookupEnv now) in *.
  enough (Hm' : m = credential_error ∧ blank (pf_Credential config) = true)
    by (destruct Hm' as [-> Hb]; split; [reflexivity|exact Hb]).
  unfold default_urls in Hurls. rewrite !Forall_cons in Hurls. destruct Hurls as (Ho & Ha & Hr & Ht & _).
  assert (Hfound : Factory (Config.ps_Type cfg) registry = Ok f) by (unfold Factory; by rewrite Hf).
  rewrite NewProviderRegistry_all in Hreg.
  destruct (registerAll_found _ _ _ _ _ Hreg Hfound) as [Hn|(ty & Hin & Hty)];
    [unfold Factory, NewRegistry in Hn; by rewrite lookup_empty in Hn|].
  clear Hreg Hfound Hf.
  assert (Hnative : Config.ps_Type cfg ≠ "openai-compatible" → ∀ u, effective_endpoint config u = u).
  { intros Hne u. apply String.eqb_neq in Hne. rewrite Hne, fail_if_ok, orb_false_iff, !negb_false_iff in Hmode.
    destruct Hmode as [[He _] _]. unfold effective_endpoint, blank in *.
    change (pf_Endpoint config) with (Config.ps_Endpoint cfg). by rewrite He. }
  unfold registrations in Hin. rewrite !elem_of_cons, elem_of_nil in Hin.
  destruct Hin as [[= -> ->]|[[= -> ->]|[[= -> ->]|[[= -> ->]|[[= -> ->]|[]]]]]];
    (rewrite trimmed_type in Hty by (vm_compute; reflexivity)); rewrite <- Hty in Hmode, Hnative.
  - apply rmap_err in Hc. eapply (structured_err config); [..|exact Hc]; try done. by rewrite Hnative.
  - cbn in Hmode. rewrite !fail_if_ok in Hmode. destruct Hmode as (Hu & Hmo & _).
    unfold newOpenAICompat in Hc. cbn in Hc. unfold openaicompat.ModeJSONSchema, openaicompat.ModeForcedTool in Hc.
    rewrite Hmo in Hc. apply rmap_err in Hc. eapply (structured_err config); [..|exact Hc]; try done.
    + unfold effective_endpoint. change (pf_Endpoint config) with (Config.ps_Endpoint cfg).
      destruct (url_parse _) as [u|] eqn:Hp; [|done].
      rewrite !orb_false_iff, negb_false_iff, String.eqb_eq, String.eqb_neq in Hu. destruct Hu as [[[[? ?] ?] ?] ?].
      destruct (String.eqb_spec (trim_space (Config.ps_Endpoint cfg)) "") as [He|He]; [|by exists u].
      rewrite He in Hp. by exists u.
    + by destruct (_ =s? _).
  - apply rmap_err in Hc. eapply (structured_err config); [..|exact Hc]; try done. by rewrite Hnative.
  - apply rmap_err in Hc. eapply (jev_err config); [..|exact Hc]; try done; [|by right]. by rewrite Hnative.
  - apply rmap_err in Hc. eapply (jev_err config); [..|exact Hc]; try done; [|by left]. by rewrite Hnative.
Qed.

(** The errors of the webhook that validation leaves: a destination name of
    blanks, a URL the two parsers read differently, and its host. *)
Definition outside_hook (e : HookError) : bool :=
  match e with
  | secret_required | timeout_not_positive | response_limit_not_positive | retry_after_not_positive
  | client_not_allowed => false
  | _ => true
  end.

Lemma webhookNew_ok c w hook w' : webhookNew c w = (Ok hook, w') →
  wh_name hook = fc_DestinationID c ∧ blank (fc_DestinationID c) = false.
Proof.
  unfold webhookNew, NewWebhook. intros (endpoint & w1 & Hc & Hw)%ebind_ok. unfold elift in Hc.
  injection Hc as Hc _. unfold checkConfig in Hc. rewrite fail_if_ok in Hc. destruct Hc as [Hb _].
  destruct (validateHost _ _ _ _) as [[e|] w2]; [done|]. apply guard_ok in Hw as [_ Hw]. by injection Hw as <- _.
Qed.
Lemma webhookNew_err c w e w' :
  fc_Secret c ≠ "" → 0 < fc_Timeout c → 0 < fc_MaxResponseBytes c → 0 < fc_MaxRetryAfter c →
  fc_HTTPClient c = None → webhookNew c w = (Err e, w') → outside_hook e = true.
Proof.
  intros Hs Ht Hr Ha Hcl. unfold webhookNew, NewWebhook, ebind, elift, checkConfig, checkEndpoint. rewrite Hcl.
  rewrite (proj2 (Z.eqb_neq (len (fc_Secret c)) 0)) by (by destruct (fc_Secret c)).
  destruct (Z.leb_spec (fc_Timeout c) 0); [lia|]. destruct (Z.leb_spec (fc_MaxResponseBytes c) 0); [lia|].
  destruct (Z.leb_spec (fc_MaxRetryAfter c) 0); [lia|].
  destruct (blank _); [by intros [= <- _]|]. destruct (url_parse _) as [u|]; [|by intros [= <- _]].
  destruct (u_Host u =s? ""); [by intros [= <- _]|]. destruct (u_HasUser u || _); [by intros [= <- _]|].
  destruct ((u_Scheme u ≠s? "https") && negb _); [by intros [= <- _]|].
  destruct ((u_Scheme u ≠s? "http") && _); [by intros [= <- _]|]. cbn.
  by destruct (validateHost _ _ _ _) as [[h|] w1]; intros [= <- _].
Qed.

Lemma NewNotifierRegistry_spec registry : NewNotifierRegistry = Ok registry → registry = {[ "webhook" := webhookNew ]}.
Proof. unfold NewNotifierRegistry, registerWebhook, notify_Register, Register. cbn. by intros [= <-]. Qed.

(** The notifiers carry the names of the destinations, none of them blank. *)
Lemma createNotifiers_ok registry configs lookupEnv now w hooks w' :
  NewNotifierRegistry = Ok registry → createNotifiers configs registry lookupEnv now w = (Ok hooks, w') →
  map wh_name hooks = map Config.de_ID configs ∧ Forall (λ d, blank (Config.de_ID d) = false) configs.
Proof.
  intros ->%NewNotifierRegistry_spec. revert w hooks w'. induction configs as [|d configs IH]; intros w hooks w'; cbn [createNotifiers].
  { intros [= <- _]. by split. }
  rewrite ebind_ok. intros (hook & w1 & Hhook & (rest & w2 & Hrest & Hret)%ebind_ok).
  injection Hret as <- _. destruct (IH _ _ _ Hrest) as [Hnames Hblank]. apply ewrap_ok in Hhook.
  unfold CreateNotifier, Factory in Hhook. destruct (_ !! _) as [f|] eqn:Hf; [|done]. apply lookup_singleton_Some in Hf as [_ <-].
  apply ewrap_ok, webhookNew_ok in Hhook as [Hn Hb]. cbn in *. split; [by rewrite Hn, Hnames|by constructor].
Qed.
Lemma createNotifiers_err parse registry providers configs lookupEnv now w e w' :
  NewNotifierRegistry = Ok registry →
  Forall (λ d, Config.checkDestination parse (ConfigOptions providers (Some registry) (Some lookupEnv)) d = Ok ()) configs →
  createNotifiers configs registry lookupEnv now w = (Err e, w') →
  ∃ id h, e = destination_failed id (inr h) ∧ outside_hook h = true.
Proof.
  intros Hreg Hall. revert w. induction Hall as [|d configs Hd _ IH]; intros w; cbn [createNotifiers]; [done|].
  unfold ebind, ewrap at 1. unfold Config.checkDestination in Hd.
  rewrite fail_if_ok, negb_false_iff, Config.str_in_elem in Hd. destruct Hd as [Hty Hd].
  apply elem_of_sortedKeys in Hty as [f Hf]. unfold CreateNotifier, Factory. cbn in Hf. rewrite Hf.
  rewrite (NewNotifierRegistry_spec _ Hreg) in Hf. apply lookup_singleton_Some in Hf as [_ <-].
  destruct (parse _) as [u|]; [|done]. rewrite !fail_if_ok, Config.unit_bind, !fail_if_ok, !Z.leb_gt in Hd.
  destruct Hd as (_ & _ & _ & Henv & Ht & Hr & Ha & _). unfold ewrap.
  destruct (webhookNew _ w) as [[hook|h] w1] eqn:Hhook.
  - destruct (createNotifiers configs _ _ _ _) as [[rest|e'] w2] eqn:Hrest; [done|]. intros [= <- <-]. by eapply IH.
  - intros [= <- <-]. eexists _, h. split; [done|]. eapply webhookNew_err; [..|exact Hhook]; try done; cbn.
    unfold Config.requireEnvironment in Henv. rewrite fail_if_ok in Henv. cbn in Henv. destruct Henv as [_ Henv].
    destruct (lookupEnv _) as [v|]; [|done]. by destruct (String.eqb_spec v "").
Qed.

(** The labels the normalizer keeps are those the rules ask for. *)
Definition selector_key (selector : string) : string := (cut "=" selector).1.1.
Lemma labelKeys_spec seen l k : k ∈ labelKeys seen l ↔ k ∉ seen ∧ k ∈ map selector_key l.
Proof.
  revert seen. induction l as [|s l IH]; intros seen; cbn [labelKeys map]; [rewrite elem_of_nil; naive_solver|].
  unfold selector_key at 1. destruct (cut "=" s) as [[key v] b]. cbn [fst].
  case_bool_decide; rewrite ?elem_of_cons, IH, ?elem_of_cons; [naive_solver congruence|].
  destruct (decide (k = key)); naive_solver congruence.
Qed.
Lemma buildNormalizer_labels cfg k :
  k ∈ nz_allowedLabels (buildNormalizer cfg) ↔
  k ∈ map selector_key (Config.rl_IgnoredLabels (Config.cf_Rules cfg)).
Proof.
  unfold buildNormalizer, NewNormalizer. cbn. rewrite elem_of_list_to_set, elem_of_sort_strings, labelKeys_spec, elem_of_nil.
  naive_solver.
Qed.

(** A selector whose key names a credential never selects anything: validation
    accepts it, but the normalizer drops the label. *)
Lemma sensitive_selector_ineffective (n : Normalizer) values selector s :
  IsSensitiveKey (selector_key selector) = true → sn_Labels s = Normalizer.labels n values →
  selects selector s = false.
Proof.
  unfold selector_key, selects. destruct (cut "=" selector) as [[key value] b]. cbn [fst]. intros Hs ->.
  destruct (Normalizer.labels n values !! key) as [v|] eqn:Hl; [|done].
  apply map_lookup_filter_Some in Hl as [_ [_ Hn]]. cbn in Hn. congruence.
Qed.
Example sensitive_selector_ex : IsSensitiveKey (selector_key "token-reviewer=true") = true.
Proof. reflexivity. Qed.
End Wiring.
