(* ===== verification/Production.v ===== *)
(** * Package [internal/app], [production.go]: starting the application

    [NewProduction] opens the store, builds every component from one
    configuration and hands them to the application as its runners; once the
    store is open, every failure closes it.  What a runner does is the subject
    of [Manager], [Reconciler], [Dispatcher], [Lifecycle] and [Health]; here it
    is a parameter, as is what the world does while the application runs. *)
From stdpp Require Import pretty.
From S2P Require Import Prelude GoBase Domain Rules Provider Decision Sha256 Signing Json GoNet Retry HttpClient Clients Registry Notifier Dispatcher Webhook Kube Redactor Normalizer Reconciler Providers Wiring.
From S2P Require Config Indexes Manager Lifecycle Health Telemetry.

Record ProductionOptions (W Ctx Rest : Type) := {
  po_ProviderRegistry : option (gmap string (Providers.factory (W := W) (Ctx := Ctx)));
  po_NotifierRegistry : option (gmap string (notifier_factory (W := W)));
  po_RESTConfig : option Rest; po_LookupEnv : option (string → option string);
  po_Hostname : option (eff W string string); po_Now : option (W → time * W)
}.
Arguments po_ProviderRegistry {W Ctx Rest}. Arguments po_NotifierRegistry {W Ctx Rest}.
Arguments po_RESTConfig {W Ctx Rest}. Arguments po_LookupEnv {W Ctx Rest}.
Arguments po_Hostname {W Ctx Rest}. Arguments po_Now {W Ctx Rest}.

Inductive ProductionError :=
  | register_providers (e : RegistryError) | register_notifiers (e : RegistryError)
  | invalid_configuration (e : string) | invalid_level
  | rest_config (e : string) | kubernetes_client (e : string)
  | store_new (e : Indexes.StoreNewError) | store_ready (e : Indexes.IndexError)
  | build_failed (e : BuildError)
  | reconciler_failed (e : ConfigError) | manager_failed (e : Manager.ManagerError) | sweeper_failed
  | hostname_failed (e : string) | hostname_empty
  | dispatcher_failed (e : DispatcherError) | app_failed (e : string)
  | close_failed (e : ProductionError) (what : string).

(** What the application runs. *)
Variant Runner (W Obj : Type) :=
  | ManagerRunner (m : Manager.Manager) (r : Reconciler W Obj)
  | SweeperRunner (s : ResolutionSweeper)
  | DispatcherRunner (d : Dispatcher W) (interval : duration)
  | HealthRunner (address : string) (routes : Z → Telemetry.Metrics → list (string * (Request → Health.http_reply))).
Arguments ManagerRunner {W Obj}. Arguments SweeperRunner {W Obj}.
Arguments DispatcherRunner {W Obj}. Arguments HealthRunner {W Obj}.

(** The application with its components, and the startup checks that are done. *)
Record Production (W Obj : Type) := {
  pd_reconciler : Reconciler W Obj; pd_normalizer : Normalizer; pd_manager : Manager.Manager;
  pd_sweeper : ResolutionSweeper; pd_dispatcher : Dispatcher W; pd_checks : Z;
  pd_app : Lifecycle.App W
}.
Arguments pd_reconciler {W Obj}. Arguments pd_normalizer {W Obj}. Arguments pd_manager {W Obj}.
Arguments pd_sweeper {W Obj}. Arguments pd_dispatcher {W Obj}. Arguments pd_checks {W Obj}.
Arguments pd_app {W Obj}.

Definition rwrap {E F A} (f : E → F) (r : result E A) : result F A :=
  match r with Ok a => Ok a | Err e => Err (f e) end.
Definition require {E A} (e : E) (o : option A) : result E A :=
  match o with Some a => Ok a | None => Err e end.

Definition sweepInterval (quiet : duration) : duration :=
  let interval := Z.quot quiet 2 in if 60 * second <? interval then 60 * second else interval.

Section Production.
Context {W Ctx Rest Kube Handle Conn O : Type} `{Platform W Ctx Rest Kube Handle Conn O}
  `{NetParsers} `{MapRange} `{Indexes.IndexDriver W}
  (parse_request_uri : string → option URL) (isQualifiedName isValidLabelValue : string → bool)
  (run_runner : Runner W (K8sObject O) → eff W Lifecycle.app_error unit).

Abbreviation Options := (ProductionOptions W Ctx Rest) (only parsing).
Abbreviation Application := (Production W (K8sObject O)) (only parsing).

(** [store.Close] as the application's closer. *)
Definition storeCloser (store : Handle) : eff W Lifecycle.app_error unit :=
  ewrap Lifecycle.ErrText (pl_Disconnect store).

(** [metrics.Handler()]. *)
Definition metricsHandler (metrics : Telemetry.Metrics) (request : Request) : Health.http_reply :=
  match Telemetry.serveHTTP pl_Quote pl_FormatFloat metrics request with
  | None => Health.method_not_allowed
  | Some lines => {| Health.hr_Status := 200; Health.hr_Allow := "";
                     Health.hr_Body := String.concat "" (map (λ line, line +:+ String "010" "") lines) |}
  end.
Definition healthRoutes (checks : Z) (metrics : Telemetry.Metrics) :=
  Health.NewHandler [Health.WithReadiness (Some checks); Health.WithMetrics (Some (metricsHandler metrics))].

Definition reconcilerConfig (cfg : Config.Config) (kube : Kube) (now : W → time * W)
    (primary : client (W := W) (Ctx := Ctx)) (fallback : option (client (W := W) (Ctx := Ctx)))
    (providerHash : string) (destinationIDs : list string) : ReconcilerConfig W (K8sObject O) :=
  let rules := Config.cf_Rules cfg in
  let engine := NewEngine
    {| CrashLoopRestartThreshold := Config.rl_CrashLoopRestartThreshold rules;
       CrashLoopCriticalThreshold := Config.rl_CrashLoopCriticalThreshold rules;
       MinimumAge := Config.rl_MinimumAge rules; EventQuietPeriod := Config.rl_EventQuietPeriod rules;
       IgnoredNamespaces := Config.rl_IgnoredNamespaces rules;
       IgnoredLabels := Config.rl_IgnoredLabels rules |} in
  let provider c := provider_of pl_ctx_err pl_with_timeout pl_sleep pl_time_Now pl_body_error c pl_Background in
  {| rc_ClusterID := Config.cc_ID (Config.cf_Cluster cfg); rc_Resolver := Some (Resolve (pl_get kube));
     rc_Normalizer := Some (Normalize pl_NestedSlice (buildNormalizer cfg));
     rc_Rules := Some (λ s previous w, Rules.Evaluate engine (pl_reads now w) s previous);
     rc_HasStore := true; rc_Primary := Some (provider primary); rc_Fallback := provider <$> fallback;
     rc_Composer := NewComposer; rc_ProviderConfigHash := providerHash; rc_Destinations := destinationIDs;
     rc_ReconcileTimeout := Config.cn_ReconcileTimeout (Config.cf_Controller cfg);
     rc_EventQuietPeriod := Config.rl_EventQuietPeriod rules; rc_Now := Some (λ w, (now w).1);
     rc_NewID := Some StableID; rc_Marshal := marshalSnapshot |}.

Definition managerConfig (cfg : Config.Config) : Manager.ManagerConfig :=
  {| Manager.mg_HasClient := true; Manager.mg_HasReconcile := true;
     Manager.mg_Namespaces := Config.cc_WatchNamespaces (Config.cf_Cluster cfg);
     Manager.mg_Resources := Config.cc_Resources (Config.cf_Cluster cfg);
     Manager.mg_Workers := Config.cn_Workers (Config.cf_Controller cfg) |}.

Definition dispatcherConfig (cfg : Config.Config) (notifiers : list (Hook (W := W))) (hostname : string)
    (now : W → time * W) : DispatcherConfig W :=
  let retry := Config.no_Retry (Config.cf_Notifications cfg) in
  {| dc_HasStore := true; dc_Notifiers := map (λ h, Some (hookNotifier pl_deliver_err pl_request_err h)) notifiers;
     dc_WorkerID := hostname +:+ "-" +:+ format_int pl_Getpid;
     dc_Workers := Config.cn_Workers (Config.cf_Controller cfg);
     dc_ClusterID := Config.cc_ID (Config.cf_Cluster cfg); dc_LeaseDuration := dispatchLeaseDuration;
     dc_MaxAttempts := Config.rt_MaxAttempts retry; dc_InitialBackoff := Config.rt_InitialBackoff retry;
     dc_MaxBackoff := Config.rt_MaxBackoff retry; dc_DeliveredExpiry := 0; dc_FailedExpiry := 0;
     dc_Now := Some now |}.

(** [NewProduction] from the point where the store is ready. *)
Definition buildComponents (cfg : Config.Config) (providerRegistry : gmap string (Providers.factory (W := W) (Ctx := Ctx)))
    (notifierRegistry : gmap string (notifier_factory (W := W))) (lookupEnv : string → option string)
    (hostnameOf : eff W string string) (now : W → time * W) (kube : Kube) (store : Handle)
    : eff W ProductionError Application :=
  built ←~ elift (rwrap build_failed (buildProviders (Config.cf_Decision cfg) providerRegistry lookupEnv now));
  let '(primary, fallback, providerHash) := built in
  notified ←~ ewrap build_failed (buildNotifiers (Config.no_Destinations (Config.cf_Notifications cfg))
                                    notifierRegistry lookupEnv now);
  let '(notifiers, destinationIDs) := notified in
  reconciler ←~ elift (rwrap reconciler_failed
    (NewReconciler (reconcilerConfig cfg kube now primary fallback providerHash destinationIDs)));
  manager ←~ elift (rwrap manager_failed (Manager.NewManager (pl_AddEventHandler kube) (managerConfig cfg)));
  sweeper ←~ elift (require sweeper_failed (NewResolutionSweeper true true (Config.cc_ID (Config.cf_Cluster cfg))
    (sweepInterval (Config.rl_EventQuietPeriod (Config.cf_Rules cfg)))));
  hostname ←~ ewrap hostname_failed hostnameOf;
  guard! blank hostname with hostname_empty;
  dispatcher ←~ elift (rwrap dispatcher_failed (NewDispatcher (dispatcherConfig cfg notifiers hostname now)));
  application ←~ elift (rwrap app_failed (Lifecycle.NewApp
    {| Lifecycle.ac_Runners := map (λ r, Some (run_runner r))
         [ManagerRunner manager reconciler; SweeperRunner sweeper;
          DispatcherRunner dispatcher dispatchPollInterval;
          HealthRunner (Config.ht_Address (Config.cf_HTTP cfg)) healthRoutes];
       Lifecycle.ac_Closers := [Some (storeCloser store)];
       Lifecycle.ac_ShutdownTimeout := shutdownTimeout |}));
  eret {| pd_reconciler := reconciler; pd_normalizer := buildNormalizer cfg; pd_manager := manager;
          pd_sweeper := sweeper; pd_dispatcher := dispatcher;
          pd_checks := Z.lor Health.configValidated Health.mongoReady; pd_app := application |}.

Definition errorsJoin (primary : ProductionError) (closeErr : option string) : ProductionError :=
  match closeErr with None => primary | Some what => close_failed primary what end.

(** [cleanup]: the store is closed when building fails. *)
Definition cleanup {A} (store : Handle) (build : eff W ProductionError A) : eff W ProductionError A := λ w,
  match build w with
  | (Ok a, w) => (Ok a, w)
  | (Err e, w) =>
      let '(closed, w) := pl_Disconnect store w in
      (Err (errorsJoin e (match closed with Ok _ => None | Err what => Some what end)), w)
  end.

(** [mongostore.New] and [Ready]; a store that is not ready is closed. *)
Definition openStore (cfg : Config.Config) (lookupEnv : string → option string) : eff W ProductionError Handle := λ w,
  let mongo := Config.cf_Mongo cfg in
  match Indexes.NewStore pl_Connect
          {| Indexes.mc_URI := default "" (lookupEnv (Config.mg_URIEnv mongo));
             Indexes.mc_Database := Config.mg_Database mongo;
             Indexes.mc_ConnectTimeout := Config.mg_Timeout mongo |} w with
  | (Err e, w) => (Err (store_new e), w)
  | (Ok store, w) =>
      match Indexes.store_Ready w with
      | (Ok _, w) => (Ok store, w)
      | (Err e, w) => let '(_, w) := pl_Disconnect store w in (Err (store_ready e), w)
      end
  end.

Definition NewProduction (cfg : Config.Config) (options : Options) : eff W ProductionError Application :=
  let lookupEnv := default pl_LookupEnv (po_LookupEnv options) in
  let hostnameOf := default pl_Hostname (po_Hostname options) in
  let now := default pl_time_Now (po_Now options) in
  providerRegistry ←~ elift match po_ProviderRegistry options with
                            | Some r => Ok r
                            | None => rwrap register_providers (NewProviderRegistry pl_time_Now)
                            end;
  notifierRegistry ←~ elift match po_NotifierRegistry options with
                            | Some r => Ok r
                            | None => rwrap register_notifiers NewNotifierRegistry
                            end;
  _ ←~ elift (rwrap invalid_configuration
    (Config.Validate parse_request_uri isQualifiedName isValidLabelValue cfg
       (ConfigOptions (Some providerRegistry) (Some notifierRegistry) (Some lookupEnv))));
  _ ←~ elift (require invalid_level (Telemetry.parseLevel (Config.cf_LoggingLevel cfg)));
  rest ←~ match po_RESTConfig options with Some r => eret r | None => ewrap rest_config loadRESTConfig end;
  kube ←~ elift (rwrap kubernetes_client (pl_NewForConfig rest));
  store ←~ openStore cfg lookupEnv;
  cleanup store (buildComponents cfg providerRegistry notifierRegistry lookupEnv hostnameOf now kube store).

(** ** Building from a valid configuration *)

(** The errors that an accepted configuration leaves: the outside world, a blank
    credential, a destination the webhook refuses, and a quiet period too short
    to halve. *)
Fixpoint outside_cause (e : ProductionError) : bool :=
  match e with
  | invalid_configuration _ | rest_config _ | kubernetes_client _ | store_new _ | store_ready _
  | hostname_failed _ | hostname_empty | sweeper_failed
  | manager_failed (Manager.manager_factory (Manager.register_failed _)) => true
  | build_failed (provider_failed _ (factory_error m)) => m =s? credential_error
  | build_failed (destination_failed _ (inr h)) => outside_hook h
  | close_failed e _ => outside_cause e
  | _ => false
  end.

Lemma elift_is {E A} (r : result E A) (w : W) x w' : elift r w = (x, w') ↔ r = x ∧ w = w'.
Proof. unfold elift. naive_solver. Qed.
(** A step of the code fails, or succeeds and the rest runs. *)
Lemma ebind_cases {E A B} (m : eff W E A) (k : A → eff W E B) w x w' :
  ebind m k w = (x, w') →
  (∃ e, m w = (Err e, w') ∧ x = Err e) ∨ ∃ a w1, m w = (Ok a, w1) ∧ k a w1 = (x, w').
Proof. unfold ebind. destruct (m w) as [[a|e] w1]; naive_solver. Qed.
Lemma ewrap_err {E F A} (f : E → F) (m : eff W E A) w e w' :
  ewrap f m w = (Err e, w') ↔ ∃ x, m w = (Err x, w') ∧ e = f x.
Proof. unfold ewrap. destruct (m w) as [[a|x] w1]; naive_solver. Qed.
Lemma rwrap_err {E F A} (f : E → F) (r : result E A) e : rwrap f r = Err e ↔ ∃ x, r = Err x ∧ e = f x.
Proof. unfold rwrap. destruct r; naive_solver. Qed.
Lemma rwrap_ok {E F A} (f : E → F) (r : result E A) a : rwrap f r = Ok a ↔ r = Ok a.
Proof. unfold rwrap. destruct r; naive_solver. Qed.

Lemma checkDestinations_complete prev l : StronglySorted String.le l → NoDup l →
  Forall (λ x, blank x = false) l → match prev with Some p => p ∉ l | None => True end →
  checkDestinations prev l = true.
Proof.
  revert prev. induction l as [|x l IH]; intros prev Hs Hnd Hb Hp; cbn; [done|].
  apply StronglySorted_inv in Hs as [Hs _]. apply NoDup_cons in Hnd as [Hx Hnd]. apply Forall_cons in Hb as [Hbx Hb].
  rewrite Hbx, (IH (Some x)) by done. destruct prev as [p|]; [|done]. cbn. rewrite andb_true_r, negb_true_iff, String.eqb_neq.
  intros ->. apply Hp, list_elem_of_here.
Qed.

Lemma addNotifiers_complete (l : list (Notifier W)) (m : gmap string (Notifier W)) :
  NoDup (map nf_Name l) → Forall (λ n, blank (nf_Name n) = false ∧ m !! nf_Name n = None) l →
  ∃ m', addNotifiers (map Some l) m = Ok m' ∧ dom m' = dom m ∪ list_to_set (map nf_Name l).
Proof.
  revert m. induction l as [|n l IH]; intros m Hnd Hall; cbn [map addNotifiers].
  { exists m. split; [done|]. cbn. set_solver. }
  apply Forall_cons in Hall as [[Hb Hn] Hall]. cbn in Hnd. apply NoDup_cons in Hnd as [Hx Hnd]. rewrite Hb, Hn.
  destruct (IH (<[nf_Name n := n]> m)) as (m' & Hm' & Hdom); [done| |].
  - rewrite Forall_forall in Hall |- *. intros n' Hin. destruct (Hall n' Hin) as [? ?]. split; [done|].
    rewrite lookup_insert_ne; [done|]. intros Heq. apply Hx. rewrite Heq. by apply list_elem_of_fmap_2.
  - exists m'. split; [done|]. rewrite Hdom, dom_insert_L. cbn. set_solver.
Qed.

(** The validation of the resources and of the informer factory agree. *)
Lemma selectResources_complete seen l : Config.checkResources seen l = Ok () →
  ∃ selected, Manager.selectResources seen l = Ok selected.
Proof.
  revert seen. induction l as [|r l IH]; intros seen; cbn [Config.checkResources Manager.selectResources]; [by eexists|].
  rewrite !fail_if_ok, negb_false_iff, Config.str_in_elem, Config.str_in_false. intros (_ & Hsup & Hn & Hl).
  destruct (IH _ Hl) as [selected Hsel].
  assert (Hs : is_Some (Manager.supportedResource (to_lower (trim_space r)))).
  { revert Hsup. unfold Config.supportedKubernetesResources. generalize (to_lower (trim_space r)). intros x.
    rewrite !elem_of_cons, elem_of_nil. intros [->|[->|[->|[->|[->|[->|[]]]]]]]; by eexists. }
  destruct Hs as [x ->]. rewrite bool_decide_eq_false_2, Hsel by done. by eexists.
Qed.
Lemma addHandlers_err add l e : Manager.addHandlers add l = Err e → ∃ r, e = Manager.register_failed r.
Proof.
  induction l as [|[f r] l IH]; cbn; [done|]. destruct (add f r); [done|]. intros [= <-]. by eexists.
Qed.
Lemma NewManager_err cfg add e :
  Config.checkCluster (Config.cf_Cluster cfg) = Ok () → 0 < Config.cn_Workers (Config.cf_Controller cfg) →
  Manager.NewManager add (managerConfig cfg) = Err e → outside_cause (manager_failed e) = true.
Proof.
  unfold Config.checkCluster. rewrite !fail_if_ok, Config.unit_bind, fail_if_ok. intros (_ & _ & _ & _ & Hne & Hr) Hw.
  unfold Manager.NewManager. cbn. destruct (Z.leb_spec (Config.cn_Workers (Config.cf_Controller cfg)) 0); [lia|].
  unfold Manager.NewInformerFactory, Manager.normalizeResources. rewrite Hne.
  destruct (selectResources_complete _ _ Hr) as [selected ->]. cbn.
  destruct (Manager.addHandlers _ _) as [[]|x] eqn:Ha; [done|]. cbn. intros [= <-].
  by apply addHandlers_err in Ha as [r ->].
Qed.

Lemma NewReconciler_total cfg kube now primary fallback hash :
  let ids := map Config.de_ID (Config.no_Destinations (Config.cf_Notifications cfg)) in
  blank (Config.cc_ID (Config.cf_Cluster cfg)) = false → NoDup ids → Forall (λ x, blank x = false) ids →
  0 < Config.cn_ReconcileTimeout (Config.cf_Controller cfg) → 0 < Config.rl_EventQuietPeriod (Config.cf_Rules cfg) →
  ∃ r, NewReconciler (reconcilerConfig cfg kube now primary fallback hash (sort_strings ids)) = Ok r ∧
    r_clusterID r = Config.cc_ID (Config.cf_Cluster cfg) ∧ r_destinations r ≡ₚ ids ∧
    sv_normalize (r_services r) = Normalize pl_NestedSlice (buildNormalizer cfg).
Proof.
  intros ids Hid Hnd Hb Ht Hq. unfold NewReconciler, reconcilerConfig.
  cbn [rc_Resolver rc_Normalizer rc_Rules rc_ClusterID rc_HasStore rc_Primary rc_Now rc_NewID rc_ReconcileTimeout
    rc_EventQuietPeriod rc_Destinations negb]. rewrite Hid. cbn [orb].
  destruct (Z.leb_spec (Config.cn_ReconcileTimeout (Config.cf_Controller cfg)) 0); [lia|].
  destruct (Z.leb_spec (Config.rl_EventQuietPeriod (Config.cf_Rules cfg)) 0); [lia|]. cbn [orb].
  assert (Hperm : sort_strings (sort_strings ids) ≡ₚ ids) by (unfold sort_strings; by rewrite !sort_slice_perm).
  rewrite checkDestinations_complete; [by eexists|apply sort_strings_sorted|by rewrite Hperm|by rewrite Hperm|done].
Qed.

(** Blank text consists of the bytes of white space. *)
Lemma all_chars_app p a b : all_chars p (a +:+ b) = all_chars p a && all_chars p b.
Proof. induction a as [|c a IH]; [done|]. cbn [all_chars String.app]. by rewrite <- andb_assoc, <- IH. Qed.
Lemma strip_all_chars p ps fuel s :
  (∀ r, r ∈ ps → all_chars p r = true) → all_chars p (strip_all fuel ps s) = true → all_chars p s = true.
Proof.
  intros Hps. revert s. induction fuel as [|fuel IH]; intros s; cbn [strip_all]; [done|].
  destruct (strip_one ps s) as [r|] eqn:Hs; [|done]. apply strip_one_some in Hs as (q & Hq & ->).
  intros Hr%IH. by rewrite all_chars_app, (Hps q Hq).
Qed.
Definition not_hyphen (c : ascii) : bool := negb (Ascii.eqb c "-"%char).
Lemma blank_chars s : blank s = true → all_chars not_hyphen s = true.
Proof.
  assert (Hrunes : ∀ r, r ∈ space_runes ++ map String.rev space_runes → all_chars not_hyphen r = true).
  { assert (Hall : forallb (all_chars not_hyphen) (space_runes ++ map String.rev space_runes) = true) by (by vm_compute).
    rewrite forallb_forall in Hall. intros r Hr. by apply Hall, list_elem_of_In. }
  intros Hb%String.eqb_eq. unfold trim_space, trim_right in Hb.
  apply (strip_all_chars _ space_runes (String.length s)); [intros r Hr; apply Hrunes, elem_of_app; by left|].
  fold (trim_left s). set (u := trim_left s) in *.
  assert (Hu : all_chars not_hyphen (String.rev u) = true).
  { eapply (strip_all_chars _ (map String.rev space_runes) (String.length u)).
    - intros r Hr. apply Hrunes, elem_of_app. by right.
    - apply (f_equal String.rev) in Hb. rewrite GoBase.rev_involutive in Hb. by rewrite Hb. }
  revert Hu. clear. induction u as [|c u IH]; [done|]. change (String c u) with (String c "" +:+ u).
  rewrite GoBase.rev_append, !all_chars_app, !andb_true_iff. intros [H1 H2]. split; [done|by apply IH].
Qed.
Lemma blank_worker hostname n : blank (hostname +:+ "-" +:+ n) = false.
Proof.
  apply not_true_iff_false. intros Hb%blank_chars. rewrite !all_chars_app in Hb.
  apply andb_true_iff in Hb as [_ Hb]. by apply andb_true_iff in Hb as [Hb _].
Qed.

Lemma NewDispatcher_total cfg hooks hostname now :
  let retry := Config.no_Retry (Config.cf_Notifications cfg) in
  blank (Config.cc_ID (Config.cf_Cluster cfg)) = false →
  NoDup (map wh_name hooks) → Forall (λ h, blank (wh_name h) = false) hooks →
  0 < Config.cn_Workers (Config.cf_Controller cfg) → 0 < Config.rt_MaxAttempts retry →
  0 < Config.rt_InitialBackoff retry ≤ Config.rt_MaxBackoff retry →
  ∃ d, NewDispatcher (dispatcherConfig cfg hooks hostname now) = Ok d ∧
    dp_clusterID d = Config.cc_ID (Config.cf_Cluster cfg) ∧ dom (dp_notifiers d) = list_to_set (map wh_name hooks).
Proof.
  intros retry Hid Hnd Hb Hw Hm Hbk. unfold NewDispatcher, dispatcherConfig.
  cbn [dc_HasStore dc_WorkerID dc_ClusterID dc_Workers dc_LeaseDuration dc_MaxAttempts dc_InitialBackoff dc_MaxBackoff
    dc_DeliveredExpiry dc_FailedExpiry dc_Now dc_Notifiers negb]. fold retry.
  rewrite blank_worker, Hid.
  destruct (Z.leb_spec (Config.cn_Workers (Config.cf_Controller cfg)) 0); [lia|].
  destruct (Z.leb_spec (Config.rt_MaxAttempts retry) 0); [lia|].
  destruct (Z.leb_spec (Config.rt_InitialBackoff retry) 0); [lia|].
  destruct (Z.ltb_spec (Config.rt_MaxBackoff retry) (Config.rt_InitialBackoff retry)); [lia|]. cbn [orb Z.leb Z.ltb].
  destruct (addNotifiers_complete (map (hookNotifier pl_deliver_err pl_request_err) hooks) ∅) as (m & Hm' & Hdom).
  - by rewrite map_map.
  - rewrite Forall_map. eapply Forall_impl; [exact Hb|]. intros h Hh'. split; [exact Hh'|apply lookup_empty].
  - rewrite map_map in Hm'. rewrite Hm'. eexists. split; [done|]. cbn. split; [done|]. rewrite Hdom, map_map. set_solver.
Qed.

(** The components of an application agree with each other. *)
Record consistent (cfg : Config.Config) (store : Handle) (p : Application) : Prop := {
  ct_cluster : Forall (λ id, id = Config.cc_ID (Config.cf_Cluster cfg))
    [r_clusterID (pd_reconciler p); nz_clusterID (pd_normalizer p); rs_clusterID (pd_sweeper p);
     dp_clusterID (pd_dispatcher p)];
  ct_normalizer : sv_normalize (r_services (pd_reconciler p)) = Normalize pl_NestedSlice (pd_normalizer p);
  ct_labels : ∀ selector, selector ∈ Config.rl_IgnoredLabels (Config.cf_Rules cfg) →
    selector_key selector ∈ nz_allowedLabels (pd_normalizer p);
  ct_destinations : ∀ id, id ∈ r_destinations (pd_reconciler p) ↔ is_Some (dp_notifiers (pd_dispatcher p) !! id);
  ct_configured : r_destinations (pd_reconciler p)
    ≡ₚ map Config.de_ID (Config.no_Destinations (Config.cf_Notifications cfg));
  ct_sweep : 0 < rs_interval (pd_sweeper p) ∧
    2 * rs_interval (pd_sweeper p) ≤ Config.rl_EventQuietPeriod (Config.cf_Rules cfg);
  ct_ready : Health.Ready (pd_checks p) = false ∧
    Health.Ready (Z.lor (pd_checks p) Health.informersSynced) = true;
  ct_app : length (Lifecycle.app_runners (pd_app p)) = 4%nat ∧
    Lifecycle.app_closers (pd_app p) = [storeCloser store]
}.

Section Valid.
Context (cfg : Config.Config) (providerRegistry : gmap string (Providers.factory (W := W) (Ctx := Ctx)))
  (notifierRegistry : gmap string (notifier_factory (W := W))) (lookupEnv : string → option string).
Hypothesis Hurls : Forall absolute_https default_urls.
Hypothesis Hproviders : NewProviderRegistry pl_time_Now = Ok providerRegistry.
Hypothesis Hnotifiers : NewNotifierRegistry = Ok notifierRegistry.
Hypothesis Hvalid : Config.Validate parse_request_uri isQualifiedName isValidLabelValue cfg
  (ConfigOptions (Some providerRegistry) (Some notifierRegistry) (Some lookupEnv)) = Ok ().

Lemma buildProviders_err now e :
  buildProviders (Config.cf_Decision cfg) providerRegistry lookupEnv now = Err e →
  outside_cause (build_failed e) = true.
Proof.
  apply Config.Validate_parts in Hvalid as (_ & _ & _ & _ & Hd & _ & _).
  unfold Config.checkDecision in Hd. rewrite !Config.unit_bind in Hd. destruct Hd as (Hp & Hf & _).
  unfold buildProviders. destruct (createProvider (Config.dn_Primary _) _ _ _ _) as [c|x] eqn:Hc; cbn.
  2:{ intros [= <-]. by apply (createProvider_err _ _ _ _ _ _ _ Hurls Hproviders Hp) in Hc as [-> _]. }
  destruct (Config.dn_Fallback _) as [f|]; [|done]. apply fail_if_ok in Hf as [_ Hf].
  destruct (createProvider f _ _ _ _) as [c'|x] eqn:Hc'; cbn; [done|]. intros [= <-].
  by apply (createProvider_err _ _ _ _ _ _ _ Hurls Hproviders Hf) in Hc' as [-> _].
Qed.

Lemma sweepInterval_spec quiet : 0 < quiet → 0 ≤ sweepInterval quiet ∧ 2 * sweepInterval quiet ≤ quiet.
Proof.
  intros Hq. unfold sweepInterval. rewrite Z.quot_div_nonneg by lia.
  pose proof (Z.mul_div_le quiet 2). pose proof (Z.div_pos quiet 2).
  destruct (Z.ltb_spec (60 * second) (quiet / 2)); unfold second in *; lia.
Qed.

(** What the constructors rely on. *)
Record settled : Prop := {
  sd_id : blank (Config.cc_ID (Config.cf_Cluster cfg)) = false;
  sd_cluster : Config.checkCluster (Config.cf_Cluster cfg) = Ok ();
  sd_ids : NoDup (map Config.de_ID (Config.no_Destinations (Config.cf_Notifications cfg)));
  sd_destinations : Forall (λ d, Config.checkDestination parse_request_uri
      (ConfigOptions (Some providerRegistry) (Some notifierRegistry) (Some lookupEnv)) d = Ok ())
    (Config.no_Destinations (Config.cf_Notifications cfg));
  sd_workers : 0 < Config.cn_Workers (Config.cf_Controller cfg);
  sd_timeout : 0 < Config.cn_ReconcileTimeout (Config.cf_Controller cfg);
  sd_quiet : 0 < Config.rl_EventQuietPeriod (Config.cf_Rules cfg);
  sd_attempts : 0 < Config.rt_MaxAttempts (Config.no_Retry (Config.cf_Notifications cfg));
  sd_backoff : 0 < Config.rt_InitialBackoff (Config.no_Retry (Config.cf_Notifications cfg))
    ≤ Config.rt_MaxBackoff (Config.no_Retry (Config.cf_Notifications cfg))
}.
Lemma valid_settled : settled.
Proof.
  pose proof Hvalid as (_ & Hcluster & Hcontroller & _ & _ & Hrules & Hnotify)%Config.Validate_parts.
  unfold Config.checkNotifications in Hnotify. rewrite !Config.unit_bind, !fail_if_ok, !Z.leb_gt, Z.ltb_ge in Hnotify.
  destruct Hnotify as (Hids & Hdest & Hma & Hib & Hmb & _). apply Config.checkIDs_ok in Hids as [Hnd _].
  apply Config.checkEach_ok in Hdest. unfold Config.checkController in Hcontroller.
  rewrite !fail_if_ok, !Z.leb_gt in Hcontroller. destruct Hcontroller as (Hw & Ht & _ & _).
  unfold Config.checkRules in Hrules. rewrite !fail_if_ok, !orb_false_iff, !Z.leb_gt in Hrules.
  destruct Hrules as (_ & [_ Hq] & _). constructor; try assumption; [|by split].
  unfold Config.checkCluster in Hcluster. rewrite fail_if_ok in Hcluster. by destruct Hcluster.
Qed.

Lemma buildComponents_spec hostnameOf now kube store w x w' :
  buildComponents cfg providerRegistry notifierRegistry lookupEnv hostnameOf now kube store w = (x, w') →
  match x with Ok p => consistent cfg store p | Err e => outside_cause e = true end.
Proof.
  destruct valid_settled as [Hid Hcluster Hnd Hdest Hw Ht Hq Hma Hbk].
  unfold buildComponents. intros [(e & He & ->)|([[primary fallback] hash] & w1 & _ & Hrun)]%ebind_cases.
  { apply elift_is in He as [(x' & He & ->)%rwrap_err _]. by eapply buildProviders_err. }
  unfold buildNotifiers in Hrun. apply ebind_cases in Hrun as [(e & He & ->)|([hooks ids] & w2 & Hn & Hrun)].
  { apply ewrap_err in He as (x' & He & ->). apply ebind_cases in He as [(y & He & [= ->])|(y & w3 & _ & He)]; [|done].
    destruct (createNotifiers_err _ _ _ _ _ _ _ _ _ Hnotifiers Hdest He) as (id & h & -> & Hh). exact Hh. }
  apply ewrap_ok, ebind_ok in Hn as (hooks' & w3 & Hn & Hret). injection Hret as <- <- _.
  apply (createNotifiers_ok _ _ _ _ _ _ _ Hnotifiers) in Hn as [Hnames Hblank].
  destruct (NewReconciler_total cfg kube now primary fallback hash Hid Hnd ltac:(by rewrite Forall_map) Ht Hq)
    as (r & Hr & Hrid & Hrdest & Hrnorm).
  apply ebind_cases in Hrun as [(e & He & ->)|(r' & w4 & Hr' & Hrun)].
  { apply elift_is in He as [(y & He & _)%rwrap_err _]. by rewrite Hr in He. }
  apply elift_is in Hr' as [Hr'%rwrap_ok _]. rewrite Hr in Hr'. injection Hr' as <-.
  apply ebind_cases in Hrun as [(e & He & ->)|(m & w5 & _ & Hrun)].
  { apply elift_is in He as [(y & He & ->)%rwrap_err _]. by eapply NewManager_err. }
  apply ebind_cases in Hrun as [(e & He & ->)|(s & w6 & Hs & Hrun)].
  { apply elift_is in He as [He _]. unfold require in He. destruct (NewResolutionSweeper _ _ _ _); [discriminate He|].
    injection He as <-. reflexivity. }
  assert (Hsweep : rs_clusterID s = Config.cc_ID (Config.cf_Cluster cfg) ∧ 0 < rs_interval s ∧
    2 * rs_interval s ≤ Config.rl_EventQuietPeriod (Config.cf_Rules cfg)).
  { apply elift_is in Hs as [Hs _]. unfold require, NewResolutionSweeper in Hs. rewrite Hid in Hs. cbn [negb orb] in Hs.
    destruct (Z.leb_spec (sweepInterval (Config.rl_EventQuietPeriod (Config.cf_Rules cfg))) 0); [done|].
    injection Hs as <-. cbn. split_and!; [done|done|by apply sweepInterval_spec]. }
  apply ebind_cases in Hrun as [(e & (y & He & ->)%ewrap_err & ->)|(h & w7 & _ & Hrun)]; [done|].
  destruct (blank h); [by injection Hrun as <- _|].
  destruct (NewDispatcher_total cfg hooks' h now Hid) as (d & Hd & Hdid & Hdom); [by rewrite Hnames| |done..|].
  { assert (Hb : Forall (λ x, blank x = false) (map wh_name hooks')) by (rewrite Hnames; by apply Forall_map).
    by rewrite Forall_map in Hb. }
  apply ebind_cases in Hrun as [(e & He & ->)|(d' & w8 & Hd' & Hrun)].
  { apply elift_is in He as [(y & He & _)%rwrap_err _]. by rewrite Hd in He. }
  apply elift_is in Hd' as [Hd'%rwrap_ok _]. rewrite Hd in Hd'. injection Hd' as <-.
  apply ebind_cases in Hrun as [(e & He & ->)|(app & w9 & Happ & Hrun)]; [by apply elift_is in He as [? _]|].
  apply elift_is in Happ as [Happ _]. injection Happ as <-. injection Hrun as <- _. destruct Hsweep as (Hsid & Hsi & Hsq).
  constructor; cbn [pd_reconciler pd_normalizer pd_manager pd_sweeper pd_dispatcher pd_checks pd_app].
  - by repeat constructor.
  - exact Hrnorm.
  - intros selector Hsel. apply buildNormalizer_labels. by apply list_elem_of_fmap_2.
  - intros id. rewrite <- elem_of_dom, Hdom, elem_of_list_to_set, Hnames. by rewrite Hrdest.
  - exact Hrdest.
  - by split.
  - by split; vm_compute.
  - by split.
Qed.
End Valid.

(** The registries of the options are the application's own. *)
Definition standard (options : Options) : Prop :=
  (∀ r, po_ProviderRegistry options = Some r → NewProviderRegistry pl_time_Now = Ok r) ∧
  (∀ r, po_NotifierRegistry options = Some r → NewNotifierRegistry = Ok r).

Lemma parseLevel_valid level :
  to_lower (trim_space level) ∈ ["debug"; "info"; "warn"; "error"] → is_Some (Telemetry.parseLevel level).
Proof.
  unfold Telemetry.parseLevel. generalize (to_lower (trim_space level)). intros l.
  rewrite !elem_of_cons, elem_of_nil. intros [->|[->|[->|[->|[]]]]]; by eexists.
Qed.

Lemma provider_registry_ok : is_ok (NewProviderRegistry (W := W) (Ctx := Ctx) pl_time_Now) = true.
Proof. vm_compute. reflexivity. Qed.

Lemma NewProduction_spec cfg options w x w' :
  Forall absolute_https default_urls → standard options → NewProduction cfg options w = (x, w') →
  match x with
  | Ok p => ∃ store, consistent cfg store p
  | Err e => outside_cause e = true
  end.
Proof.
  intros Hurls [Hps Hns]. unfold NewProduction.
  intros [(e & He & ->)|(providers & w1 & Hp & Hrun)]%ebind_cases.
  { apply elift_is in He as [He _]. destruct (po_ProviderRegistry options); [discriminate He|].
    pose proof provider_registry_ok as Hok. destruct (NewProviderRegistry pl_time_Now); discriminate. }
  apply elift_is in Hp as [Hp _]. assert (NewProviderRegistry pl_time_Now = Ok providers) as Hp'.
  { destruct (po_ProviderRegistry options) as [r|]; [injection Hp as <-; by apply Hps|by apply rwrap_ok in Hp]. }
  apply ebind_cases in Hrun as [(e & He & ->)|(notifiers & w2 & Hn & Hrun)].
  { apply elift_is in He as [He _]. destruct (po_NotifierRegistry options); discriminate He. }
  apply elift_is in Hn as [Hn _]. assert (NewNotifierRegistry = Ok notifiers) as Hn'.
  { destruct (po_NotifierRegistry options) as [r|]; [injection Hn as <-; by apply Hns|by apply rwrap_ok in Hn]. }
  apply ebind_cases in Hrun as [(e & He & ->)|([] & w3 & Hv & Hrun)].
  { by apply elift_is in He as [(y & _ & ->)%rwrap_err _]. }
  apply elift_is in Hv as [Hv%rwrap_ok _].
  apply ebind_cases in Hrun as [(e & He & ->)|(level & w4 & _ & Hrun)].
  { apply elift_is in He as [He _]. apply Config.Validate_parts in Hv as (Hl & _).
    destruct (parseLevel_valid _ Hl) as [l Hl']. rewrite Hl' in He. discriminate He. }
  apply ebind_cases in Hrun as [(e & He & ->)|(rest & w5 & _ & Hrun)].
  { destruct (po_RESTConfig options); [discriminate He|]. by apply ewrap_err in He as (y & _ & ->). }
  apply ebind_cases in Hrun as [(e & He & ->)|(kube & w6 & _ & Hrun)].
  { by apply elift_is in He as [(y & _ & ->)%rwrap_err _]. }
  apply ebind_cases in Hrun as [(e & He & ->)|(store & w7 & _ & Hrun)].
  { unfold openStore in He. destruct (Indexes.NewStore _ _ _) as [[s|y] w7]; [|by injection He as <- _].
    destruct (Indexes.store_Ready w7) as [[[]|y] w8]; [discriminate He|]. destruct (pl_Disconnect s w8). by injection He as <- _. }
  unfold cleanup in Hrun.
  destruct (buildComponents _ _ _ _ _ _ _ _ _) as [[p|e] w8] eqn:Hb;
    apply (buildComponents_spec _ _ _ _ Hurls Hp' Hn' Hv) in Hb.
  - injection Hrun as <- _. by exists store.
  - by destruct (pl_Disconnect store w8) as [[[]|what] w9]; injection Hrun as <- _.
Qed.


End Production.

(** ** Witnesses: a platform in memory *)

Module PlatformExample.
Export NetExample.
#[export] Existing Instance range_in_order.

(** The database and the open handles. *)
Record World := { xw_db : Indexes.IndexMemory.World; xw_held : gset positive }.
Definition on_db {A} (f : Indexes.IndexMemory.World → A * Indexes.IndexMemory.World) (w : World) : A * World :=
  let '(x, db) := f (xw_db w) in (x, {| xw_db := db; xw_held := xw_held w |}).
Lemma on_db_inv {A} (f : Indexes.IndexMemory.World → A * Indexes.IndexMemory.World) w x w' :
  on_db f w = (x, w') → f (xw_db w) = (x, xw_db w') ∧ xw_held w' = xw_held w.
Proof. unfold on_db. destruct (f (xw_db w)). by intros [= <- <-]. Qed.

#[local] Obligation Tactic := idtac.
#[export, program] Instance driver : Indexes.IndexDriver World := {
  Indexes.catalog w := Indexes.catalog (xw_db w);
  Indexes.Ping := on_db Indexes.Ping;
  Indexes.ListCollectionNames := on_db Indexes.ListCollectionNames;
  Indexes.CreateCollection name := on_db (Indexes.CreateCollection name);
  Indexes.ListIndexes name := on_db (Indexes.ListIndexes name);
  Indexes.CreateIndex name m := on_db (Indexes.CreateIndex name m)
}.
Next Obligation. intros w name. apply Indexes.catalog_names. Qed.
Next Obligation. intros w r w' [Hf _]%on_db_inv. by eapply Indexes.ping_spec. Qed.
Next Obligation. intros w r w' [Hf _]%on_db_inv. by eapply Indexes.list_collections_spec. Qed.
Next Obligation. intros name w r w' [Hf _]%on_db_inv. by eapply Indexes.create_collection_spec. Qed.
Next Obligation. intros name w r w' [Hf _]%on_db_inv. by eapply Indexes.list_indexes_spec. Qed.
Next Obligation. intros name m w r w' [Hf _]%on_db_inv. by eapply Indexes.create_index_spec. Qed.

Definition acquire (w : World) : result string positive * World :=
  let h := fresh (xw_held w) in (Ok h, {| xw_db := xw_db w; xw_held := {[ h ]} ∪ xw_held w |}).
Definition release (h : positive) (w : World) : result string unit * World :=
  (Ok (), {| xw_db := xw_db w; xw_held := xw_held w ∖ {[ h ]} |}).

#[export] Instance platform : Platform World unit unit unit positive unit unit := {
  pl_ctx_err _ _ := None; pl_with_timeout c _ _ := c; pl_sleep _ _ w := (None, w);
  pl_deliver_err _ := None; pl_request_err _ := None; pl_Background := tt;
  pl_time_Now w := (0, w); pl_reads now w _ := (now w).1; pl_LookupEnv _ := Some "value";
  pl_Hostname w := (Ok "node-1", w); pl_Getpid := 7; pl_Quote s := s; pl_FormatFloat _ := "0";
  pl_http_client _ _ _ w := (Err (other_error "unreachable"), w);
  pl_body_error _ := other_error "read"; pl_split_host_port a := Some (a, "443");
  pl_dial _ _ w := (Some (), w); pl_transport _ _ _ w := (None, w);
  pl_LookupIP _ w := (Some [Some [1; 1; 1; 1]], w);
  pl_InClusterConfig w := (Ok (), w); pl_ClientConfig _ w := (Ok (), w); pl_NewForConfig _ := Ok ();
  pl_get _ _ _ _ w := (Err api_not_found, w); pl_NestedSlice _ _ := Ok None;
  pl_AddEventHandler _ _ _ := true; pl_Connect _ _ := acquire; pl_Disconnect := release
}.

Definition config : Config.Config := {|
  Config.cf_Version := "v1alpha1";
  Config.cf_Cluster := {| Config.cc_ID := "c1"; Config.cc_ClusterWide := true; Config.cc_NamespaceOnly := false;
    Config.cc_WatchNamespaces := []; Config.cc_Resources := ["pods"; " Events "] |};
  Config.cf_Controller := {| Config.cn_Workers := 2; Config.cn_ReconcileTimeout := second;
    Config.cn_MaxNormalizedStateBytes := 4096 |};
  Config.cf_Mongo := {| Config.mg_URIEnv := "MONGO"; Config.mg_Database := "ruleraven"; Config.mg_Timeout := second |};
  Config.cf_Rules := {| Config.rl_CrashLoopRestartThreshold := 3; Config.rl_CrashLoopCriticalThreshold := 5;
    Config.rl_MinimumAge := second; Config.rl_EventQuietPeriod := 10 * second;
    Config.rl_IgnoredNamespaces := []; Config.rl_IgnoredLabels := ["team=infra"; "team=web"] |};
  Config.cf_Decision := {| Config.dn_Primary := {| Config.ps_Type := "openai"; Config.ps_Model := "gpt";
      Config.ps_CredentialEnv := "KEY"; Config.ps_Endpoint := ""; Config.ps_StrictMode := "" |};
    Config.dn_Fallback := None; Config.dn_Timeout := second |};
  Config.cf_Notifications := {| Config.no_Destinations := [
      {| Config.de_ID := "ops"; Config.de_Type := "webhook"; Config.de_URL := "https://hooks.example.com";
         Config.de_CredentialEnv := "SECRET"; Config.de_AllowInsecureHTTP := false; Config.de_Timeout := second;
         Config.de_MaxResponseBytes := 1024; Config.de_MaxRetryAfter := second |}];
    Config.no_Retry := {| Config.rt_MaxAttempts := 3; Config.rt_InitialBackoff := second;
      Config.rt_MaxBackoff := 10 * second |} |};
  Config.cf_HTTP := {| Config.ht_Address := ":8080"; Config.ht_ReadTimeout := second;
    Config.ht_WriteTimeout := second; Config.ht_IdleTimeout := second |};
  Config.cf_LoggingLevel := "info" |}.
Definition options (hostname : string) : ProductionOptions World unit unit := {|
  po_ProviderRegistry := None; po_NotifierRegistry := None; po_RESTConfig := None; po_LookupEnv := None;
  po_Hostname := Some (λ w, (Ok hostname, w)); po_Now := None |}.
Definition world : World := {| xw_db := Indexes.IndexMemory.empty; xw_held := ∅ |}.
Definition anything (_ : string) : bool := true.
Definition run_runner (_ : Runner World (K8sObject unit)) : eff World Lifecycle.app_error unit := eret ().
Definition started (hostname : string) :=
  NewProduction url_parse anything anything run_runner config (options hostname) world.
Lemma urls : Forall absolute_https default_urls.
Proof. repeat constructor; eexists; by split_and!. Qed.
Lemma standard_options hostname : standard (options hostname).
Proof. by split. Qed.
End PlatformExample.
Import PlatformExample.


