(* ===== verification/Main.v ===== *)
(** * [cmd/ruleraven/main.go]: the command, and what it leaves behind

    [run] parses the command line with the [flag] package, reads the
    configuration, starts the application and runs it.  The file system, the
    YAML decoder and what happens while the application runs are parameters.
    The theorem at the end joins the three owners of resources, [run],
    [NewProduction] and [App.Run]. *)
From stdpp Require Import pretty.
From S2P Require Import Prelude GoBase Domain Rules Provider Decision Sha256 Signing Json GoNet Retry HttpClient Clients Registry Notifier Dispatcher Webhook Kube Redactor Normalizer Reconciler Providers Wiring Production.
From S2P Require Config Indexes Manager Lifecycle Health Telemetry.

Definition defaultConfigPath : string := "/etc/ruleraven/config.yaml".

(** ** The command line *)

Variant FlagError := bad_flag_syntax | flag_undefined | flag_help | flag_needs_argument.

Definition first_is (c : ascii) (s : string) : bool :=
  match s with String d _ => Ascii.eqb d c | EmptyString => false end.

(** [flags.Parse] for the one flag [config]: its value and the other arguments. *)
Fixpoint parseFlags (args : list string) (config : string) : result FlagError (string * list string) :=
  match args with
  | [] => Ok (config, [])
  | s :: rest =>
      if (len s <? 2) || negb (first_is "-" s) then Ok (config, args)
      else if s =s? "--" then Ok (config, rest)
      else
        let name := if first_is "-" (str_drop 1 s) then str_drop 2 s else str_drop 1 s in
        fail_if! (name =s? "") || first_is "-" name || first_is "=" name with bad_flag_syntax;
        let '(name, value, hasValue) := cut "=" name in
        fail_if! (name =s? "help") || (name =s? "h") with flag_help;
        fail_if! name ≠s? "config" with flag_undefined;
        if (hasValue : bool) then parseFlags rest value
        else match rest with
             | [] => Err flag_needs_argument
             | value :: rest => parseFlags rest value
             end
  end.

Example parseFlags_ex :
  (parseFlags ["-config"; "a.yaml"] "d", parseFlags ["--config=b.yaml"; "x"; "-config"; "y"] "d",
   parseFlags ["-config"] "d", parseFlags ["-config="; "--"; "-h"] "d", parseFlags ["---config"] "d")
  = (Ok ("a.yaml", []), Ok ("b.yaml", ["x"; "-config"; "y"]), Err flag_needs_argument,
     Ok ("", ["-h"]), Err bad_flag_syntax).
Proof. reflexivity. Qed.

Variant RunError :=
  | flags_failed (e : FlagError) | unexpected_arguments (args : list string)
  | provider_registry_failed (e : RegistryError) | notifier_registry_failed (e : RegistryError)
  | open_failed (e : string) | load_failed (e : string) | close_config_failed (e : string)
  | initialize_failed (e : ProductionError) | application_failed (e : Lifecycle.app_error).

Section Main.
Context {W Ctx Rest Kube Handle Conn O : Type} `{Platform W Ctx Rest Kube Handle Conn O}
  `{NetParsers} `{MapRange} `{Indexes.IndexDriver W}
  (parse_request_uri : string → option URL) (isQualifiedName isValidLabelValue : string → bool)
  (run_runner : Runner W (K8sObject O) → eff W Lifecycle.app_error unit).
Context {Stream : Type} (os_Open : string → eff W string Handle) (os_Close : Handle → eff W string unit)
  (content : Handle → W → Stream)
  (yaml_config : Stream → result string (option (Config.Config * Stream)))
  (yaml_any : Stream → result string bool)
  (during : Lifecycle.App W → W → list Lifecycle.app_event * W).

Definition configPath (lookupEnv : string → option string) : string :=
  match lookupEnv "RULERAVEN_CONFIG" with
  | Some value => if blank value then defaultConfigPath else value
  | None => defaultConfigPath
  end.

(** The file is closed before the outcome of loading is looked at. *)
Definition loadConfig (path : string) (options : Config.ConfigOptions_) : eff W RunError Config.Config :=
  file ←~ ewrap open_failed (os_Open path);
  λ w,
    let loaded := Config.Load parse_request_uri isQualifiedName isValidLabelValue yaml_config yaml_any
                    (content file w) options in
    let '(closed, w) := os_Close file w in
    (cfg ←! rwrap load_failed loaded; _ ←! rwrap close_config_failed closed; Ok cfg, w).

(** [run] up to the call of [application.Run]. *)
Definition start (args : list string) (lookupEnv : string → option string)
    : eff W RunError (Production W (K8sObject O)) :=
  flags ←~ elift (rwrap flags_failed (parseFlags args (configPath lookupEnv)));
  let '(path, extra) := flags in
  guard! negb (Nat.eqb (length extra) 0) with unexpected_arguments extra;
  providerRegistry ←~ elift (rwrap provider_registry_failed (NewProviderRegistry pl_time_Now));
  notifierRegistry ←~ elift (rwrap notifier_registry_failed NewNotifierRegistry);
  cfg ←~ loadConfig path (ConfigOptions (Some providerRegistry) (Some notifierRegistry) (Some lookupEnv));
  ewrap initialize_failed
    (NewProduction parse_request_uri isQualifiedName isValidLabelValue run_runner cfg
       {| po_ProviderRegistry := Some providerRegistry; po_NotifierRegistry := Some notifierRegistry;
          po_RESTConfig := None; po_LookupEnv := Some lookupEnv; po_Hostname := None; po_Now := None |}).

(** [None] while the application runs. *)
Definition run (args : list string) (lookupEnv : string → option string) (w : W)
    : option (option RunError * W) :=
  match start args lookupEnv w with
  | (Err e, w) => Some (Some e, w)
  | (Ok p, w) =>
      let '(events, w) := during (pd_app p) w in
      match Lifecycle.App_Run (pd_app p) events w with
      | Some (err, w) => Some (option_map application_failed err, w)
      | None => None
      end
  end.

(** ** Resources *)

(** The handles that are open, and what the platform does to them: connecting and
    opening add a handle, disconnecting and closing remove it even when they
    report an error, and nothing else that is called here changes them. *)
Context `{Countable Handle} (held : W → gset Handle).

Definition keeps {E A} (m : eff W E A) : Prop := ∀ w x w', m w = (x, w') → held w' = held w.
Definition acquires {E} (m : eff W E Handle) : Prop := ∀ w x w', m w = (x, w') →
  match x with Ok h => h ∉ held w ∧ held w' = {[ h ]} ∪ held w | Err _ => held w' = held w end.
Definition releases {E} (m : Handle → eff W E unit) : Prop :=
  ∀ h w x w', m h w = (x, w') → held w' = held w ∖ {[ h ]}.
Class Resources : Prop := {
  connect_acquires uri timeout : acquires (pl_Connect uri timeout);
  disconnect_releases : releases pl_Disconnect;
  open_acquires path : acquires (os_Open path);
  close_releases : releases os_Close;
  hostname_keeps : keeps pl_Hostname;
  in_cluster_keeps : keeps pl_InClusterConfig;
  client_config_keeps path : keeps (pl_ClientConfig path);
  lookup_keeps host w x w' : pl_LookupIP host w = (x, w') → held w' = held w;
  ping_keeps : keeps Indexes.Ping;
  list_collections_keeps : keeps Indexes.ListCollectionNames;
  create_collection_keeps name : keeps (Indexes.CreateCollection name);
  list_indexes_keeps name : keeps (Indexes.ListIndexes name);
  create_index_keeps name m : keeps (Indexes.CreateIndex name m);
  during_keeps app w events w' : during app w = (events, w') → held w' = held w
}.
Context `{!Resources}.

Lemma keeps_eret {E A} (a : A) : keeps (eret (E := E) a).
Proof. by intros w x w' [= _ <-]. Qed.
Lemma keeps_efail {E A} (e : E) : keeps (efail (A := A) e).
Proof. by intros w x w' [= _ <-]. Qed.
Lemma keeps_elift {E A} (r : result E A) : keeps (elift r).
Proof. by intros w x w' [= _ <-]. Qed.
Lemma keeps_ewrap {E F A} (f : E → F) (m : eff W E A) : keeps m → keeps (ewrap f m).
Proof. intros Hm w x w'. unfold ewrap. destruct (m w) as [[a|e] w1] eqn:Hw; intros [= _ <-]; by eapply Hm. Qed.
Lemma keeps_ebind {E A B} (m : eff W E A) (k : A → eff W E B) :
  keeps m → (∀ a, keeps (k a)) → keeps (ebind m k).
Proof.
  intros Hm Hk w x w' [(e & Hw & _)|(a & w1 & Hw & Hrun)]%ebind_cases; [by eapply Hm|].
  rewrite (Hk _ _ _ _ Hrun). by eapply Hm.
Qed.
Lemma keeps_if {E A} (b : bool) (m n : eff W E A) : keeps m → keeps n → keeps (if b then m else n).
Proof. by destruct b. Qed.
Hint Resolve keeps_eret keeps_efail keeps_elift keeps_ewrap keeps_if hostname_keeps in_cluster_keeps
  client_config_keeps ping_keeps list_collections_keeps create_collection_keeps list_indexes_keeps
  create_index_keeps : keeps.

Lemma store_Ready_keeps : keeps Indexes.store_Ready.
Proof.
  assert (Heach : ∀ c cur req, keeps (Indexes.ensureEach c cur req)).
  { intros c cur req. induction req as [|s req IH]; cbn [Indexes.ensureEach]; [auto with keeps|].
    destruct (Indexes.byName _ _); [|apply keeps_if; [auto with keeps|]]; apply keeps_ebind; auto with keeps. }
  assert (Hall : ∀ existing names, keeps (Indexes.ensureCollections existing names)).
  { intros existing names. induction names as [|n names IH]; cbn [Indexes.ensureCollections]; [auto with keeps|].
    apply keeps_ebind; [destruct (bool_decide _); auto with keeps|]. intros _.
    apply keeps_ebind; [|auto]. apply keeps_ebind; auto with keeps. }
  apply keeps_ebind; [auto with keeps|]. intros _. apply keeps_ebind; auto with keeps.
Qed.

Lemma buildNotifiers_keeps configs registry lookupEnv now :
  NewNotifierRegistry = Ok registry → keeps (buildNotifiers configs registry lookupEnv now).
Proof.
  intros ->%NewNotifierRegistry_spec. apply keeps_ebind; [|auto with keeps].
  induction configs as [|d configs IH]; cbn [createNotifiers]; [auto with keeps|].
  apply keeps_ebind; [|intros h; apply keeps_ebind; auto with keeps]. apply keeps_ewrap.
  unfold CreateNotifier, Factory. destruct (_ !! _) as [f|] eqn:Hf; [|auto with keeps]. apply lookup_singleton_Some in Hf as [_ <-].
  apply keeps_ewrap, keeps_ebind; [auto with keeps|]. intros endpoint w x w'. unfold validateHost. cbn.
  destruct (blank _); [by intros [= _ <-]|]. destruct (pl_LookupIP _ w) as [[l|] w1] eqn:Hl;
    apply lookup_keeps in Hl; [|by intros [= _ <-]].
  destruct (Nat.eqb _ _); [by intros [= _ <-]|]. by destruct (existsb _ _); intros [= _ <-].
Qed.

Lemma buildComponents_keeps cfg providers notifiers lookupEnv now kube store :
  NewNotifierRegistry = Ok notifiers →
  keeps (buildComponents run_runner cfg providers notifiers lookupEnv pl_Hostname now kube store).
Proof.
  intros Hn. apply keeps_ebind; [auto with keeps|]. intros [[primary fallback] hash].
  apply keeps_ebind; [by apply keeps_ewrap, buildNotifiers_keeps|]. intros [hooks ids].
  repeat (apply keeps_ebind; [auto with keeps|intros ?]). apply keeps_if; [auto with keeps|].
  repeat (apply keeps_ebind; [auto with keeps|intros ?]). auto with keeps.
Qed.
Lemma buildComponents_closers cfg providers notifiers lookupEnv hostnameOf now kube store w p w' :
  buildComponents run_runner cfg providers notifiers lookupEnv hostnameOf now kube store w = (Ok p, w') →
  Lifecycle.app_closers (pd_app p) = [storeCloser store].
Proof.
  unfold buildComponents. intros ([[primary fallback] hash] & w1 & _ & Hrun)%ebind_ok.
  apply ebind_ok in Hrun as ([hooks ids] & w2 & _ & Hrun). do 4 apply ebind_ok in Hrun as (? & ? & _ & Hrun).
  apply guard_ok in Hrun as [_ Hrun]. apply ebind_ok in Hrun as (d & w3 & _ & Hrun).
  apply ebind_ok in Hrun as (app & w4 & Happ & Hrun). apply elift_is in Happ as [Happ _].
  injection Happ as <-. by injection Hrun as <- _.
Qed.

Lemma openStore_acquires cfg lookupEnv : acquires (openStore cfg lookupEnv).
Proof.
  intros w x w'. unfold openStore. destruct (Indexes.NewStore _ _ w) as [[store|e] w1] eqn:Hs; unfold Indexes.NewStore in Hs.
  - apply ebind_ok in Hs as ([] & w2 & Hv & Hs). apply elift_is in Hv as [_ <-].
    apply guard_ok in Hs as [_ Hs]. apply ewrap_ok, connect_acquires in Hs as [Hfresh Hheld].
    destruct (Indexes.store_Ready w1) as [[[]|e] w2] eqn:Hr; apply store_Ready_keeps in Hr.
    + intros [= <- <-]. by rewrite Hr.
    + destruct (pl_Disconnect store w2) as [d w3] eqn:Hd. apply disconnect_releases in Hd. intros [= <- <-].
      rewrite Hd, Hr, Hheld. set_solver.
  - intros [= <- <-]. apply ebind_cases in Hs as [(y & Hv & _)|([] & w2 & Hv & Hs)].
    { by eapply keeps_elift. }
    apply elift_is in Hv as [_ <-]. destruct (blank _); [by injection Hs as _ <-|].
    apply ewrap_err in Hs as (y & Hc & _). by apply connect_acquires in Hc.
Qed.

(** Whatever fails, the store does not stay open; on success it is what the
    application closes. *)
Lemma NewProduction_held cfg options w x w' :
  standard options → po_Hostname options = None →
  NewProduction parse_request_uri isQualifiedName isValidLabelValue run_runner cfg options w = (x, w') →
  match x with
  | Ok p => ∃ store, store ∉ held w ∧ held w' = {[ store ]} ∪ held w ∧
              Lifecycle.app_closers (pd_app p) = [storeCloser store]
  | Err _ => held w' = held w
  end.
Proof.
  intros [_ Hn] Hh. unfold NewProduction. rewrite Hh.
  intros [(e & He & ->)|(providers & w1 & Hp & Hrun)]%ebind_cases; [by eapply keeps_elift|].
  apply elift_is in Hp as [_ <-].
  apply ebind_cases in Hrun as [(e & He & ->)|(notifiers & w2 & Hns & Hrun)]; [by eapply keeps_elift|].
  apply elift_is in Hns as [Hns <-].
  assert (Hn' : NewNotifierRegistry = Ok notifiers).
  { destruct (po_NotifierRegistry options) as [r|]; [injection Hns as <-; by apply Hn|by apply rwrap_ok in Hns]. }
  do 2 (apply ebind_cases in Hrun as [(e & He & ->)|(? & ? & Hv & Hrun)]; [by eapply keeps_elift|];
    apply elift_is in Hv as [_ <-]).
  assert (Hrest : keeps match po_RESTConfig options with Some r => eret r | None => ewrap rest_config loadRESTConfig end).
  { destruct (po_RESTConfig options); [auto with keeps|]. apply keeps_ewrap. intros w1 y w2. unfold loadRESTConfig.
    destruct (pl_InClusterConfig w1) as [[r|e] w3] eqn:Hi; apply in_cluster_keeps in Hi; [by intros [= _ <-]|].
    intros Hc%client_config_keeps. by rewrite Hc. }
  apply ebind_cases in Hrun as [(e & He & ->)|(rest & w3 & Hr & Hrun)]; [by eapply Hrest|]. apply Hrest in Hr. rewrite <- Hr.
  apply ebind_cases in Hrun as [(e & He & ->)|(kube & w4 & Hk & Hrun)]; [by eapply keeps_elift|].
  apply elift_is in Hk as [_ <-].
  apply ebind_cases in Hrun as [(e & He%openStore_acquires & ->)|(store & w5 & [Hf Hs]%openStore_acquires & Hrun)]; [done|].
  unfold cleanup in Hrun. destruct (buildComponents _ _ _ _ _ _ _ _ _ w5) as [[p|e] w6] eqn:Hb;
    pose proof (buildComponents_keeps _ _ _ _ _ _ _ Hn' _ _ _ Hb) as Hk.
  - injection Hrun as <- <-. exists store. split_and!; [done|by rewrite Hk|by eapply buildComponents_closers].
  - destruct (pl_Disconnect store w6) as [d w7] eqn:Hd. apply disconnect_releases in Hd.
    assert (Hw7 : held w7 = held w3) by (rewrite Hd, Hk, Hs; clear -Hf; set_solver).
    by destruct d; injection Hrun as <- <-.
Qed.

Lemma loadConfig_keeps path options : keeps (loadConfig path options).
Proof.
  intros w x w' [(e & He & ->)|(file & w1 & Ho & Hrun)]%ebind_cases.
  { apply ewrap_err in He as (y & Ho & _). by apply open_acquires in Ho. }
  apply ewrap_ok, open_acquires in Ho as [Hf Hh]. destruct (os_Close file w1) as [c w2] eqn:Hc.
  apply close_releases in Hc. injection Hrun as _ <-. rewrite Hc, Hh. set_solver.
Qed.

(** C12: the command leaves nothing open.  Whatever goes wrong, from the command
    line over the configuration file, the store and the components to the
    runners and the final close, when [run] returns exactly the handles are open
    that were open when it was called: the configuration file was closed whether
    or not it could be loaded, a store that is not ready or whose components
    cannot be built was closed at once, and the store of an application that ran
    was closed after its runners. *)
Theorem run_releases args lookupEnv w err w' :
  run args lookupEnv w = Some (err, w') → held w' = held w.
Proof.
  unfold run. destruct (start args lookupEnv w) as [x w1] eqn:Hstart.
  assert (Hx : match x with
    | Ok p => ∃ store, store ∉ held w ∧ held w1 = {[ store ]} ∪ held w ∧ Lifecycle.app_closers (pd_app p) = [storeCloser store]
    | Err _ => held w1 = held w end).
  { unfold start in Hstart. apply ebind_cases in Hstart as [(e & He & ->)|([path extra] & w2 & Hf & Hrun)]; [by eapply keeps_elift|].
    apply elift_is in Hf as [_ <-]. destruct (negb _); [by injection Hrun as <- <-|].
    apply ebind_cases in Hrun as [(e & He & ->)|(providers & w3 & Hp & Hrun)]; [by eapply keeps_elift|].
    apply elift_is in Hp as [Hp%rwrap_ok <-].
    apply ebind_cases in Hrun as [(e & He & ->)|(notifiers & w4 & Hn & Hrun)]; [by eapply keeps_elift|].
    apply elift_is in Hn as [Hn%rwrap_ok <-].
    pose proof (loadConfig_keeps path (ConfigOptions (Some providers) (Some notifiers) (Some lookupEnv))) as Hload.
    apply ebind_cases in Hrun as [(e & He & ->)|(cfg & w5 & Hc & Hrun)]; [by eapply Hload|]. apply Hload in Hc. rewrite <- Hc.
    unfold ewrap in Hrun. destruct (NewProduction _ _ _ _ _ _ _) as [y w6] eqn:Hnp.
    apply NewProduction_held in Hnp; [|by split; intros r [= <-]|done].
    by destruct y; injection Hrun as <- <-. }
  destruct x as [p|e]; [|by intros [= _ <-]]. destruct Hx as (store & Hfresh & Hheld & Hcl).
  destruct (during (pd_app p) w1) as [events w2] eqn:Hd. apply during_keeps in Hd.
  destruct (Lifecycle.App_Run (pd_app p) events w2) as [[err' w3]|] eqn:Hrun; [|done]. intros [= _ <-].
  unfold Lifecycle.App_Run in Hrun. apply bind_Some in Hrun as (s & _ & Hrun).
  destruct (Lifecycle.runners_gone s); [|done]. injection Hrun as Hrun. rewrite Hcl in Hrun. cbn in Hrun.
  unfold storeCloser, ewrap in Hrun. destruct (pl_Disconnect store w2) as [d w4] eqn:Hdis.
  apply disconnect_releases in Hdis. assert (held w4 = held w) as <- by (rewrite Hdis, Hd, Hheld; set_solver).
  by destruct d; injection Hrun as _ <-.
Qed.
End Main.

(** ** Witness: a run that starts, ends with its context and closes the store *)

Module MainExample.
Export PlatformExample.

(** The file system and the YAML decoder know one configuration; the application
    runs until its context ends and its four runners return. *)
Definition during (_ : Lifecycle.App World) (w : World) : list Lifecycle.app_event * World :=
  (Lifecycle.ParentDone :: replicate 4 (Lifecycle.RunnerDone None (Some Canceled)), w).
Definition yaml_config (_ : unit) : result string (option (Config.Config * unit)) := Ok (Some (config, ())).
Definition yaml_any (_ : unit) : result string bool := Ok false.
Definition lookupEnv (_ : string) : option string := Some "value".
Definition finished :=
  run url_parse anything anything run_runner (λ _, acquire) release (λ _ _, ()) yaml_config yaml_any during
    ["--config=/tmp/c.yaml"] lookupEnv world.

Lemma fresh_held (w : World) x w' : acquire w = (x, w') →
  match x with Ok h => h ∉ xw_held w ∧ xw_held w' = {[ h ]} ∪ xw_held w | Err _ => xw_held w' = xw_held w end.
Proof. intros [= <- <-]. split; [apply is_fresh|done]. Qed.
#[export] Instance resources : Resources (λ _, acquire) release during xw_held.
Proof.
  split.
  - intros uri timeout. exact fresh_held.
  - by intros h w x w' [= _ <-].
  - intros path. exact fresh_held.
  - by intros h w x w' [= _ <-].
  - by intros w x w' [= _ <-].
  - by intros w x w' [= _ <-].
  - by intros path w x w' [= _ <-].
  - by intros host w x w' [= _ <-].
  - by intros w x w' [_ ?]%on_db_inv.
  - by intros w x w' [_ ?]%on_db_inv.
  - by intros name w x w' [_ ?]%on_db_inv.
  - by intros name w x w' [_ ?]%on_db_inv.
  - by intros name m w x w' [_ ?]%on_db_inv.
  - by intros app w events w' [= _ <-].
Qed.
End MainExample.
Import MainExample.

(** The run ends without an error. *)
Example run_ex : fst <$> MainExample.finished = Some None.
Proof. vm_compute. reflexivity. Qed.

Lemma run_releases_witness :
  ∃ err w', MainExample.finished = Some (err, w') ∧ PlatformExample.xw_held w' = ∅.
Proof.
  assert (Hsome : fst <$> MainExample.finished = Some None) by (vm_compute; reflexivity).
  destruct MainExample.finished as [[err w']|] eqn:Hrun; [|discriminate Hsome].
  exists err, w'. split; [reflexivity|].
  exact (run_releases _ _ _ _ _ _ _ _ _ _ PlatformExample.xw_held _ _ PlatformExample.world err w' Hrun).
Defined.
