(* ===== verification/Commands.v ===== *)
(** * The two commands: [main] of [cmd/ruleraven] and of [cmd/smoke-webhook]

    [flag.Parse] for any set of flags with values, the start of the webhook
    receiver, and the exit codes.  Listening and signals are left to the host:
    [smoke_main] ends where the receiver starts to serve. *)
From stdpp Require Import pretty.
From S2P Require Import Prelude GoBase GoDuration Json GoNet Receiver Main.

(** ** Package [flag] *)

(** Parsing a set of flags that all take a value: the flags that are [defined],
    and how one is assigned. *)
Section Flags.
Context {F : Type} (defined : string → bool) (set : string → string → F → result FlagError F).

Fixpoint parseFlagSet (args : list string) (flags : F) : result FlagError (F * list string) :=
  match args with
  | [] => Ok (flags, [])
  | s :: rest =>
      if (len s <? 2) || negb (first_is "-" s) then Ok (flags, args)
      else if s =s? "--" then Ok (flags, rest)
      else
        let name := if first_is "-" (str_drop 1 s) then str_drop 2 s else str_drop 1 s in
        fail_if! (name =s? "") || first_is "-" name || first_is "=" name with bad_flag_syntax;
        let '(name, value, hasValue) := cut "=" name in
        fail_if! (name =s? "help") || (name =s? "h") with flag_help;
        fail_if! negb (defined name) with flag_undefined;
        if (hasValue : bool) then flags ←! set name value flags; parseFlagSet rest flags
        else match rest with
             | [] => Err flag_needs_argument
             | value :: rest => flags ←! set name value flags; parseFlagSet rest flags
             end
  end.

(** Whatever a flag is set to satisfies what every single assignment keeps. *)
Lemma parseFlagSet_invariant (P : F → Prop) :
  (∀ name value flags flags', P flags → set name value flags = Ok flags' → P flags') →
  ∀ n args flags flags' extra, (length args ≤ n)%nat → P flags →
    parseFlagSet args flags = Ok (flags', extra) → P flags'.
Proof.
  intros Hset n. induction n as [|n IH]; intros args flags flags' extra Hn HP;
    destruct args as [|s rest]; cbn [parseFlagSet length] in *; try (by intros [= <- _]); [lia|].
  destruct (_ || negb (first_is "-" s)); [by intros [= <- _]|]. destruct (s =s? "--"); [by intros [= <- _]|].
  rewrite fail_if_ok. intros [_ Hr]. destruct (cut "=" _) as [[name value] hasValue].
  rewrite !fail_if_ok in Hr. destruct Hr as (_ & _ & Hr). destruct hasValue.
  - apply rbind_ok in Hr as (f1 & H1 & Hr). eapply IH; [|by eapply Hset|exact Hr]. lia.
  - destruct rest as [|v rest]; [done|].
    apply rbind_ok in Hr as (f1 & H1 & Hr). eapply IH; [|by eapply Hset|exact Hr]. cbn in Hn. lia.
Qed.
End Flags.

(** ** [cmd/smoke-webhook] *)

Record smokeFlags := { sf_address : string; sf_secretEnv : string; sf_window : duration }.
Definition defaultSmokeFlags : smokeFlags :=
  {| sf_address := ":9090"; sf_secretEnv := "WEBHOOK_SECRET"; sf_window := 5 * minute |}.
Definition smokeFlag (name : string) : bool :=
  (name =s? "address") || (name =s? "secret-env") || (name =s? "timestamp-window").
Definition setSmokeFlag (name value : string) (f : smokeFlags) : result FlagError smokeFlags :=
  if name =s? "address" then
    Ok {| sf_address := value; sf_secretEnv := sf_secretEnv f; sf_window := sf_window f |}
  else if name =s? "secret-env" then
    Ok {| sf_address := sf_address f; sf_secretEnv := value; sf_window := sf_window f |}
  else
    match ParseDuration value with
    | Err _ => Err bad_flag_syntax
    | Ok d => Ok {| sf_address := sf_address f; sf_secretEnv := sf_secretEnv f; sf_window := d |}
    end.

Record httpServer := {
  sv_Addr : string; sv_Handler : receiver; sv_ReadHeaderTimeout : duration; sv_ReadTimeout : duration;
  sv_WriteTimeout : duration; sv_IdleTimeout : duration
}.

Variant started := Serves (s : httpServer) | Exits (code : Z).

(** The process exits with 2 on a bad command line, with 0 when help is asked
    for, and with 1 when a check fails; an unset variable reads as empty. *)
Definition smoke_main (args : list string) (getenv : string → string) : started :=
  match parseFlagSet smokeFlag setSmokeFlag args defaultSmokeFlags with
  | Err flag_help => Exits 0
  | Err _ => Exits 2
  | Ok (flags, _) =>
      let secret := getenv (sf_secretEnv flags) in
      if secret =s? "" then Exits 1
      else if sf_window flags <=? 0 then Exits 1
      else Serves {| sv_Addr := sf_address flags; sv_Handler := newReceiver secret (sf_window flags);
                     sv_ReadHeaderTimeout := 5 * second; sv_ReadTimeout := 10 * second;
                     sv_WriteTimeout := 10 * second; sv_IdleTimeout := 30 * second |}
  end.

(** A receiver that serves has a secret and a positive window that fits in 64
    bits, and has seen nothing yet: none of its requests is refused for its own
    configuration. *)
Lemma smoke_main_serves args getenv s :
  smoke_main args getenv = Serves s →
  rv_secret (sv_Handler s) ≠ "" ∧ 0 < rv_window (sv_Handler s) ≤ int64_max ∧ rv_seen (sv_Handler s) = ∅.
Proof.
  unfold smoke_main. destruct (parseFlagSet _ _ _) as [[flags extra]|[]] eqn:Hp; try done.
  assert (Hw : is_int64 (sf_window flags)).
  { eapply (parseFlagSet_invariant smokeFlag setSmokeFlag (λ f, is_int64 (sf_window f))); [|done| |exact Hp]; [|by vm_compute].
    intros name value f f' Hf. unfold setSmokeFlag. destruct (name =s? _); [by intros [= <-]|].
    destruct (name =s? _); [by intros [= <-]|].
    destruct (ParseDuration value) as [d|] eqn:Hd; [|done]. intros [= <-]. by eapply ParseDuration_range. }
  destruct (String.eqb_spec (getenv (sf_secretEnv flags)) "") as [|Hs]; [done|].
  destruct (Z.leb_spec (sf_window flags) 0); [done|]. intros [= <-]. cbn. destruct Hw. done.
Qed.

Example smoke_main_examples :
  let getenv name := if name =s? "S" then "k" else "" in
  (smoke_main ["-secret-env"; "S"; "--timestamp-window=90s"; "x"] getenv,
   smoke_main ["-secret-env=S"; "-timestamp-window"; "0"] getenv, smoke_main [] getenv,
   smoke_main ["-timestamp-window=soon"] getenv, smoke_main ["-h"] getenv, smoke_main ["-address"] getenv) =
  (Serves {| sv_Addr := ":9090"; sv_Handler := newReceiver "k" (90 * second); sv_ReadHeaderTimeout := 5 * second;
             sv_ReadTimeout := 10 * second; sv_WriteTimeout := 10 * second; sv_IdleTimeout := 30 * second |},
   Exits 1, Exits 1, Exits 2, Exits 0, Exits 2).
Proof. vm_compute. reflexivity. Qed.

(** ** [cmd/ruleraven] *)

(** The command line of the controller is the one flag [config]. *)
Definition setConfigFlag (name value : string) (config : string) : result FlagError string := Ok value.
Lemma parseFlags_set args config : parseFlags args config = parseFlagSet (String.eqb "config") setConfigFlag args config.
Proof.
  assert (H : ∀ n args config, (length args ≤ n)%nat →
    parseFlags args config = parseFlagSet (String.eqb "config") setConfigFlag args config); [|by eapply H].
  clear. induction n as [|n IH]; intros args config Hn; destruct args as [|s rest]; cbn [length] in Hn; try done; [lia|].
  cbn [parseFlags parseFlagSet]. destruct (_ || negb _); [done|]. destruct (s =s? "--"); [done|].
  destruct (_ || first_is "=" _); [done|]. destruct (cut "=" _) as [[name value] hasValue].
  destruct (_ || (name =s? "h")); [done|]. rewrite (String.eqb_sym "config" name). destruct (name =s? "config"); [|done].
  cbn [negb]. destruct hasValue; [cbn [setConfigFlag rbind]; apply IH; lia|].
  destruct rest; [done|]. cbn [setConfigFlag rbind]. apply IH. cbn in Hn. lia.
Qed.

(** The exit code of [main] for the result of [run]. *)
Definition main_exit (result : option RunError) : Z := match result with Some _ => 1 | None => 0 end.
